(* ===== verification/_CoqProject ===== *)
-Q . S2P
Prelude.v
Foundation.v
Limits.v
Client.v
Identity.v
Lexer.v
Meta.v
MetaCache.v
Plan.v
Scan.v
Dml.v
Write.v
Txn.v
Pool.v
Worker.v
QuerySource.v
Mat.v
Config.v
Connect.v
Log.v
Schema.v
Adapter.v
Conn.v
DmlExec.v
Typing.v
Support.v
Extension.v
Probe.v
ProbeCases.v
ProbeSafe.v
