(* ===== verification/Prelude.v ===== *)
(** * VirtualMSSQL: a verified model of the SQLite extension

    VirtualMSSQL is a SQLite extension, written in C for Windows, that shows
    tables and queries of a Microsoft SQL Server as SQLite virtual tables.
    The host calls the hooks of the module in src/src/vms_vtab.c; these read
    the remote catalog, push constraints down into T-SQL statements, run them
    on connections of a pool through one worker thread per connection, and
    route writes and transactions.  This library translates the operations of
    the components into Rocq functions and step relations and proves what the
    components promise.

    ** Conventions

    Bytes and UTF-16 units are integers in [Z]; a C string is the list of its
    units before the terminator ([str] and [chr] give the units of a literal).
    Machine integers are [Z] with their wrap-around written out ([wrap_u32],
    [wrap_i64], ...), and [size_t] has the width of the class [Platform].
    Operations that the language leaves undefined, or that abort the process,
    are values of type [fault], and code that can reach one lives in the monad
    [cres].  Outcomes of allocations and answers of the driver are arguments.
    Code outside the repository is a class with the laws its documentation
    gives: [Platform], [WideConv], [StrictConv], [Win32Text], [FloatIO],
    [WCType], [SqlClient], [ScanEnv], [CacheDb] with [CacheDbLaws],
    [SnapshotStore] with [SnapshotLaws], [OdbcDriver] with [DriverLaws] and
    [ParamLaws].  Each is instantiated by a concrete function in the witnesses.
    Recursion is structural, or has a fuel that a theorem proves sufficient:
    [scan_loop] (rows + 2), [key_value] and [redact_loop] (length of the
    text + 1), [double_until] of the connection string accumulators (64
    doublings cover every [size_t]), the lexer (length of the source), the
    loops of the probe over answers of the driver (more than is pending, and 64
    for the bisection, whose interval is below 2^28).  Buffer capacities are
    those of the source.

    ** Files and components

    - [Prelude] (this file): faults, machine integers, strings, tactics.
    - [Foundation] (vms_foundation.c): checked arithmetic, bounded buffers with
      their heap block, FNV-1a fingerprints, text conversion.
    - [Limits] (vms_limits.c): the table of limits.
    - [Client] (vms_client.h, vms_error.h): values, column types, errors.
    - [Identity] (vms_identity.c): identifiers, quoting, identity tokens.
    - [Lexer] (vms_lexer.c): T-SQL lexer and query validator.
    - [Meta] (vms_meta.c): catalog statements, columns, stable key, triggers.
    - [MetaCache] (vms_meta_cache.c): payload codec and the metadata cache.
    - [Plan] (vms_plan.c): compilation of constraints to a plan, and of a plan
      to a statement.
    - [Scan] (vms_vtab.c, xBestIndex to xRowid): binding, leases, retry, rows.
    - [Dml] (vms_dml.c): texts of INSERT, UPDATE and DELETE.
    - [Write] (vms_vtab.c, xUpdate): the write context and the key stash.
    - [Txn] (vms_odbc_adapter.c transaction jobs, vms_vtab.c hooks): the
      transaction protocol as a step relation.
    - [Pool] (vms_pool.c): sequential operations and their interleaving.
    - [Worker] (vms_odbc_worker.c): the job queue, the worker thread, waiting
      clients and shutdown as a step relation.
    - [QuerySource] (vms_query_source.c): remote SELECTs as tables.
    - [Mat] (vms_mat.c): materialized snapshots.
    - [Config] (vms_connstr.c, vms_credentials.c): profiles, credential
      providers, connection strings.
    - [Connect] (vms_vtab.c, xConnect, xIntegrity): arguments, live and cached
      discovery, the declared schema.
    - [Log] (vms_log.c): redaction.
    - [Schema] (vms_schema.c): the schema inspection functions.
    - [Adapter] (vms_odbc_adapter.c): decoding of column data, fetching, the
      resources of a cursor, the full-scan statement.
    - [Conn] (vms_odbc_adapter.c): connections, their registry, cancellation,
      deadlines, quarantine, direct statements.
    - [DmlExec] (vms_odbc_adapter.c): execution of a parameterized statement.
    - [Typing]: the types of decoded values, across [Adapter] and [Meta].
    - [Support] (vms_capabilities.c, vms_odbc_probe.c, vms_faultalloc.c): host
      checks and the allocator that injects failures.
    - [Extension] (vms_extension.c): loading, the environment of the modules,
      the SQL functions and the provider registration.
    - [Probe], [ProbeCases], [ProbeSafe] (src/tools/vms-odbc-probe/src): the
      feasibility probe: report, command line and connection string; its groups
      of experiments as programs over the driver; their program logic.

    ** What the theorems show

    Reading.  A compiled plan consumes only constraints it can express and
    numbers its arguments for the host ([plan_compile_sound]); its statement is
    the text of an abstract query ([plan_sql_exact]); evaluating that query on
    the server and the remaining constraints in the host gives the rows of the
    unrestricted table that satisfy all constraints
    ([pushdown_preserves_rows], with the conditions under which the code
    achieves it); every placeholder gets one parameter
    ([filter_params_match]); columns are those of [scan_columns_correct], and
    [filter_releases_leases] and [filter_retries_once] bound what a filter
    holds and repeats.  The remote cursor, which the scans see as a sequence of
    results, is implemented by the adapter ([cursor_refines_rows]); values of
    any length are assembled from their chunks ([getdata_assembles]) and have
    the type their column declares ([fetched_rows_typed]); opening and closing
    is balanced ([cursor_lifecycle]).

    Writing.  The statements sent are those of a specification and every
    refusal is accounted for ([dml_statements_exact]); a statement runs once
    and with its parameters in order, or not at all ([dml_params_in_order]); the
    row a scan visited is the row the next statement names
    ([write_targets_row]).

    Transactions.  The protocol state agrees with the connection on every
    reachable state ([txn_protocol_invariant]); writes happen inside the
    transaction unless a BEGIN was refused ([txn_writes_inside]); commit and
    rollback report what happened ([txn_finalize_outcomes]).

    Metadata.  Identity tokens and cached columns survive encoding and
    decoding ([identity_roundtrip], [payload_roundtrip]); the stable key is the
    best candidate of the catalog ([stable_key_selects]).

    Connecting.  A connected table is well formed and returns its probe
    connections ([connect_sound]); the cached mode follows its fresh, stale
    and drift policy ([cached_metadata_policy]); a query is accepted exactly
    when it lexes to one SELECT without forbidden words and its description is
    well formed ([validator_spec], [query_source_spec]); a snapshot is
    published complete or not at all, and is published when nothing fails
    ([mat_all_or_nothing], [mat_build_succeeds]); a profile reads back, its
    values add no attribute to the connection string ([profile_roundtrip],
    [connstr_no_injection]); schema functions get their arguments by name
    ([schema_arguments_routed]); logged passwords are starred
    ([redact_hides_values]); loading the extension succeeds exactly when every
    function and module was accepted, and tables always find their environment
    ([ext_load_contract], [ext_env_live]).

    Concurrency.  The pool's counters account for every connection under all
    interleavings, and its operations refine the sequential ones
    ([pool_accounting], [pool_operations_refine]); one waiting client of a
    worker is always woken ([worker_single_no_lost_wakeup]), jobs run once and
    in order ([worker_fifo]), and a stop ends after the queue has been served
    ([worker_stop_terminates]); opening and closing, execution and quarantine
    of connections keep the registry and the handles consistent, and cancelling
    everything touches only live ones ([conn_open_close], [stmt_exec_destroy],
    [conn_quarantine], [cancel_all_safe]).

    The probe.  It ends with the exit code of its cases, stays inside its table
    and gives its handles back up to refused connections ([probe_run_safe]);
    the parameter ceiling it reports is the driver's ([probe_ceiling_exact]);
    its report is JSON ([probe_report_json]).

    Examples beside the theorems evaluate the model on inputs where the code
    departs from its documentation.

    ** What is not modelled

    The bodies of Windows, ODBC and SQLite routines; timing, except as an
    input; the one-time initialization of the connection registry; the tables
    of function pointers given to SQLite, beyond which hook is registered; the
    values of the codec experiment of the probe, of which types and lengths
    are kept; the test programs.  Threads interleave at the accesses to shared
    state that the sources guard or leave unguarded; weak memory is not
    considered. *)

From stdpp Require Export base tactics list numbers option strings.
From Stdlib Require Export ZArith Lia.

#[global] Open Scope Z_scope.

(** ** Scopes, hint databases *)

Declare Scope vms_scope.
Delimit Scope vms_scope with vms.

Create HintDb vms.
Create Rewrite HintDb vms_len.

(** ** Faults of C executions

    A step of the C code either returns or performs an operation that the
    language leaves undefined or that aborts the process.  The constructors
    name the ones the sources can reach. *)

Inductive fault : Type :=
| OobRead
| OobWrite
| DivOverflow
| DoubleFree
| UseAfterFree
| WildFree                            (* freeing an address that was never obtained *)
| UninitRead                          (* using an object that was never assigned *)
| InvalidParam.

Inductive cres (A : Type) : Type :=
| Ret (a : A)
| Fault (f : fault).
Arguments Ret {A} _.
Arguments Fault {A} _.

#[global] Instance cres_ret : MRet cres := fun A a => Ret a.
#[global] Instance cres_bind : MBind cres := fun A B k m =>
  match m with Ret a => k a | Fault f => Fault f end.

Definition no_fault {A} (m : cres A) : Prop := exists a, m = Ret a.

(** ** Tactics *)

(** Case analysis on every boolean test or match in the goal. *)
Ltac split_ifs :=
  repeat match goal with
    | |- context [if ?b then _ else _] =>
        lazymatch b with
        | context [if _ then _ else _] => fail
        | _ => let E := fresh "E" in destruct b eqn:E
        end
    end.

(** Turn boolean comparisons in the context into propositions. *)
Ltac b2p :=
  repeat match goal with
    | H : (_ && _)%bool = true |- _ => apply andb_prop in H; destruct H
    | H : (_ && _)%bool = false |- _ => apply andb_false_iff in H
    | H : (_ || _)%bool = true |- _ => apply orb_prop in H
    | H : (_ || _)%bool = false |- _ => apply orb_false_iff in H; destruct H
    | H : negb _ = true |- _ => apply negb_true_iff in H
    | H : negb _ = false |- _ => apply negb_false_iff in H
    | H : (_ =? _) = true |- _ => apply Z.eqb_eq in H
    | H : (_ =? _) = false |- _ => apply Z.eqb_neq in H
    | H : (_ <? _) = true |- _ => apply Z.ltb_lt in H
    | H : (_ <? _) = false |- _ => apply Z.ltb_ge in H
    | H : (_ <=? _) = true |- _ => apply Z.leb_le in H
    | H : (_ <=? _) = false |- _ => apply Z.leb_gt in H
    | H : (_ >? _) = true |- _ => rewrite Z.gtb_ltb in H
    | H : (_ >? _) = false |- _ => rewrite Z.gtb_ltb in H
    | H : (_ >=? _) = true |- _ => rewrite Z.geb_leb in H
    | H : (_ >=? _) = false |- _ => rewrite Z.geb_leb in H
    end.

Ltac blia := b2p; lia.

Lemma bind_ret_inv {A B} (m : cres A) (f : A -> cres B) b : m ≫= f = Ret b -> exists a, m = Ret a /\ f a = Ret b.
Proof. destruct m as [a|]; [|done]. intros H. by exists a. Qed.

(** Invert an equation [... = Ret _] down to the calls it is made of. *)
Ltac inv_ret :=
  repeat match goal with
    | H : _ ≫= _ = Ret _ |- _ => apply bind_ret_inv in H as (? & ? & H)
    | H : Ret _ = Ret _ |- _ => injection H as H; subst
    | H : Fault _ = Ret _ |- _ => discriminate
    | H : (let '(_, _) := ?p in _) = Ret _ |- _ => destruct p eqn:?
    | H : (if ?b then _ else _) = Ret _ |- _ => destruct b eqn:?
    | H : match ?m with _ => _ end = Ret _ |- _ => destruct m eqn:?
    | H : (_, _) = (_, _) |- _ => injection H as ?; subst
    end.

(** ** Machine integers *)

Definition INT64_MAX : Z := 2 ^ 63 - 1.
Definition INT64_MIN : Z := - 2 ^ 63.
Definition INT_MAX : Z := 2 ^ 31 - 1.

Definition in_i64 (z : Z) : Prop := INT64_MIN <= z <= INT64_MAX.
Definition in_u64 (z : Z) : Prop := 0 <= z < 2 ^ 64.
Definition in_u32 (z : Z) : Prop := 0 <= z < 2 ^ 32.
Definition in_u8 (z : Z) : Prop := 0 <= z < 256.

Definition wrap_u8 (z : Z) : Z := z mod 2 ^ 8.
Definition wrap_u32 (z : Z) : Z := z mod 2 ^ 32.
Definition wrap_u64 (z : Z) : Z := z mod 2 ^ 64.
Definition wrap_i32 (z : Z) : Z := (z + 2 ^ 31) mod 2 ^ 32 - 2 ^ 31.
Definition wrap_i64 (z : Z) : Z := (z + 2 ^ 63) mod 2 ^ 64 - 2 ^ 63.

(** [1u << i] as the x86 compilers emit it: the shift count is taken modulo
    32 (in the C standard a count of 32 or more is undefined). *)
Definition shl1_u32 (i : Z) : Z := wrap_u32 (Z.shiftl 1 (i mod 32)).

(** Signed 64-bit division: truncating, with the two trapping cases. *)
Definition div_i64 (a b : Z) : cres Z :=
  if (b =? 0) || ((a =? INT64_MIN) && (b =? -1)) then Fault DivOverflow
  else Ret (Z.quot a b).

(** The extension ships for Win32 and Win64: [size_t] has 32 or 64 bits. *)
Class Platform := {
  SIZE_MAX : Z;
  size_max_cases : SIZE_MAX = 2 ^ 32 - 1 \/ SIZE_MAX = 2 ^ 64 - 1
}.
Definition Win32 : Platform := {| SIZE_MAX := 2 ^ 32 - 1; size_max_cases := or_introl eq_refl |}.
Definition Win64 : Platform := {| SIZE_MAX := 2 ^ 64 - 1; size_max_cases := or_intror eq_refl |}.

Definition in_sz `{Platform} (z : Z) : Prop := 0 <= z <= SIZE_MAX.
Definition wrap_sz `{Platform} (z : Z) : Z := z mod (SIZE_MAX + 1).

Lemma size_max_pos `{Platform} : 4294967295 <= SIZE_MAX <= 18446744073709551615.
Proof. destruct size_max_cases as [-> | ->]; lia. Qed.

Lemma wrap_sz_small `{Platform} z : in_sz z -> wrap_sz z = z.
Proof. intros [? ?]. unfold wrap_sz. apply Z.mod_small. lia. Qed.

Lemma wrap_i64_small z : in_i64 z -> wrap_i64 z = z.
Proof. unfold in_i64, INT64_MIN, INT64_MAX, wrap_i64. intros. rewrite Z.mod_small; lia. Qed.

Lemma wrap_i64_range z : in_i64 (wrap_i64 z).
Proof.
  unfold in_i64, INT64_MIN, INT64_MAX, wrap_i64.
  pose proof (Z.mod_pos_bound (z + 2 ^ 63) (2 ^ 64) ltac:(lia)). lia.
Qed.

(** [wrap_i64] only depends on the value modulo 2^64. *)
Lemma wrap_i64_cong a b : a mod 2 ^ 64 = b mod 2 ^ 64 -> wrap_i64 a = wrap_i64 b.
Proof.
  intros E. unfold wrap_i64.
  rewrite <- (Z.add_mod_idemp_l a), <- (Z.add_mod_idemp_l b) by lia. by rewrite E.
Qed.

Lemma wrap_i64_mod z : wrap_i64 z mod 2 ^ 64 = z mod 2 ^ 64.
Proof.
  unfold wrap_i64. rewrite Zminus_mod_idemp_l. f_equal. lia.
Qed.

#[export] Hint Resolve wrap_sz_small wrap_i64_small wrap_i64_range : vms.

(** ** C strings

    A NUL-terminated buffer is the list of its code units without the
    terminator; a [char] is a [Z] below 256, a [wchar_t] a [Z] below 65536. *)

Definition str (s : string) : list Z :=
  map (fun a => Z.of_N (Ascii.N_of_ascii a)) (String.list_ascii_of_string s).

Definition chr (s : string) : Z := hd 0 (str s).

Definition zlen {A} (l : list A) : Z := Z.of_nat (length l).

Lemma zlen_nonneg {A} (l : list A) : 0 <= zlen l.
Proof. unfold zlen. lia. Qed.
Lemma zlen_nil {A} : zlen (@nil A) = 0.
Proof. done. Qed.
Lemma zlen_cons {A} (x : A) l : zlen (x :: l) = zlen l + 1.
Proof. unfold zlen. simpl. lia. Qed.
Lemma zlen_app {A} (l1 l2 : list A) : zlen (l1 ++ l2) = zlen l1 + zlen l2.
Proof. unfold zlen. rewrite length_app. lia. Qed.
#[export] Hint Rewrite @zlen_nil @zlen_cons @zlen_app : vms_len.
#[export] Hint Resolve zlen_nonneg : vms.

(** [*p] on a string suffix: the terminator reads as 0. *)
Definition peek (p : list Z) : Z := match p with [] => 0 | c :: _ => c end.

Definition bytes (s : list Z) : Prop := Forall in_u8 s.

(** No code unit of a C string is the terminator. *)
Definition cstring (s : list Z) : Prop := Forall (fun c => c <> 0) s.

(** [strcmp(a, b) == 0]. *)
Fixpoint str_eqb (a b : list Z) : bool :=
  match a, b with
  | [], [] => true
  | x :: a', y :: b' => (x =? y) && str_eqb a' b'
  | _, _ => false
  end.

Lemma str_eqb_eq a b : str_eqb a b = true <-> a = b.
Proof.
  revert b; induction a as [|x a IH]; intros [|y b]; simpl; split; try done.
  - intros [->%Z.eqb_eq ->%IH]%andb_prop. done.
  - intros [= -> ->]. rewrite Z.eqb_refl. by apply IH.
Qed.

Lemma str_eqb_refl a : str_eqb a a = true.
Proof. by apply str_eqb_eq. Qed.

(** ** Character classes of the C locale *)

Definition isdigit (c : Z) : bool := (48 <=? c) && (c <=? 57).
Definition isupper (c : Z) : bool := (65 <=? c) && (c <=? 90).
Definition islower (c : Z) : bool := (97 <=? c) && (c <=? 122).
Definition isalpha (c : Z) : bool := isupper c || islower c.
Definition isalnum (c : Z) : bool := isalpha c || isdigit c.
Definition isspace (c : Z) : bool := (c =? 32) || ((9 <=? c) && (c <=? 13)).
Definition tolower (c : Z) : Z := if isupper c then c + 32 else c.

(** [_stricmp(a, b) == 0]. *)
Definition stricmp_eq (a b : list Z) : bool := str_eqb (map tolower a) (map tolower b).

Lemma stricmp_eq_refl a : stricmp_eq a a = true.
Proof. apply str_eqb_refl. Qed.

Lemma stricmp_eq_sym a b : stricmp_eq a b = stricmp_eq b a.
Proof.
  unfold stricmp_eq. apply eq_iff_eq_true. rewrite !str_eqb_eq. split; congruence.
Qed.

(** [strncpy_s(dst, cap, src, _TRUNCATE)] and the truncating printf family
    keep the first [cap - 1] units. *)
Definition trunc_copy (cap : Z) (s : list Z) : list Z := take (Z.to_nat (cap - 1)) s.

Lemma trunc_copy_fits cap s : zlen s < cap -> trunc_copy cap s = s.
Proof. intros. unfold trunc_copy, zlen in *. rewrite take_ge; [done|lia]. Qed.

(** ** Prefixes *)

Fixpoint strip_prefix (pre s : list Z) : option (list Z) :=
  match pre, s with
  | [], _ => Some s
  | _ :: _, [] => None
  | x :: pre', y :: s' => if x =? y then strip_prefix pre' s' else None
  end.

Lemma strip_prefix_app pre s : strip_prefix pre (pre ++ s) = Some s.
Proof. induction pre as [|x pre IH]; simpl; [done|]. by rewrite Z.eqb_refl. Qed.

Lemma strip_prefix_Some pre s r : strip_prefix pre s = Some r <-> s = pre ++ r.
Proof.
  split; [|intros ->; apply strip_prefix_app].
  revert s; induction pre as [|x pre IH]; simpl; intros s; [by intros [= ->]|].
  destruct s as [|y s]; [done|]. destruct (x =? y) eqn:E; [|done].
  apply Z.eqb_eq in E as ->. intros ->%IH. done.
Qed.

(** ** Decimal numerals ([%lld], [%zu], [%ld]) *)

Fixpoint dec_digits (fuel : nat) (n : Z) (acc : list Z) : list Z :=
  match fuel with
  | O => acc
  | S f =>
      let acc' := (48 + n mod 10) :: acc in
      if n <? 10 then acc' else dec_digits f (n / 10) acc'
  end.

(** The fuel exceeds the number of bits, hence the number of digits. *)
Definition print_u (n : Z) : list Z := dec_digits (S (Z.to_nat (Z.log2 n))) n [].
Definition print_i (n : Z) : list Z := if n <? 0 then 45 :: print_u (- n) else print_u n.

Definition digit_step (a c : Z) : Z := a * 10 + (c - 48).

Lemma dec_digits_value fuel n acc :
  0 <= n < 10 ^ Z.of_nat fuel ->
  foldl digit_step 0 (dec_digits fuel n acc) = foldl digit_step n acc.
Proof.
  revert n acc; induction fuel as [|f IH]; intros n acc Hn.
  - simpl in *. by replace n with 0 by lia.
  - cbn [dec_digits]. destruct (n <? 10) eqn:E; b2p.
    + simpl. f_equal. unfold digit_step. rewrite Z.mod_small; lia.
    + rewrite IH.
      * simpl. f_equal. unfold digit_step. pose proof (Z.div_mod n 10). lia.
      * rewrite Nat2Z.inj_succ, Z.pow_succ_r in Hn by lia.
        split; [apply Z.div_pos; lia|]. apply Z.div_lt_upper_bound; lia.
Qed.

Lemma print_u_fuel n : 0 <= n -> n < 10 ^ Z.of_nat (S (Z.to_nat (Z.log2 n))).
Proof.
  intros Hn. destruct (Z.eq_dec n 0) as [->|].
  - simpl. lia.
  - rewrite Nat2Z.inj_succ, Z2Nat.id by apply Z.log2_nonneg.
    pose proof (Z.log2_spec n ltac:(lia)) as [_ ?].
    eapply Z.lt_le_trans; [done|]. apply Z.pow_le_mono_l. lia.
Qed.

Lemma print_u_value n : 0 <= n -> foldl digit_step 0 (print_u n) = n.
Proof.
  intros. unfold print_u. rewrite dec_digits_value; [done|].
  split; [done|by apply print_u_fuel].
Qed.

Lemma dec_digits_isdigit fuel n acc :
  0 <= n -> Forall (fun c => isdigit c = true) acc ->
  Forall (fun c => isdigit c = true) (dec_digits fuel n acc).
Proof.
  revert n acc; induction fuel as [|f IH]; intros n acc Hn Hacc; [done|].
  cbn [dec_digits].
  assert (isdigit (48 + n mod 10) = true).
  { pose proof (Z.mod_pos_bound n 10). unfold isdigit. apply andb_true_iff; split; apply Z.leb_le; lia. }
  destruct (n <? 10); [by constructor|].
  apply IH; [apply Z.div_pos; lia|by constructor].
Qed.

Lemma print_u_isdigit n : 0 <= n -> Forall (fun c => isdigit c = true) (print_u n).
Proof. intros. by apply dec_digits_isdigit. Qed.

Lemma dec_digits_nonempty fuel n acc : acc <> [] -> dec_digits fuel n acc <> [].
Proof.
  revert n acc; induction fuel as [|f IH]; intros n acc H; [done|].
  cbn [dec_digits]. destruct (n <? 10); [done|]. by apply IH.
Qed.

Lemma print_u_nonempty n : print_u n <> [].
Proof. unfold print_u. cbn [dec_digits]. destruct (n <? 10); [done|]. by apply dec_digits_nonempty. Qed.

(** Length of a numeral: at most [k] digits below 10^k. *)
Lemma dec_digits_length fuel n acc k :
  0 <= n < 10 ^ Z.of_nat k -> (0 < k)%nat ->
  (length (dec_digits fuel n acc) <= length acc + k)%nat.
Proof.
  revert n acc k; induction fuel as [|f IH]; intros n acc k Hn Hk; [simpl; lia|].
  cbn [dec_digits]. destruct (n <? 10) eqn:E; b2p; [simpl; lia|].
  destruct k as [|[|k]]; [lia|simpl in Hn; lia|].
  etransitivity; [apply (IH _ _ (S k))|simpl; lia]; [|lia].
  rewrite Nat2Z.inj_succ, Z.pow_succ_r in Hn by lia.
  split; [apply Z.div_pos; lia|]. apply Z.div_lt_upper_bound; lia.
Qed.

Lemma print_u_length n k :
  0 <= n < 10 ^ Z.of_nat k -> (0 < k)%nat -> (length (print_u n) <= k)%nat.
Proof. intros. unfold print_u. etransitivity; [by apply (dec_digits_length _ _ _ k)|simpl; lia]. Qed.

(** ** Splitting at a predicate *)

Fixpoint span (P : Z -> bool) (s : list Z) : list Z * list Z :=
  match s with
  | [] => ([], [])
  | c :: s' => if P c then let '(a, b) := span P s' in (c :: a, b) else ([], s)
  end.

Lemma span_app P s : fst (span P s) ++ snd (span P s) = s.
Proof.
  induction s as [|c s IH]; simpl; [done|]. destruct (P c); [|done].
  destruct (span P s) as [a b]; simpl in *. by rewrite IH.
Qed.

Lemma span_all P a b :
  Forall (fun c => P c = true) a -> match b with [] => True | c :: _ => P c = false end ->
  span P (a ++ b) = (a, b).
Proof.
  intros Ha Hb. induction a as [|c a IH]; simpl.
  - destruct b as [|c b]; simpl; [done|]. by rewrite Hb.
  - inversion Ha as [|?? Hc Ha']; subst. rewrite Hc, IH by done. done.
Qed.

Lemma span_length P s : (length (snd (span P s)) <= length s)%nat.
Proof.
  rewrite <- (span_app P s) at 2. rewrite length_app. lia.
Qed.
