(* ===== verification/Foundation.v ===== *)
(** * Foundation core (src/src/vms_foundation.c)

    Checked arithmetic, bounded byte buffers and the FNV-1a fingerprint, with
    the UTF conversion wrappers over the Win32 conversion routines.  Buffers
    are modelled with their heap block, so that writes outside it are faults
    and the contents of a block at the moment it is freed are observable. *)

From S2P Require Import Prelude.

Section CheckedArithmetic.
Context `{Platform}.

Definition vms_add_sz (a b : Z) : option Z :=
  if a >? SIZE_MAX - b then None else Some (wrap_sz (a + b)).

Definition vms_mul_sz (a b : Z) : option Z :=
  if negb (a =? 0) && (b >? SIZE_MAX / a) then None else Some (wrap_sz (a * b)).

Definition vms_add_i64 (a b : Z) : option Z :=
  if ((b >? 0) && (a >? INT64_MAX - b)) || ((b <? 0) && (a <? INT64_MIN - b)) then None
  else Some (wrap_i64 (a + b)).

(** The two divisions are C divisions: [INT64_MIN / -1] traps. *)
Definition vms_mul_i64 (a b : Z) : cres (option Z) :=
  if (a =? 0) || (b =? 0) then Ret (Some 0)
  else if (a =? -1) && (b =? INT64_MIN) then Ret None
  else if (b =? -1) && (a =? INT64_MIN) then Ret None
  else
    q1 ← div_i64 INT64_MAX b;
    if a >? q1 then Ret None
    else
      q2 ← div_i64 INT64_MIN b;
      if a <? q2 then Ret None else Ret (Some (wrap_i64 (a * b))).

Lemma vms_add_sz_spec a b :
  in_sz a -> in_sz b ->
  vms_add_sz a b = (if a + b <=? SIZE_MAX then Some (a + b) else None).
Proof.
  intros [? ?] [? ?]. unfold vms_add_sz. split_ifs; b2p; try lia; try done.
  rewrite wrap_sz_small; [done|]. split; lia.
Qed.

Lemma vms_mul_sz_spec a b :
  in_sz a -> in_sz b ->
  vms_mul_sz a b = (if a * b <=? SIZE_MAX then Some (a * b) else None).
Proof.
  intros [? ?] [? ?]. unfold vms_mul_sz.
  destruct (Z.eq_dec a 0) as [->|Hne].
  - simpl. pose proof size_max_pos. rewrite (proj2 (Z.leb_le 0 SIZE_MAX)) by lia.
    rewrite wrap_sz_small; [done|split; lia].
  - replace (a =? 0) with false by (symmetry; by apply Z.eqb_neq). simpl.
    pose proof (Z.mul_div_le SIZE_MAX a ltac:(lia)).
    pose proof (Z.mul_succ_div_gt SIZE_MAX a ltac:(lia)).
    destruct (b >? SIZE_MAX / a) eqn:E1, (a * b <=? SIZE_MAX) eqn:E2; b2p; try done; try nia.
    rewrite wrap_sz_small; [done|split; nia].
Qed.

Lemma vms_add_i64_spec a b :
  in_i64 a -> in_i64 b ->
  vms_add_i64 a b =
    (if (INT64_MIN <=? a + b) && (a + b <=? INT64_MAX) then Some (a + b) else None).
Proof.
  unfold in_i64. intros. unfold vms_add_i64.
  destruct ((INT64_MIN <=? a + b) && (a + b <=? INT64_MAX)) eqn:E2; split_ifs;
    unfold INT64_MIN, INT64_MAX in *; b2p; try done;
    try (exfalso; repeat match goal with Hx : _ \/ _ |- _ => destruct Hx end; blia).
  rewrite wrap_i64_small; [done|]. unfold in_i64, INT64_MIN, INT64_MAX. lia.
Qed.

(** Every negative multiplier is refused, except one operand on which the
    second guard divides [INT64_MIN] by -1. *)
Lemma mul_i64_negative a b :
  in_i64 a -> in_i64 b -> a <> 0 -> b < 0 ->
  vms_mul_i64 a b =
    (if (b =? -1) && (a =? - INT64_MAX) then Fault DivOverflow else Ret None).
Proof.
  unfold in_i64. intros Ha Hb Ha0 Hneg. unfold vms_mul_i64.
  replace ((a =? 0) || (b =? 0)) with false by (symmetry; apply orb_false_iff; split; apply Z.eqb_neq; lia).
  unfold div_i64. replace (b =? 0) with false by (symmetry; apply Z.eqb_neq; lia).
  replace (INT64_MAX =? INT64_MIN) with false by done.
  rewrite Z.eqb_refl. cbn [orb andb]. unfold mbind, cres_bind.
  destruct (b =? -1) eqn:Eb; b2p.
  - subst b. change (-1 =? INT64_MIN) with false. rewrite andb_false_r.
    change (Z.quot INT64_MAX (-1)) with (- INT64_MAX). cbn [andb].
    destruct (a =? INT64_MIN) eqn:Ea; b2p; [by subst|].
    destruct (a =? - INT64_MAX) eqn:Ea2; b2p.
    + subst. by rewrite Z.gtb_ltb, Z.ltb_irrefl.
    + replace (a >? - INT64_MAX) with true; [done|].
      symmetry. rewrite Z.gtb_ltb. apply Z.ltb_lt. unfold INT64_MIN, INT64_MAX in *. lia.
  - cbn [andb]. destruct ((a =? -1) && (b =? INT64_MIN)); [done|].
    assert (Z.quot INT64_MAX b <= 0 <= Z.quot INT64_MIN b) as [Hq1 Hq2].
    { split; unfold INT64_MIN, INT64_MAX; rewrite <- (Z.opp_involutive b).
      - rewrite Z.quot_opp_r by lia.
        pose proof (Z.quot_pos (2 ^ 63 - 1) (-b) ltac:(lia) ltac:(lia)). lia.
      - rewrite Z.quot_opp_opp by lia. apply Z.quot_pos; lia. }
    destruct (a >? Z.quot INT64_MAX b) eqn:E2; [done|].
    replace (a <? Z.quot INT64_MIN b) with true; [done|]. symmetry. apply Z.ltb_lt. blia.
Qed.

(** A positive multiplier is treated exactly. *)
Lemma mul_i64_positive a b :
  in_i64 a -> in_i64 b -> a <> 0 -> 0 < b ->
  vms_mul_i64 a b =
    (if (INT64_MIN <=? a * b) && (a * b <=? INT64_MAX) then Ret (Some (a * b)) else Ret None).
Proof.
  unfold in_i64. intros Ha Hb Ha0 Hb0. unfold vms_mul_i64.
  replace ((a =? 0) || (b =? 0)) with false by (symmetry; apply orb_false_iff; split; apply Z.eqb_neq; lia).
  unfold div_i64. replace (b =? 0) with false by (symmetry; apply Z.eqb_neq; lia).
  replace (b =? -1) with false by (symmetry; apply Z.eqb_neq; lia).
  replace (b =? INT64_MIN) with false by (symmetry; apply Z.eqb_neq; unfold INT64_MIN in *; lia).
  rewrite !andb_false_r. cbn [orb andb]. unfold mbind, cres_bind.
  rewrite (Z.quot_div_nonneg INT64_MAX b) by (unfold INT64_MAX; lia).
  assert (HM : Z.quot INT64_MIN b = - (2 ^ 63 / b)).
  { unfold INT64_MIN. rewrite Z.quot_opp_l by lia. rewrite Z.quot_div_nonneg; lia. }
  rewrite HM.
  pose proof (Z.mul_div_le INT64_MAX b Hb0). pose proof (Z.mul_succ_div_gt INT64_MAX b Hb0).
  pose proof (Z.mul_div_le (2 ^ 63) b Hb0). pose proof (Z.mul_succ_div_gt (2 ^ 63) b Hb0).
  unfold INT64_MIN, INT64_MAX in *.
  set (qM := (2 ^ 63 - 1) / b) in *. set (qm := 2 ^ 63 / b) in *.
  destruct (a >? qM) eqn:E1; [|destruct (a <? - qm) eqn:E2];
    destruct ((- 2 ^ 63 <=? a * b) && (a * b <=? 2 ^ 63 - 1)) eqn:E3; try done; b2p;
    try (exfalso; nia).
  rewrite wrap_i64_small; [done|]. unfold in_i64, INT64_MIN, INT64_MAX. nia.
Qed.

End CheckedArithmetic.

(** ** Bounded byte buffers *)

Record VmsBounded := mkBounded {
  data : option (list Z);
  cap : Z;
  len : Z
}.

Definition buf_null : VmsBounded := mkBounded None 0 0.

(** [memcpy] into a block, faulting outside it. *)
Definition write_bytes (mem : list Z) (off : Z) (src : list Z) : cres (list Z) :=
  if (0 <=? off) && (off + zlen src <=? zlen mem)
  then Ret (take (Z.to_nat off) mem ++ src ++ drop (Z.to_nat (off + zlen src)) mem)
  else Fault OobWrite.

Definition read_bytes (mem : list Z) (n : Z) : cres (list Z) :=
  if n <=? zlen mem then Ret (take (Z.to_nat n) mem) else Fault OobRead.

Definition zeros (n : Z) : list Z := replicate (Z.to_nat n) 0.

Section Buffers.
Context `{Platform}.
(** [alloc n] tells whether [HeapAlloc] of [n] bytes succeeds; [junk] is the
    value found in memory that was allocated without zeroing. *)
Variable alloc : Z -> bool.
Variable junk : Z.

(** [hook] is the outcome of the installed allocation-failure hook, [None]
    when no hook is installed. *)
Definition vms_buf_init (hook : option bool) (cap : Z) : bool * VmsBounded :=
  if cap =? 0 then (true, buf_null)
  else match vms_add_sz cap 1 with
       | None => (false, buf_null)
       | Some total =>
           if default false hook then (false, buf_null)
           else if alloc total then (true, mkBounded (Some (zeros total)) cap 0)
           else (false, buf_null)
       end.

(** The second component lists the blocks handed back to the heap, with
    their contents at that moment. *)
Definition vms_buf_free (b : VmsBounded) : cres (VmsBounded * list (list Z)) :=
  match data b with
  | None => Ret (mkBounded None 0 0, [])
  | Some d =>
      d' ← write_bytes d 0 (zeros (cap b));
      Ret (mkBounded None 0 0, [d'])
  end.

Definition vms_buf_append (b : option VmsBounded) (src : option (list Z)) :
    cres (bool * option VmsBounded) :=
  match b, src with
  | Some b', Some s =>
      match data b' with
      | None => Ret (false, b)
      | Some d =>
          if cap b' =? 0 then Ret (false, b)
          else match vms_add_sz (len b') (zlen s) with
               | None => Ret (false, b)
               | Some need =>
                   if need >? cap b' then Ret (false, b)
                   else
                     d1 ← write_bytes d (len b') s;
                     d2 ← write_bytes d1 need [0];
                     Ret (true, Some (mkBounded (Some d2) (cap b') need))
               end
      end
  | _, _ => Ret (false, b)
  end.

(** The growth step of [vms_buf_append_grow]: a block of at least [need]
    bytes, the old block wiped and freed. [None] is the failed allocation. *)
Definition grow (b : VmsBounded) (need : Z) : cres (option (VmsBounded * list (list Z))) :=
  if need >? cap b then
    let ncap := if cap b =? 0 then 4096 else cap b in
    let ncap := if ncap <? 4096 then 4096 else ncap in
    let ncap := if ncap <? need then need else ncap in
    if ncap >? SIZE_MAX - 1 then Ret None
    else if negb (alloc (ncap + 1)) then Ret None
    else
      let nd := replicate (Z.to_nat (ncap + 1)) junk in
      match data b with
      | None => Ret (Some (mkBounded (Some nd) ncap (len b), []))
      | Some d =>
          old ← read_bytes d (len b);
          nd' ← write_bytes nd 0 old;
          wiped ← write_bytes d 0 (zeros (cap b));
          Ret (Some (mkBounded (Some nd') ncap (len b), [wiped]))
      end
  else Ret (Some (b, [])).

Definition vms_buf_append_grow (b : option VmsBounded) (src : option (list Z)) :
    cres (bool * option VmsBounded * list (list Z)) :=
  match b, src with
  | Some b', Some s =>
      if (len b' >? 0) && bool_decide (data b' = None) then Ret (false, b, [])
      else if (cap b' >? 0) && bool_decide (data b' = None) then Ret (false, b, [])
      else match vms_add_sz (len b') (zlen s) with
           | None => Ret (false, b, [])
           | Some need =>
               g ← grow b' need;
               match g with
               | None => Ret (false, b, [])
               | Some (b1, freed) =>
                   match data b1 with
                   | None =>
                       if negb (alloc 4096) then Ret (false, Some b1, freed)
                       else
                         nd ← write_bytes (replicate 4096 junk) 0 [0];
                         d1 ← write_bytes nd (len b1) s;
                         d2 ← write_bytes d1 need [0];
                         Ret (true, Some (mkBounded (Some d2) 4095 need), freed)
                   | Some d =>
                       d1 ← write_bytes d (len b1) s;
                       d2 ← write_bytes d1 need [0];
                       Ret (true, Some (mkBounded (Some d2) (cap b1) need), freed)
                   end
               end
           end
  | _, _ => Ret (false, b, [])
  end.

Definition vms_buf_len (b : VmsBounded) : Z := len b.

(** *** Invariant and abstraction *)

(** What the buffer holds. *)
Definition used (b : VmsBounded) : list Z :=
  match data b with None => [] | Some d => take (Z.to_nat (len b)) d end.

Definition buf_ok (b : VmsBounded) : Prop :=
  match data b with
  | None => cap b = 0 /\ len b = 0
  | Some d =>
      0 < cap b /\ zlen d = cap b + 1 /\ cap b + 1 <= SIZE_MAX /\
      0 <= len b <= cap b /\ d !! Z.to_nat (len b) = Some 0
  end.

(** A freed block carries no byte of the data it held. *)
Definition wiped (b : VmsBounded) (blk : list Z) : Prop :=
  take (Z.to_nat (cap b)) blk = zeros (cap b).

(** *** Memory lemmas *)

Lemma write_bytes_spec mem off src mem' :
  write_bytes mem off src = Ret mem' ->
  zlen mem' = zlen mem /\
  take (Z.to_nat off) mem' = take (Z.to_nat off) mem /\
  take (Z.to_nat (off + zlen src)) mem' = take (Z.to_nat off) mem ++ src.
Proof.
  unfold write_bytes. destruct (_ && _) eqn:E; [|done]. b2p. intros [= <-].
  unfold zlen in *.
  assert (Hl : length (take (Z.to_nat off) mem) = Z.to_nat off) by (rewrite length_take; lia).
  split_and!.
  - rewrite !length_app, length_drop, Hl. lia.
  - by rewrite take_app_length' by done.
  - rewrite app_assoc. apply take_app_length'. rewrite length_app, Hl. lia.
Qed.

Lemma write_bytes_fits mem off src :
  0 <= off -> off + zlen src <= zlen mem -> exists mem', write_bytes mem off src = Ret mem'.
Proof.
  intros. unfold write_bytes.
  rewrite (proj2 (Z.leb_le _ _)), (proj2 (Z.leb_le _ _)) by done. eauto.
Qed.

Lemma zlen_zeros n : 0 <= n -> zlen (zeros n) = n.
Proof. intros. unfold zeros, zlen. rewrite length_replicate. lia. Qed.

(** Appending [s] and the terminator into a block that has room for both. *)
Lemma append_into d l s :
  0 <= l -> l + zlen s + 1 <= zlen d ->
  exists d1 d2,
    write_bytes d l s = Ret d1 /\ write_bytes d1 (l + zlen s) [0] = Ret d2 /\
    zlen d2 = zlen d /\ d2 !! Z.to_nat (l + zlen s) = Some 0 /\
    take (Z.to_nat (l + zlen s)) d2 = take (Z.to_nat l) d ++ s.
Proof.
  intros Hl Hfit. pose proof (zlen_nonneg s).
  destruct (write_bytes_fits d l s) as [d1 E1]; [lia..|].
  destruct (write_bytes_spec _ _ _ _ E1) as (L1 & _ & T1).
  destruct (write_bytes_fits d1 (l + zlen s) [0]) as [d2 E2]; [lia| |].
  { unfold zlen in *. simpl. lia. }
  destruct (write_bytes_spec _ _ _ _ E2) as (L2 & T2 & U2).
  exists d1, d2. split_and!; [done|done|congruence| |congruence].
  change (zlen [0]) with 1 in U2.
  assert (Hk : length (take (Z.to_nat (l + zlen s)) d1) = Z.to_nat (l + zlen s)).
  { rewrite length_take. unfold zlen in *. lia. }
  rewrite <- (lookup_take_lt d2 (Z.to_nat (l + zlen s + 1))) by lia.
  rewrite U2, lookup_app_r by lia. by rewrite Hk, Nat.sub_diag.
Qed.

Lemma zlen_used b : buf_ok b -> zlen (used b) = len b.
Proof.
  unfold buf_ok, used. destruct (data b) as [d|].
  - intros (? & ? & ? & ? & ?). unfold zlen in *. rewrite length_take. lia.
  - intros [_ ->]. done.
Qed.

Lemma buf_init_ok hook c :
  in_sz c -> buf_ok (snd (vms_buf_init hook c)) /\ used (snd (vms_buf_init hook c)) = [].
Proof.
  intros Hc. unfold vms_buf_init. destruct (c =? 0) eqn:E0; [done|]. b2p.
  pose proof size_max_pos. rewrite vms_add_sz_spec by (unfold in_sz in *; lia).
  destruct (c + 1 <=? SIZE_MAX) eqn:E1; [|done]. b2p. destruct Hc.
  destruct (default false hook); [done|]. destruct (alloc (c + 1)); [|done].
  unfold buf_ok, used; simpl. rewrite zlen_zeros by lia.
  split_and!; try lia; [|done]. unfold zeros. apply lookup_replicate. lia.
Qed.

Lemma grow_ok b need :
  buf_ok b -> len b <= need <= SIZE_MAX ->
  exists g, grow b need = Ret g /\
  match g with
  | None => need = SIZE_MAX \/ exists n, alloc n = false
  | Some (b1, freed) =>
      len b1 = len b /\ used b1 = used b /\ Forall (wiped b) freed /\
      cap b1 = (if need <=? cap b then cap b else Z.max (Z.max (cap b) 4096) need) /\
      (data b1 = None -> b1 = b /\ freed = [] /\ data b = None /\ need = 0) /\
      (forall d, data b1 = Some d -> 0 < cap b1 /\ zlen d = cap b1 + 1 /\ need <= cap b1 /\
         cap b1 + 1 <= SIZE_MAX)
  end.
Proof.
  intros Hok Hneed. unfold grow.
  destruct (need >? cap b) eqn:E; b2p; last first.
  { rewrite (proj2 (Z.leb_le need (cap b))) by lia. eexists; split; [done|]. cbn.
    unfold buf_ok in Hok. destruct (data b) as [d|] eqn:Ed; split_and!; try done; try lia.
    - intros ? [= <-]. lia.
    - intros _. split_and!; try done. lia. }
  rewrite (proj2 (Z.leb_gt need (cap b))) by lia.
  assert (0 <= cap b) by (unfold buf_ok in Hok; destruct (data b); lia).
  set (n1 := if cap b =? 0 then 4096 else cap b).
  set (n2 := if n1 <? 4096 then 4096 else n1).
  set (n3 := if n2 <? need then need else n2).
  assert (H3 : n3 = Z.max (Z.max (cap b) 4096) need).
  { unfold n3, n2, n1. split_ifs; blia. }
  assert (cap b + 1 <= SIZE_MAX).
  { pose proof size_max_pos. unfold buf_ok in Hok. destruct (data b); lia. }
  pose proof size_max_pos.
  destruct (n3 >? SIZE_MAX - 1) eqn:E3; b2p; [eexists; split; [done|left; lia]|].
  destruct (alloc (n3 + 1)) eqn:Ea; cbn [negb]; [|eexists; split; [done|right; by eexists]].
  set (nd := replicate (Z.to_nat (n3 + 1)) junk).
  assert (Hnd : zlen nd = n3 + 1) by (unfold nd, zlen; rewrite length_replicate; lia).
  unfold buf_ok in Hok. destruct (data b) as [d|] eqn:Ed.
  - destruct Hok as (Hc & Hd & Hs & Hl & Ht).
    unfold read_bytes. rewrite (proj2 (Z.leb_le (len b) (zlen d))) by lia. cbn [mbind cres_bind].
    assert (Hold : zlen (take (Z.to_nat (len b)) d) = len b).
    { unfold zlen in *. rewrite length_take. lia. }
    destruct (write_bytes_fits nd 0 (take (Z.to_nat (len b)) d)) as [nd' E1]; [lia..|].
    destruct (write_bytes_fits d 0 (zeros (cap b))) as [w E2]; [lia|rewrite zlen_zeros; lia|].
    rewrite E1. cbn [mbind cres_bind]. rewrite E2.
    destruct (write_bytes_spec _ _ _ _ E1) as (L1 & _ & T1).
    destruct (write_bytes_spec _ _ _ _ E2) as (L2 & _ & T2).
    eexists; split; [done|]. cbn. unfold used; rewrite Ed; cbn. split_and!; try done.
    + by rewrite Hold, Z.add_0_l in T1.
    + constructor; [|done]. unfold wiped. rewrite zlen_zeros, Z.add_0_l in T2 by lia. by rewrite T2.
    + intros ? [= <-]. lia.
  - destruct Hok as [Hc0 Hl0]. eexists; split; [done|]. cbn.
    unfold used; rewrite Ed, Hl0; cbn. split_and!; try done.
    intros ? [= <-]. lia.
Qed.

Lemma buf_free_ok b :
  buf_ok b ->
  exists freed, vms_buf_free b = Ret (buf_null, freed) /\ Forall (wiped b) freed.
Proof.
  intros Hok. unfold vms_buf_free, buf_ok in *. destruct (data b) as [d|]; [|by eexists].
  destruct Hok as (? & ? & ? & ? & ?).
  destruct (write_bytes_fits d 0 (zeros (cap b))) as [w E]; [lia|rewrite zlen_zeros; lia|].
  rewrite E. eexists; split; [done|]. constructor; [|done].
  destruct (write_bytes_spec _ _ _ _ E) as (_ & _ & T).
  rewrite zlen_zeros, Z.add_0_l in T by lia. by rewrite Z2Nat.inj_0 in T.
Qed.

(** Writing the new bytes at the end of a block with room for them. *)
Lemma commit_append b1 d s c need :
  data b1 = Some d -> need = len b1 + zlen s -> 0 <= len b1 -> need <= c -> 0 < c ->
  zlen d = c + 1 -> c + 1 <= SIZE_MAX ->
  exists d1 d2, write_bytes d (len b1) s = Ret d1 /\ write_bytes d1 need [0] = Ret d2 /\
    buf_ok (mkBounded (Some d2) c need) /\
    used (mkBounded (Some d2) c need) = used b1 ++ s.
Proof.
  intros Ed -> Hl Hn Hc Hd Hs. pose proof (zlen_nonneg s).
  destruct (append_into d (len b1) s) as (d1 & d2 & E1 & E2 & L2 & T2 & U2); [lia..|].
  exists d1, d2. split_and!; try done.
  - unfold buf_ok; simpl. split_and!; lia || done.
  - unfold used; simpl. by rewrite Ed.
Qed.

(** Appending to a buffer keeps the contents already there.  From a
    well-formed buffer the append never writes outside its block; it answers
    1 exactly when the bytes fit under the capacity, and then the buffer
    holds the old bytes followed by the new ones; otherwise the buffer is
    unchanged. *)
Theorem buf_append_refines b s :
  buf_ok b -> in_sz (zlen s) ->
  exists r b', vms_buf_append (Some b) (Some s) = Ret (r, Some b') /\ buf_ok b' /\
    cap b' = cap b /\ (if r then used b' = used b ++ s else b' = b) /\
    (r = true <-> data b <> None /\ zlen (used b) + zlen s <= cap b).
Proof.
  intros Hok Hs. pose proof (zlen_used b Hok) as Hu. rewrite Hu. unfold vms_buf_append.
  pose proof Hok as Hok'. unfold buf_ok in Hok'. destruct (data b) as [d|] eqn:Ed; last first.
  { exists false, b. split_and!; try done. split; [done|]. intros [? ?]. done. }
  destruct Hok' as (Hc & Hd & Hm & Hl & Ht).
  replace (cap b =? 0) with false by (symmetry; apply Z.eqb_neq; lia).
  rewrite vms_add_sz_spec by (unfold in_sz in *; lia).
  destruct (len b + zlen s <=? SIZE_MAX) eqn:E1; b2p; last first.
  { exists false, b. split_and!; try done. split; [done|]. lia. }
  destruct (len b + zlen s >? cap b) eqn:E2; b2p.
  { exists false, b. split_and!; try done. split; [done|]. lia. }
  destruct (commit_append b d s (cap b) (len b + zlen s)) as (d1 & d2 & W1 & W2 & O & U);
    try done; try lia.
  rewrite W1. cbn [mbind cres_bind]. rewrite W2. cbn [mbind cres_bind].
  eexists true, _. split_and!; try done.
Qed.

(** The growing append.  From a well-formed buffer it never faults; when
    it answers 1 the buffer is well formed and holds the old bytes followed by
    the new ones, when it answers 0 nothing changed, and it cannot answer 0
    while allocations succeed and the total length fits a [size_t].  A block
    given back to the heap had its [cap] bytes zeroed first. *)
Theorem buf_append_grow_refines b s :
  buf_ok b -> in_sz (zlen s) ->
  exists r b' freed,
    vms_buf_append_grow (Some b) (Some s) = Ret (r, Some b', freed) /\
    buf_ok b' /\ Forall (wiped b) freed /\
    (if r then used b' = used b ++ s else b' = b /\ freed = []) /\
    ((forall n, alloc n = true) -> zlen (used b) + zlen s < SIZE_MAX -> r = true).
Proof.
  intros Hok Hs. pose proof (zlen_used b Hok) as Hu. rewrite Hu. unfold vms_buf_append_grow.
  assert (Hg : bool_decide (data b = None) = true -> cap b = 0 /\ len b = 0).
  { unfold buf_ok in Hok. destruct (data b); [by rewrite bool_decide_eq_true|done]. }
  destruct ((len b >? 0) && _) eqn:G1; [b2p; destruct Hg; [done|lia]|].
  destruct ((cap b >? 0) && _) eqn:G2; [b2p; destruct Hg; [done|lia]|].
  pose proof (zlen_nonneg s).
  assert (0 <= len b <= SIZE_MAX).
  { pose proof size_max_pos. unfold buf_ok in Hok. destruct (data b); lia. }
  rewrite vms_add_sz_spec by (unfold in_sz in *; lia).
  destruct (len b + zlen s <=? SIZE_MAX) eqn:E1; b2p; last first.
  { exists false, b, []. split_and!; try done. intros. lia. }
  destruct (grow_ok b (len b + zlen s) Hok) as (g & Eg & Hg'); [lia|].
  rewrite Eg. cbn [mbind cres_bind]. destruct g as [[b1 freed]|]; last first.
  { exists false, b, []. split_and!; try done. intros Ha Hlt. destruct Hg' as [|[n Hn]]; [lia|].
    by rewrite Ha in Hn. }
  destruct Hg' as (Hlen & Huse & Hw & Hcap & Hnone & Hsome).
  destruct (data b1) as [d|] eqn:Ed1.
  - destruct (Hsome d eq_refl) as (Hpos & Hd & Hn & Hm).
    destruct (commit_append b1 d s (cap b1) (len b + zlen s)) as (d1 & d2 & W1 & W2 & O & U);
      try done; try lia.
    rewrite W1. cbn [mbind cres_bind]. rewrite W2. cbn [mbind cres_bind].
    eexists true, _, freed. split_and!; try done. congruence.
  - destruct (Hnone eq_refl) as (-> & -> & Hnd & Hz).
    destruct (alloc 4096) eqn:Ea; cbn [negb]; last first.
    { exists false, b, []. split_and!; try done. intros Ha _. by rewrite Ha in Ea. }
    destruct (write_bytes_fits (replicate 4096 junk) 0 [0]) as [nd W0]; [done|done|].
    destruct (write_bytes_spec _ _ _ _ W0) as (L0 & _ & _).
    change (zlen (replicate 4096 junk)) with 4096 in L0.
    rewrite W0. cbn [mbind cres_bind]. pose proof size_max_pos.
    destruct (commit_append (mkBounded (Some nd) 4095 0) nd s 4095 (len b + zlen s))
      as (d1 & d2 & W1 & W2 & O & U); simpl in *; try done; try lia.
    replace (len b) with 0 in * by lia.
    rewrite W1. cbn [mbind cres_bind]. rewrite W2. cbn [mbind cres_bind].
    eexists true, _, []. split_and!; try done. rewrite U. unfold used; simpl. by rewrite Ed1.
Qed.

End Buffers.

(** ** Fingerprints (64-bit FNV-1a loop) *)

Definition fnv_basis : Z := 1469598103934665603.
Definition fnv_prime : Z := 1099511628211.

(** [h ^= b; h *= prime] on 64 bits. *)
Definition fnv_step (h b : Z) : Z := wrap_u64 (Z.lxor h b * fnv_prime).

Definition fnv_bytes (h : Z) (bs : list Z) : Z := foldl fnv_step h bs.

(** [stage] is [None] for a NULL pointer. *)
Definition vms_fingerprint (data : list Z) (stage : option (list Z)) : Z :=
  fnv_bytes (fnv_bytes fnv_basis (default [] stage)) data.

Lemma log2_bound a n : 0 < n -> 0 <= a < 2 ^ n -> Z.log2 a < n.
Proof.
  intros Hn Ha. destruct (Z.eq_dec a 0) as [->|]; [done|]. apply Z.log2_lt_pow2; lia.
Qed.

Lemma lxor_bound a b n : 0 < n -> 0 <= a < 2 ^ n -> 0 <= b < 2 ^ n -> 0 <= Z.lxor a b < 2 ^ n.
Proof.
  intros Hn Ha Hb.
  assert (0 <= Z.lxor a b) by (apply Z.lxor_nonneg; lia).
  split; [done|]. destruct (Z.eq_dec (Z.lxor a b) 0) as [->|Hne]; [lia|].
  apply Z.log2_lt_pow2; [lia|].
  eapply Z.le_lt_trans; [apply Z.log2_lxor; lia|].
  apply Z.max_lub_lt; by apply log2_bound.
Qed.

(** The multiplier is odd, so it has an inverse modulo 2^64. *)
Definition fnv_prime_inv : Z := 14886173955864302971.

Lemma mul_prime_inj x y :
  in_u64 x -> in_u64 y -> wrap_u64 (x * fnv_prime) = wrap_u64 (y * fnv_prime) -> x = y.
Proof.
  unfold in_u64, wrap_u64. intros Hx Hy E.
  assert (Hinv : forall z, 0 <= z < 2 ^ 64 -> ((z * fnv_prime) mod 2 ^ 64 * fnv_prime_inv) mod 2 ^ 64 = z).
  { intros z Hz. rewrite Z.mul_mod_idemp_l by lia. rewrite <- Z.mul_assoc.
    rewrite <- Z.mul_mod_idemp_r by lia.
    change ((fnv_prime * fnv_prime_inv) mod 2 ^ 64) with 1. rewrite Z.mul_1_r. by apply Z.mod_small. }
  rewrite <- (Hinv x Hx), <- (Hinv y Hy). by rewrite E.
Qed.

Lemma u8_u64 b : in_u8 b -> in_u64 b.
Proof. unfold in_u8, in_u64. lia. Qed.

Lemma fnv_step_range h b : in_u64 (fnv_step h b).
Proof. unfold in_u64, fnv_step, wrap_u64. apply Z.mod_pos_bound. lia. Qed.

Lemma fnv_bytes_range h bs : in_u64 h -> in_u64 (fnv_bytes h bs).
Proof.
  revert h; induction bs as [|b bs IH]; intros h Hh; [done|]. apply IH, fnv_step_range.
Qed.

Lemma fnv_step_inj_hash h h' b :
  in_u64 h -> in_u64 h' -> in_u8 b -> fnv_step h b = fnv_step h' b -> h = h'.
Proof.
  intros Hh Hh' Hb E. apply mul_prime_inj in E; try (apply lxor_bound; [lia|done|by apply u8_u64]).
  apply (f_equal (fun z => Z.lxor z b)) in E.
  by rewrite !Z.lxor_assoc, Z.lxor_nilpotent, !Z.lxor_0_r in E.
Qed.

Lemma fnv_step_inj_byte h b b' :
  in_u64 h -> in_u8 b -> in_u8 b' -> fnv_step h b = fnv_step h b' -> b = b'.
Proof.
  intros Hh Hb Hb' E. apply mul_prime_inj in E; try (apply lxor_bound; [lia|done|by apply u8_u64]).
  apply (f_equal (Z.lxor h)) in E.
  by rewrite <- !Z.lxor_assoc, Z.lxor_nilpotent, !Z.lxor_0_l in E.
Qed.

Lemma fnv_bytes_inj_hash h h' bs :
  in_u64 h -> in_u64 h' -> bytes bs -> fnv_bytes h bs = fnv_bytes h' bs -> h = h'.
Proof.
  intros Hh Hh' Hbs. revert h h' Hh Hh'. induction Hbs as [|b bs Hb Hbs IH]; intros h h' Hh Hh' E; [done|].
  apply (fnv_step_inj_hash h h' b); try done.
  apply IH; try apply fnv_step_range. exact E.
Qed.

(** Changing one byte of a sequence always changes its hash. *)
Lemma fnv_bytes_substitution h pre x y post :
  in_u64 h -> bytes post -> in_u8 x -> in_u8 y -> x <> y ->
  fnv_bytes h (pre ++ x :: post) <> fnv_bytes h (pre ++ y :: post).
Proof.
  intros Hh Hpost Hx Hy Hne E. unfold fnv_bytes in E. rewrite !foldl_app in E. simpl in E.
  apply fnv_bytes_inj_hash in E; try apply fnv_step_range; [|done].
  apply fnv_step_inj_byte in E; try done. by apply (fnv_bytes_range h pre).
Qed.

(** ** UTF-8 / UTF-16 conversion wrappers

    The Win32 routines are parameters: [mb2wc] and [wc2mb] give the converted
    text, [None] standing for the zero that signals a conversion error. *)

Class Win32Text := {
  mb2wc : list Z -> option (list Z);
  wc2mb : list Z -> option (list Z)
}.

Section Utf.
Context `{Platform} `{Win32Text}.

(** Result code, units stored at [dst], value stored at [*out].  [dst] is
    the capacity of the destination, [None] for a NULL destination. *)
Definition vms_utf8_to_utf16 (src : list Z) (dst : option Z) : Z * list Z * option Z :=
  if zlen src >? INT_MAX then (-1, [], None)
  else
    let conv := mb2wc src in
    let need := match conv with None => 0 | Some w => zlen w end in
    if need <=? 0 then (-2, [], None)
    else match dst with
         | Some dst_wchars =>
             if need >? dst_wchars then (-1, [], None)
             else (0, default [] conv, Some need)
         | None => (0, [], Some need)
         end.

Definition vms_utf16_to_utf8_flags (src : list Z) (dst : option Z) : Z * list Z * option Z :=
  if zlen src >? INT_MAX then (-1, [], None)
  else
    let conv := wc2mb src in
    let need := match conv with None => 0 | Some b => zlen b end in
    if need <=? 0 then (-2, [], None)
    else match dst with
         | None => (0, [], Some need)
         | Some dst_bytes =>
             if need >? dst_bytes then (-1, [], None)
             else (0, default [] conv, Some need)
         end.

Definition vms_utf16_to_utf8 := vms_utf16_to_utf8_flags.
Definition vms_utf16_to_utf8_loose := vms_utf16_to_utf8_flags.

(** A size probe followed by a conversion into a buffer of the probed size
    succeeds and fills it exactly: the two-call protocol of the row decoder. *)
Lemma utf16_probe_then_convert src need :
  vms_utf16_to_utf8 src None = (0, [], Some need) ->
  exists out, wc2mb src = Some out /\ zlen out = need /\
    vms_utf16_to_utf8 src (Some (need + 1)) = (0, out, Some need).
Proof.
  unfold vms_utf16_to_utf8, vms_utf16_to_utf8_flags.
  destruct (_ >? INT_MAX); [done|]. destruct (wc2mb src) as [o|]; [|done].
  destruct (zlen o <=? 0); [done|]. intros [= <-]. exists o. split_and!; try done.
  destruct (zlen o >? zlen o + 1) eqn:E; [blia|done].
Qed.

(** The units stored never exceed the destination. *)
Lemma utf_bounded src n :
  0 <= n ->
  zlen (snd (fst (vms_utf8_to_utf16 src (Some n)))) <= n /\
  zlen (snd (fst (vms_utf16_to_utf8 src (Some n)))) <= n.
Proof.
  intros. unfold vms_utf8_to_utf16, vms_utf16_to_utf8, vms_utf16_to_utf8_flags.
  destruct (mb2wc src), (wc2mb src); split; split_ifs; simpl; try (unfold zlen; simpl; lia); b2p; lia.
Qed.

End Utf.

(** [MultiByteToWideChar(CP_UTF8, 0, s, -1, dst, cap)]: without the strict
    flag every byte string converts, and ASCII text converts to itself. *)
Class WideConv := {
  widen : list Z -> list Z;
  widen_ascii : forall s, Forall (fun c => 0 < c < 128) s -> widen s = s
}.

Definition IdWideConv : WideConv := {| widen := id; widen_ascii := fun s _ => eq_refl |}.

(** The conversion into a buffer of [cap] units, terminator included. *)
Definition to_wide `{WideConv} (cap : Z) (s : list Z) : option (list Z) :=
  if zlen (widen s) + 1 >? cap then None else Some (widen s).

(** ** Properties *)

(** The checked operations are exact.  On operands of the right width,
    [vms_add_sz], [vms_mul_sz] and [vms_add_i64] succeed exactly when the
    mathematical result is representable, and then return it: no wrapped
    value is ever stored. *)
Theorem checked_arith_exact `{Platform} (a b c d : Z) :
  in_sz a -> in_sz b -> in_i64 c -> in_i64 d ->
  vms_add_sz a b = (if a + b <=? SIZE_MAX then Some (a + b) else None) /\
  vms_mul_sz a b = (if a * b <=? SIZE_MAX then Some (a * b) else None) /\
  vms_add_i64 c d =
    (if (INT64_MIN <=? c + d) && (c + d <=? INT64_MAX) then Some (c + d) else None).
Proof.
  intros. split_and!; [by apply vms_add_sz_spec|by apply vms_mul_sz_spec|by apply vms_add_i64_spec].
Qed.

Lemma checked_arith_exact_witness :
  @vms_mul_sz Win32 65536 65535 = Some 4294901760.
Proof.
  destruct (@checked_arith_exact Win32 65536 65535 1 2) as (_ & E & _);
    [unfold in_sz, in_i64, INT64_MIN, INT64_MAX; simpl; lia..|exact E].
Defined.

(** The signed product.  [vms_mul_i64] never stores a wrapped value, and
    for a positive multiplier it succeeds exactly when the product is
    representable.  A negative multiplier is always refused, whatever the
    product, except that -(2^63 - 1) times -1 reaches the division of
    [INT64_MIN] by -1, which traps. *)
Theorem mul_i64_behaviour (a b : Z) :
  in_i64 a -> in_i64 b ->
  vms_mul_i64 a b =
    (if (a =? 0) || (b =? 0) then Ret (Some 0)
     else if (b =? -1) && (a =? - INT64_MAX) then Fault DivOverflow
     else if b <? 0 then Ret None
     else if (INT64_MIN <=? a * b) && (a * b <=? INT64_MAX) then Ret (Some (a * b))
     else Ret None).
Proof.
  intros Ha Hb. destruct ((a =? 0) || (b =? 0)) eqn:E0.
  - unfold vms_mul_i64. by rewrite E0.
  - b2p. destruct (Z.ltb_spec b 0).
    + by apply mul_i64_negative.
    + rewrite mul_i64_positive by (done || lia).
      replace (b =? -1) with false by (symmetry; apply Z.eqb_neq; lia). done.
Qed.

Lemma mul_i64_behaviour_witness :
  vms_mul_i64 3 (-2) = Ret None /\ vms_mul_i64 (- INT64_MAX) (-1) = Fault DivOverflow /\
  vms_mul_i64 (-3) 2 = Ret (Some (-6)).
Proof.
  split_and!; rewrite mul_i64_behaviour; try reflexivity;
    unfold in_i64, INT64_MIN, INT64_MAX; lia.
Defined.

(** A well-formed buffer of two bytes accepts one more byte. *)
Lemma buf_append_refines_witness :
  exists r b', @vms_buf_append Win64 (Some (mkBounded (Some [65; 66; 0; 0]) 3 2)) (Some [67]) = Ret (r, Some b')
    /\ @buf_ok Win64 b' /\ used b' = [65; 66; 67].
Proof.
  destruct (@buf_append_refines Win64 (mkBounded (Some [65; 66; 0; 0]) 3 2) [67]) as (r & b' & E & O & _ & U & R).
  - unfold buf_ok; simpl. split_and!; done || lia.
  - unfold in_sz, zlen; simpl; lia.
  - exists r, b'. split_and!; [exact E|exact O|].
    destruct r; [exact U|]. destruct R as [_ R]. discriminate R. split; [done|]. vm_compute. done.
Defined.

Lemma buf_append_grow_refines_witness :
  exists b' freed,
    @vms_buf_append_grow Win64 (fun _ => true) 170 (Some (mkBounded (Some [65; 66; 0]) 2 2)) (Some [67])
      = Ret (true, Some b', freed) /\
    @buf_ok Win64 b' /\ used b' = [65; 66; 67] /\ Forall (wiped (mkBounded (Some [65; 66; 0]) 2 2)) freed.
Proof.
  destruct (@buf_append_grow_refines Win64 (fun _ => true) 170 (mkBounded (Some [65; 66; 0]) 2 2) [67])
    as (r & b' & fr & E & O & W & U & R).
  - unfold buf_ok; simpl. split_and!; done || lia.
  - unfold in_sz, zlen; simpl; lia.
  - assert (r = true) as -> by (apply R; [done|vm_compute; done]).
    exists b', fr. split_and!; done.
Defined.

(** The fingerprint detects every single-byte substitution: two byte
    ranges that differ in exactly one byte have different fingerprints, for
    every stage tag. *)
Theorem fingerprint_detects_substitution pre x y post stage :
  bytes post -> in_u8 x -> in_u8 y -> x <> y ->
  vms_fingerprint (pre ++ x :: post) stage <> vms_fingerprint (pre ++ y :: post) stage.
Proof.
  intros. apply fnv_bytes_substitution; try done.
  apply fnv_bytes_range. unfold in_u64, fnv_basis. lia.
Qed.

Lemma fingerprint_detects_substitution_witness :
  vms_fingerprint (str "ab" ++ 99 :: str "d") (Some (str "cache")) <>
  vms_fingerprint (str "ab" ++ 100 :: str "d") (Some (str "cache")).
Proof.
  apply fingerprint_detects_substitution; unfold bytes, in_u8; try lia.
  repeat constructor; vm_compute; done.
Defined.
