(* ===== verification/Limits.v ===== *)
(** * Resource limits (src/src/vms_limits.c, vms_limits.h)

    The process-wide table [g_limits] is the state; limits can only be
    lowered until the next reset. *)

From S2P Require Import Prelude.

Definition VMS_LIMIT_COUNT : Z := 10.

Definition k_defaults : list Z :=
  [1000000; 268435456; 1048576; 1048576; 1048576; 16777216; 1999; 4096; 512; 1024].

(** The static initialiser: all limits are 0 until the first reset. *)
Definition g_limits_initial : list Z := replicate 10 0.

Definition vms_limits_reset (g : list Z) : list Z := k_defaults.

Definition vms_limits_get (g : list Z) (limit : Z) : Z :=
  if (limit <? 0) || (limit >=? VMS_LIMIT_COUNT) then 0
  else nth (Z.to_nat limit) g 0.

Definition vms_limits_set (g : list Z) (limit value : Z) : bool * list Z :=
  if (limit <? 0) || (limit >=? VMS_LIMIT_COUNT) then (false, g)
  else if value >? nth (Z.to_nat limit) g 0 then (false, g)
  else (true, <[Z.to_nat limit := value]> g).

Definition vms_limits_ok (g : list Z) (limit value : Z) : bool :=
  value <=? vms_limits_get g limit.

(** Any sequence of [vms_limits_set] calls. *)
Definition run_sets (g : list Z) (calls : list (Z * Z)) : list Z :=
  foldl (fun g c => snd (vms_limits_set g (fst c) (snd c))) g calls.

Lemma nth_insert_z (g : list Z) i j v :
  (i < length g)%nat -> nth j (<[i := v]> g) 0 = if (i =? j)%nat then v else nth j g 0.
Proof.
  intros Hi. rewrite !nth_lookup. destruct (Nat.eqb_spec i j) as [->|Hne].
  - by rewrite list_lookup_insert_eq.
  - by rewrite list_lookup_insert_ne.
Qed.

Lemma limits_set_length g i v : length (snd (vms_limits_set g i v)) = length g.
Proof. unfold vms_limits_set. split_ifs; simpl; try done. apply length_insert. Qed.

Lemma limits_set_get g i v j :
  length g = 10%nat ->
  vms_limits_get (snd (vms_limits_set g i v)) j =
    if fst (vms_limits_set g i v) && (i =? j) then v else vms_limits_get g j.
Proof.
  intros Hg. unfold vms_limits_set, vms_limits_get, VMS_LIMIT_COUNT.
  destruct ((i <? 0) || (i >=? 10)) eqn:Ei; [done|]. b2p.
  destruct (v >? _) eqn:Ev; [done|]. cbn [fst snd andb].
  destruct ((j <? 0) || (j >=? 10)) eqn:Ej; b2p.
  - destruct (Z.eqb_spec i j); [|done]. destruct Ej; b2p; lia.
  - rewrite nth_insert_z by lia.
    destruct (Z.eqb_spec i j), (Nat.eqb_spec (Z.to_nat i) (Z.to_nat j)); try done; lia.
Qed.

(** Limits only go down.  A call to [vms_limits_set] succeeds exactly for
    a known limit and a value not above the current one, changes that limit
    only, and no sequence of calls raises any limit: what [vms_limits_ok]
    accepts afterwards it accepted before. *)
Theorem limits_only_lower (g : list Z) (calls : list (Z * Z)) (id v : Z) :
  length g = 10%nat ->
  (fst (vms_limits_set g id v) = true <-> 0 <= id < VMS_LIMIT_COUNT /\ v <= vms_limits_get g id) /\
  (forall j, vms_limits_get (snd (vms_limits_set g id v)) j =
     if fst (vms_limits_set g id v) && (id =? j) then v else vms_limits_get g j) /\
  (forall j w, vms_limits_ok (run_sets g calls) j w = true -> vms_limits_ok g j w = true).
Proof.
  intros Hg. split_and!.
  - unfold vms_limits_set, vms_limits_get, VMS_LIMIT_COUNT.
    destruct ((id <? 0) || (id >=? 10)) eqn:E; b2p; [split; [done|]; destruct E; blia|].
    destruct (v >? _) eqn:Ev; simpl; b2p; split; try done; lia.
  - intros j. by apply limits_set_get.
  - revert g Hg. induction calls as [|[i x] calls IH]; intros g Hg j w; simpl; [done|].
    intros H. apply IH in H; [|by rewrite limits_set_length].
    unfold vms_limits_ok in *. rewrite limits_set_get in H by done. simpl in H.
    destruct (fst (vms_limits_set g i x) && (i =? j)) eqn:E; [|done]. b2p. subst.
    unfold vms_limits_set, vms_limits_get, VMS_LIMIT_COUNT in *.
    destruct ((j <? 0) || (j >=? 10)); [done|].
    destruct (x >? _) eqn:Ev; [done|]. apply Z.leb_le. blia.
Qed.

Lemma limits_only_lower_witness :
  vms_limits_ok (run_sets k_defaults [(6, 100); (6, 2000); (999, 1)]) 6 2000 = false.
Proof.
  destruct (limits_only_lower k_defaults [(6, 100); (6, 2000); (999, 1)] 6 100 eq_refl) as (_ & _ & H).
  destruct (vms_limits_ok (run_sets k_defaults _) 6 2000) eqn:E; [|reflexivity].
  apply H in E. vm_compute in E. discriminate E.
Defined.
