(* ===== verification/Client.v ===== *)
(** * Client data model (src/src/vms_client.h, vms_error.h, vms_meta.h)

    Error values, decoded column values and the column type registry codes
    that every component shares, with the error helpers of
    src/src/vms_odbc_adapter.c. *)

From S2P Require Import Prelude.

(** ** Errors *)

Inductive VmsErrClass : Type :=
| VMS_OK
| VMS_ERR_DRIVER_NOT_FOUND
| VMS_ERR_CONNECT
| VMS_ERR_TRANSPORT
| VMS_ERR_TIMEOUT
| VMS_ERR_CANCELLED
| VMS_ERR_EXEC
| VMS_ERR_QUARANTINED
| VMS_ERR_NO_MEMORY
| VMS_ERR_INVALID_ARG
| VMS_ERR_INTERNAL.

#[global] Instance VmsErrClass_eq_dec : EqDecision VmsErrClass.
Proof. solve_decision. Defined.

Record VmsError := mkError {
  cls : VmsErrClass;
  sqlstate : list Z;
  native : Z;
  message : list Z
}.

Definition err_zero : VmsError := mkError VMS_OK [] 0 [].

(** [e] is the pointed-to error, [None] for a NULL pointer. *)
Definition vms_error_ok (e : option VmsError) : option VmsError :=
  match e with None => None | Some _ => Some err_zero end.

(** The message is formatted after the structure has been cleared, so it is
    given as a function of the cleared structure: an argument that points
    into the structure is read as zeroed memory. *)
Definition vms_error_set (e : option VmsError) (c : VmsErrClass) (state : option (list Z))
    (nat_code : Z) (fmt : VmsError -> list Z) : option VmsError :=
  match e with
  | None => None
  | Some _ =>
      let e1 := err_zero in
      let e2 := mkError c (match state with Some s => trunc_copy 6 s | None => str "00000" end)
                        nat_code (message e1) in
      Some (mkError (cls e2) (sqlstate e2) (native e2) (trunc_copy 1024 (fmt e2)))
  end.

(** SQLSTATE classification; the flag asks for quarantine. *)
Definition starts_with (s pre : list Z) : bool :=
  match strip_prefix pre s with Some _ => true | None => false end.

Definition classify_state (st : list Z) : VmsErrClass * bool :=
  match st with
  | [] => (VMS_ERR_INTERNAL, false)
  | _ =>
      if starts_with st (str "IM0") then
        if str_eqb st (str "IM002") || str_eqb st (str "IM003")
        then (VMS_ERR_DRIVER_NOT_FOUND, false)
        else (VMS_ERR_CONNECT, false)
      else if str_eqb st (str "HY008") then (VMS_ERR_CANCELLED, false)
      else if str_eqb st (str "HYT00") || str_eqb st (str "HYT01") then (VMS_ERR_TIMEOUT, false)
      else if starts_with st (str "08") then (VMS_ERR_TRANSPORT, true)
      else (VMS_ERR_EXEC, false)
  end.

(** Quarantine is requested for transport errors and for nothing else. *)
Lemma classify_state_quarantine st :
  snd (classify_state st) = true <-> fst (classify_state st) = VMS_ERR_TRANSPORT.
Proof.
  unfold classify_state. destruct st as [|c st]; [done|].
  destruct (starts_with _ (str "IM0")); [by destruct (_ || _)|].
  destruct (str_eqb _ (str "HY008")); [done|].
  destruct (_ || _); [done|]. by destruct (starts_with _ _).
Qed.

(** ** Values *)

(** A decoded column value.  A double is its 64-bit pattern. *)
Inductive VmsValue : Type :=
| VAL_NULL
| VAL_INT64 (i : Z)
| VAL_FLOAT64 (f : Z)
| VAL_TEXT (t : list Z)
| VAL_BLOB (b : list Z)
| VAL_BIGTEXT (t : list Z).

#[global] Instance VmsValue_eq_dec : EqDecision VmsValue.
Proof. solve_decision. Defined.

(** ** Column types *)

Inductive VmsColType : Type :=
| CT_INT64
| CT_FLOAT64
| CT_TEXT
| CT_BIGTEXT
| CT_BLOB
| CT_DECIMAL
| CT_DATETIME
| CT_GUID
| CT_SPATIAL
| CT_UNSUPPORTED.

#[global] Instance VmsColType_eq_dec : EqDecision VmsColType.
Proof. solve_decision. Defined.

Definition ct_code (t : VmsColType) : Z :=
  match t with
  | CT_INT64 => 0 | CT_FLOAT64 => 1 | CT_TEXT => 2 | CT_BIGTEXT => 3 | CT_BLOB => 4
  | CT_DECIMAL => 5 | CT_DATETIME => 6 | CT_GUID => 7 | CT_SPATIAL => 8 | CT_UNSUPPORTED => 9
  end.

(** The enumerator a stored code denotes. *)
Definition ct_of_code (c : Z) : option VmsColType :=
  find (fun t => ct_code t =? c)
    [CT_INT64; CT_FLOAT64; CT_TEXT; CT_BIGTEXT; CT_BLOB; CT_DECIMAL; CT_DATETIME; CT_GUID;
     CT_SPATIAL; CT_UNSUPPORTED].

Lemma ct_of_code_code t : ct_of_code (ct_code t) = Some t.
Proof. by destruct t. Qed.

(** ** Column metadata *)

Record VmsMetaColumn := mkCol {
  name : list Z;
  type_name : list Z;
  vtype : VmsColType;
  is_nullable : Z;
  is_identity : Z;
  is_computed : Z;
  max_length : Z;
  precision : Z;
  scale : Z
}.

Definition VMS_META_MAX_COLUMNS : Z := 512.
Definition VMS_META_MAX_KEY_PARTS : Z := 16.
Definition VMS_META_MAX_NAME : Z := 128.

Record VmsKeyColumn := mkKeyCol { kname : list Z; kvtype : VmsColType }.

Record VmsStableKey := mkKey {
  index_name : list Z;
  is_primary_key : bool;
  part_count : Z;
  parts : list VmsKeyColumn
}.

(** ** Floating-point text conversion of the C library

    [fmt_g17] is [%.17g], [strtod] returns the parsed value and the rest of
    the input, [None] when nothing was consumed.  Seventeen significant
    digits identify every finite double. *)

Definition f64_finite (f : Z) : Prop := in_u64 f /\ (f / 2 ^ 52) mod 2 ^ 11 <> 2 ^ 11 - 1.

Class FloatIO := {
  fmt_g17 : Z -> list Z;
  strtod : list Z -> option (Z * list Z);
  fmt_g17_length : forall f, f64_finite f -> zlen (fmt_g17 f) <= 24;
  strtod_fmt : forall f rest, f64_finite f ->
    strtod (fmt_g17 f ++ chr ":" :: rest) = Some (f, chr ":" :: rest);
  strtod_end : forall f, f64_finite f -> strtod (fmt_g17 f) = Some (f, [])
}.

(** An instance: the bit pattern as a decimal numeral. *)
Definition bits_strtod (p : list Z) : option (Z * list Z) :=
  match span isdigit p with
  | ([], _) => None
  | (ds, r) => Some (foldl digit_step 0 ds, r)
  end.

Definition BitsFloatIO : FloatIO.
Proof.
  refine {| fmt_g17 := print_u; strtod := bits_strtod |}.
  - intros f [[H1 H2] _]. unfold zlen. pose proof (print_u_length f 20) as H.
    specialize (H ltac:(split; [done|]; eapply Z.lt_trans; [exact H2|reflexivity]) ltac:(lia)). lia.
  - intros f rest [[H1 H2] _]. unfold bits_strtod.
    rewrite span_all; [|by apply print_u_isdigit|reflexivity].
    destruct (print_u f) eqn:E; [by apply print_u_nonempty in E|].
    rewrite <- E, print_u_value by done. reflexivity.
  - intros f [[H1 H2] _]. unfold bits_strtod. rewrite <- (app_nil_r (print_u f)).
    rewrite span_all; [|by apply print_u_isdigit|done].
    destruct (print_u f) eqn:E; [by apply print_u_nonempty in E|].
    rewrite <- E, print_u_value by done. reflexivity.
Defined.
