(* ===== verification/Identity.v ===== *)
(** * Identifiers and identity tokens (src/src/vms_identity.c)

    Identifier validation, N'...' quoting, and the versioned identity token
    codec.  Pointers into the token are modelled as suffixes of its bytes;
    reading past the terminator and writing past an allocation are faults. *)

From S2P Require Import Prelude Client.

(** ** Identifiers *)

Definition ident_char (c : Z) : bool :=
  isalnum c || (c =? chr "_") || (c =? chr "#") || (c =? chr "@") || (c =? chr "$").

Fixpoint ident_loop (s : list Z) (n max_chars : Z) : bool :=
  match s with
  | [] => n >? 0
  | c :: s' =>
      if negb (ident_char c) then false
      else if n >=? max_chars then false
      else ident_loop s' (n + 1) max_chars
  end.

Definition vms_meta_ident_valid (nm : option (list Z)) (max_chars : Z) : bool :=
  match nm with
  | None => false
  | Some [] => false
  | Some s => ident_loop s 0 max_chars
  end.

(** The quoting loop from output position [o]; it stops early when the
    buffer is nearly full. *)
Fixpoint quote_loop (s : list Z) (o cap : Z) : list Z :=
  match s with
  | [] => []
  | c :: s' =>
      if o + 3 <? cap then
        if c =? chr "'" then c :: chr "'" :: quote_loop s' (o + 2) cap
        else c :: quote_loop s' (o + 1) cap
      else []
  end.

Definition vms_meta_quote_ident (nm : list Z) (cap : Z) : option (list Z) :=
  if cap <? 5 then None
  else
    let body := quote_loop nm 2 cap in
    let o := 2 + zlen body in
    if o + 2 >? cap then None
    else Some (chr "N" :: chr "'" :: body ++ [chr "'"]).

Lemma ident_loop_spec s n m :
  0 <= n ->
  ident_loop s n m = true <->
  Forall (fun c => ident_char c = true) s /\ (s = [] \/ n + zlen s <= m) /\ 0 < n + zlen s.
Proof.
  revert n; induction s as [|c s IH]; intros n Hn; simpl.
  - autorewrite with vms_len. rewrite Z.gtb_lt. split; [intros; split_and!; auto; lia|intros (?&?&?); lia].
  - autorewrite with vms_len. destruct (ident_char c) eqn:Ec; simpl.
    + destruct (n >=? m) eqn:En; b2p.
      * split; [done|]. intros (_ & [?|?] & ?); [done|]. pose proof (zlen_nonneg s). lia.
      * rewrite IH by lia. pose proof (zlen_nonneg s). split.
        -- intros (H1 & H2 & H3). split_and!; [by constructor| |lia]. right.
           destruct H2 as [->|]; [rewrite zlen_nil|]; lia.
        -- intros (H1 & H2 & H3). inversion H1; subst. split_and!; [done| |lia].
           destruct H2; [done|]. right. lia.
    + split; [done|]. intros (H & _). inversion H; congruence.
Qed.

Lemma ident_valid_spec s m :
  vms_meta_ident_valid (Some s) m = true <->
  s <> [] /\ zlen s <= m /\ Forall (fun c => ident_char c = true) s.
Proof.
  unfold vms_meta_ident_valid. destruct s as [|c s]; [split; [done|by intros [? _]]|].
  rewrite ident_loop_spec by done. pose proof (zlen_nonneg s). autorewrite with vms_len.
  split; intros (H1 & H2 & H3); split_and!; try done; try lia.
  destruct H2; [done|lia].
Qed.

Lemma ident_char_not c d : ident_char d = false -> ident_char c = true -> c <> d.
Proof. congruence. Qed.

(** Room for the literal is never missing: the loop stops first. *)
Lemma quote_loop_bound s o cap : o + 2 <= cap -> o + zlen (quote_loop s o cap) + 2 <= cap.
Proof.
  revert o; induction s as [|c s IH]; intros o Ho; simpl; [rewrite zlen_nil; lia|].
  destruct (o + 3 <? cap) eqn:E; [|rewrite zlen_nil; lia]. b2p.
  destruct (c =? chr "'"); autorewrite with vms_len.
  - specialize (IH (o + 2) ltac:(lia)). lia.
  - specialize (IH (o + 1) ltac:(lia)). lia.
Qed.

Lemma quote_loop_plain s o cap :
  Forall (fun c => ident_char c = true) s -> o + zlen s + 2 < cap -> quote_loop s o cap = s.
Proof.
  intros H. revert o; induction H as [|c s Hc H IH]; intros o Ho; simpl; [done|].
  autorewrite with vms_len in Ho. pose proof (zlen_nonneg s).
  rewrite (proj2 (Z.ltb_lt (o + 3) cap)) by lia.
  destruct (Z.eqb_spec c (chr "'")) as [->|]; [by vm_compute in Hc|].
  by rewrite IH by lia.
Qed.

Lemma quote_ident_valid nm :
  vms_meta_ident_valid (Some nm) 128 = true ->
  vms_meta_quote_ident nm 300 = Some (chr "N" :: chr "'" :: nm ++ [chr "'"]).
Proof.
  intros (Hne & Hl & Hc)%ident_valid_spec. unfold vms_meta_quote_ident. cbn [Z.ltb].
  rewrite quote_loop_plain by (done || lia). simpl.
  destruct (2 + zlen nm + 2 >? 300) eqn:E; [blia|done].
Qed.

(** ** Hexadecimal payloads *)

Definition hx (n : Z) : Z := nth (Z.to_nat n) (str "0123456789abcdef") 0.

Definition hex_encode (src : list Z) : list Z :=
  flat_map (fun b => [hx (Z.land (Z.shiftr b 4) 15); hx (Z.land b 15)]) src.

Definition hex_digit (c : Z) : Z :=
  if (c >=? chr "0") && (c <=? chr "9") then c - chr "0"
  else if (c >=? chr "a") && (c <=? chr "f") then c - chr "a" + 10
  else -1.

(** ** Encoder *)

Section Encode.
Context `{FloatIO}.
Variable alloc : Z -> bool.
Variable cap : Z.

(** PUTS and PUTCH: the output so far is the accumulator. *)
Definition puts (out s : list Z) : option (list Z) :=
  if zlen out + zlen s >=? cap then None else Some (out ++ s).

Definition encode_part (out : list Z) (p : VmsValue) : option (list Z) :=
  match p with
  | VAL_NULL => puts out (str "n0:")
  | VAL_INT64 i => puts out (trunc_copy 32 (chr "i" :: print_i i ++ [chr ":"]))
  | VAL_FLOAT64 f => puts out (trunc_copy 40 (chr "f" :: fmt_g17 f ++ [chr ":"]))
  | VAL_TEXT t =>
      if negb (alloc (zlen t * 2 + 1)) then None
      else
        out1 ← puts out (trunc_copy 32 (chr "s" :: print_u (zlen t) ++ [chr ":"]));
        puts out1 (hex_encode t)
  | VAL_BLOB b =>
      if negb (alloc (zlen b * 2 + 1)) then None
      else
        out1 ← puts out (trunc_copy 32 (chr "b" :: print_u (zlen b) ++ [chr ":"]));
        puts out1 (hex_encode b)
  | VAL_BIGTEXT _ => None
  end.

(** The loop body; [i] is the part index. *)
Fixpoint encode_loop (out : list Z) (i : Z) (ps : list VmsValue) : option (list Z) :=
  match ps with
  | [] => Some out
  | p :: ps' =>
      out1 ← (if i =? 0 then Some out else puts out [chr "|"]);
      out2 ← encode_part out1 p;
      encode_loop out2 (i + 1) ps'
  end.

Definition vms_identity_encode (ps : list VmsValue) : option (list Z) :=
  out0 ← puts [] (str "v1|");
  out ← encode_loop out0 0 ps;
  if zlen out + 1 >=? cap then None else Some out.

End Encode.

(** ** Decoder *)

(** [strtoul(s, NULL, 10)] with 32-bit [unsigned long]. *)
Definition strtoul (s : list Z) : Z :=
  let s1 := snd (span isspace s) in
  let '(neg, s2) :=
    match s1 with
    | c :: r => if c =? chr "-" then (true, r) else if c =? chr "+" then (false, r) else (false, s1)
    | [] => (false, [])
    end in
  let v := foldl digit_step 0 (fst (span isdigit s2)) in
  if v >? 2 ^ 32 - 1 then 2 ^ 32 - 1
  else if neg then wrap_u32 (- v) else v.

(** [v * 10 + d] accumulated in a 64-bit register. *)
Definition digit_step_i64 (a c : Z) : Z := wrap_i64 (a * 10 + (c - 48)).

(** The payload loop: byte [i] comes from characters [2 i] and [2 i + 1] and is
    stored at index [i] of a block of [size] bytes.  Both characters are read
    before either is tested. *)
Fixpoint hex_loop (p : list Z) (remaining i size : Z) (acc : list Z) : cres (option (list Z * list Z)) :=
  if remaining <=? 0 then Ret (Some (rev acc, p))
  else match p with
       | [] => Fault OobRead
       | [_] => Ret None
       | h :: l :: p' =>
           let hi := hex_digit h in
           let lo := hex_digit l in
           if (hi <? 0) || (lo <? 0) then Ret None
           else if i >=? size then Fault OobWrite
           else hex_loop p' (remaining - 1) (i + 1) size (Z.lor (Z.shiftl hi 4) lo :: acc)
       end.

Section Decode.
Context `{Platform} `{FloatIO}.
Variable alloc : Z -> bool.

Definition decode_int (p : list Z) : option (VmsValue * list Z) :=
  let '(sign, p1) :=
    match p with
    | c :: r => if c =? chr "-" then (-1, r) else if c =? chr "+" then (1, r) else (1, p)
    | [] => (1, [])
    end in
  let '(ds, r) := span isdigit p1 in
  match ds with
  | [] => None
  | _ =>
      let v := wrap_i64 (foldl digit_step_i64 0 ds * sign) in
      match r with
      | c :: r' => if c =? chr ":" then Some (VAL_INT64 v, r') else None
      | [] => None
      end
  end.

Definition decode_bytes (is_text : bool) (p : list Z) : cres (option (VmsValue * list Z)) :=
  let '(lenbuf, r) := span (fun c => negb (c =? chr ":")) p in
  if zlen lenbuf >? 15 then Ret None
  else match r with
       | [] => Ret None
       | _ :: p' =>
           let blen := strtoul lenbuf in
           let size := wrap_sz (blen + 1) in
           if negb (alloc size) then Ret None
           else
             o ← hex_loop p' blen 0 size [];
             match o with
             | None => Ret None
             | Some (raw, p'') =>
                 if is_text then
                   if alloc size then Ret (Some (VAL_TEXT raw, p'')) else Ret None
                 else Ret (Some (VAL_BLOB raw, p''))
             end
       end.

Definition decode_part (kind : Z) (p : list Z) : cres (option (VmsValue * list Z)) :=
  if kind =? chr "n" then
    match snd (span (fun c => negb (c =? chr ":")) p) with
    | [] => Ret None
    | _ :: r => Ret (Some (VAL_NULL, r))
    end
  else if kind =? chr "i" then Ret (decode_int p)
  else if kind =? chr "f" then
    match strtod p with
    | Some (f, c :: r) => if c =? chr ":" then Ret (Some (VAL_FLOAT64 f, r)) else Ret None
    | _ => Ret None
    end
  else if kind =? chr "s" then decode_bytes true p
  else if kind =? chr "b" then decode_bytes false p
  else Ret None.

(** One fuel unit per part; every part consumes at least its kind byte. *)
Fixpoint decode_loop (fuel : nat) (p : list Z) (acc : list VmsValue) (max_parts : Z) :
    cres (option (list VmsValue)) :=
  match p with
  | [] => Ret (Some (rev acc))
  | kind :: p1 =>
      match fuel with
      | O => Ret None
      | S fuel' =>
          if zlen acc >=? max_parts then Ret None
          else
            o ← decode_part kind p1;
            match o with
            | None => Ret None
            | Some (v, p2) =>
                match p2 with
                | [] => Ret (Some (rev (v :: acc)))
                | c :: p3 => if c =? chr "|" then decode_loop fuel' p3 (v :: acc) max_parts else Ret None
                end
            end
      end
  end.

Definition vms_identity_decode (token : option (list Z)) (max_parts : Z) : cres (option (list VmsValue)) :=
  match token with
  | None => Ret None
  | Some t =>
      match strip_prefix (str "v1|") t with
      | None => Ret None
      | Some p => decode_loop (length p) p [] max_parts
      end
  end.

End Decode.

(** ** Round trip *)

Section RoundTrip.
Context `{Platform} `{FloatIO}.

(** The values the encoder is given: decoded parts of a key.  Lengths are
    below the 32-bit length the decoder can represent. *)
Definition value_ok (v : VmsValue) : Prop :=
  match v with
  | VAL_NULL => True
  | VAL_INT64 i => in_i64 i
  | VAL_FLOAT64 f => f64_finite f
  | VAL_TEXT t => bytes t /\ zlen t < 2 ^ 32 - 1
  | VAL_BLOB b => bytes b /\ zlen b < 2 ^ 32 - 1
  | VAL_BIGTEXT _ => False
  end.

(** What the encoder writes for one part, and the whole token. *)
Definition part_text (v : VmsValue) : list Z :=
  match v with
  | VAL_NULL => str "n0:"
  | VAL_INT64 i => chr "i" :: print_i i ++ [chr ":"]
  | VAL_FLOAT64 f => chr "f" :: fmt_g17 f ++ [chr ":"]
  | VAL_TEXT t => (chr "s" :: print_u (zlen t) ++ [chr ":"]) ++ hex_encode t
  | VAL_BLOB b => (chr "b" :: print_u (zlen b) ++ [chr ":"]) ++ hex_encode b
  | VAL_BIGTEXT _ => []
  end.

Fixpoint parts_text (vs : list VmsValue) : list Z :=
  match vs with
  | [] => []
  | [v] => part_text v
  | v :: vs' => part_text v ++ chr "|" :: parts_text vs'
  end.

Definition identity_token (vs : list VmsValue) : list Z := str "v1|" ++ parts_text vs.

Lemma hex_digit_hx n : 0 <= n < 16 -> hex_digit (hx n) = n.
Proof.
  intros Hn.
  assert (Hall : forallb (fun k => hex_digit (hx (Z.of_nat k)) =? Z.of_nat k) (seq 0 16) = true) by reflexivity.
  rewrite forallb_forall in Hall. specialize (Hall (Z.to_nat n)).
  rewrite Z2Nat.id in Hall by lia. apply Z.eqb_eq, Hall, in_seq. lia.
Qed.

Lemma nibbles_range b : in_u8 b -> 0 <= Z.land (Z.shiftr b 4) 15 < 16 /\ 0 <= Z.land b 15 < 16.
Proof.
  unfold in_u8. intros Hb. change 15 with (Z.ones 4). rewrite !Z.land_ones by lia.
  split; apply Z.mod_pos_bound; lia.
Qed.

Lemma nibbles_join b :
  in_u8 b -> Z.lor (Z.shiftl (Z.land (Z.shiftr b 4) 15) 4) (Z.land b 15) = b.
Proof.
  unfold in_u8. intros Hb.
  assert (Hall : forallb (fun k =>
    Z.lor (Z.shiftl (Z.land (Z.shiftr (Z.of_nat k) 4) 15) 4) (Z.land (Z.of_nat k) 15) =? Z.of_nat k)
    (seq 0 256) = true) by (vm_compute; reflexivity).
  rewrite forallb_forall in Hall. specialize (Hall (Z.to_nat b)).
  rewrite Z2Nat.id in Hall by lia. apply Z.eqb_eq, Hall, in_seq. lia.
Qed.

Lemma hex_loop_encode bs rest i size acc :
  bytes bs -> 0 <= i -> i + zlen bs <= size ->
  hex_loop (hex_encode bs ++ rest) (zlen bs) i size acc = Ret (Some (rev acc ++ bs, rest)).
Proof.
  intros Hbs. revert i acc. induction Hbs as [|b bs Hb Hbs IH]; intros i acc Hi Hsz.
  - simpl. destruct rest; by rewrite app_nil_r.
  - destruct (nibbles_range b Hb) as [Hh Hl]. autorewrite with vms_len in *.
    pose proof (zlen_nonneg bs). cbn [hex_encode flat_map app hex_loop].
    rewrite (proj2 (Z.leb_gt _ _)) by lia. rewrite !hex_digit_hx by done.
    destruct (_ || _) eqn:E; [exfalso; b2p; destruct E; blia|].
    destruct (i >=? size) eqn:E2; [blia|].
    rewrite nibbles_join by done. replace (zlen bs + 1 - 1) with (zlen bs) by lia.
    fold (hex_encode bs). rewrite IH by lia. simpl. by rewrite <- app_assoc.
Qed.

Lemma strtoul_print n : 0 <= n < 2 ^ 32 -> strtoul (print_u n) = n.
Proof.
  intros Hn. unfold strtoul.
  pose proof (print_u_isdigit n ltac:(lia)) as Hd. pose proof (print_u_nonempty n) as Hne.
  assert (Hsp : snd (span isspace (print_u n)) = print_u n).
  { destruct (print_u n) as [|c r]; [done|]. inversion Hd as [|?? Hc _]; subst. simpl.
    replace (isspace c) with false; [done|]. symmetry. unfold isdigit, isspace in *. b2p.
    apply orb_false_iff; split; [apply Z.eqb_neq; lia|]. apply andb_false_iff; right. apply Z.leb_gt; lia. }
  rewrite Hsp. destruct (print_u n) as [|c r] eqn:E; [done|].
  inversion Hd as [|?? Hc Hr]; subst.
  replace (c =? chr "-") with false by (unfold isdigit in Hc; b2p; symmetry; apply Z.eqb_neq; change (chr "-") with 45; lia).
  replace (c =? chr "+") with false by (unfold isdigit in Hc; b2p; symmetry; apply Z.eqb_neq; change (chr "+") with 43; lia).
  rewrite <- (app_nil_r (c :: r)), span_all by done. cbn [fst].
  rewrite <- E, print_u_value by lia.
  destruct (n >? 2 ^ 32 - 1) eqn:G; [blia|done].
Qed.

Lemma wfold_wrap ds a :
  foldl digit_step_i64 (wrap_i64 a) ds = wrap_i64 (foldl digit_step a ds).
Proof.
  revert a; induction ds as [|d ds IH]; intros a; simpl; [done|].
  rewrite <- IH. f_equal. unfold digit_step_i64, digit_step. apply wrap_i64_cong.
  rewrite <- Z.add_mod_idemp_l, <- Z.mul_mod_idemp_l, wrap_i64_mod by lia.
  by rewrite Z.mul_mod_idemp_l, Z.add_mod_idemp_l by lia.
Qed.

Lemma decode_int_digits n sign p rest :
  0 <= n -> (match p with c :: r => if c =? chr "-" then (-1, r) else if c =? chr "+" then (1, r) else (1, p)
             | [] => (1, []) end) = (sign, print_u n ++ chr ":" :: rest) ->
  decode_int p = Some (VAL_INT64 (wrap_i64 (n * sign)), rest).
Proof.
  intros Hn E. unfold decode_int. rewrite E.
  rewrite span_all by (try reflexivity; by apply print_u_isdigit).
  destruct (print_u n) eqn:Ep; [by apply print_u_nonempty in Ep|]. rewrite <- Ep.
  rewrite Z.eqb_refl. do 3 f_equal.
  change 0 with (wrap_i64 0). rewrite wfold_wrap, print_u_value by done.
  apply wrap_i64_cong. by rewrite <- Z.mul_mod_idemp_l, wrap_i64_mod, Z.mul_mod_idemp_l by lia.
Qed.

Lemma decode_int_print i rest :
  in_i64 i -> decode_int (print_i i ++ chr ":" :: rest) = Some (VAL_INT64 i, rest).
Proof.
  intros Hi. unfold print_i. destruct (i <? 0) eqn:E; b2p.
  - rewrite (decode_int_digits (- i) (-1) _ rest); [|lia|done].
    by rewrite <- Z.opp_eq_mul_m1, Z.opp_involutive, wrap_i64_small.
  - rewrite (decode_int_digits i 1 _ rest); [by rewrite Z.mul_1_r, wrap_i64_small|lia|].
    pose proof (print_u_isdigit i E) as Hd. destruct (print_u i) as [|c r] eqn:Ep.
    { by apply print_u_nonempty in Ep. }
    simpl. inversion Hd as [|?? Hc _]; subst. unfold isdigit in Hc. b2p.
    replace (c =? chr "-") with false by (symmetry; apply Z.eqb_neq; change (chr "-") with 45; lia).
    replace (c =? chr "+") with false by (symmetry; apply Z.eqb_neq; change (chr "+") with 43; lia).
    done.
Qed.

Variable alloc : Z -> bool.
Hypothesis alloc_ok : forall n, alloc n = true.

Lemma decode_bytes_text is_text bs rest :
  bytes bs -> zlen bs < 2 ^ 32 - 1 ->
  decode_bytes alloc is_text (print_u (zlen bs) ++ chr ":" :: hex_encode bs ++ rest) =
    Ret (Some (if is_text then VAL_TEXT bs else VAL_BLOB bs, rest)).
Proof.
  intros Hbs Hl. pose proof (zlen_nonneg bs). unfold decode_bytes.
  rewrite span_all; [| |reflexivity]; last first.
  { eapply Forall_impl; [by apply print_u_isdigit|]. intros c Hc. unfold isdigit in Hc. b2p.
    apply negb_true_iff, Z.eqb_neq. change (chr ":") with 58. lia. }
  pose proof (print_u_length (zlen bs) 10) as Hd.
  specialize (Hd ltac:(split; [lia|change (10 ^ Z.of_nat 10) with 10000000000; lia]) ltac:(lia)).
  destruct (zlen (print_u (zlen bs)) >? 15) eqn:E; [unfold zlen in *; blia|].
  rewrite strtoul_print by lia. rewrite !alloc_ok. cbn [negb].
  pose proof size_max_pos. rewrite wrap_sz_small by (unfold in_sz; lia).
  rewrite hex_loop_encode by (done || lia). by destruct is_text.
Qed.

Lemma decode_part_float p :
  decode_part alloc (chr "f") p =
    match strtod p with
    | Some (f, c :: r) => if c =? chr ":" then Ret (Some (VAL_FLOAT64 f, r)) else Ret None
    | _ => Ret None
    end.
Proof. reflexivity. Qed.

Lemma decode_part_text v rest :
  value_ok v -> exists k t, part_text v = k :: t /\ decode_part alloc k (t ++ rest) = Ret (Some (v, rest)).
Proof.
  destruct v as [|i|f|t|b|t]; intros Hv; simpl in Hv; try done; eexists _, _; (split; [done|]).
  - done.
  - rewrite <- app_assoc. cbn [app]. transitivity (Ret (decode_int (print_i i ++ chr ":" :: rest))); [done|].
    by rewrite decode_int_print.
  - rewrite <- app_assoc. cbn [app]. rewrite decode_part_float. by rewrite strtod_fmt.
  - rewrite <- !app_assoc. cbn [app]. destruct Hv. by apply (decode_bytes_text true).
  - rewrite <- !app_assoc. cbn [app]. destruct Hv. by apply (decode_bytes_text false).
Qed.

Lemma decode_loop_text vs fuel acc m :
  Forall value_ok vs -> (length (parts_text vs) <= fuel)%nat -> zlen acc + zlen vs <= m ->
  decode_loop alloc fuel (parts_text vs) acc m = Ret (Some (rev acc ++ vs)).
Proof.
  intros Hvs. revert fuel acc. induction Hvs as [|v vs Hv Hvs IH]; intros fuel acc Hf Hm.
  { simpl. destruct fuel; by rewrite app_nil_r. }
  autorewrite with vms_len in Hm. pose proof (zlen_nonneg vs).
  destruct vs as [|v' vs].
  - cbn [parts_text] in *. destruct (decode_part_text v [] Hv) as (k & t & E & D).
    rewrite app_nil_r in D. rewrite E in *. destruct fuel as [|fuel]; [simpl in Hf; lia|].
    cbn [decode_loop]. destruct (zlen acc >=? m) eqn:G; [blia|]. rewrite D. by cbn.
  - destruct (decode_part_text v (chr "|" :: parts_text (v' :: vs)) Hv) as (k & t & E & D).
    change (parts_text (v :: v' :: vs)) with (part_text v ++ chr "|" :: parts_text (v' :: vs)) in *.
    rewrite E in *. destruct fuel as [|fuel]; [simpl in Hf; lia|].
    cbn [app decode_loop]. destruct (zlen acc >=? m) eqn:G; [blia|]. rewrite D.
    cbn [mbind cres_bind]. rewrite Z.eqb_refl. rewrite IH.
    + simpl. by rewrite <- app_assoc.
    + rewrite length_app in Hf. cbn [length] in Hf. lia.
    + autorewrite with vms_len in *. lia.
Qed.

(** *** The encoder computes the token *)

Variable cap : Z.

Fixpoint enc_text (i : Z) (ps : list VmsValue) : list Z :=
  match ps with
  | [] => []
  | p :: ps' => (if i =? 0 then [] else [chr "|"]) ++ part_text p ++ enc_text (i + 1) ps'
  end.

Lemma parts_text_enc ps : parts_text ps = enc_text 0 ps.
Proof.
  destruct ps as [|p ps]; [done|].
  change (enc_text 0 (p :: ps)) with (part_text p ++ enc_text 1 ps). revert p.
  assert (Hg : forall i p, 0 < i -> parts_text (p :: ps) = part_text p ++ enc_text i ps).
  { induction ps as [|q ps IH]; intros i p Hi.
    - simpl. by rewrite app_nil_r.
    - change (parts_text (p :: q :: ps)) with (part_text p ++ chr "|" :: parts_text (q :: ps)).
      rewrite (IH (i + 1)) by lia. simpl. by replace (i =? 0) with false by (symmetry; apply Z.eqb_neq; lia). }
  intros p. rewrite (Hg 1) by lia. done.
Qed.

Lemma zlen_print_i i : in_i64 i -> zlen (print_i i) <= 20.
Proof.
  unfold in_i64, INT64_MIN, INT64_MAX. intros Hi. unfold print_i.
  assert (Hu : forall n, 0 <= n <= 2 ^ 63 -> zlen (print_u n) <= 19).
  { intros n Hn. pose proof (print_u_length n 19) as Hl. unfold zlen.
    specialize (Hl ltac:(change (10 ^ Z.of_nat 19) with 10000000000000000000; lia) ltac:(lia)). lia. }
  destruct (i <? 0) eqn:E; b2p; [rewrite zlen_cons|]; specialize (Hu (Z.abs i)).
  - replace (Z.abs i) with (- i) in Hu by lia. lia.
  - replace (Z.abs i) with i in Hu by lia. lia.
Qed.

Lemma zlen_print_u n : 0 <= n < 2 ^ 32 -> zlen (print_u n) <= 10.
Proof.
  intros Hn. pose proof (print_u_length n 10) as Hl. unfold zlen.
  specialize (Hl ltac:(change (10 ^ Z.of_nat 10) with 10000000000; lia) ltac:(lia)). lia.
Qed.

Lemma puts_spec out s : puts cap out s = if zlen out + zlen s <? cap then Some (out ++ s) else None.
Proof. unfold puts. split_ifs; b2p; try done; lia. Qed.

Lemma puts_twice out a b :
  (o ← puts cap out a; puts cap o b) =
    if zlen out + zlen (a ++ b) <? cap then Some (out ++ (a ++ b)) else None.
Proof.
  rewrite puts_spec, zlen_app. pose proof (zlen_nonneg b).
  destruct (zlen out + zlen a <? cap) eqn:E; b2p; cbn [mbind option_bind].
  - by rewrite puts_spec, zlen_app, Z.add_assoc, app_assoc.
  - by rewrite (proj2 (Z.ltb_ge _ _)) by lia.
Qed.

Lemma encode_part_spec out v :
  value_ok v ->
  encode_part alloc cap out v =
    if zlen out + zlen (part_text v) <? cap then Some (out ++ part_text v) else None.
Proof.
  intros Hv. destruct v as [|i|f|t|b|t]; simpl in Hv; try done;
    unfold encode_part; rewrite ?alloc_ok; cbn [negb].
  - apply puts_spec.
  - rewrite trunc_copy_fits; [apply puts_spec|].
    autorewrite with vms_len. pose proof (zlen_print_i i Hv). lia.
  - rewrite trunc_copy_fits; [apply puts_spec|].
    autorewrite with vms_len. pose proof (fmt_g17_length f Hv). lia.
  - destruct Hv as [_ Hl]. pose proof (zlen_nonneg t).
    rewrite trunc_copy_fits by (autorewrite with vms_len; pose proof (zlen_print_u (zlen t)); lia).
    apply puts_twice.
  - destruct Hv as [_ Hl]. pose proof (zlen_nonneg b).
    rewrite trunc_copy_fits by (autorewrite with vms_len; pose proof (zlen_print_u (zlen b)); lia).
    apply puts_twice.
Qed.

Lemma encode_loop_spec ps out i :
  Forall value_ok ps -> 0 <= i -> zlen out < cap ->
  encode_loop alloc cap out i ps =
    if zlen out + zlen (enc_text i ps) <? cap then Some (out ++ enc_text i ps) else None.
Proof.
  intros Hps. revert out i. induction Hps as [|p ps Hp Hps IH]; intros out i Hi Ho.
  { simpl. rewrite zlen_nil, Z.add_0_r, app_nil_r. by rewrite (proj2 (Z.ltb_lt _ _)). }
  cbn [encode_loop enc_text].
  set (sep := if i =? 0 then [] else [chr "|"]).
  assert (Hsep : (if i =? 0 then Some out else puts cap out [chr "|"]) = puts cap out sep).
  { unfold sep. destruct (i =? 0); [|done]. rewrite puts_spec, zlen_nil, Z.add_0_r, app_nil_r.
    by rewrite (proj2 (Z.ltb_lt _ _)). }
  rewrite Hsep, puts_spec. rewrite !zlen_app.
  pose proof (zlen_nonneg (part_text p)). pose proof (zlen_nonneg (enc_text (i + 1) ps)).
  destruct (zlen out + zlen sep <? cap) eqn:E1; b2p; cbn [mbind option_bind]; last first.
  { rewrite (proj2 (Z.ltb_ge _ _)); [done|lia]. }
  rewrite encode_part_spec by done. rewrite zlen_app.
  destruct (_ + _ + zlen (part_text p) <? cap) eqn:E2; b2p; cbn [mbind option_bind]; last first.
  { rewrite (proj2 (Z.ltb_ge _ _)); [done|lia]. }
  rewrite IH by (rewrite ?zlen_app; lia). rewrite !zlen_app, !Z.add_assoc.
  by rewrite <- !app_assoc.
Qed.

Lemma identity_encode_spec ps :
  Forall value_ok ps ->
  vms_identity_encode alloc cap ps =
    if zlen (identity_token ps) + 1 <? cap then Some (identity_token ps) else None.
Proof.
  intros Hps. unfold vms_identity_encode, identity_token. rewrite parts_text_enc, puts_spec.
  pose proof (zlen_nonneg (enc_text 0 ps)). rewrite zlen_app. change (zlen (@nil Z)) with 0.
  rewrite Z.add_0_l, app_nil_l.
  assert (H3 : zlen (str "v1|") = 3) by done. rewrite H3.
  destruct (3 <? cap) eqn:E; b2p; cbn [mbind option_bind]; last first.
  { rewrite (proj2 (Z.ltb_ge _ _)); [done|lia]. }
  rewrite encode_loop_spec; [|done|lia|lia]. rewrite H3.
  destruct (3 + zlen (enc_text 0 ps) <? cap) eqn:E2; b2p; cbn [mbind option_bind]; last first.
  { rewrite (proj2 (Z.ltb_ge _ _)); [done|lia]. }
  rewrite zlen_app, H3.
  destruct (_ >=? cap) eqn:E3, (_ <? cap) eqn:E4; b2p; try done; lia.
Qed.

Lemma identity_decode_token ps m :
  Forall value_ok ps -> zlen ps <= m ->
  vms_identity_decode alloc (Some (identity_token ps)) m = Ret (Some ps).
Proof.
  intros Hps Hm. unfold vms_identity_decode, identity_token. rewrite strip_prefix_app.
  by rewrite decode_loop_text.
Qed.

End RoundTrip.

(** ** Properties *)

(** [C16]: identity tokens are lossless.  For key values the encoder accepts
    (NULL, 64-bit integers, finite doubles, text and blobs), it succeeds
    exactly when the token and its terminator leave room in the buffer, and
    decoding the token returns the same values, of the same kinds, in order. *)
Theorem identity_roundtrip `{Platform} `{FloatIO} (alloc : Z -> bool) (cap m : Z) (ps : list VmsValue) :
  (forall n, alloc n = true) -> Forall value_ok ps -> zlen ps <= m ->
  match vms_identity_encode alloc cap ps with
  | Some tok => zlen tok + 1 < cap /\ vms_identity_decode alloc (Some tok) m = Ret (Some ps)
  | None => cap <= zlen (identity_token ps) + 1
  end.
Proof.
  intros Ha Hps Hm. rewrite identity_encode_spec by done.
  destruct (_ <? cap) eqn:E; b2p; [|done]. split; [done|]. by apply identity_decode_token.
Qed.

Lemma identity_roundtrip_witness :
  exists tok,
    @vms_identity_encode BitsFloatIO (fun _ => true) 1024 [VAL_INT64 INT64_MIN; VAL_TEXT (str "a|:b")] = Some tok /\
    @vms_identity_decode Win32 BitsFloatIO (fun _ => true) (Some tok) 16 =
      Ret (Some [VAL_INT64 INT64_MIN; VAL_TEXT (str "a|:b")]).
Proof.
  pose proof (@identity_roundtrip Win32 BitsFloatIO (fun _ => true) 1024 16
    [VAL_INT64 INT64_MIN; VAL_TEXT (str "a|:b")] (fun _ => eq_refl)) as R.
  destruct (vms_identity_encode _ _ _) as [tok|] eqn:E.
  - exists tok. split; [reflexivity|]. apply R.
    + repeat constructor; unfold in_u8; vm_compute; done.
    + vm_compute; done.
  - vm_compute in E. discriminate E.
Defined.

(** Identities do not collide: two different key tuples never encode to
    the same token. *)
Theorem identity_injective `{FloatIO} (alloc : Z -> bool) (cap : Z) (ps qs : list VmsValue) tok :
  (forall n, alloc n = true) -> Forall value_ok ps -> Forall value_ok qs ->
  vms_identity_encode alloc cap ps = Some tok -> vms_identity_encode alloc cap qs = Some tok ->
  ps = qs.
Proof.
  intros Ha Hp Hq Ep Eq. rewrite identity_encode_spec in Ep, Eq by done.
  destruct (_ <? cap) in Ep; [|done]. destruct (_ <? cap) in Eq; [|done].
  injection Ep as Ep. injection Eq as Eq.
  pose proof (@identity_decode_token Win64 _ alloc Ha ps (zlen ps + zlen qs) Hp) as Dp.
  pose proof (@identity_decode_token Win64 _ alloc Ha qs (zlen ps + zlen qs) Hq) as Dq.
  pose proof (zlen_nonneg ps). pose proof (zlen_nonneg qs).
  rewrite Ep in Dp. rewrite Eq in Dq. rewrite Dp in Dq by lia. specialize (Dq ltac:(lia)). by injection Dq.
Qed.

Lemma identity_injective_witness : [VAL_NULL] = [VAL_NULL].
Proof.
  apply (@identity_injective BitsFloatIO (fun _ => true) 64 _ _ (str "v1|n0:")); try reflexivity;
    repeat constructor.
Defined.

(** ** Memory safety of the decoder *)

Lemma digit_fold_nonneg a ds :
  0 <= a -> Forall (fun c => isdigit c = true) ds -> 0 <= foldl digit_step a ds.
Proof.
  intros Ha H. revert a Ha. induction H as [|d ds Hd H IH]; intros a Ha; simpl; [done|].
  apply IH. unfold digit_step, isdigit in *. b2p. lia.
Qed.

Lemma span_fst_Forall P s : Forall (fun c => P c = true) (fst (span P s)).
Proof.
  induction s as [|c s IH]; simpl; [constructor|]. destruct (P c) eqn:E; [|constructor].
  destruct (span P s); simpl in *. by constructor.
Qed.

Lemma strtoul_range s : 0 <= strtoul s < 2 ^ 32.
Proof.
  unfold strtoul. set (d := match snd (span isspace s) with [] => _ | _ => _ end).
  destruct d as [neg s2].
  pose proof (digit_fold_nonneg 0 _ ltac:(lia) (span_fst_Forall isdigit s2)).
  destruct (_ >? 2 ^ 32 - 1) eqn:E; b2p; [lia|]. destruct neg; [|lia].
  unfold wrap_u32. apply Z.mod_pos_bound. lia.
Qed.

Lemma hex_loop_write_safe n p remaining i size acc :
  (length p <= n)%nat -> i + remaining <= size -> hex_loop p remaining i size acc <> Fault OobWrite.
Proof.
  revert p remaining i acc. induction n as [|n IH]; intros p remaining i acc Hp Hs.
  - destruct p; [|simpl in Hp; lia]. simpl. by destruct (remaining <=? 0).
  - destruct p as [|h [|l p]]; simpl; destruct (remaining <=? 0) eqn:E; try done.
    destruct (_ || _); [done|]. b2p. destruct (i >=? size) eqn:G; [blia|].
    apply IH; [simpl in Hp; lia|lia].
Qed.

Section DecodeSafety.
Context `{Platform} `{FloatIO}.
Variable alloc : Z -> bool.
Hypothesis wide : SIZE_MAX = 2 ^ 64 - 1.

Lemma decode_part_write_safe k p : decode_part alloc k p <> Fault OobWrite.
Proof.
  assert (Hb : forall b q, decode_bytes alloc b q <> Fault OobWrite).
  { intros b q. unfold decode_bytes. destruct (span _ q) as [lb [|c r]]; destruct (_ >? 15); try done.
    destruct (negb _); [done|]. pose proof (strtoul_range lb).
    rewrite wrap_sz_small by (unfold in_sz; lia).
    pose proof (hex_loop_write_safe (length r) r (strtoul lb) 0 (strtoul lb + 1) []) as Hh.
    destruct (hex_loop _ _ _ _ _) as [[[raw p'']|]|f]; cbn; try done.
    - destruct b; [destruct (alloc _)|]; done.
    - intros [= ->]. apply Hh; [lia|lia|done]. }
  unfold decode_part. repeat case_match; try done; apply Hb.
Qed.

Lemma decode_loop_write_safe fuel p acc m : decode_loop alloc fuel p acc m <> Fault OobWrite.
Proof.
  revert p acc. induction fuel as [|fuel IH]; intros p acc; destruct p as [|k p1]; simpl; try done.
  destruct (_ >=? m); [done|]. pose proof (decode_part_write_safe k p1) as Hd.
  destruct (decode_part alloc k p1) as [[[v p2]|]|f]; cbn; try done.
  - destruct p2 as [|c p3]; [done|]. destruct (c =? _); [apply IH|done].
  - congruence.
Qed.

End DecodeSafety.

(** On 64-bit builds the decoder never writes outside the blocks it
    allocates, whatever the token. *)
Theorem identity_decode_write_safe `{Platform} `{FloatIO} (alloc : Z -> bool) token m :
  SIZE_MAX = 2 ^ 64 - 1 -> vms_identity_decode alloc token m <> Fault OobWrite.
Proof.
  intros Hw. unfold vms_identity_decode. destruct token as [t|]; [|done].
  destruct (strip_prefix _ t); [by apply decode_loop_write_safe|done].
Qed.

Lemma identity_decode_write_safe_witness :
  @vms_identity_decode Win64 BitsFloatIO (fun _ => true) (Some (str "v1|b4294967295:00")) 16 <> Fault OobWrite.
Proof. apply (@identity_decode_write_safe Win64 BitsFloatIO). reflexivity. Defined.

(** Two malformed tokens that the decoder mishandles.  A payload shorter
    than its declared length makes it read the byte after the terminator; on
    32-bit builds the length 2^32 - 1 makes the allocation size wrap to 0 and
    the first payload byte is stored outside the block. *)
Theorem identity_decode_malformed :
  @vms_identity_decode Win64 BitsFloatIO (fun _ => true) (Some (str "v1|s1:")) 16 = Fault OobRead /\
  @vms_identity_decode Win32 BitsFloatIO (fun _ => true) (Some (str "v1|b4294967295:00")) 16 = Fault OobWrite.
Proof. split; vm_compute; reflexivity. Qed.
