(* ===== verification/Lexer.v ===== *)
(** * T-SQL lexer and query validator (src/src/vms_lexer.c)

    A lexer position is the suffix of the source that is still to be read.
    The validator is proved equivalent to a predicate on the whole token
    stream. *)

From S2P Require Import Prelude.

(** ** Wide-character classification

    The C library functions on [wchar_t]; on the ASCII range they are the
    classes of the C locale, and an alphabetic unit is alphanumeric. *)

Class WCType := {
  iswalpha : Z -> bool;
  iswalnum : Z -> bool;
  iswdigit : Z -> bool;
  iswspace : Z -> bool;
  towlower : Z -> Z;
  iswalpha_ascii : forall c, 0 <= c < 128 -> iswalpha c = isalpha c;
  iswalnum_ascii : forall c, 0 <= c < 128 -> iswalnum c = isalnum c;
  iswdigit_ascii : forall c, 0 <= c < 128 -> iswdigit c = isdigit c;
  iswspace_ascii : forall c, 0 <= c < 128 -> iswspace c = isspace c;
  towlower_ascii : forall c, 0 <= c < 128 -> towlower c = tolower c;
  iswalpha_alnum : forall c, iswalpha c = true -> iswalnum c = true;
  iswdigit_alnum : forall c, iswdigit c = true -> iswalnum c = true
}.

Definition ascii_wctype : WCType.
Proof.
  refine {| iswalpha := isalpha; iswalnum := isalnum; iswdigit := isdigit;
            iswspace := isspace; towlower := tolower |}; try done.
  - intros c H. unfold isalnum. by rewrite H.
  - intros c H. unfold isalnum. rewrite H. apply orb_true_r.
Defined.

(** ** Tokens and lexer state *)

Inductive VmsTokKind : Type :=
| TOK_END | TOK_WORD | TOK_NUMBER | TOK_STRING | TOK_PUNCT | TOK_OP2 | TOK_ERROR.

#[global] Instance VmsTokKind_eq_dec : EqDecision VmsTokKind.
Proof. solve_decision. Defined.

Record VmsToken := mkTok {
  kind : VmsTokKind;
  start : Z;
  tlen : Z;
  text : list Z
}.

Record VmsLexer := mkLex {
  rest : list Z;
  pos : Z;
  depth : Z
}.

Definition vms_lexer_init (src : option (list Z)) : VmsLexer := mkLex (default [] src) 0 0.

Section Lexer.
Context `{WCType}.

Definition is_word_start (c : Z) : bool :=
  iswalpha c || (c =? chr "_") || (c =? chr "#") || (c =? chr "@").

Definition is_word_char (c : Z) : bool :=
  iswalnum c || (c =? chr "_") || (c =? chr "#") || (c =? chr "@") || (c =? chr "$").

(** Where the skipping loop stands: between comments, inside a line
    comment, inside a block comment. *)
Inductive skip_mode : Type := InSpace | InLine | InBlock.

(** The whitespace and comment loop; [None] is the unterminated comment. *)
Fixpoint skip (m : skip_mode) (s : list Z) : option (list Z) :=
  match m with
  | InSpace =>
      match s with
      | [] => Some []
      | c :: s' =>
          if iswspace c then skip InSpace s'
          else match s' with
               | c2 :: s'' =>
                   if (c =? chr "-") && (c2 =? chr "-") then skip InLine s''
                   else if (c =? chr "/") && (c2 =? chr "*") then skip InBlock s''
                   else Some s
               | [] => Some s
               end
      end
  | InLine =>
      match s with
      | [] => Some []
      | c :: s' =>
          if c =? 10 then (if iswspace c then skip InSpace s' else Some s)
          else skip InLine s'
      end
  | InBlock =>
      match s with
      | c1 :: (c2 :: s') as t =>
          if (c1 =? chr "*") && (c2 =? chr "/") then skip InSpace s' else skip InBlock t
      | _ => None
      end
  end.

(** The body of a string literal after its opening quote. *)
Fixpoint scan_string (s : list Z) : option (list Z) :=
  match s with
  | [] => None
  | c :: s' =>
      if c =? chr "'" then
        match s' with
        | c2 :: s'' => if c2 =? chr "'" then scan_string s'' else Some s'
        | [] => Some s'
        end
      else scan_string s'
  end.

Definition lower_text (s : list Z) : list Z := map towlower (take 63 s).

(** A token that ends where [r] begins, in a source whose remaining part is
    [s] at position [p]. *)
Definition emit (k : VmsTokKind) (s r : list Z) (p d : Z) (t : list Z) : option (VmsLexer * VmsToken) :=
  let n := zlen s - zlen r in Some (mkLex r (p + n) d, mkTok k p n t).

Definition is_op2 (c1 c2 : Z) : bool :=
  ((c1 =? chr "<") && ((c2 =? chr "=") || (c2 =? chr ">"))) ||
  ((c1 =? chr ">") && (c2 =? chr "=")) ||
  ((c1 =? chr "!") && (c2 =? chr "=")).

Definition punctuation : list Z := str "(),;.*+-/%=<>".

Definition lex_token (s : list Z) (p d : Z) : option (VmsLexer * VmsToken) :=
  match s with
  | [] => Some (mkLex [] p d, mkTok TOK_END p 0 [])
  | c :: s' =>
      if c =? chr "[" then
        let '(inner, r) := span (fun x => negb (x =? chr "]")) s' in
        match r with
        | [] => None
        | _ :: r' => emit TOK_WORD s r' p d (lower_text inner)
        end
      else if (c =? chr "'") || ((c =? chr "N") && (peek s' =? chr "'")) then
        match scan_string (if c =? chr "N" then tl s' else s') with
        | None => None
        | Some r => emit TOK_STRING s r p d []
        end
      else if iswdigit c then
        let r := snd (span (fun x => iswalnum x || (x =? chr ".")) s) in
        emit TOK_NUMBER s r p d []
      else if is_word_start c then
        let '(w, r) := span is_word_char s in
        emit TOK_WORD s r p d (lower_text w)
      else if match s' with c2 :: _ => is_op2 c c2 | [] => false end then
        emit TOK_OP2 s (tl s') p d [c; peek s']
      else if existsb (Z.eqb c) punctuation then
        if c =? chr "(" then emit TOK_PUNCT s s' p (d + 1) [c]
        else if c =? chr ")" then
          if d =? 0 then None else emit TOK_PUNCT s s' p (d - 1) [c]
        else emit TOK_PUNCT s s' p d [c]
      else None
  end.

Definition vms_lexer_next (lx : VmsLexer) : option (VmsLexer * VmsToken) :=
  match skip InSpace (rest lx) with
  | None => None
  | Some s => lex_token s (pos lx + (zlen (rest lx) - zlen s)) (depth lx)
  end.

(** ** Validator *)

(** [kw] is an ASCII keyword; both sides are compared in lower case. *)
Definition word_is (t : VmsToken) (kw : string) : bool :=
  match kind t with
  | TOK_WORD => str_eqb (map towlower (str kw)) (text t)
  | _ => false
  end.

Definition k_forbidden : list string :=
  ["insert"; "update"; "delete"; "merge"; "exec"; "execute";
   "create"; "alter"; "drop"; "truncate"; "grant"; "deny"; "revoke";
   "openrowset"; "openquery"; "openjson"; "openxml"; "bulk";
   "set"; "use"; "begin"; "commit"; "rollback"; "save";
   "tran"; "transaction"; "cursor"; "declare"; "print";
   "raiserror"; "throw"; "waitfor"; "kill"; "shutdown";
   "reconfigure"; "revert"; "grant"; "readtext"; "writetext";
   "updatetext"; "checkpoint"; "dbcc"; "backup"; "restore"]%string.

Definition is_punct (t : VmsToken) (c : Z) : bool :=
  match kind t with TOK_PUNCT => peek (text t) =? c | _ => false end.

(** The keyword that makes a token unacceptable, if any. *)
Definition forbidden_word (t : VmsToken) : option string :=
  match find (word_is t) k_forbidden with
  | Some kw => Some kw
  | None => if word_is t "into" then Some "into"%string else None
  end.

(** The result is [None] for an accepted query, otherwise the refusal. *)
Definition finish (lx : VmsLexer) (words : Z) : option (list Z) :=
  if negb (depth lx =? 0) then Some (str "unbalanced parentheses")
  else if words <? 2 then Some (str "query too short")
  else None.

(** The token loop: one fuel unit per token. *)
Fixpoint validate_loop (fuel : nat) (lx : VmsLexer) (words : Z) : option (list Z) :=
  match fuel with
  | O => Some (str "fuel")
  | S fuel' =>
      match vms_lexer_next lx with
      | None => Some (str "lex error (unterminated string/comment or bad char)")
      | Some (lx', tok) =>
          if decide (kind tok = TOK_END) then finish lx' words
          else
            match forbidden_word tok with
            | Some kw => Some (str "forbidden keyword '" ++ str kw ++ str "'")
            | None =>
                if is_punct tok (chr ";") then
                  match vms_lexer_next lx' with
                  | None => Some (str "lex error after ';'")
                  | Some (lx'', nxt) =>
                      if decide (kind nxt = TOK_END) then finish lx'' (words + 1)
                      else Some (str "multiple statements are not allowed")
                  end
                else validate_loop fuel' lx' (words + 1)
            end
      end
  end.

Definition vms_tsql_validate_query (query : option (list Z)) : option (list Z) :=
  match query with
  | None | Some [] => Some (str "empty query")
  | Some q =>
      if zlen q >? 32768 then Some (str "query too long")
      else match vms_lexer_next (vms_lexer_init query) with
           | None => Some (str "lex error at start")
           | Some (lx, tok) =>
               if is_punct tok (chr "(") || (word_is tok "select" || word_is tok "with")
               then validate_loop (S (length q)) lx 1
               else Some (str "query must start with SELECT or WITH")
           end
  end.

(** ** Token streams *)

(** [lex_run lx toks lx']: from [lx] the lexer produces exactly [toks] and
    then the end token, without an error, stopping in [lx']. *)
Inductive lex_run : VmsLexer -> list VmsToken -> VmsLexer -> Prop :=
| run_end lx lx' tok :
    vms_lexer_next lx = Some (lx', tok) -> kind tok = TOK_END -> lex_run lx [] lx'
| run_tok lx lx1 lx' tok toks :
    vms_lexer_next lx = Some (lx1, tok) -> kind tok <> TOK_END ->
    lex_run lx1 toks lx' -> lex_run lx (tok :: toks) lx'.

(** After the first token: no forbidden keyword, and a semicolon only at the
    very end. *)
Definition statement_tail (toks : list VmsToken) : Prop :=
  Forall (fun t => forbidden_word t = None) toks /\
  (forall i t, toks !! i = Some t -> is_punct t (chr ";") = true -> S i = length toks).

Definition starts_statement (t : VmsToken) : bool :=
  is_punct t (chr "(") || (word_is t "select" || word_is t "with").

(** Parenthesis depth along a token stream; [None] when a closing
    parenthesis has no opening one. *)
Definition depth_step (d : Z) (t : VmsToken) : option Z :=
  if is_punct t (chr "(") then Some (d + 1)
  else if is_punct t (chr ")") then (if d =? 0 then None else Some (d - 1))
  else Some d.

Fixpoint depth_after (d : Z) (toks : list VmsToken) : option Z :=
  match toks with
  | [] => Some d
  | t :: ts => d' ← depth_step d t; depth_after d' ts
  end.

(** The predicate the validator decides. *)
Definition read_only_query (q : list Z) : Prop :=
  exists t ts lx',
    lex_run (vms_lexer_init (Some q)) (t :: ts) lx' /\
    starts_statement t = true /\ ts <> [] /\ statement_tail ts /\
    depth_after 0 (t :: ts) = Some 0.

(** ** Progress of the lexer *)

Lemma skip_length m s r : skip m s = Some r -> (length r <= length s)%nat.
Proof.
  remember (length s) as n eqn:En. assert (Hn : (length s <= n)%nat) by lia. clear En.
  revert m s r Hn. induction n as [|n IH]; intros m s r Hn Hs.
  - destruct s; [|simpl in Hn; lia]. destruct m; simpl in Hs; try done; by injection Hs as <-.
  - destruct m, s as [|c s]; simpl in Hs; try done; try (injection Hs as <-; simpl; lia).
    + simpl in Hn. destruct (iswspace c); [apply IH in Hs; lia|].
      destruct s as [|c2 s]; [injection Hs as <-; simpl in *; lia|].
      simpl in Hn. destruct (_ && _); [apply IH in Hs; lia|].
      destruct (_ && _); [apply IH in Hs; lia|]. injection Hs as <-; simpl; lia.
    + simpl in Hn. destruct (c =? 10); [|apply IH in Hs; lia].
      destruct (iswspace c); [apply IH in Hs; lia|]. injection Hs as <-; simpl; lia.
    + destruct s as [|c2 s]; [done|]. simpl in Hn. destruct (_ && _); apply IH in Hs; simpl in *; lia.
Qed.

Lemma scan_string_length s r : scan_string s = Some r -> (length r < length s)%nat.
Proof.
  remember (length s) as n eqn:En. assert (Hn : (length s <= n)%nat) by lia.
  revert s r Hn En. induction n as [n IH] using lt_wf_ind; intros s r Hn En Hs.
  destruct s as [|c s]; [done|]. simpl in *. destruct (c =? _).
  - destruct s as [|c2 s]; [injection Hs as <-; simpl; lia|]. simpl in *.
    destruct (c2 =? _); [apply (IH (length s)) in Hs; lia|injection Hs as <-; simpl; lia].
  - apply (IH (length s)) in Hs; lia.
Qed.

Lemma span_progress P c s : P c = true -> (length (snd (span P (c :: s))) <= length s)%nat.
Proof.
  intros HP. simpl. rewrite HP. pose proof (span_length P s). by destruct (span P s).
Qed.

Lemma word_start_char c : is_word_start c = true -> is_word_char c = true.
Proof.
  unfold is_word_start, is_word_char. intros Hc. b2p.
  destruct Hc as [Hc|Hc]; [b2p; destruct Hc as [Hc|Hc]; [b2p; destruct Hc as [Hc|Hc]|]|];
    rewrite ?Hc, ?(iswalpha_alnum c) by done; by rewrite ?orb_true_r.
Qed.

(** A token other than the end consumes input and moves the depth as
    [depth_step] says. *)
Lemma lex_token_spec s p d lx tok :
  lex_token s p d = Some (lx, tok) ->
  depth_step d tok = Some (depth lx) /\
  (kind tok <> TOK_END -> (length (rest lx) < length s)%nat) /\
  (kind tok = TOK_END -> s = []).
Proof.
  assert (Hnp : forall k r n t, k <> TOK_PUNCT -> depth_step d (mkTok k n r t) = Some d).
  { intros k r n t Hk. unfold depth_step, is_punct. simpl. by destruct k. }
  destruct s as [|c s]; cbn [lex_token]; [by intros [= <- <-]|].
  destruct (c =? chr "[").
  { pose proof (span_length (fun x => negb (x =? chr "]")) s) as Hl.
    destruct (span _ s) as [inner [|x r]]; [done|]. intros [= <- <-]. simpl in *.
    split_and!; [by apply Hnp|intros; lia|done]. }
  destruct ((c =? chr "'") || _) eqn:Eq.
  { destruct (scan_string _) as [r|] eqn:Es; [|done]. intros [= <- <-]. simpl.
    split_and!; [by apply Hnp|intros _|done].
    apply scan_string_length in Es. destruct (c =? chr "N"); [|lia].
    destruct s; simpl in *; lia. }
  destruct (iswdigit c) eqn:Ed.
  { intros [= <- <-]. cbn [depth rest kind]. split_and!; [by apply Hnp|intros _|done].
    assert (Hc : (fun x => iswalnum x || (x =? chr ".")) c = true)
      by (cbv beta; by rewrite (iswdigit_alnum c Ed)).
    pose proof (span_progress (fun x => iswalnum x || (x =? chr ".")) c s Hc) as Hl.
    exact (le_n_S _ _ Hl). }
  destruct (is_word_start c) eqn:Ew.
  { pose proof (span_progress is_word_char c s (word_start_char c Ew)) as Hl.
    destruct (span is_word_char (c :: s)) as [w r]. intros [= <- <-]. simpl in *.
    split_and!; [by apply Hnp|intros _; lia|done]. }
  destruct (match s with c2 :: _ => is_op2 c c2 | [] => false end) eqn:Eo.
  { intros [= <- <-]. destruct s; [done|]. simpl. split_and!; [by apply Hnp|intros; lia|done]. }
  destruct (existsb _ _); [|done].
  destruct (c =? chr "(") eqn:E1; [|destruct (c =? chr ")") eqn:E2].
  - intros [= <- <-]. unfold depth_step, is_punct. simpl. rewrite E1. split_and!; [done|lia|done].
  - destruct (d =? 0) eqn:E0; [done|]. intros [= <- <-]. unfold depth_step, is_punct. simpl.
    rewrite E1, E2, E0. split_and!; [done|lia|done].
  - intros [= <- <-]. unfold depth_step, is_punct. simpl. rewrite E1, E2. split_and!; [done|lia|done].
Qed.

Lemma next_spec lx lx' tok :
  vms_lexer_next lx = Some (lx', tok) ->
  depth_step (depth lx) tok = Some (depth lx') /\
  (kind tok <> TOK_END -> (length (rest lx') < length (rest lx))%nat) /\
  (kind tok = TOK_END -> rest lx' = [] /\ depth lx' = depth lx).
Proof.
  unfold vms_lexer_next. destruct (skip _ _) as [s|] eqn:Es; [|done].
  apply skip_length in Es. intros Hl. destruct (lex_token_spec _ _ _ _ _ Hl) as (H1 & H2 & H3).
  split_and!; [done| |].
  - intros Hk. specialize (H2 Hk). lia.
  - intros Hk. rewrite (H3 Hk) in Hl. by injection Hl as <- <-.
Qed.

Lemma lex_run_depth lx toks lx' :
  lex_run lx toks lx' -> depth_after (depth lx) toks = Some (depth lx').
Proof.
  induction 1 as [lx lx' tok Hn Hk|lx lx1 lx' tok toks Hn Hk Hr IH].
  - destruct (next_spec _ _ _ Hn) as (_ & _ & H3). destruct (H3 Hk) as [_ ->]. done.
  - destruct (next_spec _ _ _ Hn) as (H1 & _ & _). simpl. by rewrite H1.
Qed.

Lemma lex_run_end_next lx lx' toks lx'' :
  lex_run lx toks lx' -> (exists tok, vms_lexer_next lx = Some (lx'', tok) /\ kind tok = TOK_END) ->
  toks = [] /\ lx' = lx''.
Proof.
  intros Hr (tok & Hn & Hk). inversion Hr; subst; simplify_eq; done.
Qed.

Lemma statement_tail_nil : statement_tail [].
Proof. split; [constructor|]. intros i t Hi. by rewrite lookup_nil in Hi. Qed.

Lemma statement_tail_cons t ts :
  statement_tail (t :: ts) <->
  forbidden_word t = None /\ (if is_punct t (chr ";") then ts = [] else statement_tail ts).
Proof.
  unfold statement_tail. rewrite Forall_cons. split.
  - intros [[Hf Hfs] Hs]. split; [done|]. destruct (is_punct t (chr ";")) eqn:E.
    + specialize (Hs 0%nat t eq_refl E). destruct ts; [done|simpl in Hs; lia].
    + split; [done|]. intros i u Hi Hu. specialize (Hs (S i) u Hi Hu). simpl in Hs. lia.
  - intros [Hf Hs]. destruct (is_punct t (chr ";")) eqn:E.
    + subst. split; [by repeat constructor|]. intros [|i] u; simpl; [done|]. by rewrite lookup_nil.
    + destruct Hs as [Hfs Hs]. split; [done|]. intros [|i] u; simpl.
      * intros [= ->]. congruence.
      * intros Hi Hu. f_equal. by eapply Hs.
Qed.

(** ** The validator decides the predicate *)

Lemma finish_None lx words : finish lx words = None <-> depth lx = 0 /\ 2 <= words.
Proof.
  unfold finish. split.
  - destruct (depth lx =? 0) eqn:E1; simpl; [|done]. destruct (words <? 2) eqn:E2; [done|]. blia.
  - intros [-> Hw]. simpl. by replace (words <? 2) with false by (symmetry; apply Z.ltb_ge; lia).
Qed.

Lemma validate_loop_sound fuel lx words :
  validate_loop fuel lx words = None ->
  exists toks lx', lex_run lx toks lx' /\ depth lx' = 0 /\ statement_tail toks /\
                   2 <= words + zlen toks.
Proof.
  revert lx words. induction fuel as [|fuel IH]; intros lx words; cbn [validate_loop]; [done|].
  destruct (vms_lexer_next lx) as [[lx1 tok]|] eqn:En; [|done].
  destruct (decide (kind tok = TOK_END)) as [Hk|Hk].
  { intros [Hd Hw]%finish_None. exists [], lx1. autorewrite with vms_len.
    split_and!; [by econstructor|done|apply statement_tail_nil|lia]. }
  destruct (forbidden_word tok) eqn:Ef; [done|].
  destruct (is_punct tok (chr ";")) eqn:Ep.
  - destruct (vms_lexer_next lx1) as [[lx2 nxt]|] eqn:En2; [|done].
    destruct (decide (kind nxt = TOK_END)) as [Hk2|Hk2]; [|done].
    intros [Hd Hw]%finish_None. exists [tok], lx2. autorewrite with vms_len.
    split_and!; [|done| |lia].
    + eapply run_tok; [done|done|]. by econstructor.
    + apply statement_tail_cons. by rewrite Ep.
  - intros (toks & lx' & Hr & Hd & Ht & Hw)%IH. exists (tok :: toks), lx'. autorewrite with vms_len.
    split_and!; [by eapply run_tok|done| |lia]. apply statement_tail_cons. by rewrite Ep.
Qed.

Lemma validate_loop_complete fuel lx words toks lx' :
  (length (rest lx) < fuel)%nat -> lex_run lx toks lx' -> depth lx' = 0 ->
  statement_tail toks -> 2 <= words + zlen toks -> validate_loop fuel lx words = None.
Proof.
  intros Hf Hr. revert fuel words Hf.
  induction Hr as [lx lx' tok Hn Hk|lx lx1 lx' tok toks Hn Hk Hr IH];
    intros fuel words Hf Hd Ht Hw; (destruct fuel as [|fuel]; [lia|]); cbn [validate_loop]; rewrite Hn.
  - rewrite decide_True by done. apply finish_None. autorewrite with vms_len in Hw. split; [done|lia].
  - rewrite decide_False by done. apply statement_tail_cons in Ht as [-> Ht].
    autorewrite with vms_len in Hw. destruct (next_spec _ _ _ Hn) as (_ & Hlt & _). specialize (Hlt Hk).
    destruct (is_punct tok (chr ";")).
    + subst toks. inversion Hr as [? ? t2 Hn2 Hk2|]; subst. rewrite Hn2, decide_True by done.
      apply finish_None. autorewrite with vms_len in Hw. split; [done|lia].
    + apply IH; [lia|done|done|lia].
Qed.

(** The validator decides [read_only_query] within its length bounds. *)
Lemma validator_equiv q :
  vms_tsql_validate_query (Some q) = None <-> 1 <= zlen q <= 32768 /\ read_only_query q.
Proof.
  unfold vms_tsql_validate_query. destruct (decide (q = [])) as [->|Hq].
  { split; [done|]. intros [[H1 _] _]. unfold zlen in H1. simpl in H1. lia. }
  assert (1 <= zlen q) by (destruct q; [done|autorewrite with vms_len; pose proof (zlen_nonneg q); lia]).
  replace (match q with [] => _ | _ :: _ => _ end) with
    (if zlen q >? 32768 then Some (str "query too long")
     else match vms_lexer_next (vms_lexer_init (Some q)) with
          | None => Some (str "lex error at start")
          | Some (lx, tok) =>
              if starts_statement tok then validate_loop (S (length q)) lx 1
              else Some (str "query must start with SELECT or WITH")
          end) by (by destruct q).
  destruct (zlen q >? 32768) eqn:El; b2p; [split; [done|lia]|].
  split.
  - destruct (vms_lexer_next _) as [[lx1 tok]|] eqn:En; [|done].
    destruct (starts_statement tok) eqn:Es; [|done].
    intros (toks & lx' & Hr & Hd & Ht & Hw)%validate_loop_sound. split; [lia|].
    assert (Hrun : lex_run (vms_lexer_init (Some q)) (tok :: toks) lx').
    { eapply run_tok; [done| |done]. intros Hk. unfold starts_statement, is_punct, word_is in Es.
      by rewrite Hk in Es. }
    exists tok, toks, lx'. split_and!; [done|done| |done|].
    + intros ->. autorewrite with vms_len in Hw. lia.
    + apply lex_run_depth in Hrun. by rewrite Hd in Hrun.
  - intros (_ & t & ts & lx' & Hrun & Hs & Hne & Ht & Hd).
    pose proof (lex_run_depth _ _ _ Hrun) as Hd'. cbn [depth vms_lexer_init] in Hd'. rewrite Hd in Hd'.
    injection Hd' as Hd'. inversion Hrun as [|? lx1 ? ? ? Hn Hk Hr]; subst. rewrite Hn, Hs.
    destruct (next_spec _ _ _ Hn) as (_ & Hlt & _). specialize (Hlt Hk). cbn [rest vms_lexer_init] in Hlt.
    eapply validate_loop_complete; [simpl in *; lia|done|done|done|].
    destruct ts; [done|]. autorewrite with vms_len. pose proof (zlen_nonneg ts). lia.
Qed.


(** ** String literals are opaque *)

(** The body of a literal in which every quote is doubled. *)
Definition double_quotes (s : list Z) : list Z :=
  flat_map (fun c => if c =? chr "'" then [c; c] else [c]) s.

Lemma scan_string_doubled s r :
  match r with [] => True | c :: _ => c <> chr "'" end ->
  scan_string (double_quotes s ++ chr "'" :: r) = Some r.
Proof.
  intros Hr. unfold double_quotes. induction s as [|c s IH]; cbn [flat_map app scan_string].
  - rewrite Z.eqb_refl. destruct r as [|c r]; [done|].
    by replace (c =? chr "'") with false by (symmetry; by apply Z.eqb_neq).
  - destruct (c =? chr "'") eqn:E; cbn [app scan_string]; rewrite E; done.
Qed.

(** An N'...' literal whose quotes are doubled is one STRING token, whatever
    its contents, and the lexer continues right after it. *)
Lemma literal_is_one_token s r p d :
  match r with [] => True | c :: _ => c <> chr "'" end ->
  lex_token (str "N'" ++ double_quotes s ++ chr "'" :: r) p d =
  Some (mkLex r (p + (zlen (double_quotes s) + 3)) d,
        mkTok TOK_STRING p (zlen (double_quotes s) + 3) []).
Proof.
  intros Hr. change (str "N'") with [chr "N"; chr "'"]. cbn [app lex_token].
  change (chr "N" =? chr "[") with false. change (chr "N" =? chr "N") with true.
  cbn [peek tl]. rewrite Z.eqb_refl, orb_true_r. rewrite scan_string_doubled by done. unfold emit.
  autorewrite with vms_len. do 3 f_equal; [|f_equal]; lia.
Qed.

End Lexer.

(** ** Behaviour on concrete texts *)

Example validator_accepts :
  @vms_tsql_validate_query ascii_wctype (Some (str "select a, 'x;y' from [t u] where (b=1);")) = None.
Proof. vm_compute. reflexivity. Qed.

(** The header of the lexer promises that names beginning with XP are
    refused; the code has no such test. *)
Example validator_accepts_xp :
  @vms_tsql_validate_query ascii_wctype (Some (str "select xp_cmdshell, sp_executesql")) = None.
Proof. vm_compute. reflexivity. Qed.

Example validator_refuses_second_statement :
  @vms_tsql_validate_query ascii_wctype (Some (str "select 1; select 2")) =
  Some (str "multiple statements are not allowed").
Proof. vm_compute. reflexivity. Qed.
