(* ===== verification/Meta.v ===== *)
(** * Catalog metadata (src/src/vms_meta.c)

    The catalog queries, the row callbacks that fold their results into
    columns, the stable key and the trigger list, and the type registry.
    The answer of the client layer to a query is a parameter. *)

From S2P Require Import Prelude Client Identity.

(** ** The client layer as the catalog reader sees it *)

(** What [vms_stmt_exec_direct] and the following fetches deliver: an error
    on execution, or rows followed by the end or by a fetch error. *)
Inductive QueryResult : Type :=
| QExecError (e : VmsError)
| QRows (rows : list (list VmsValue)) (e : option VmsError).

Class SqlClient := { exec_direct : list Z -> QueryResult }.

(** Store through an error pointer that may be NULL. *)
Definition put_err (e : option VmsError) (v : VmsError) : option VmsError :=
  match e with None => None | Some _ => Some v end.

(** [vms_stmt_value]: NULL when the column is out of range. *)
Definition colv (row : list VmsValue) (i : nat) : option VmsValue := row !! i.

Definition copy_text (cap : Z) (v : option VmsValue) : list Z :=
  match v with Some (VAL_TEXT t) => trunc_copy cap t | _ => [] end.

Definition get_i64 (v : option VmsValue) (dflt : Z) : Z :=
  match v with Some (VAL_INT64 i) => i | _ => dflt end.

(** The fetch loop; [row] returns [None] where the callback returns 0. *)
Fixpoint fetch_rows {U} (row : U -> list VmsValue -> option U) (rows : list (list VmsValue))
    (user : U) : bool * U :=
  match rows with
  | [] => (true, user)
  | r :: rs => match row user r with None => (false, user) | Some u => fetch_rows row rs u end
  end.

Definition run_query `{SqlClient} {U} (sql : list Z) (row : U -> list VmsValue -> option U)
    (user : U) (err : option VmsError) : bool * U * option VmsError :=
  match exec_direct sql with
  | QExecError e => (false, user, put_err err e)
  | QRows rows fin =>
      let '(ok, u) := fetch_rows row rows user in
      if negb ok then (false, u, vms_error_ok err)
      else match fin with
           | Some e => (false, u, put_err err e)
           | None => (true, u, vms_error_ok err)
           end
  end.

(** ** Type registry *)

Definition one_of (t : list Z) (names : list string) : bool :=
  existsb (fun n => str_eqb t (str n)) names.

Definition vtype_from_sql_type (t : list Z) (max_len : Z) : VmsColType :=
  if one_of t ["bigint"; "int"; "smallint"; "tinyint"; "bit"]%string then CT_INT64
  else if one_of t ["float"; "real"]%string then CT_FLOAT64
  else if one_of t ["decimal"; "numeric"; "money"; "smallmoney"]%string then CT_DECIMAL
  else if one_of t ["date"; "time"; "datetime"; "datetime2"; "smalldatetime";
                    "datetimeoffset"]%string then CT_DATETIME
  else if one_of t ["uniqueidentifier"]%string then CT_GUID
  else if one_of t ["geometry"; "geography"]%string then CT_SPATIAL
  else if one_of t ["binary"; "varbinary"; "image"; "rowversion"; "timestamp"]%string then CT_BLOB
  else if one_of t ["nvarchar"; "nchar"; "ntext"; "varchar"; "char"; "text"; "xml"]%string then
    if (max_len =? 2 ^ 32 - 1) || (max_len =? 0) then CT_BIGTEXT else CT_TEXT
  else CT_UNSUPPORTED.

(** ** Query texts *)

(** [_snwprintf_s(buf, cap, _TRUNCATE, ...)] with two [%hs] arguments. *)
Definition fmt2 (cap : Z) (a : list Z) (x : list Z) (b : list Z) (y : list Z) (c : list Z) : list Z :=
  trunc_copy cap (a ++ x ++ b ++ y ++ c).

Definition quoted (nm : list Z) : list Z := default [] (vms_meta_quote_ident nm 300).

Definition and_name : list Z := str " AND o.name = ".

Definition kind_sql (schema nm : list Z) : list Z :=
  fmt2 512 (str "SELECT CASE o.type WHEN N'U' THEN 1 WHEN N'V' THEN 2 ELSE 0 END FROM sys.objects o JOIN sys.schemas s ON s.schema_id = o.schema_id WHERE s.name = ")
    (quoted schema) and_name (quoted nm) [].

Definition columns_sql (schema nm : list Z) : list Z :=
  fmt2 1024 (str "SELECT c.name, t.name, c.max_length, c.precision, c.scale, c.is_nullable, c.is_identity, c.is_computed FROM sys.columns c JOIN sys.types t ON t.user_type_id = c.user_type_id JOIN sys.objects o ON o.object_id = c.object_id JOIN sys.schemas s ON s.schema_id = o.schema_id WHERE s.name = ")
    (quoted schema) and_name (quoted nm) (str " ORDER BY c.column_id").

Definition key_select : list Z :=
  str "SELECT i.index_id, i.is_primary_key, CASE WHEN i.is_disabled = 0 AND i.is_hypothetical = 0       AND i.has_filter = 0       AND NOT EXISTS (SELECT 1 FROM sys.index_columns ic2                       JOIN sys.columns c2 ON c2.object_id = ic2.object_id                                         AND c2.column_id = ic2.column_id                       WHERE ic2.object_id = i.object_id                         AND ic2.index_id = i.index_id                         AND ic2.key_ordinal > 0                         AND (c2.is_nullable = 1 OR c2.is_computed = 1))      THEN 1 ELSE 0 END, ic.key_ordinal, c.name, t.name, c.max_length, i.name FROM sys.indexes i JOIN sys.index_columns ic ON ic.object_id = i.object_id AND ic.index_id = i.index_id JOIN sys.columns c ON c.object_id = ic.object_id AND c.column_id = ic.column_id JOIN sys.types t ON t.user_type_id = c.user_type_id JOIN sys.objects o ON o.object_id = i.object_id JOIN sys.schemas s ON s.schema_id = o.schema_id WHERE s.name = ".

Definition key_tail : list Z := str " AND i.is_unique = 1 ORDER BY i.index_id, ic.key_ordinal".

Definition key_sql (schema nm : list Z) : list Z :=
  fmt2 1280 key_select (quoted schema) and_name (quoted nm) key_tail.

Definition triggers_sql (schema nm : list Z) : list Z :=
  fmt2 1024 (str "SELECT tr.name, tr.is_disabled FROM sys.triggers tr JOIN sys.objects o ON o.object_id = tr.parent_id JOIN sys.schemas s ON s.schema_id = o.schema_id WHERE s.name = ")
    (quoted schema) and_name (quoted nm) [].

(** ** Object kind *)

Inductive VmsObjKind : Type := OBJ_ABSENT | OBJ_TABLE | OBJ_VIEW.

Definition kind_row (_ : VmsObjKind) (st : list VmsValue) : option VmsObjKind :=
  let k := get_i64 (colv st 0) 0 in
  Some (if k =? 1 then OBJ_TABLE else if k =? 2 then OBJ_VIEW else OBJ_ABSENT).

Definition names_ok (schema nm : option (list Z)) : bool :=
  vms_meta_ident_valid schema VMS_META_MAX_NAME && vms_meta_ident_valid nm VMS_META_MAX_NAME.

Definition invalid_identifier (err : option VmsError) : option VmsError :=
  vms_error_set err VMS_ERR_INVALID_ARG None 0 (fun _ => str "invalid identifier").

Section Operations.
Context `{SqlClient}.

Definition vms_meta_object_kind (schema nm : option (list Z)) (err : option VmsError) :
    VmsObjKind * option VmsError :=
  if negb (names_ok schema nm) then (OBJ_ABSENT, invalid_identifier err)
  else
    let '(ok, k, e) := run_query (kind_sql (default [] schema) (default [] nm)) kind_row OBJ_ABSENT err in
    (if ok then k else OBJ_ABSENT, e).

(** ** Columns *)

(** The table's columns: the array up to its count. *)
Definition VmsTableColumns : Type := list VmsMetaColumn.

Definition cols_row (out : VmsTableColumns) (st : list VmsValue) : option VmsTableColumns :=
  if zlen out >=? VMS_META_MAX_COLUMNS then None
  else
    let tn := copy_text 64 (colv st 1) in
    let ml := wrap_u32 (get_i64 (colv st 2) 0) in
    Some (out ++ [mkCol (copy_text VMS_META_MAX_NAME (colv st 0)) (trunc_copy 64 tn)
                        (vtype_from_sql_type tn ml)
                        (wrap_i32 (get_i64 (colv st 5) 0)) (wrap_i32 (get_i64 (colv st 6) 0))
                        (wrap_i32 (get_i64 (colv st 7) 0)) ml
                        (wrap_u8 (get_i64 (colv st 3) 0)) (wrap_u8 (get_i64 (colv st 4) 0))]).

(** [dup_ok] is the outcome of duplicating the query text. *)
Definition vms_meta_columns (dup_ok : bool) (schema nm : option (list Z)) (out : VmsTableColumns)
    (err : option VmsError) : bool * VmsTableColumns * option VmsError :=
  if negb (names_ok schema nm) then (false, out, invalid_identifier err)
  else if negb dup_ok then
    (false, out, vms_error_set err VMS_ERR_NO_MEMORY None 0 (fun _ => str "OOM meta query"))
  else run_query (columns_sql (default [] schema) (default [] nm)) cols_row [] err.

(** ** Stable key *)

Definition key_col_zero : VmsKeyColumn := mkKeyCol [] CT_INT64.
Definition key_zero : VmsStableKey := mkKey [] false 0 (replicate 16 key_col_zero).

Record KeyCtx := mkKeyCtx {
  best : VmsStableKey;
  current : VmsStableKey;
  current_index_id : Z;
  current_suitable : bool;
  have_best : bool
}.

Definition ctx_zero : KeyCtx := mkKeyCtx key_zero key_zero 0 false false.

Definition key_finish_current (k : KeyCtx) : KeyCtx :=
  if current_index_id k =? 0 then k
  else
    let better :=
      (current_suitable k && (part_count (current k) >? 0)) &&
      (if negb (have_best k) then true
       else is_primary_key (current k) && negb (is_primary_key (best k))) in
    mkKeyCtx (if better then current k else best k) key_zero 0 false
             (if better then true else have_best k).

Definition set_part (key : VmsStableKey) (ordinal : Z) (c : VmsKeyColumn) : VmsStableKey :=
  mkKey (index_name key) (is_primary_key key)
        (if ordinal >? part_count key then wrap_i32 ordinal else part_count key)
        (<[Z.to_nat (ordinal - 1) := c]> (parts key)).

Definition key_row (k0 : KeyCtx) (st : list VmsValue) : option KeyCtx :=
  let index_id := get_i64 (colv st 0) 0 in
  let is_pk := get_i64 (colv st 1) 0 in
  let suitable := get_i64 (colv st 2) 0 in
  let ordinal := get_i64 (colv st 3) 0 in
  let col_name := copy_text VMS_META_MAX_NAME (colv st 4) in
  let tn := copy_text 64 (colv st 5) in
  let vt := vtype_from_sql_type tn (wrap_u32 (get_i64 (colv st 6) 0)) in
  let k :=
    if index_id =? current_index_id k0 then k0
    else
      let f := key_finish_current k0 in
      mkKeyCtx (best f)
        (mkKey (copy_text VMS_META_MAX_NAME (colv st 7)) (is_pk =? 1)
               (part_count (current f)) (parts (current f)))
        index_id (suitable =? 1) (have_best f) in
  if negb (current_suitable k) then Some k
  else if (ordinal <? 1) || (ordinal >? VMS_META_MAX_KEY_PARTS) then
    Some (mkKeyCtx (best k) (current k) (current_index_id k) false (have_best k))
  else
    Some (mkKeyCtx (best k)
            (set_part (current k) ordinal (mkKeyCol (trunc_copy VMS_META_MAX_NAME col_name) vt))
            (current_index_id k) (current_suitable k) (have_best k)).

(** The key is stored through [out] only on success. *)
Definition vms_meta_stable_key (schema nm : option (list Z)) (err : option VmsError) :
    option VmsStableKey * option VmsError :=
  if negb (names_ok schema nm) then (None, invalid_identifier err)
  else
    let '(ok, k, e) := run_query (key_sql (default [] schema) (default [] nm)) key_row ctx_zero err in
    let k := key_finish_current k in
    (if negb ok then None else if negb (have_best k) then None else Some (best k), e).

(** ** Triggers *)

Record VmsTriggerList := mkTrig { tnames : list (list Z); tevents : list (list Z) }.

Definition trig_row (c : VmsTriggerList) (st : list VmsValue) : option VmsTriggerList :=
  if zlen (tnames c) >=? 16 then None
  else Some (mkTrig (tnames c ++ [copy_text VMS_META_MAX_NAME (colv st 0)])
                    (tevents c ++ [copy_text 32 (colv st 1)])).

Definition vms_meta_triggers (schema nm : option (list Z)) (out : VmsTriggerList)
    (err : option VmsError) : bool * VmsTriggerList * option VmsError :=
  if negb (names_ok schema nm) then (false, out, invalid_identifier err)
  else run_query (triggers_sql (default [] schema) (default [] nm)) trig_row (mkTrig [] []) err.

End Operations.

(** ** The stable key selection as a specification *)

(** The unique indexes of the object as the query lists them: one group of
    rows per index, included columns (key ordinal 0) before the key columns
    in key order. *)
Record CatalogColumn := mkCatCol { cc_name : list Z; cc_type : list Z; cc_max_length : Z }.

Record UniqueIndex := mkIndex {
  ix_id : Z;
  ix_primary : bool;
  ix_suitable : bool;
  ix_name : list Z;
  ix_included : list CatalogColumn;
  ix_keys : list CatalogColumn
}.

Definition b2z (b : bool) : Z := if b then 1 else 0.

Definition index_row (g : UniqueIndex) (ordinal : Z) (c : CatalogColumn) : list VmsValue :=
  [VAL_INT64 (ix_id g); VAL_INT64 (b2z (ix_primary g)); VAL_INT64 (b2z (ix_suitable g));
   VAL_INT64 ordinal; VAL_TEXT (cc_name c); VAL_TEXT (cc_type c); VAL_INT64 (cc_max_length c);
   VAL_TEXT (ix_name g)].

Fixpoint numbered_rows (g : UniqueIndex) (ordinal : Z) (cs : list CatalogColumn) : list (list VmsValue) :=
  match cs with
  | [] => []
  | c :: cs' => index_row g ordinal c :: numbered_rows g (ordinal + 1) cs'
  end.

Definition index_rows (g : UniqueIndex) : list (list VmsValue) :=
  map (index_row g 0) (ix_included g) ++ numbered_rows g 1 (ix_keys g).

Definition key_column (c : CatalogColumn) : VmsKeyColumn :=
  mkKeyCol (trunc_copy 128 (cc_name c))
           (vtype_from_sql_type (trunc_copy 64 (cc_type c)) (wrap_u32 (cc_max_length c))).

Definition pad16 (cs : list VmsKeyColumn) : list VmsKeyColumn :=
  cs ++ replicate (16 - length cs) key_col_zero.

(** The key an index contributes, if it can identify rows. *)
Definition index_key (g : UniqueIndex) : option VmsStableKey :=
  match ix_included g, ix_keys g with
  | [], _ :: _ =>
      if ix_suitable g && (zlen (ix_keys g) <=? 16)
      then Some (mkKey (trunc_copy 128 (ix_name g)) (ix_primary g) (zlen (ix_keys g))
                       (pad16 (map key_column (ix_keys g))))
      else None
  | _, _ => None
  end.

(** The first usable primary key, otherwise the first usable index. *)
Definition select_key (gs : list UniqueIndex) : option VmsStableKey :=
  let cands := omap index_key gs in
  match filter (fun k => is_primary_key k = true) cands with
  | k :: _ => Some k
  | [] => head cands
  end.

Definition merge_key (b c : option VmsStableKey) : option VmsStableKey :=
  match c, b with
  | None, _ => b
  | Some c, None => Some c
  | Some c, Some b => if is_primary_key c && negb (is_primary_key b) then Some c else Some b
  end.

Definition select_from (b : option VmsStableKey) (ks : list VmsStableKey) : option VmsStableKey :=
  match b with
  | Some b => if is_primary_key b then Some b
              else match filter (fun k => is_primary_key k = true) ks with k :: _ => Some k | [] => Some b end
  | None => match filter (fun k => is_primary_key k = true) ks with k :: _ => Some k | [] => head ks end
  end.

Lemma merge_all gs b :
  foldl (fun b g => merge_key b (index_key g)) b gs = select_from b (omap index_key gs).
Proof.
  revert b; induction gs as [|g gs IH]; intros b; simpl.
  - destruct b as [b|]; simpl; [by destruct (is_primary_key b)|done].
  - rewrite IH. destruct (index_key g) as [c|]; simpl; [|done].
    destruct b as [b|]; simpl.
    + destruct (is_primary_key b) eqn:Eb; simpl; rewrite ?andb_false_r, ?andb_true_r; simpl; rewrite ?Eb; [done|].
      rewrite filter_cons. by destruct (is_primary_key c) eqn:Ec; simpl; rewrite ?Ec, ?Eb.
    + rewrite filter_cons. by destruct (is_primary_key c).
Qed.

(** ** The row fold computes the specification *)

(** What the context stands for: the best key once the open index is closed. *)
Definition kctx_best (k : KeyCtx) : option VmsStableKey :=
  let f := key_finish_current k in if have_best f then Some (best f) else None.

Definition kctx_ok (k : KeyCtx) : Prop := current_index_id k = 0 -> current k = key_zero.

Definition key_rows (k : KeyCtx) (rows : list (list VmsValue)) : bool * KeyCtx := fetch_rows key_row rows k.

Definition index_start (k : KeyCtx) (g : UniqueIndex) : KeyCtx :=
  let f := key_finish_current k in
  mkKeyCtx (best f) (mkKey (trunc_copy 128 (ix_name g)) (ix_primary g) 0 (replicate 16 key_col_zero))
           (ix_id g) (ix_suitable g) (have_best f).

Lemma b2z_eqb b : (b2z b =? 1) = b.
Proof. by destruct b. Qed.

Lemma finish_current k : kctx_ok k -> current (key_finish_current k) = key_zero.
Proof.
  unfold kctx_ok, key_finish_current. destruct (current_index_id k =? 0) eqn:E; [b2p; auto|done].
Qed.

Lemma key_row_first k g o c :
  kctx_ok k -> current_index_id k <> ix_id g ->
  key_row k (index_row g o c) = key_row (index_start k g) (index_row g o c).
Proof.
  intros Hok Hid. unfold key_row, index_row. cbn [colv get_i64 lookup list_lookup].
  cbn [index_start current_index_id]. rewrite Z.eqb_refl.
  destruct (ix_id g =? current_index_id k) eqn:E; [b2p; congruence|].
  rewrite (finish_current k Hok), !b2z_eqb. done.
Qed.

(** Rows of the open index. *)
Lemma key_row_same k g o c :
  current_index_id k = ix_id g ->
  key_row k (index_row g o c) = Some
    (if current_suitable k then
       if (o <? 1) || (o >? 16)
       then mkKeyCtx (best k) (current k) (ix_id g) false (have_best k)
       else mkKeyCtx (best k) (set_part (current k) o (key_column c)) (ix_id g) true (have_best k)
     else k).
Proof.
  intros Hid. unfold key_row, index_row. cbn [colv get_i64 lookup list_lookup copy_text].
  rewrite Hid, Z.eqb_refl. destruct (current_suitable k) eqn:Es; simpl; [|done].
  unfold VMS_META_MAX_KEY_PARTS. destruct ((o <? 1) || (o >? 16)); rewrite ?Hid, ?Es; [done|].
  unfold key_column, trunc_copy, VMS_META_MAX_NAME. by rewrite take_take, Nat.min_id.
Qed.

Lemma rows_unsuitable k g rows :
  current_index_id k = ix_id g -> current_suitable k = false ->
  Forall (fun r => exists o c, r = index_row g o c) rows ->
  key_rows k rows = (true, k).
Proof.
  intros Hid Hs. unfold key_rows. induction 1 as [|r rows (o & c & ->) _ IH]; [done|].
  cbn [fetch_rows]. by rewrite key_row_same, Hs by done.
Qed.

Lemma numbered_rows_shape g o cs : Forall (fun r => exists o c, r = index_row g o c) (numbered_rows g o cs).
Proof. revert o; induction cs; intros o; simpl; constructor; eauto. Qed.

Lemma pad16_snoc cs c :
  (length cs < 16)%nat -> <[length cs := c]> (pad16 cs) = pad16 (cs ++ [c]).
Proof.
  intros Hl. unfold pad16. rewrite insert_app_r_alt, Nat.sub_diag, length_app by lia.
  replace (16 - length cs)%nat with (S (16 - (length cs + length [c]))) by (simpl; lia).
  simpl. by rewrite <- app_assoc.
Qed.

(** Key columns [done ++ cs], of which [done] have been stored. *)
Lemma rows_keys g cs : forall dn b hb,
  (length dn <= 16)%nat ->
  exists k', key_rows (mkKeyCtx b (mkKey (trunc_copy 128 (ix_name g)) (ix_primary g) (zlen dn) (pad16 dn))
                                (ix_id g) true hb)
                      (numbered_rows g (zlen dn + 1) cs) = (true, k') /\
  best k' = b /\ have_best k' = hb /\ current_index_id k' = ix_id g /\
  if zlen dn + zlen cs <=? 16
  then current_suitable k' = true /\
       current k' = mkKey (trunc_copy 128 (ix_name g)) (ix_primary g) (zlen dn + zlen cs)
                          (pad16 (dn ++ map key_column cs))
  else current_suitable k' = false.
Proof.
  induction cs as [|c cs IH]; intros dn b hb Hl.
  { eexists. split; [done|]. autorewrite with vms_len. rewrite Z.add_0_r.
    replace (zlen dn <=? 16) with true by (symmetry; apply Z.leb_le; unfold zlen; lia).
    simpl. by rewrite app_nil_r. }
  cbn [numbered_rows]. unfold key_rows. cbn [fetch_rows]. rewrite key_row_same by done.
  cbn [current_suitable best have_best current].
  pose proof (zlen_nonneg dn). pose proof (zlen_nonneg cs). autorewrite with vms_len.
  destruct ((zlen dn + 1 <? 1) || (zlen dn + 1 >? 16)) eqn:Eo.
  - eexists. split; [by apply (rows_unsuitable _ g); [..|apply numbered_rows_shape]|]. simpl.
    replace (zlen dn + (zlen cs + 1) <=? 16) with false; [done|]. symmetry; apply Z.leb_gt.
    b2p. destruct Eo; blia.
  - b2p. specialize (IH (dn ++ [key_column c]) b hb). unfold set_part. cbn [index_name is_primary_key part_count parts].
    replace (Z.to_nat (zlen dn + 1 - 1)) with (length dn) by (unfold zlen; lia).
    rewrite pad16_snoc by (unfold zlen in *; lia).
    replace (zlen dn + 1 >? zlen dn) with true by (symmetry; apply Z.gtb_lt; lia).
    replace (wrap_i32 (zlen dn + 1)) with (zlen dn + 1) by (unfold wrap_i32; rewrite Z.mod_small; lia).
    autorewrite with vms_len in IH. rewrite Z.add_0_l in IH.
    destruct IH as (k' & Hr & Hb & Hh & Hi & Hc); [rewrite length_app; unfold zlen in *; simpl; lia|].
    exists k'. split; [exact Hr|]. split_and!; [done..|].
    replace (zlen dn + (zlen cs + 1)) with (zlen dn + 1 + zlen cs) by lia.
    cbn [map]. by rewrite <- app_assoc in Hc.
Qed.

Lemma fetch_rows_app {U} row (r1 r2 : list (list VmsValue)) (u u' : U) :
  fetch_rows row r1 u = (true, u') -> fetch_rows row (r1 ++ r2) u = fetch_rows row r2 u'.
Proof.
  revert u; induction r1 as [|r r1 IH]; intros u; simpl; [by intros [= ->]|].
  destruct (row u r); [apply IH|done].
Qed.

Lemma kctx_best_open k :
  current_index_id k <> 0 ->
  kctx_best k = merge_key (if have_best k then Some (best k) else None)
                  (if current_suitable k && (part_count (current k) >? 0) then Some (current k) else None).
Proof.
  intros Hid. unfold kctx_best, key_finish_current.
  destruct (current_index_id k =? 0) eqn:E; [b2p; done|].
  destruct (current_suitable k && _); simpl; [|done].
  destruct (have_best k); simpl; [|done]. by destruct (_ && _).
Qed.

Lemma have_best_start k g :
  (if have_best (index_start k g) then Some (best (index_start k g)) else None) = kctx_best k.
Proof. done. Qed.

(** All rows of one index, from the state in which it was opened. *)
Lemma index_rows_run k g :
  index_rows g <> [] -> ix_id g <> 0 ->
  exists k', key_rows (index_start k g) (index_rows g) = (true, k') /\
             current_index_id k' = ix_id g /\
             kctx_best k' = merge_key (kctx_best k) (index_key g).
Proof.
  intros Hne Hid. unfold index_rows in *. rewrite <- (have_best_start k g).
  set (s := index_start k g). destruct (ix_suitable g) eqn:Es; cycle 1.
  { exists s. split_and!; [|done|].
    - apply (rows_unsuitable _ g); [done..|]. apply Forall_app; split; [|apply numbered_rows_shape].
      apply Forall_map, Forall_true. eauto.
    - rewrite kctx_best_open by done. cbn [s index_start current_suitable]. rewrite Es. simpl.
      unfold index_key. rewrite Es. by destruct (ix_included g), (ix_keys g). }
  destruct (ix_included g) as [|c inc] eqn:Ei.
  - simpl. destruct (rows_keys g (ix_keys g) [] (best s) (have_best s) ltac:(simpl; lia))
      as (k' & Hr & Hb & Hh & Hi & Hc).
    exists k'. split_and!; [|done|].
    + rewrite <- Hr. unfold s, index_start. by rewrite Es.
    + rewrite kctx_best_open, Hb, Hh by congruence. autorewrite with vms_len in Hc. rewrite Z.add_0_l in Hc.
      unfold index_key. rewrite Ei, Es. destruct (ix_keys g) as [|c cs] eqn:Ek.
      * simpl in Hne. done.
      * rewrite <- Ek in *. cbn [andb]. destruct (zlen (ix_keys g) <=? 16).
        -- destruct Hc as [-> ->]. cbn [part_count andb app].
           replace (zlen (ix_keys g) >? 0) with true; [done|]. symmetry. apply Z.gtb_lt.
           rewrite Ek. autorewrite with vms_len. pose proof (zlen_nonneg cs). lia.
        -- by rewrite Hc.
  - eexists. split_and!.
    + unfold key_rows. cbn [map app fetch_rows]. rewrite key_row_same by done.
      cbn [s index_start current_suitable]. rewrite Es. cbn [Z.ltb Z.compare orb].
      apply (rows_unsuitable _ g); [done..|]. apply Forall_app; split; [|apply numbered_rows_shape].
      apply Forall_map, Forall_true. eauto.
    + done.
    + rewrite kctx_best_open by done. simpl. unfold index_key. by rewrite Ei.
Qed.

Lemma key_rows_group k g :
  kctx_ok k -> current_index_id k <> ix_id g -> ix_id g <> 0 ->
  exists k', key_rows k (index_rows g) = (true, k') /\ kctx_ok k' /\
             (current_index_id k' = ix_id g \/ current_index_id k' = current_index_id k) /\
             kctx_best k' = merge_key (kctx_best k) (index_key g).
Proof.
  intros Hok Hne Hid. destruct (index_rows g) as [|r rs] eqn:Er.
  { exists k. split_and!; [done|done|by right|]. unfold index_rows in Er. unfold index_key.
    destruct (ix_included g); [|done]. by destruct (ix_keys g). }
  destruct (index_rows_run k g) as (k' & Hr & Hi & Hb); [by rewrite Er|done|].
  exists k'. split_and!; [|congruence|by left|done]. rewrite Er in Hr. rewrite <- Hr.
  assert (exists o c, r = index_row g o c) as (o & c & ->).
  { unfold index_rows in Er. destruct (ix_included g) as [|c inc]; simpl in Er.
    - destruct (ix_keys g); simplify_eq/=. eauto.
    - injection Er as <- _. eauto. }
  unfold key_rows. cbn [fetch_rows]. rewrite key_row_first by done.
  by rewrite key_row_same by done.
Qed.

Lemma key_rows_all gs : forall k,
  kctx_ok k -> Forall (fun g => ix_id g <> 0) gs -> NoDup (map ix_id gs) ->
  current_index_id k ∉ map ix_id gs ->
  exists k', key_rows k (flat_map index_rows gs) = (true, k') /\
             kctx_best k' = foldl (fun b g => merge_key b (index_key g)) (kctx_best k) gs.
Proof.
  induction gs as [|g gs IH]; intros k Hok Hnz Hnd Hni; [by exists k|].
  inversion Hnz; inversion Hnd; subst. cbn [map] in Hni. apply not_elem_of_cons in Hni as [Hni1 Hni2].
  destruct (key_rows_group k g) as (k1 & Hr & Hok1 & Hi & Hb); [done..|].
  destruct (IH k1) as (k' & Hr' & Hb'); [done..| |].
  { destruct Hi as [Hi|Hi]; rewrite Hi; done. }
  exists k'. split; [|by rewrite Hb', Hb]. cbn [flat_map]. unfold key_rows in *.
  by rewrite (fetch_rows_app _ _ _ _ _ Hr).
Qed.

(** [C38]: when the catalog lists the unique indexes [gs] of the object, with
    distinct nonzero index ids, the stable key is the first usable primary
    key and otherwise the first usable unique index, where an index is usable
    when the query marked it suitable, it has 1 to 16 key columns and no
    included column; the parts are its key columns in key order with their
    registry types, the remaining slots zero. *)
Theorem stable_key_selects `{SqlClient} schema nm err gs :
  names_ok (Some schema) (Some nm) = true ->
  exec_direct (key_sql schema nm) = QRows (flat_map index_rows gs) None ->
  Forall (fun g => ix_id g <> 0) gs -> NoDup (map ix_id gs) ->
  vms_meta_stable_key (Some schema) (Some nm) err = (select_key gs, vms_error_ok err).
Proof.
  intros Hn Hq Hnz Hnd. unfold vms_meta_stable_key, run_query. rewrite Hn. cbn [negb from_option id].
  rewrite Hq. destruct (key_rows_all gs ctx_zero) as (k' & Hr & Hb); [done|done|done| |].
  { simpl. intros (g & Hg1 & Hg2)%list_elem_of_fmap. rewrite Forall_forall in Hnz. by apply (Hnz g). }
  unfold key_rows in Hr. rewrite Hr. cbn [negb]. f_equal.
  transitivity (kctx_best k'); [|rewrite Hb, merge_all; done].
  unfold kctx_best. by destruct (have_best _).
Qed.

(** A server that answers every query with the rows of two indexes: a unique
    one on one column, and a primary key on two. *)
Definition demo_indexes : list UniqueIndex :=
  [mkIndex 2 false true (str "UX") [] [mkCatCol (str "code") (str "nvarchar") 40];
   mkIndex 5 true true (str "PK") []
     [mkCatCol (str "a") (str "int") 4; mkCatCol (str "b") (str "xml") (-1)]].

Definition demo_client : SqlClient := {| exec_direct := fun _ => QRows (flat_map index_rows demo_indexes) None |}.

Lemma stable_key_selects_witness :
  fst (@vms_meta_stable_key demo_client (Some (str "dbo")) (Some (str "t")) None) =
  Some (mkKey (str "PK") true 2
          (pad16 [mkKeyCol (str "a") CT_INT64; mkKeyCol (str "b") CT_BIGTEXT])).
Proof.
  rewrite (@stable_key_selects demo_client (str "dbo") (str "t") None demo_indexes).
  - vm_compute. reflexivity.
  - vm_compute. reflexivity.
  - reflexivity.
  - repeat constructor; simpl; lia.
  - apply (bool_decide_unpack _). vm_compute. exact I.
Defined.

(** ** Columns *)

Definition column_of_row (st : list VmsValue) : VmsMetaColumn :=
  let ml := wrap_u32 (get_i64 (colv st 2) 0) in
  mkCol (copy_text 128 (colv st 0)) (copy_text 64 (colv st 1))
        (vtype_from_sql_type (copy_text 64 (colv st 1)) ml)
        (wrap_i32 (get_i64 (colv st 5) 0)) (wrap_i32 (get_i64 (colv st 6) 0))
        (wrap_i32 (get_i64 (colv st 7) 0)) ml
        (wrap_u8 (get_i64 (colv st 3) 0)) (wrap_u8 (get_i64 (colv st 4) 0)).

(** A column as the structure can hold it, its type the registry's. *)
Definition column_wf (c : VmsMetaColumn) : Prop :=
  zlen (name c) <= 127 /\ zlen (type_name c) <= 63 /\
  in_u32 (max_length c) /\ in_u8 (precision c) /\ in_u8 (scale c) /\
  vtype c = vtype_from_sql_type (type_name c) (max_length c).

Lemma trunc_copy_length cap s : 1 <= cap -> zlen (trunc_copy cap s) <= cap - 1.
Proof. intros. unfold trunc_copy, zlen. rewrite length_take. lia. Qed.

Lemma copy_text_length cap v : 1 <= cap -> zlen (copy_text cap v) <= cap - 1.
Proof. intros. destruct v as [[]|]; simpl; try (rewrite zlen_nil; lia). by apply trunc_copy_length. Qed.

Lemma column_of_row_wf st : column_wf (column_of_row st).
Proof.
  unfold column_wf, column_of_row. cbn [name type_name max_length precision scale vtype].
  pose proof (copy_text_length 128 (colv st 0)). pose proof (copy_text_length 64 (colv st 1)).
  unfold in_u32, in_u8, wrap_u32, wrap_u8.
  split_and!; try lia; try done; apply Z.mod_pos_bound; lia.
Qed.

Lemma cols_row_step out st :
  cols_row out st = if zlen out >=? 512 then None else Some (out ++ [column_of_row st]).
Proof.
  unfold cols_row, VMS_META_MAX_COLUMNS, VMS_META_MAX_NAME. destruct (_ >=? _); [done|].
  unfold column_of_row. do 4 f_equal. apply trunc_copy_fits.
  pose proof (copy_text_length 64 (colv st 1)). lia.
Qed.

Lemma cols_rows_run rows out :
  zlen out <= 512 ->
  fetch_rows cols_row rows out =
  (zlen out + zlen rows <=? 512, out ++ map column_of_row (take (512 - length out) rows)).
Proof.
  revert out; induction rows as [|r rows IH]; intros out Ho.
  { rewrite take_nil. simpl. rewrite app_nil_r. f_equal. symmetry. apply Z.leb_le. rewrite zlen_nil. lia. }
  cbn [fetch_rows]. rewrite cols_row_step. pose proof (zlen_nonneg rows).
  destruct (zlen out >=? 512) eqn:E; b2p.
  - replace (512 - length out)%nat with 0%nat by (unfold zlen in *; lia). simpl. rewrite app_nil_r.
    f_equal. symmetry. apply Z.leb_gt. autorewrite with vms_len. lia.
  - rewrite IH by (autorewrite with vms_len; lia). autorewrite with vms_len. rewrite length_app.
    replace (512 - length out)%nat with (S (512 - (length out + length [column_of_row r])))
      by (unfold zlen in *; simpl; lia).
    simpl. rewrite <- app_assoc. f_equal. f_equal. lia.
Qed.

(** When the query for the columns delivers [rows], the operation
    succeeds exactly when there are at most 512 of them, and the table then
    has one column per row, in the server's order; every stored column fits
    its structure and carries the registry type of its own type name and
    length. *)
Theorem columns_follow_catalog `{SqlClient} schema nm out err rows :
  names_ok (Some schema) (Some nm) = true ->
  exec_direct (columns_sql schema nm) = QRows rows None ->
  let cols := map column_of_row (take 512 rows) in
  vms_meta_columns true (Some schema) (Some nm) out err = (zlen rows <=? 512, cols, vms_error_ok err) /\
  Forall column_wf cols /\ (zlen rows <= 512 -> length cols = length rows).
Proof.
  intros Hn Hq cols. split_and!.
  - unfold vms_meta_columns, run_query. rewrite Hn. cbn [negb from_option id]. rewrite Hq.
    rewrite cols_rows_run by (rewrite zlen_nil; lia). rewrite zlen_nil, Z.add_0_l.
    by destruct (zlen rows <=? 512).
  - apply Forall_map, Forall_true. intros. apply column_of_row_wf.
  - intros Hl. unfold cols. rewrite length_map, length_take. unfold zlen in Hl. lia.
Qed.

Definition one_column_client : SqlClient :=
  {| exec_direct := fun _ =>
       QRows [[VAL_TEXT (str "id"); VAL_TEXT (str "nvarchar"); VAL_INT64 (-1); VAL_INT64 0; VAL_INT64 0;
               VAL_INT64 1; VAL_INT64 0; VAL_INT64 0]] None |}.

Lemma columns_follow_catalog_witness :
  snd (fst (@vms_meta_columns one_column_client true (Some (str "dbo")) (Some (str "t")) [] None)) =
  [mkCol (str "id") (str "nvarchar") CT_BIGTEXT 1 0 0 4294967295 0 0].
Proof.
  destruct (@columns_follow_catalog one_column_client (str "dbo") (str "t") [] None
    [[VAL_TEXT (str "id"); VAL_TEXT (str "nvarchar"); VAL_INT64 (-1); VAL_INT64 0; VAL_INT64 0;
      VAL_INT64 1; VAL_INT64 0; VAL_INT64 0]]) as [-> _].
  - vm_compute. reflexivity.
  - reflexivity.
  - vm_compute. reflexivity.
Defined.

(** ** Query texts fit their buffers *)

Definition literal (nm : list Z) : list Z := str "N'" ++ nm ++ str "'".

Lemma quoted_valid nm : vms_meta_ident_valid (Some nm) 128 = true -> quoted nm = literal nm.
Proof. intros Hv. unfold quoted. by rewrite quote_ident_valid. Qed.

Lemma trunc_copy_iff cap s : 1 <= cap -> trunc_copy cap s = s <-> zlen s < cap.
Proof.
  intros. split; [|apply trunc_copy_fits]. intros E. apply (f_equal zlen) in E.
  pose proof (trunc_copy_length cap s). lia.
Qed.

Lemma literal_length nm : zlen (literal nm) = zlen nm + 3.
Proof. unfold literal. rewrite !zlen_app. change (zlen (str "N'")) with 2. change (zlen (str "'")) with 1. lia. Qed.

(** For valid identifiers the schema and object name enter each catalog
    query as N'...' literals, and the column query is never cut; the query
    for the stable key is complete exactly when the two names have at most
    226 characters together (its buffer of 1280 units cuts the ORDER BY
    clause of longer ones). *)
Theorem catalog_queries_complete schema nm :
  names_ok (Some schema) (Some nm) = true ->
  (exists a b, columns_sql schema nm = a ++ literal schema ++ and_name ++ literal nm ++ b /\
               b = str " ORDER BY c.column_id") /\
  (key_sql schema nm = key_select ++ literal schema ++ and_name ++ literal nm ++ key_tail <->
   zlen schema + zlen nm <= 226).
Proof.
  unfold names_ok. intros [Hs Hn]%andb_prop. unfold VMS_META_MAX_NAME in *.
  pose proof Hs as (_ & Hls & _)%ident_valid_spec. pose proof Hn as (_ & Hln & _)%ident_valid_spec.
  split.
  - eexists _, _. split; [|reflexivity]. unfold columns_sql, fmt2. rewrite !quoted_valid by done.
    apply trunc_copy_fits. rewrite !zlen_app, !literal_length.
    match goal with |- ?a + _ < _ => let v := eval vm_compute in a in change a with v end.
    change (zlen and_name) with 14. change (zlen (str " ORDER BY c.column_id")) with 21. lia.
  - unfold key_sql, fmt2. rewrite !quoted_valid by done. rewrite trunc_copy_iff by lia.
    rewrite !zlen_app, !literal_length.
    replace (zlen key_select) with 977 by (vm_compute; reflexivity).
    change (zlen and_name) with 14. change (zlen key_tail) with 56. lia.
Qed.

Lemma catalog_queries_complete_witness :
  key_sql (replicate 128 97) (replicate 128 98) <>
  key_select ++ literal (replicate 128 97) ++ and_name ++ literal (replicate 128 98) ++ key_tail.
Proof.
  intros E. apply (catalog_queries_complete (replicate 128 97) (replicate 128 98)) in E.
  - vm_compute in E. by apply E.
  - vm_compute. reflexivity.
Defined.

(** The trigger query selects [tr.is_disabled] where the list of events is
    read: an integer column leaves the event text empty. *)
Example trigger_event_is_empty :
  trig_row (mkTrig [] []) [VAL_TEXT (str "trg"); VAL_INT64 0] = Some (mkTrig [str "trg"] [[]]).
Proof. reflexivity. Qed.
