(* ===== verification/MetaCache.v ===== *)
(** * Metadata cache (src/src/vms_meta_cache.c)

    The canonical column payload (writer with its buffer bounds, reader with
    its checks), the schema fingerprint, the shadow-table checks and the
    cache operations over a private SQLite table, which is an interface. *)

From stdpp Require Import gmap.
From S2P Require Import Prelude Foundation Client Identity Meta.

(** ** Payload *)

Definition VMS_MC_SCHEMA_VERSION : Z := 1.
Definition VMS_MC_MAGIC : Z := 1129532758. (* 0x43534D56 *)
Definition FLAG_NULLABLE : Z := 1.
Definition FLAG_IDENTITY : Z := 2.
Definition FLAG_COMPUTED : Z := 4.

Definition put_u32 (v : Z) : list Z :=
  [Z.land v 255; Z.land (Z.shiftr v 8) 255; Z.land (Z.shiftr v 16) 255; Z.land (Z.shiftr v 24) 255].

(** The cursor only moves when four bytes are left. *)
Definition get_u32 (p : list Z) : Z * list Z :=
  match p with
  | b0 :: b1 :: b2 :: b3 :: p' =>
      (Z.lor (Z.lor (Z.lor b0 (Z.shiftl b1 8)) (Z.shiftl b2 16)) (Z.shiftl b3 24), p')
  | _ => (4294967295, p)
  end.

(** [cols] are the first [count] columns of the structure. *)
Definition payload_size (cols : list VmsMetaColumn) : Z :=
  if zlen cols >? VMS_META_MAX_COLUMNS then -1
  else foldl (fun sz c => sz + (zlen (name c) + 1) + (zlen (type_name c) + 1) + (4 + 4 + 4 + 1 + 1)) 12 cols.

(** A store of [s] at the write position, in a buffer of [bufsz] bytes of
    which [out] are written. *)
Definition store (bufsz : Z) (out s : list Z) : cres (list Z) :=
  if zlen out + zlen s >? bufsz then Fault OobWrite else Ret (out ++ s).

Definition col_flags (c : VmsMetaColumn) : Z :=
  let f0 := 0 in
  let f1 := if negb (is_nullable c =? 0) then Z.lor f0 FLAG_NULLABLE else f0 in
  let f2 := if negb (is_identity c =? 0) then Z.lor f1 FLAG_IDENTITY else f1 in
  if negb (is_computed c =? 0) then Z.lor f2 FLAG_COMPUTED else f2.

(** The column loop; [Ret None] where the code returns 0. *)
Fixpoint write_cols (bufsz cap : Z) (out : list Z) (cols : list VmsMetaColumn) : cres (option (list Z)) :=
  match cols with
  | [] => Ret (Some out)
  | c :: cs =>
      if zlen out + (zlen (name c) + 1) >? cap then Ret None
      else
        out ← store bufsz out (name c ++ [0]);
        if zlen out + (zlen (type_name c) + 1) >? cap then Ret None
        else
          out ← store bufsz out (type_name c ++ [0]);
          if zlen out + 10 >? cap then Ret None
          else
            out ← store bufsz out (put_u32 (ct_code (vtype c)));
            out ← store bufsz out (put_u32 (col_flags c));
            out ← store bufsz out (put_u32 (max_length c));
            out ← store bufsz out [precision c];
            out ← store bufsz out [scale c];
            write_cols bufsz cap out cs
  end.

Definition payload_write (bufsz cap : Z) (cols : list VmsMetaColumn) : cres (option (list Z)) :=
  if cap <? 12 then Ret None
  else
    out ← store bufsz [] (put_u32 VMS_MC_MAGIC);
    out ← store bufsz out (put_u32 VMS_MC_SCHEMA_VERSION);
    out ← store bufsz out (put_u32 (wrap_u32 (zlen cols)));
    write_cols bufsz cap out cols.

(** A NUL-terminated field of fewer than [cap] bytes, and what follows. *)
Definition read_field (cap : Z) (p : list Z) : option (list Z * list Z) :=
  let '(s, r) := span (fun b => negb (b =? 0)) p in
  if (zlen s >=? zlen p) || (zlen s =? 0) || (zlen s >=? cap) then None else Some (s, tl r).

Definition flag_set (flags f : Z) : Z := if negb (Z.land flags f =? 0) then 1 else 0.

Fixpoint read_cols (n : nat) (p : list Z) (out : list VmsMetaColumn) : option (list VmsMetaColumn) :=
  match n with
  | O => Some out
  | S n' =>
      '(nm, p) ← read_field VMS_META_MAX_NAME p;
      '(tn, p) ← read_field 64 p;
      let '(vt, p) := get_u32 p in
      let '(flags, p) := get_u32 p in
      let '(maxlen, p) := get_u32 p in
      match p with
      | prec :: scl :: p' =>
          match ct_of_code vt with
          | None | Some CT_UNSUPPORTED => None
          | Some v =>
              read_cols n' p'
                (out ++ [mkCol nm tn v (flag_set flags FLAG_NULLABLE) (flag_set flags FLAG_IDENTITY)
                               (flag_set flags FLAG_COMPUTED) maxlen prec scl])
          end
      | _ => None
      end
  end.

Definition payload_read (buf : list Z) : option (list VmsMetaColumn) :=
  if zlen buf <? 12 then None
  else
    let '(magic, p) := get_u32 buf in
    let '(version, p) := get_u32 p in
    let '(count, p) := get_u32 p in
    if negb (magic =? VMS_MC_MAGIC) || negb (version =? VMS_MC_SCHEMA_VERSION) then None
    else if (count =? 0) || (count >? VMS_META_MAX_COLUMNS) then None
    else read_cols (Z.to_nat count) p [].

(** ** Fingerprints and shadow tables *)

Definition STACK_BUF : Z := 16384.

(** The buffer in use: the stack array, or the heap block of exact size. *)
Definition buffer_size (sz : Z) : Z := if sz >? STACK_BUF then sz else STACK_BUF.

Definition vms_meta_fingerprint (malloc_ok : bool) (cols : list VmsMetaColumn) : cres Z :=
  let sz := payload_size cols in
  if sz <? 0 then Ret 0
  else if (sz >? STACK_BUF) && negb malloc_ok then Ret 0
  else
    w ← payload_write (buffer_size sz) sz cols;
    match w with
    | None => Ret 0
    | Some out => Ret (fnv_bytes fnv_basis out)
    end.

Definition vms_meta_shadow_check (payload : option (list Z)) (stored_fp : Z) : bool :=
  match payload with
  | None => false
  | Some pl => if zlen pl <? 12 then false else fnv_bytes fnv_basis pl =? stored_fp
  end.

Definition vms_meta_is_shadow_name (base candidate : option (list Z)) : bool :=
  match base, candidate with
  | Some b, Some c =>
      match strip_prefix b c with
      | Some suffix => str_eqb suffix (str "_vms_schema") || str_eqb suffix (str "_vms_metadata")
      | None => false
      end
  | _, _ => false
  end.

(** ** Cache operations *)

(** The private database table, as the three statements of the cache use it:
    select by key, insert or replace, delete.  [None] is a failing call. *)
Record CacheRow := mkRow { row_fp : Z; row_utc : Z; row_payload : list Z }.

Class CacheDb := {
  db : Type;
  db_select : db -> list Z -> option CacheRow;
  db_replace : db -> list Z -> CacheRow -> option db;
  db_delete : db -> list Z -> db
}.

(** What the cache relies on: a table with a primary key. *)
Class CacheDbLaws `{CacheDb} := {
  select_replace : forall d k r d', db_replace d k r = Some d' -> db_select d' k = Some r;
  select_replace_ne : forall d k r d' k', db_replace d k r = Some d' -> k' <> k ->
    db_select d' k' = db_select d k';
  select_delete : forall d k, db_select (db_delete d k) k = None;
  select_delete_ne : forall d k k', k' <> k -> db_select (db_delete d k) k' = db_select d k'
}.

Inductive VmsCacheResult : Type := CACHE_MISS | CACHE_FRESH | CACHE_STALE | CACHE_DRIFT | CACHE_CORRUPT.

Definition make_key (cap : Z) (schema table : list Z) : list Z :=
  trunc_copy cap (schema ++ str "." ++ table).

Section Cache.
Context `{CacheDb}.

(** The columns are delivered when the payload decodes. *)
Definition vms_meta_cache_get (malloc_ok : bool) (d : db) (schema table : list Z) (live_fp : Z) :
    VmsCacheResult * option (list VmsMetaColumn) :=
  match db_select d (make_key 300 schema table) with
  | None => (CACHE_MISS, None)
  | Some r =>
      let stored_fp := wrap_u64 (row_fp r) in
      let payload := row_payload r in
      if zlen payload <=? 0 then (CACHE_MISS, None)
      else if negb malloc_ok then (CACHE_CORRUPT, None)
      else if negb (vms_meta_shadow_check (Some payload) stored_fp) then (CACHE_CORRUPT, None)
      else match payload_read payload with
           | None => (CACHE_CORRUPT, None)
           | Some cols =>
               (if live_fp =? 0 then CACHE_STALE
                else if live_fp =? stored_fp then CACHE_FRESH else CACHE_DRIFT, Some cols)
           end
  end.

Definition vms_meta_cache_put (malloc_ok : bool) (d : db) (schema table : list Z)
    (cols : list VmsMetaColumn) (fp utc_ts : Z) : cres (bool * db) :=
  let sz := payload_size cols in
  if sz <=? 0 then Ret (false, d)
  else if (sz >? STACK_BUF) && negb malloc_ok then Ret (false, d)
  else
    w ← payload_write (buffer_size sz) sz cols;
    match w with
    | None => Ret (false, d)
    | Some out =>
        match db_replace d (make_key 300 schema table) (mkRow (wrap_i64 fp) utc_ts out) with
        | Some d' => Ret (true, d')
        | None => Ret (false, d)
        end
    end.

Definition vms_meta_cache_drop (d : db) (schema table : list Z) : db :=
  db_delete d (make_key 300 schema table).

End Cache.

(** ** The writer fills its buffer exactly *)

Definition col_bytes (c : VmsMetaColumn) : list Z :=
  name c ++ [0] ++ type_name c ++ [0] ++ put_u32 (ct_code (vtype c)) ++ put_u32 (col_flags c) ++
  put_u32 (max_length c) ++ [precision c; scale c].

Definition payload_bytes (cols : list VmsMetaColumn) : list Z :=
  put_u32 VMS_MC_MAGIC ++ put_u32 VMS_MC_SCHEMA_VERSION ++ put_u32 (zlen cols) ++ flat_map col_bytes cols.

Lemma zlen_put_u32 v : zlen (put_u32 v) = 4.
Proof. done. Qed.

#[local] Hint Rewrite zlen_put_u32 : vms_len.

Lemma zlen_col_bytes c : zlen (col_bytes c) = zlen (name c) + 1 + (zlen (type_name c) + 1) + 14.
Proof. unfold col_bytes. autorewrite with vms_len. lia. Qed.

Lemma payload_size_fold cols sz :
  foldl (fun sz c => sz + (zlen (name c) + 1) + (zlen (type_name c) + 1) + (4 + 4 + 4 + 1 + 1)) sz cols =
  sz + zlen (flat_map col_bytes cols).
Proof.
  revert sz; induction cols as [|c cols IH]; intros sz; simpl; [rewrite zlen_nil; lia|].
  rewrite IH, zlen_app, zlen_col_bytes. lia.
Qed.

Lemma payload_size_bytes cols : zlen cols <= 512 -> payload_size cols = zlen (payload_bytes cols).
Proof.
  intros Hc. unfold payload_size, payload_bytes, VMS_META_MAX_COLUMNS. destruct (_ >? _) eqn:E; [blia|].
  rewrite payload_size_fold. autorewrite with vms_len. lia.
Qed.

Lemma store_fits bufsz out s : zlen out + zlen s <= bufsz -> store bufsz out s = Ret (out ++ s).
Proof. intros Hl. unfold store. destruct (_ >? _) eqn:E; [blia|done]. Qed.

Lemma write_cols_exact bufsz cap cols out :
  zlen out + zlen (flat_map col_bytes cols) <= cap -> cap <= bufsz ->
  write_cols bufsz cap out cols = Ret (Some (out ++ flat_map col_bytes cols)).
Proof.
  intros Hcap Hbuf. revert out Hcap. induction cols as [|c cols IH]; intros out Hcap; cbn [write_cols flat_map].
  { by rewrite app_nil_r. }
  cbn [flat_map] in Hcap. rewrite zlen_app, zlen_col_bytes in Hcap.
  pose proof (zlen_nonneg (name c)). pose proof (zlen_nonneg (type_name c)).
  pose proof (zlen_nonneg (flat_map col_bytes cols)).
  repeat first
    [ rewrite store_fits by (autorewrite with vms_len; lia); cbn [mbind cres_bind]
    | match goal with |- context [if ?b then Ret None else _] =>
        let E := fresh "E" in destruct b eqn:E; [exfalso; b2p; autorewrite with vms_len in *; lia|] end ].
  rewrite IH by (autorewrite with vms_len; lia). f_equal. f_equal. unfold col_bytes. by rewrite <- !app_assoc.
Qed.

Lemma payload_write_exact bufsz cols :
  zlen cols <= 512 -> payload_size cols <= bufsz ->
  payload_write bufsz (payload_size cols) cols = Ret (Some (payload_bytes cols)).
Proof.
  intros Hc Hb. rewrite payload_size_bytes in * by done. unfold payload_bytes in Hb.
  autorewrite with vms_len in Hb. pose proof (zlen_nonneg (flat_map col_bytes cols)).
  unfold payload_write. destruct (_ <? 12) eqn:E.
  { unfold payload_bytes in E. autorewrite with vms_len in E. blia. }
  rewrite !store_fits by (autorewrite with vms_len; lia). cbn [mbind cres_bind].
  rewrite !store_fits by (autorewrite with vms_len; lia). cbn [mbind cres_bind].
  rewrite !store_fits by (autorewrite with vms_len; lia). cbn [mbind cres_bind].
  replace (wrap_u32 (zlen cols)) with (zlen cols)
    by (unfold wrap_u32; rewrite Z.mod_small; [done|pose proof (zlen_nonneg cols); lia]).
  rewrite write_cols_exact; [by rewrite <- !app_assoc| |].
  - unfold payload_bytes. autorewrite with vms_len. lia.
  - unfold payload_bytes. autorewrite with vms_len. lia.
Qed.

(** ** The reader inverts the writer *)

Lemma testbit_u32 v i : 0 <= v < 2 ^ 32 -> 32 <= i -> Z.testbit v i = false.
Proof.
  intros Hv Hi. destruct (Z.eq_dec v 0) as [->|]; [apply Z.bits_0|].
  apply Z.bits_above_log2; [lia|]. assert (Z.log2 v < 32) by (apply Z.log2_lt_pow2; lia). lia.
Qed.

Lemma get_put_u32 v r : in_u32 v -> get_u32 (put_u32 v ++ r) = (v, r).
Proof.
  intros Hv. unfold put_u32. cbn [app get_u32]. f_equal. apply Z.bits_inj'. intros i Hi.
  change 255 with (Z.ones 8). rewrite !Z.lor_spec, !Z.shiftl_spec, !Z.land_spec by done.
  assert (Hs : forall k, 0 <= k -> (Z.testbit (Z.shiftr v k) (i - k) && Z.testbit (Z.ones 8) (i - k)) =
               Z.testbit v i && (k <=? i) && (i <? k + 8)).
  { intros k Hk. destruct (k <=? i) eqn:E1; b2p.
    - rewrite Z.shiftr_spec, Z.testbit_ones_nonneg by lia. replace (i - k + k) with i by lia.
      rewrite andb_true_r. f_equal. apply eq_iff_eq_true. rewrite !Z.ltb_lt. lia.
    - rewrite (Z.testbit_neg_r _ (i - k)) by lia. by rewrite andb_false_r. }
  rewrite !Hs by lia. rewrite Z.testbit_ones_nonneg by lia.
  destruct (Z.testbit v i) eqn:Ev; [|simpl; by rewrite ?andb_false_r].
  assert (i < 32) by (destruct (Z.lt_ge_cases i 32); [done|rewrite testbit_u32 in Ev; done]).
  simpl. repeat match goal with |- context [?a <? ?b] => destruct (Z.ltb_spec a b)
                          | |- context [?a <=? ?b] => destruct (Z.leb_spec a b) end; simpl; try done; lia.
Qed.

(** Columns the payload can carry. *)
Definition storable (c : VmsMetaColumn) : Prop :=
  1 <= zlen (name c) <= 127 /\ cstring (name c) /\
  1 <= zlen (type_name c) <= 63 /\ cstring (type_name c) /\
  vtype c <> CT_UNSUPPORTED /\ in_u32 (max_length c).

Definition truth (z : Z) : Z := if z =? 0 then 0 else 1.

(** The column with its three flags reduced to 0 and 1. *)
Definition normal (c : VmsMetaColumn) : VmsMetaColumn :=
  mkCol (name c) (type_name c) (vtype c) (truth (is_nullable c)) (truth (is_identity c))
        (truth (is_computed c)) (max_length c) (precision c) (scale c).

Lemma read_field_cstring cap s r :
  1 <= zlen s < cap -> cstring s -> read_field cap (s ++ 0 :: r) = Some (s, r).
Proof.
  intros Hl Hs. unfold read_field. rewrite span_all; [|eapply Forall_impl; [exact Hs|]|done].
  - autorewrite with vms_len. pose proof (zlen_nonneg r).
    destruct (_ || _) eqn:E; [|done]. exfalso. b2p. destruct E as [E|E]; [|blia]. b2p. destruct E; blia.
  - intros x Hx. simpl. by apply negb_true_iff, Z.eqb_neq.
Qed.

Lemma flags_u32 c : in_u32 (col_flags c).
Proof. unfold col_flags, in_u32. repeat destruct (negb _); simpl; vm_compute; split; congruence. Qed.

Lemma flags_decode c :
  flag_set (col_flags c) FLAG_NULLABLE = truth (is_nullable c) /\
  flag_set (col_flags c) FLAG_IDENTITY = truth (is_identity c) /\
  flag_set (col_flags c) FLAG_COMPUTED = truth (is_computed c).
Proof.
  unfold col_flags, truth.
  by destruct (is_nullable c =? 0), (is_identity c =? 0), (is_computed c =? 0).
Qed.

Lemma ct_code_u32 t : in_u32 (ct_code t).
Proof. destruct t; vm_compute; split; congruence. Qed.

Lemma read_cols_inverts cols out r :
  Forall storable cols ->
  read_cols (length cols) (flat_map col_bytes cols ++ r) out = Some (out ++ map normal cols).
Proof.
  intros Hs. revert out. induction Hs as [|c cols (Hn & Hnc & Ht & Htc & Hv & Hm) Hs IH];
    intros out; [by rewrite app_nil_r|].
  cbn [length flat_map read_cols]. unfold col_bytes at 1. rewrite <- !app_assoc. cbn [app].
  rewrite read_field_cstring by (done || (unfold VMS_META_MAX_NAME; lia)). cbn [mbind option_bind].
  rewrite read_field_cstring by (done || lia). cbn [mbind option_bind].
  rewrite get_put_u32 by apply ct_code_u32. rewrite get_put_u32 by apply flags_u32.
  rewrite get_put_u32 by done. cbn [app]. rewrite ct_of_code_code.
  destruct (flags_decode c) as (-> & -> & ->).
  destruct (vtype c) eqn:Ev; try done;
    rewrite IH, <- app_assoc; cbn [map app]; unfold normal; by rewrite Ev.
Qed.

Lemma payload_read_bytes cols :
  Forall storable cols -> 1 <= zlen cols <= 512 ->
  payload_read (payload_bytes cols) = Some (map normal cols).
Proof.
  intros Hs Hc. unfold payload_read, payload_bytes.
  destruct (_ <? 12) eqn:E.
  { autorewrite with vms_len in E. pose proof (zlen_nonneg (flat_map col_bytes cols)). blia. }
  rewrite (get_put_u32 VMS_MC_MAGIC) by (unfold in_u32, VMS_MC_MAGIC; lia).
  rewrite (get_put_u32 VMS_MC_SCHEMA_VERSION) by (unfold in_u32, VMS_MC_SCHEMA_VERSION; lia).
  rewrite (get_put_u32 (zlen cols)) by (unfold in_u32; lia). rewrite !Z.eqb_refl. cbn [negb orb].
  destruct ((zlen cols =? 0) || _) eqn:E2; [exfalso; b2p; unfold VMS_META_MAX_COLUMNS in *; destruct E2; blia|].
  replace (Z.to_nat (zlen cols)) with (length cols) by (unfold zlen; lia).
  rewrite <- (app_nil_r (flat_map col_bytes cols)). by rewrite read_cols_inverts.
Qed.

Lemma buffer_size_covers sz : sz <= buffer_size sz.
Proof. unfold buffer_size. destruct (_ >? _) eqn:E; blia. Qed.

(** [C17]: for 1 to 512 storable columns the writer, given the size the code
    computes, stores exactly that many bytes without leaving its buffer, and
    the reader recovers the columns, with their flags normalised. *)
Theorem payload_roundtrip cols :
  Forall storable cols -> 1 <= zlen cols <= 512 ->
  exists out, payload_write (buffer_size (payload_size cols)) (payload_size cols) cols = Ret (Some out) /\
              zlen out = payload_size cols /\ payload_read out = Some (map normal cols).
Proof.
  intros Hs Hc. exists (payload_bytes cols). split_and!.
  - apply payload_write_exact; [lia|apply buffer_size_covers].
  - by rewrite payload_size_bytes by lia.
  - by apply payload_read_bytes.
Qed.

Definition demo_columns : list VmsMetaColumn :=
  [mkCol (str "id") (str "int") CT_INT64 0 1 0 4 10 0;
   mkCol (str "note") (str "nvarchar") CT_BIGTEXT 1 0 0 4294967295 0 0].

Lemma demo_columns_storable : Forall storable demo_columns.
Proof.
  repeat constructor; try (vm_compute; congruence); simpl; try done;
    repeat (constructor; [vm_compute; congruence|]); constructor.
Qed.

Lemma payload_roundtrip_witness :
  exists out, payload_read out = Some demo_columns /\ zlen out = 61.
Proof.
  destruct (payload_roundtrip demo_columns demo_columns_storable) as (out & _ & Hl & Hr).
  - vm_compute. split; congruence.
  - exists out. split; [exact Hr|]. rewrite Hl. vm_compute. reflexivity.
Defined.

(** ** Cache behaviour *)

Lemma fingerprint_bytes cols :
  zlen cols <= 512 -> vms_meta_fingerprint true cols = Ret (fnv_bytes fnv_basis (payload_bytes cols)).
Proof.
  intros Hc. unfold vms_meta_fingerprint. rewrite andb_false_r.
  destruct (payload_size cols <? 0) eqn:E.
  { rewrite payload_size_bytes in E by done. pose proof (zlen_nonneg (payload_bytes cols)). blia. }
  by rewrite payload_write_exact by (done || apply buffer_size_covers).
Qed.

Lemma fingerprint_value cols fp :
  zlen cols <= 512 -> vms_meta_fingerprint true cols = Ret fp -> fnv_bytes fnv_basis (payload_bytes cols) = fp.
Proof. intros Hc Hfp. rewrite fingerprint_bytes in Hfp by done. congruence. Qed.

Lemma wrap_u64_i64 z : in_u64 z -> wrap_u64 (wrap_i64 z) = z.
Proof. intros Hz. unfold wrap_u64. rewrite wrap_i64_mod. by apply Z.mod_small. Qed.

Lemma payload_bytes_length cols : 12 <= zlen (payload_bytes cols).
Proof. unfold payload_bytes. autorewrite with vms_len. pose proof (zlen_nonneg (flat_map col_bytes cols)). lia. Qed.

Section CacheLaws.
Context `{CacheDbLaws}.

(** Lookup of a stored row whose payload hashes to the stored fingerprint. *)
Lemma get_stored (d : db) schema table fp utc out live :
  db_select d (make_key 300 schema table) = Some (mkRow (wrap_i64 fp) utc out) ->
  in_u64 fp -> 12 <= zlen out ->
  vms_meta_cache_get true d schema table live =
  if fnv_bytes fnv_basis out =? fp then
    match payload_read out with
    | None => (CACHE_CORRUPT, None)
    | Some cols => (if live =? 0 then CACHE_STALE else if live =? fp then CACHE_FRESH else CACHE_DRIFT, Some cols)
    end
  else (CACHE_CORRUPT, None).
Proof.
  intros Hsel Hfp Hlen. unfold vms_meta_cache_get. rewrite Hsel. cbn [row_payload row_fp negb].
  rewrite wrap_u64_i64 by done. destruct (zlen out <=? 0) eqn:E; [blia|].
  unfold vms_meta_shadow_check. destruct (zlen out <? 12) eqn:E2; [blia|].
  by destruct (_ =? fp).
Qed.

Lemma put_row d schema table cols fp utc d' :
  zlen cols <= 512 ->
  vms_meta_cache_put true d schema table cols fp utc = Ret (true, d') ->
  db_replace d (make_key 300 schema table) (mkRow (wrap_i64 fp) utc (payload_bytes cols)) = Some d'.
Proof.
  intros Hc. unfold vms_meta_cache_put. rewrite andb_false_r.
  destruct (_ <=? 0); [done|]. rewrite payload_write_exact by (done || apply buffer_size_covers).
  cbn [mbind cres_bind]. destruct (db_replace _ _ _); [|done]. by intros [= ->].
Qed.

(** A stored snapshot reads back. *)
Lemma put_then_get d schema table cols fp utc d' live :
  Forall storable cols -> 1 <= zlen cols <= 512 ->
  vms_meta_fingerprint true cols = Ret fp ->
  vms_meta_cache_put true d schema table cols fp utc = Ret (true, d') ->
  vms_meta_cache_get true d' schema table live =
  (if live =? 0 then CACHE_STALE else if live =? fp then CACHE_FRESH else CACHE_DRIFT,
   Some (map normal cols)).
Proof.
  intros Hs Hc Hfp Hput. apply fingerprint_value in Hfp; [|lia].
  apply put_row in Hput; [|lia].
  rewrite (get_stored d' schema table fp utc (payload_bytes cols)); [| | |apply payload_bytes_length].
  - rewrite Hfp, Z.eqb_refl, payload_read_bytes by done. done.
  - by eapply select_replace.
  - rewrite <- Hfp. apply fnv_bytes_range. vm_compute. split; congruence.
Qed.

(** After a snapshot is stored under the fingerprint the code computes,
    a lookup of the same table decodes to the stored columns and is stale
    without a live fingerprint, fresh when the live fingerprint agrees and
    drift when it differs. *)
Theorem cache_put_get d schema table cols fp utc d' live :
  Forall storable cols -> 1 <= zlen cols <= 512 ->
  vms_meta_fingerprint true cols = Ret fp ->
  vms_meta_cache_put true d schema table cols fp utc = Ret (true, d') ->
  vms_meta_cache_get true d' schema table live =
  (if live =? 0 then CACHE_STALE else if live =? fp then CACHE_FRESH else CACHE_DRIFT,
   Some (map normal cols)).
Proof. apply put_then_get. Qed.

(** A stored row of which exactly one payload byte was altered is
    reported as corrupt, whatever the live fingerprint; the columns are not
    delivered. *)
Theorem cache_detects_corruption d schema table cols fp utc pre x y post live :
  1 <= zlen cols <= 512 ->
  vms_meta_fingerprint true cols = Ret fp ->
  payload_bytes cols = pre ++ x :: post -> in_u8 x -> in_u8 y -> x <> y -> bytes post ->
  db_select d (make_key 300 schema table) = Some (mkRow (wrap_i64 fp) utc (pre ++ y :: post)) ->
  vms_meta_cache_get true d schema table live = (CACHE_CORRUPT, None).
Proof.
  intros Hc Hfp Hp Hx Hy Hne Hpost Hsel. apply fingerprint_value in Hfp; [|lia]. rewrite Hp in Hfp.
  assert (Hb : in_u64 fnv_basis) by (vm_compute; split; congruence).
  pose proof (payload_bytes_length cols) as Hl. rewrite Hp in Hl. autorewrite with vms_len in Hl.
  rewrite (get_stored d schema table fp utc (pre ++ y :: post)); [|done| |autorewrite with vms_len; lia].
  - destruct (_ =? fp) eqn:E; [|done]. b2p. rewrite <- Hfp in E.
    by apply fnv_bytes_substitution in E.
  - rewrite <- Hfp. by apply fnv_bytes_range.
Qed.

(** Keys of valid identifiers determine the schema and the table. *)
Lemma make_key_inj s t s' t' :
  names_ok (Some s) (Some t) = true -> names_ok (Some s') (Some t') = true ->
  make_key 300 s t = make_key 300 s' t' -> s = s' /\ t = t'.
Proof.
  assert (Hdot : forall s t, names_ok (Some s) (Some t) = true ->
    make_key 300 s t = s ++ chr "." :: t /\ span (fun c => negb (c =? chr ".")) (s ++ chr "." :: t) = (s, chr "." :: t)).
  { intros u v. unfold names_ok, VMS_META_MAX_NAME.
    intros [(_ & Hl & Hc)%ident_valid_spec (_ & Hl' & _)%ident_valid_spec]%andb_prop. split.
    - apply trunc_copy_fits. autorewrite with vms_len. lia.
    - apply span_all; [|done]. eapply Forall_impl; [exact Hc|]. intros x Hx. apply negb_true_iff, Z.eqb_neq.
      intros ->. by vm_compute in Hx. }
  intros [-> H1]%Hdot [-> H2]%Hdot E. rewrite E, H2 in H1. by simplify_eq.
Qed.

(** Storing or dropping the entry of one table leaves the lookup of
    every other validly named table unchanged. *)
Theorem cache_keys_independent d schema table cols fp utc d' s t live :
  names_ok (Some schema) (Some table) = true -> names_ok (Some s) (Some t) = true ->
  (s, t) <> (schema, table) -> zlen cols <= 512 ->
  vms_meta_cache_put true d schema table cols fp utc = Ret (true, d') ->
  vms_meta_cache_get true d' s t live = vms_meta_cache_get true d s t live /\
  vms_meta_cache_get true (vms_meta_cache_drop d schema table) s t live =
  vms_meta_cache_get true d s t live /\
  vms_meta_cache_get true (vms_meta_cache_drop d schema table) schema table live = (CACHE_MISS, None).
Proof.
  intros Hn1 Hn2 Hne Hc Hput%put_row; [|done].
  assert (Hk : make_key 300 s t <> make_key 300 schema table).
  { intros E. destruct (make_key_inj s t schema table) as [-> ->]; done. }
  unfold vms_meta_cache_get, vms_meta_cache_drop.
  rewrite (select_replace_ne _ _ _ _ _ Hput Hk), (select_delete_ne _ _ _ Hk), select_delete. done.
Qed.

End CacheLaws.

(** ** An instance of the table interface *)

#[global] Program Instance GmapCacheDb : CacheDb := {|
  db := gmap (list Z) CacheRow;
  db_select := fun d k => d !! k;
  db_replace := fun d k r => Some (<[k := r]> d);
  db_delete := fun d k => delete k d
|}.

#[global] Instance GmapCacheDbLaws : @CacheDbLaws GmapCacheDb.
Proof.
  split; simpl.
  - intros d k r d' [= <-]. apply lookup_insert_eq.
  - intros d k r d' k' [= <-] Hne. by apply lookup_insert_ne.
  - intros d k. apply lookup_delete_eq.
  - intros d k k' Hne. by apply lookup_delete_ne.
Qed.

Definition demo_fp : Z := fnv_bytes fnv_basis (payload_bytes demo_columns).

Definition demo_db : @db GmapCacheDb :=
  <[make_key 300 (str "dbo") (str "t") := mkRow (wrap_i64 demo_fp) 7 (payload_bytes demo_columns)]> ∅.

Lemma cache_put_get_witness :
  @vms_meta_cache_get GmapCacheDb true demo_db (str "dbo") (str "t") demo_fp = (CACHE_FRESH, Some demo_columns).
Proof.
  rewrite (cache_put_get (∅ : @db GmapCacheDb) (str "dbo") (str "t") demo_columns demo_fp 7 demo_db demo_fp).
  - vm_compute. reflexivity.
  - exact demo_columns_storable.
  - vm_compute. split; congruence.
  - vm_compute. reflexivity.
  - vm_compute. reflexivity.
Defined.

Lemma cache_detects_corruption_witness :
  @vms_meta_cache_get GmapCacheDb true
    (<[make_key 300 (str "dbo") (str "t") :=
       mkRow (wrap_i64 demo_fp) 7 (take 12 (payload_bytes demo_columns) ++ chr "x" :: drop 13 (payload_bytes demo_columns))]>
     (∅ : @db GmapCacheDb)) (str "dbo") (str "t") demo_fp = (CACHE_CORRUPT, None).
Proof.
  apply (cache_detects_corruption _ (str "dbo") (str "t") demo_columns demo_fp 7
           (take 12 (payload_bytes demo_columns)) (chr "i") (chr "x") (drop 13 (payload_bytes demo_columns))).
  - vm_compute. split; congruence.
  - vm_compute. reflexivity.
  - vm_compute. reflexivity.
  - vm_compute. split; congruence.
  - vm_compute. split; congruence.
  - vm_compute. congruence.
  - vm_compute. repeat constructor; congruence.
  - vm_compute. reflexivity.
Defined.

Lemma cache_keys_independent_witness :
  @vms_meta_cache_get GmapCacheDb true demo_db (str "dbo") (str "u") 1 = (CACHE_MISS, None).
Proof.
  destruct (cache_keys_independent (∅ : @db GmapCacheDb) (str "dbo") (str "t") demo_columns demo_fp 7 demo_db
              (str "dbo") (str "u") 1) as [-> _]; try (vm_compute; congruence).
Defined.

(** ** Shadow tables and unsupported columns *)

(** The shadow names of a table are exactly its own name followed by
    one of the two suffixes. *)
Theorem shadow_names base candidate :
  vms_meta_is_shadow_name (Some base) (Some candidate) = true <->
  candidate = base ++ str "_vms_schema" \/ candidate = base ++ str "_vms_metadata".
Proof.
  unfold vms_meta_is_shadow_name. destruct (strip_prefix base candidate) as [suf|] eqn:E.
  - apply strip_prefix_Some in E as ->. rewrite orb_true_iff, !str_eqb_eq.
    split; (intros [H|H]; [left|right]); try (by subst); by apply app_inv_head in H.
  - split; [done|]. intros [-> | ->]; by rewrite strip_prefix_app in E.
Qed.

(** A table with a column of unsupported type is stored, and every later
    lookup of it reports a corrupt entry. *)
Example unsupported_column_corrupt :
  let cols := [mkCol (str "v") (str "sql_variant") CT_UNSUPPORTED 0 0 0 0 0 0] in
  let fp := fnv_bytes fnv_basis (payload_bytes cols) in
  match @vms_meta_cache_put GmapCacheDb true (∅ : @db GmapCacheDb) (str "dbo") (str "t") cols fp 0 with
  | Ret (true, d') => Some (vms_meta_cache_get true d' (str "dbo") (str "t") fp)
  | _ => None
  end = Some (CACHE_CORRUPT, None).
Proof. vm_compute. reflexivity. Qed.

(** ** The database of the cache *)

Record VmsMetaCache := mkCache { mc_path : list Z; mc_temp : bool; mc_open : bool }.

Inductive cache_event : Type :=
| CeOpen (path : list Z)              (* an open handle, usable or not *)
| CeClose
| CeDelete (path : list Z)
| CeAlloc
| CeFree.

Definition cache_path (temp : bool) (tmpdir : list Z) (pid tick : Z) : list Z :=
  if temp then trunc_copy 512 (tmpdir ++ trunc_copy 96 (str "vms_mdc_" ++ print_u pid ++ str "_" ++ print_u tick ++ str ".db"))
  else str ":memory:".

Definition vms_meta_cache_close (c : option VmsMetaCache) : list cache_event :=
  match c with
  | None => []
  | Some c =>
      (if mc_open c then [CeClose] else []) ++
      (if mc_temp c && negb (bool_decide (mc_path c = [])) then [CeDelete (mc_path c)] else []) ++ [CeFree]
  end.

(** [handle] tells whether a failed [sqlite3_open] still returned a handle;
    [create] is the outcome of creating the table, the pragmas are not
    checked. *)
Definition vms_meta_cache_open (alloc : bool) (path : list Z) (temp opened handle create : bool) :
    list cache_event * option VmsMetaCache :=
  if negb alloc then ([], None)
  else
    let evs := CeAlloc :: (if temp then [CeDelete path] else []) in
    if negb opened then
      (evs ++ (if handle then [CeOpen path; CeClose] else []) ++ (if temp then [CeDelete path] else []) ++ [CeFree], None)
    else
      let c := mkCache path temp true in
      if create then (evs ++ [CeOpen path], Some c)
      else (evs ++ [CeOpen path] ++ vms_meta_cache_close (Some c), None).

(** Handles opened less handles closed, and blocks taken less blocks freed. *)
Fixpoint cache_balance (evs : list cache_event) : Z * Z :=
  match evs with
  | [] => (0, 0)
  | e :: evs' =>
      let '(h, b) := cache_balance evs' in
      match e with
      | CeOpen _ => (h + 1, b) | CeClose => (h - 1, b) | CeAlloc => (h, b + 1) | CeFree => (h, b - 1) | CeDelete _ => (h, b)
      end
  end.

(** A failed open gives everything back; an open followed by a close does,
    and both end with the deletion of a temporary file. *)
Lemma cache_open_close alloc path temp opened handle create :
  let '(evs, c) := vms_meta_cache_open alloc path temp opened handle create in
  cache_balance (evs ++ vms_meta_cache_close c) = (0, 0) /\
  (alloc = true -> temp = true -> path <> [] ->
     exists pre, evs ++ vms_meta_cache_close c = pre ++ [CeDelete path; CeFree]).
Proof.
  unfold vms_meta_cache_open. destruct alloc; cbn [negb]; [|done].
  destruct (decide (path = [])) as [->|Hp].
  - by destruct opened, handle, create, temp.
  - assert (bool_decide (path = []) = false) as Hb by (by apply bool_decide_eq_false_2).
    destruct opened, create, temp; cbn; rewrite ?Hb; cbn; try (destruct handle); (split; [done|]); intros _ H _; try done;
      first [by exists [CeAlloc; CeDelete path; CeOpen path; CeClose] | by exists [CeAlloc; CeDelete path]].
Qed.
