(* ===== verification/Plan.v ===== *)
(** * Pushdown plans (src/src/vms_plan.c)

    Compilation of the constraints offered by the host's query planner into a
    bounded plan, validation of a serialized plan, and construction of the
    remote T-SQL text. *)

From Stdlib Require Import QArith.
From S2P Require Import Prelude Foundation Client Identity.

#[local] Open Scope Z_scope.

(** ** Planner interface of the host *)

Inductive cons_op : Type :=
| IC_EQ | IC_LT | IC_LE | IC_GT | IC_GE | IC_ISNULL | IC_ISNOTNULL | IC_IN | IC_LIMIT | IC_OFFSET
| IC_OTHER (code : Z).

#[global] Instance cons_op_eq_dec : EqDecision cons_op.
Proof. solve_decision. Defined.

Record constraint := mkCons { iColumn : Z; cop : cons_op; usable : bool }.
Record orderby := mkOrd { oColumn : Z; odesc : bool }.

(** What the plan reports for one constraint: [argvIndex] and [omit]. *)
Record usage := mkUse { argvIndex : Z; omit : bool }.
Definition unused : usage := mkUse 0 false.

(** [in_first i] and [in_opt i] are the answers of [sqlite3_vtab_in] for
    constraint [i] when asked and when opted into. *)
Record index_info := mkInfo {
  colUsed : Z;
  aConstraint : list constraint;
  aOrderBy : list orderby;
  in_first : nat -> bool;
  in_opt : nat -> bool;
  aConstraintUsage : list usage;
  orderByConsumed : bool;
  estimatedCost : Q
}.

(** ** Plans *)

Definition VMS_PLAN_MAX_ARGS : Z := 32.
Definition VMS_PLAN_MAGIC : Z := 1448102967. (* 0x56504C37 *)

Inductive VmsPlanOp : Type := OP_EQ | OP_LT | OP_LE | OP_GT | OP_GE | OP_ISNULL | OP_ISNOTNULL | OP_IN.

#[global] Instance VmsPlanOp_eq_dec : EqDecision VmsPlanOp.
Proof. solve_decision. Defined.

Record VmsPlanTerm := mkTerm { tcol : Z; top : VmsPlanOp; arg_index : Z }.

(** [terms] and [orders] are the arrays up to their counts. *)
Record VmsPlan := mkPlan {
  magic : Z;
  used_mask : Z;
  omit_mask : Z;
  terms : list VmsPlanTerm;
  nargs : Z;
  orders : list (Z * bool);
  has_limit : bool;
  has_offset : bool;
  limit_arg : Z;
  offset_arg : Z
}.

Definition plan_zero : VmsPlan := mkPlan VMS_PLAN_MAGIC 0 0 [] 0 [] false false (-1) (-1).

Definition nterms (p : VmsPlan) : Z := zlen (terms p).
Definition norder (p : VmsPlan) : Z := zlen (orders p).

Section Compile.
Variable cols : list VmsMetaColumn.
Definition ncols : Z := zlen cols.

Definition col_is_int (i : Z) : bool :=
  match cols !! Z.to_nat i with
  | Some c => bool_decide (vtype c = CT_INT64)
  | None => false
  end.

(** *** Projection mask *)

Definition mark (m i : Z) : Z := Z.lor m (shl1_u32 i).

Fixpoint mark_used (n : nat) (i colUsed m : Z) : Z :=
  match n with
  | O => m
  | S n' =>
      if negb (i <? 62) then m
      else mark_used n' (i + 1) colUsed
             (if negb (Z.land colUsed (Z.shiftl 1 i) =? 0) then mark m i else m)
  end.

Definition mark_col (m c : Z) : Z := if (c >=? 0) && (c <? 62) then mark m c else m.

Definition projection_mask (info : index_info) : Z :=
  if negb (Z.land (colUsed info) (Z.shiftl 1 63) =? 0) then 4294967295
  else
    let m := mark_used (length cols) 0 (colUsed info) 0 in
    let m := foldl (fun m c => mark_col m (iColumn c)) m (aConstraint info) in
    foldl (fun m o => mark_col m (oColumn o)) m (aOrderBy info).

(** *** Constraints *)

(** The state the loops over the constraints share. *)
Record cstate := mkCS { cterms : list VmsPlanTerm; cargs : Z; comit : Z; cuse : list usage }.

Definition plan_op (o : cons_op) : option VmsPlanOp :=
  match o with
  | IC_EQ => Some OP_EQ | IC_LT => Some OP_LT | IC_LE => Some OP_LE | IC_GT => Some OP_GT
  | IC_GE => Some OP_GE | IC_ISNULL => Some OP_ISNULL | IC_ISNOTNULL => Some OP_ISNOTNULL
  | _ => None
  end.

(** Append a term and report the constraint as consumed. *)
Definition consume (s : cstate) (i : nat) (t : VmsPlanTerm) (args : Z) : cstate :=
  mkCS (cterms s ++ [t]) args (Z.lor (comit s) (shl1_u32 (Z.of_nat i)))
       (<[i := mkUse (arg_index t + 1) true]> (cuse s)).

Definition compare_step (s : cstate) (i : nat) (c : constraint) : cstate :=
  let col := iColumn c in
  if negb (usable c) then s
  else if (col <? 0) || (col >=? ncols) then s
  else match plan_op (cop c) with
       | None => s
       | Some op =>
           if bool_decide (op = OP_ISNULL) || bool_decide (op = OP_ISNOTNULL) then
             consume s i (mkTerm col op (-1)) (cargs s)
           else if col_is_int col then consume s i (mkTerm col op (cargs s)) (cargs s + 1)
           else s
       end.

Definition in_step (info : index_info) (s : cstate) (i : nat) (c : constraint) : cstate :=
  let col := iColumn c in
  if negb (usable c) then s
  else if negb (bool_decide (cop c = IC_IN)) then s
  else if (col <? 0) || (col >=? ncols) then s
  else if negb (col_is_int col) then s
  else if negb (in_first info i) then s
  else if negb (in_opt info i) then s
  else consume s i (mkTerm col OP_IN (cargs s)) (cargs s + 1).

(** A loop over the constraints that stops when the term array is full. *)
Fixpoint cons_loop (step : cstate -> nat -> constraint -> cstate) (i : nat) (cs : list constraint)
    (s : cstate) : cstate :=
  match cs with
  | [] => s
  | c :: cs' =>
      if zlen (cterms s) <? VMS_PLAN_MAX_ARGS then cons_loop step (S i) cs' (step s i c) else s
  end.

(** *** Ordering *)

Fixpoint order_loop (os : list orderby) (acc : list (Z * bool)) : bool * list (Z * bool) :=
  match os with
  | [] => (true, acc)
  | o :: os' =>
      if (oColumn o <? 0) || (oColumn o >=? ncols) || negb (col_is_int (oColumn o)) then (false, acc)
      else if zlen acc >=? VMS_PLAN_MAX_ARGS then (false, acc)
      else order_loop os' (acc ++ [(oColumn o, odesc o)])
  end.

(** *** LIMIT and OFFSET *)

Record lstate := mkLS { ll : bool; lo : bool; larg : Z; oarg : Z; largs : Z; luse : list usage }.

Definition limit_step (s : lstate) (i : nat) (c : constraint) : lstate :=
  if negb (usable c) then s
  else if negb (iColumn c =? -1) then s
  else if bool_decide (cop c = IC_LIMIT) && (larg s <? 0) then
    mkLS true (lo s) (largs s) (oarg s) (largs s + 1) (<[i := mkUse (largs s + 1) true]> (luse s))
  else if bool_decide (cop c = IC_OFFSET) && ll s then
    mkLS (ll s) true (larg s) (largs s) (largs s + 1) (<[i := mkUse (largs s + 1) true]> (luse s))
  else s.

Fixpoint limit_loop (i : nat) (cs : list constraint) (s : lstate) : lstate :=
  match cs with [] => s | c :: cs' => limit_loop (S i) cs' (limit_step s i c) end.

Definition vms_plan_compile (info : index_info) : index_info * VmsPlan :=
  let s0 := mkCS [] 0 0 (aConstraintUsage info) in
  let s1 := cons_loop compare_step 0 (aConstraint info) s0 in
  let s2 := cons_loop (in_step info) 0 (aConstraint info) s1 in
  let '(order_ok, ords) := order_loop (aOrderBy info) [] in
  let consumed := order_ok && (zlen ords >? 0) && (zlen ords =? zlen (aOrderBy info)) in
  let ords := if consumed then ords else [] in
  let l := limit_loop 0 (aConstraint info) (mkLS false false (-1) (-1) (cargs s2) (cuse s2)) in
  let plan := mkPlan VMS_PLAN_MAGIC (projection_mask info) (comit s2) (cterms s2) (largs l) ords
                     (ll l) (lo l) (larg l) (oarg l) in
  let cost := if nterms plan >? 0 then 100%Q else estimatedCost info in
  let cost := if norder plan >? 0 then (cost / 10)%Q else cost in
  (mkInfo (colUsed info) (aConstraint info) (aOrderBy info) (in_first info) (in_opt info) (luse l)
          (if consumed then true else orderByConsumed info) cost, plan).

End Compile.

(** ** Serialization

    The serialized plan is the memory image of the structure, so a buffer
    holding one is the structure itself; reading it back validates it. *)

Definition vms_plan_deserialize (plan : VmsPlan) : option VmsPlan :=
  if negb (magic plan =? VMS_PLAN_MAGIC) then None
  else if (nterms plan <? 0) || (nterms plan >? VMS_PLAN_MAX_ARGS) then None
  else if (nargs plan <? 0) || (nargs plan >? VMS_PLAN_MAX_ARGS) then None
  else if (norder plan <? 0) || (norder plan >? VMS_PLAN_MAX_ARGS) then None
  else Some plan.

(** ** T-SQL text *)

Section BuildSql.
Context `{WideConv}.
Variable cap : Z.

(** [None] when the buffer has no room for the text and its terminator. *)
Definition append_w (sql s : list Z) : option (list Z) :=
  if zlen sql + zlen s + 1 >? cap then None else Some (sql ++ s).

Definition bracketed (w : list Z) : list Z := str "[" ++ w ++ str "]".

Definition append_col (sql nm : list Z) : option (list Z) :=
  w ← to_wide 298 nm; append_w sql (bracketed w).

Definition append_col_spatial (sql nm : list Z) (wkt : bool) : option (list Z) :=
  w ← to_wide 296 nm;
  sql ← append_w sql (bracketed w);
  append_w sql (if wkt then str ".STAsText()" else str ".STAsBinary()").

Definition is_ansi (c : VmsMetaColumn) : bool :=
  stricmp_eq (type_name c) (str "char") || stricmp_eq (type_name c) (str "varchar") ||
  stricmp_eq (type_name c) (str "text") || stricmp_eq (type_name c) (str "xml").

Definition append_col_proj (sql : list Z) (c : VmsMetaColumn) (spatial_wkt : bool) : option (list Z) :=
  match vtype c with
  | CT_SPATIAL => append_col_spatial sql (name c) spatial_wkt
  | CT_TEXT | CT_BIGTEXT =>
      if is_ansi c then
        w ← to_wide 296 (name c);
        sql ← append_w sql (str "CAST(");
        sql ← append_w sql (bracketed w);
        append_w sql (if bool_decide (vtype c = CT_BIGTEXT) then str " AS nvarchar(max))"
                      else str " AS nvarchar(4000))")
      else append_col sql (name c)
  | _ => append_col sql (name c)
  end.

(** The full projection, from column [i]. *)
Fixpoint proj_all (i : nat) (cs : list VmsMetaColumn) (wkt : bool) (sql : list Z) : option (list Z) :=
  match cs with
  | [] => Some sql
  | c :: cs' =>
      sql ← (match i with O => Some sql | S _ => append_w sql (str ", ") end);
      sql ← append_col_proj sql c wkt;
      proj_all (S i) cs' wkt sql
  end.

(** The masked projection; the flag is [first]. *)
Fixpoint proj_masked (mask i : Z) (cs : list VmsMetaColumn) (wkt first : bool) (sql : list Z) :
    option (bool * list Z) :=
  match cs with
  | [] => Some (first, sql)
  | c :: cs' =>
      if negb (i <? 62) then Some (first, sql)
      else if Z.land mask (shl1_u32 i) =? 0 then proj_masked mask (i + 1) cs' wkt first sql
      else
        sql ← (if first then Some sql else append_w sql (str ", "));
        sql ← append_col_proj sql c wkt;
        proj_masked mask (i + 1) cs' wkt false sql
  end.

Definition op_text (op : VmsPlanOp) : list Z :=
  match op with
  | OP_EQ => str " = ?" | OP_LT => str " < ?" | OP_LE => str " <= ?" | OP_GT => str " > ?"
  | OP_GE => str " >= ?" | OP_ISNULL => str " IS NULL" | OP_ISNOTNULL => str " IS NOT NULL"
  | OP_IN => str " = ?"
  end.

(** [cols[i].name]; an index outside the table's columns reads as a fault in
    C, here as a failing build (no plan the compiler builds has one). *)
Definition col_name (cols : list VmsMetaColumn) (i : Z) : option (list Z) :=
  c ← cols !! Z.to_nat i; Some (name c).

Fixpoint where_terms (cols : list VmsMetaColumn) (i : nat) (ts : list VmsPlanTerm) (sql : list Z) :
    option (list Z) :=
  match ts with
  | [] => Some sql
  | t :: ts' =>
      sql ← (match i with O => Some sql | S _ => append_w sql (str " AND ") end);
      sql ← (if tcol t <? 0 then append_w sql (str "1 = 0")
             else nm ← col_name cols (tcol t);
                  sql ← append_col sql nm;
                  append_w sql (op_text (top t)));
      where_terms cols (S i) ts' sql
  end.

Fixpoint order_terms (cols : list VmsMetaColumn) (i : nat) (os : list (Z * bool)) (sql : list Z) :
    option (list Z) :=
  match os with
  | [] => Some sql
  | (c, desc) :: os' =>
      sql ← (match i with O => Some sql | S _ => append_w sql (str ", ") end);
      nm ← col_name cols c;
      sql ← append_col sql nm;
      sql ← (if desc then append_w sql (str " DESC") else Some sql);
      order_terms cols (S i) os' sql
  end.

Definition limit_text (p : VmsPlan) : list Z :=
  if has_offset p && (norder p >? 0) then str " OFFSET ? ROWS FETCH NEXT ? ROWS ONLY"
  else if has_limit p then
    if norder p >? 0 then str " OFFSET 0 ROWS FETCH NEXT ? ROWS ONLY" else str " TOP (?)"
  else [].

(** The text and the number reported through [nparams]. *)
Definition vms_plan_build_sql (plan : VmsPlan) (schema table : option (list Z))
    (cols : list VmsMetaColumn) (spatial_wkt : bool) : option (list Z * Z) :=
  if negb (magic plan =? VMS_PLAN_MAGIC) then None
  else if negb (vms_meta_ident_valid schema 128) || negb (vms_meta_ident_valid table 128) then None
  else
    sql ← append_w [] (str "SELECT ");
    sql ← (if (used_mask plan =? 0) || (used_mask plan =? 4294967295) then proj_all 0 cols spatial_wkt sql
           else
             match proj_masked (used_mask plan) 0 cols spatial_wkt true sql with
             | None => None
             | Some (first, sql) => if (first : bool) then append_w sql (str "*") else Some sql
             end);
    sql ← append_w sql (str " FROM [");
    w ← to_wide 300 (default [] schema);
    sql ← append_w sql w;
    sql ← append_w sql (str "].[");
    w ← to_wide 300 (default [] table);
    sql ← append_w sql w;
    sql ← append_w sql (str "]");
    sql ← (if nterms plan >? 0 then append_w sql (str " WHERE ") else Some sql);
    sql ← where_terms cols 0 (terms plan) sql;
    sql ← (if norder plan >? 0 then append_w sql (str " ORDER BY ") else Some sql);
    sql ← order_terms cols 0 (orders plan) sql;
    sql ← append_w sql (limit_text plan);
    if zlen sql <? cap then Some (sql, nargs plan) else None.

End BuildSql.

(** ** Compilation is sound

    [served] relates a constraint of the host to the term that stands for it
    and to the usage reported for it. *)

Section CompileSound.
Variable cols : list VmsMetaColumn.
Variable cons : list constraint.

Definition is_null_test (op : VmsPlanOp) : bool :=
  bool_decide (op = OP_ISNULL) || bool_decide (op = OP_ISNOTNULL).

Definition op_matches (o : cons_op) (op : VmsPlanOp) : Prop :=
  plan_op o = Some op \/ (o = IC_IN /\ op = OP_IN).

Definition served (us : list usage) (i : nat) (t : VmsPlanTerm) : Prop :=
  exists c, cons !! i = Some c /\ usable c = true /\ tcol t = iColumn c /\ 0 <= tcol t < ncols cols /\
            op_matches (cop c) (top t) /\
            (if is_null_test (top t) then arg_index t = -1
             else col_is_int cols (tcol t) = true /\ 0 <= arg_index t) /\
            us !! i = Some (mkUse (arg_index t + 1) true).

(** The argument positions handed out so far. *)
Definition positives (us : list usage) : list Z :=
  filter (fun z => 0 < z) (map argvIndex us).

Lemma positives_insert us i u :
  us !! i = Some unused -> 0 < argvIndex u -> positives (<[i := u]> us) ≡ₚ argvIndex u :: positives us.
Proof.
  unfold positives. revert i; induction us as [|v us IH]; intros [|i] Hi Hu; simplify_eq/=.
  - rewrite !filter_cons, decide_True by done. done.
  - rewrite !filter_cons. destruct (decide (0 < argvIndex v)); rewrite (IH i) by done; [|done].
    constructor.
Qed.

Lemma positives_insert_zero us i u :
  us !! i = Some unused -> argvIndex u = 0 -> positives (<[i := u]> us) = positives us.
Proof.
  unfold positives. revert i; induction us as [|v us IH]; intros [|i] Hi Hu; simplify_eq/=.
  - rewrite !filter_cons, Hu. done.
  - rewrite !filter_cons. by rewrite (IH i).
Qed.

Lemma seqZ_snoc n : 0 <= n -> seqZ 1 (n + 1) ≡ₚ (n + 1) :: seqZ 1 n.
Proof.
  intros Hn. rewrite seqZ_app by lia. rewrite Permutation_app_comm.
  replace (1 + n) with (n + 1) by lia. done.
Qed.

Lemma served_insert us i j t u : i <> j -> served us j t -> served (<[i := u]> us) j t.
Proof.
  intros Hne (c & ?&?&?&?&?&?& Hu). exists c. split_and!; try (done || lia). by rewrite list_lookup_insert_ne.
Qed.

Lemma served_insert_all us i u js ts :
  i ∉ js -> Forall2 (served us) js ts -> Forall2 (served (<[i := u]> us)) js ts.
Proof.
  intros Hi HF. induction HF as [|j t js ts Hs HF IH]; [constructor|].
  apply not_elem_of_cons in Hi as [Hne Hi]. constructor; [by apply served_insert|by apply IH].
Qed.

(** The terms that compare with a bound value. *)
Definition takes_value (t : VmsPlanTerm) : bool := negb (is_null_test (top t)).

(** The loop invariant: [js] are the constraints the terms stand for. *)
Record cinv (T : nat -> constraint -> Prop) (s : cstate) (js : list nat) : Prop := {
  ci_served : Forall2 (served (cuse s)) js (cterms s);
  ci_nodup : NoDup js;
  ci_args : positives (cuse s) ≡ₚ seqZ 1 (cargs s);
  ci_nonneg : 0 <= cargs s;
  ci_length : length (cuse s) = length cons;
  ci_unused : forall i u, cuse s !! i = Some u -> i ∉ js -> u = unused;
  ci_touch : forall i c, i ∈ js -> cons !! i = Some c -> T i c;
  ci_bound : zlen (cterms s) <= 32;
  ci_count : zlen (List.filter takes_value (cterms s)) = cargs s
}.

Lemma cinv_weaken (T T' : nat -> constraint -> Prop) s js :
  (forall i c, T i c -> T' i c) -> cinv T s js -> cinv T' s js.
Proof. intros HT []. split; auto. Qed.

Lemma cinv_consume T s js i c op arg :
  cinv T s js -> cons !! i = Some c -> i ∉ js -> zlen (cterms s) < 32 ->
  usable c = true -> 0 <= iColumn c < ncols cols -> op_matches (cop c) op -> T i c ->
  (if is_null_test op then arg = -1 else col_is_int cols (iColumn c) = true /\ arg = cargs s) ->
  cinv T (consume s i (mkTerm (iColumn c) op arg) (if is_null_test op then cargs s else cargs s + 1)) (js ++ [i]).
Proof.
  intros [Hs Hn Ha Hz Hl Hu Ht Hb Hct] Hc Hi Hlt Hus Hcol Hop HT Harg.
  assert (Hui : cuse s !! i = Some unused).
  { destruct (cuse s !! i) as [u|] eqn:E; [by rewrite (Hu i u)|].
    apply lookup_ge_None in E. apply lookup_lt_Some in Hc. lia. }
  split; cbn [consume cuse cterms cargs arg_index].
  - apply Forall2_app; [by apply served_insert_all|]. constructor; [|constructor].
    exists c. split_and!; try done; try (simpl; lia).
    + cbn [top arg_index tcol]. destruct (is_null_test op); [done|]. destruct Harg as [? ->]. done.
    + apply list_lookup_insert_eq. by apply lookup_lt_Some in Hui.
  - apply NoDup_app. split_and!; [done| |apply NoDup_singleton]. intros x Hx ->%list_elem_of_singleton. done.
  - destruct (is_null_test op).
    + subst arg. by rewrite positives_insert_zero by done.
    + destruct Harg as [_ ->]. rewrite positives_insert by (done || (simpl; lia)).
      rewrite seqZ_snoc by done. by rewrite Ha.
  - destruct (is_null_test op); lia.
  - by rewrite length_insert.
  - intros j u Hj Hnj. apply not_elem_of_app in Hnj as [Hnj Hji]. rewrite list_elem_of_singleton in Hji.
    rewrite list_lookup_insert_ne in Hj by congruence. by eapply Hu.
  - intros j cj Hj Hcj. apply elem_of_app in Hj as [Hj| ->%list_elem_of_singleton]; [by apply Ht|].
    by simplify_eq.
  - autorewrite with vms_len. lia.
  - rewrite List.filter_app, zlen_app, Hct. unfold takes_value. cbn [List.filter top].
    destruct (is_null_test op); simpl; rewrite ?zlen_cons, ?zlen_nil; lia.
Qed.

Lemma cons_loop_inv step (T : nat -> nat -> constraint -> Prop) :
  (forall s js i c, cinv (T i) s js -> cons !! i = Some c -> zlen (cterms s) < 32 ->
     exists js', cinv (T (S i)) (step s i c) js') ->
  forall cs i s js, drop i cons = cs -> cinv (T i) s js ->
  exists i' js', cinv (T i') (cons_loop step i cs s) js'.
Proof.
  intros Hstep. induction cs as [|c cs IH]; intros i s js Hd Hinv; cbn [cons_loop]; [eauto|].
  unfold VMS_PLAN_MAX_ARGS. destruct (_ <? 32) eqn:E; [|eauto]. b2p.
  assert (Hc : cons !! i = Some c).
  { rewrite <- (Nat.add_0_r i), <- lookup_drop, Hd. done. }
  destruct (Hstep s js i c Hinv Hc E) as [js' Hinv'].
  apply (IH (S i) _ js'); [|done]. by rewrite <- Nat.add_1_r, <- drop_drop, Hd.
Qed.

(** Which constraints the two loops may have taken. *)
Definition touched_cmp (i j : nat) (c : constraint) : Prop :=
  (j < i)%nat /\ plan_op (cop c) <> None /\ 0 <= iColumn c.
Definition touched_in (i j : nat) (c : constraint) : Prop :=
  (plan_op (cop c) <> None \/ (cop c = IC_IN /\ (j < i)%nat)) /\ 0 <= iColumn c.

Lemma touched_cmp_S i j c : touched_cmp i j c -> touched_cmp (S i) j c.
Proof. intros (?&?&?). repeat split; try done. lia. Qed.
Lemma touched_in_S i j c : touched_in i j c -> touched_in (S i) j c.
Proof. intros [[?|[? ?]] ?]; split; auto. Qed.

Lemma not_touched T s js i c : cinv T s js -> cons !! i = Some c -> (T i c -> False) -> i ∉ js.
Proof. intros [_ _ _ _ _ _ Ht _ _] Hc HT Hi. apply HT. by apply Ht. Qed.

Lemma compare_step_inv s js i c :
  cinv (touched_cmp i) s js -> cons !! i = Some c -> zlen (cterms s) < 32 ->
  exists js', cinv (touched_cmp (S i)) (compare_step cols s i c) js'.
Proof.
  intros Hinv Hc Hlt. assert (Hi : i ∉ js) by (eapply not_touched; [done..|]; intros (?&_); lia).
  apply (cinv_weaken _ _ _ _ (touched_cmp_S i)) in Hinv. unfold compare_step.
  destruct (usable c) eqn:Eu; simpl; [|eauto].
  destruct ((iColumn c <? 0) || _) eqn:Ec; [eauto|]. b2p.
  destruct (plan_op (cop c)) as [op|] eqn:Eo; [|eauto].
  assert (HT : touched_cmp (S i) i c) by (repeat split; [lia|congruence|lia]).
  assert (Hop : op_matches (cop c) op) by (by left).
  pose proof (fun arg => cinv_consume _ s js i c op arg Hinv Hc Hi Hlt Eu ltac:(lia) Hop HT) as Hcons.
  change (bool_decide (op = OP_ISNULL) || bool_decide (op = OP_ISNOTNULL)) with (is_null_test op).
  destruct (is_null_test op); [eauto|]. destruct (col_is_int cols (iColumn c)) eqn:Ei; [|eauto]. eauto.
Qed.

Lemma in_step_inv info s js i c :
  cinv (touched_in i) s js -> cons !! i = Some c -> zlen (cterms s) < 32 ->
  exists js', cinv (touched_in (S i)) (in_step cols info s i c) js'.
Proof.
  intros Hinv Hc Hlt. unfold in_step.
  destruct (decide (cop c = IC_IN)) as [Eo|Eo]; cycle 1.
  { rewrite bool_decide_false by done. simpl. destruct (negb (usable c));
      exists js; by eapply cinv_weaken; [apply touched_in_S|]. }
  assert (Hi : i ∉ js).
  { eapply not_touched; [done..|]. intros [[H|[_ H]] _]; [by rewrite Eo in H|lia]. }
  apply (cinv_weaken _ _ _ _ (touched_in_S i)) in Hinv. rewrite bool_decide_true by done.
  destruct (usable c) eqn:Eu; simpl; [|eauto].
  destruct ((iColumn c <? 0) || _) eqn:Ec; [eauto|]. b2p.
  destruct (col_is_int cols (iColumn c)) eqn:Ei; simpl; [|eauto].
  destruct (in_first info i), (in_opt info i); simpl; try (by eauto).
  exists (js ++ [i]). apply (cinv_consume _ s js i c OP_IN (cargs s)); try done; try lia.
  - by right.
  - split; [right; split; [done|lia]|lia].
Qed.

(** The invariant of the last loop extends the first two. *)
Record linv (js : list nat) (ts : list VmsPlanTerm) (i : nat) (s : lstate) : Prop := {
  li_served : Forall2 (served (luse s)) js ts;
  li_args : positives (luse s) ≡ₚ seqZ 1 (largs s);
  li_nonneg : 0 <= largs s;
  li_length : length (luse s) = length cons;
  li_unused : forall j u, luse s !! j = Some u -> j ∉ js ->
    u = unused \/ ((j < i)%nat /\ exists c, cons !! j = Some c /\ (cop c = IC_LIMIT \/ cop c = IC_OFFSET));
  li_limit : ll s = true -> 0 <= larg s < largs s;
  li_offset : lo s = true -> ll s = true /\ 0 <= oarg s < largs s;
  li_none : ll s = false -> larg s < 0;
  li_count : zlen (List.filter takes_value ts) + (if ll s then 1 else 0) + (if lo s then 1 else 0) <= largs s
}.

Lemma limit_take js ts i s c s' :
  (forall j cj, j ∈ js -> cons !! j = Some cj -> 0 <= iColumn cj) ->
  linv js ts i s -> cons !! i = Some c -> iColumn c = -1 ->
  (cop c = IC_LIMIT \/ cop c = IC_OFFSET) ->
  luse s' = <[i := mkUse (largs s + 1) true]> (luse s) -> largs s' = largs s + 1 ->
  (ll s' = true -> 0 <= larg s' < largs s') -> (lo s' = true -> ll s' = true /\ 0 <= oarg s' < largs s') ->
  (ll s' = false -> larg s' < 0) ->
  (if ll s' then 1 else 0) + (if lo s' then 1 else 0) <= (if ll s then 1 else 0) + (if lo s then 1 else 0) + 1 ->
  linv js ts (S i) s'.
Proof.
  intros Hjs [Hs Ha Hz Hl Hu _ _ _ Hct] Hc Hcol Hop Hus Hargs H1 H2 H3 H4.
  assert (Hi : i ∉ js) by (intros Hi; specialize (Hjs i c Hi Hc); lia).
  assert (Hui : luse s !! i = Some unused).
  { destruct (luse s !! i) as [u|] eqn:E.
    - destruct (Hu i u E Hi) as [->|[? _]]; [done|lia].
    - apply lookup_ge_None in E. apply lookup_lt_Some in Hc. lia. }
  split; try done; rewrite ?Hus, ?Hargs.
  - by apply served_insert_all.
  - rewrite positives_insert by (done || (simpl; lia)). by rewrite seqZ_snoc, Ha by done.
  - lia.
  - by rewrite length_insert.
  - intros j u Hj Hnj. destruct (decide (i = j)) as [<-|Hne].
    + right. split; [lia|]. eauto.
    + rewrite list_lookup_insert_ne in Hj by done.
      destruct (Hu j u Hj Hnj) as [->|[? ?]]; [by left|right; split; [lia|done]].
  - lia.
Qed.

Lemma limit_step_inv js ts i s c :
  (forall j cj, j ∈ js -> cons !! j = Some cj -> 0 <= iColumn cj) ->
  linv js ts i s -> cons !! i = Some c -> linv js ts (S i) (limit_step s i c).
Proof.
  intros Hjs Hinv Hc. assert (Hkeep : linv js ts (S i) s).
  { destruct Hinv as [Hs Ha Hz Hl Hu H1 H2 H3 H4]. split; try done. intros j u Hj Hnj.
    destruct (Hu j u Hj Hnj) as [->|[? ?]]; [by left|right; split; [lia|done]]. }
  unfold limit_step. destruct (usable c); simpl; [|done].
  destruct (iColumn c =? -1) eqn:Ec; simpl; [|done]. b2p. pose proof Hinv as [_ _ Hz _ _ H1 H2 H3 _].
  destruct (bool_decide (cop c = IC_LIMIT) && _) eqn:El.
  { b2p. apply bool_decide_eq_true in H. eapply (limit_take js ts i s c); eauto; simpl; try done; [lia| |].
    - intros Ho. destruct (H2 Ho) as [Hll ?]. split; [done|]. lia.
    - destruct (ll s), (lo s); lia. }
  destruct (bool_decide (cop c = IC_OFFSET) && _) eqn:Eo; [|done].
  b2p. apply bool_decide_eq_true in H. eapply (limit_take js ts i s c); eauto; simpl; try done.
  - intros Hll. specialize (H1 Hll). lia.
  - intros _. split; [done|lia].
  - destruct (ll s), (lo s); lia.
Qed.

Lemma limit_loop_inv js ts :
  (forall j cj, j ∈ js -> cons !! j = Some cj -> 0 <= iColumn cj) ->
  forall cs i s, drop i cons = cs -> linv js ts i s -> exists i', linv js ts i' (limit_loop i cs s).
Proof.
  intros Hjs. induction cs as [|c cs IH]; intros i s Hd Hinv; cbn [limit_loop]; [eauto|].
  assert (Hc : cons !! i = Some c) by (rewrite <- (Nat.add_0_r i), <- lookup_drop, Hd; done).
  apply (IH (S i)); [by rewrite <- Nat.add_1_r, <- drop_drop, Hd|]. by apply limit_step_inv.
Qed.

End CompileSound.

Definition fresh_info (info : index_info) : Prop :=
  aConstraintUsage info = replicate (length (aConstraint info)) unused.

Lemma positives_fresh n : positives (replicate n unused) = [].
Proof. unfold positives. induction n as [|n IH]; simpl; [done|]. rewrite filter_cons. done. Qed.

(** What compilation establishes, in one invariant. *)
Lemma compile_inv cols info :
  fresh_info info ->
  exists js i l, linv cols (aConstraint info) js (terms (snd (vms_plan_compile cols info))) i l /\
    aConstraintUsage (fst (vms_plan_compile cols info)) = luse l /\
    nargs (snd (vms_plan_compile cols info)) = largs l /\
    has_limit (snd (vms_plan_compile cols info)) = ll l /\
    has_offset (snd (vms_plan_compile cols info)) = lo l /\
    limit_arg (snd (vms_plan_compile cols info)) = larg l /\
    offset_arg (snd (vms_plan_compile cols info)) = oarg l /\
    NoDup js /\ zlen (terms (snd (vms_plan_compile cols info))) <= 32.
Proof.
  intros Hf. unfold vms_plan_compile. rewrite Hf.
  set (s0 := mkCS [] 0 0 _). set (cons := aConstraint info).
  assert (H0 : cinv cols cons (touched_cmp 0) s0 []).
  { split; cbn [s0 cuse cterms cargs].
    - constructor.
    - constructor.
    - by rewrite positives_fresh.
    - done.
    - by rewrite length_replicate.
    - intros i u [-> _]%lookup_replicate _. done.
    - intros i c Hi. by apply not_elem_of_nil in Hi.
    - done.
    - done. }
  destruct (cons_loop_inv cols cons (compare_step cols) touched_cmp (compare_step_inv cols cons)
              cons 0%nat s0 [] eq_refl H0) as (i1 & js1 & H1).
  set (s1 := cons_loop _ 0 cons s0) in *.
  assert (H1' : cinv cols cons (touched_in 0) s1 js1).
  { eapply cinv_weaken; [|exact H1]. intros i c (_ & ? & ?). split; auto. }
  destruct (cons_loop_inv cols cons (in_step cols info) touched_in (in_step_inv cols cons info)
              cons 0%nat s1 js1 eq_refl H1') as (i2 & js2 & H2).
  set (s2 := cons_loop _ 0 cons s1) in *. destruct (order_loop _ _ _) as [ok ords].
  destruct H2 as [Hs Hn Ha Hz Hl Hu Ht Hb Hct].
  assert (Hcol : forall j cj, j ∈ js2 -> cons !! j = Some cj -> 0 <= iColumn cj)
    by (intros j cj Hj Hcj; by destruct (Ht j cj Hj Hcj)).
  assert (HL : linv cols cons js2 (cterms s2) 0 (mkLS false false (-1) (-1) (cargs s2) (cuse s2)))
    by (split; cbn; try done; [intros j u Hj Hnj; left; by eapply Hu|rewrite Hct; lia]).
  destruct (limit_loop_inv cols cons js2 (cterms s2) Hcol cons 0%nat _ eq_refl HL) as (i3 & H3).
  exists js2, i3, (limit_loop 0 cons (mkLS false false (-1) (-1) (cargs s2) (cuse s2))).
  cbn [fst snd terms nargs has_limit has_offset limit_arg offset_arg aConstraintUsage].
  split_and!; done.
Qed.

(** ** The text as a specification *)

Definition sep_join (sep : list Z) (l : list (list Z)) : list Z :=
  match l with [] => [] | x :: xs => x ++ flat_map (fun y => sep ++ y) xs end.

(** The elements of a masked projection, from index [i] on. *)
Fixpoint masked {A} (mask i : Z) (cs : list A) : list A :=
  match cs with
  | [] => []
  | c :: cs' =>
      if negb (i <? 62) then []
      else if Z.land mask (shl1_u32 i) =? 0 then masked mask (i + 1) cs' else c :: masked mask (i + 1) cs'
  end.

Definition full_mask (m : Z) : bool := (m =? 0) || (m =? 4294967295).

(** The columns a plan selects, or the values of a row in those columns. *)
Definition projected {A} (plan : VmsPlan) (cs : list A) : list A :=
  if full_mask (used_mask plan) then cs else masked (used_mask plan) 0 cs.

Section Text.
Context `{WideConv}.

Definition name_text (nm : list Z) : list Z := bracketed (widen nm).

Definition proj_text (wkt : bool) (c : VmsMetaColumn) : list Z :=
  match vtype c with
  | CT_SPATIAL => name_text (name c) ++ (if wkt then str ".STAsText()" else str ".STAsBinary()")
  | CT_TEXT => if is_ansi c then str "CAST(" ++ name_text (name c) ++ str " AS nvarchar(4000))"
               else name_text (name c)
  | CT_BIGTEXT => if is_ansi c then str "CAST(" ++ name_text (name c) ++ str " AS nvarchar(max))"
                  else name_text (name c)
  | _ => name_text (name c)
  end.


Definition projection_text (plan : VmsPlan) (cols : list VmsMetaColumn) (wkt : bool) : list Z :=
  match projected plan cols with
  | [] => if full_mask (used_mask plan) then [] else str "*"
  | cs => sep_join (str ", ") (map (proj_text wkt) cs)
  end.

Definition nth_name (cols : list VmsMetaColumn) (i : Z) : list Z :=
  match cols !! Z.to_nat i with Some c => name c | None => [] end.

Definition term_text (cols : list VmsMetaColumn) (t : VmsPlanTerm) : list Z :=
  if tcol t <? 0 then str "1 = 0" else name_text (nth_name cols (tcol t)) ++ op_text (top t).

Definition order_text (cols : list VmsMetaColumn) (o : Z * bool) : list Z :=
  name_text (nth_name cols (fst o)) ++ (if snd o then str " DESC" else []).

Definition plan_text (plan : VmsPlan) (schema table : list Z) (cols : list VmsMetaColumn) (wkt : bool) : list Z :=
  str "SELECT " ++ projection_text plan cols wkt ++ str " FROM [" ++ widen schema ++ str "].[" ++
  widen table ++ str "]" ++
  (if nterms plan >? 0 then str " WHERE " else []) ++ sep_join (str " AND ") (map (term_text cols) (terms plan)) ++
  (if norder plan >? 0 then str " ORDER BY " else []) ++ sep_join (str ", ") (map (order_text cols) (orders plan)) ++
  limit_text plan.

(** Plans whose columns exist, over names the conversion buffers hold. *)
Definition plan_cols_ok (plan : VmsPlan) (cols : list VmsMetaColumn) : Prop :=
  Forall (fun t => tcol t < ncols cols) (terms plan) /\
  Forall (fun o => 0 <= fst o < ncols cols) (orders plan) /\
  Forall (fun c => zlen (widen (name c)) <= 295) cols.

(** *** Builders that append a known text or fail for lack of room *)

Variable cap : Z.

Definition emits (f : list Z -> option (list Z)) (t : list Z) : Prop :=
  forall sql, zlen sql < cap -> f sql = if zlen sql + zlen t <? cap then Some (sql ++ t) else None.

Lemma emits_append s : emits (fun sql => append_w cap sql s) s.
Proof.
  intros sql Hs. unfold append_w. destruct (_ >? cap) eqn:E1, (_ <? cap) eqn:E2; try done; blia.
Qed.

Lemma emits_nil : emits Some [].
Proof.
  intros sql Hs. rewrite zlen_nil, Z.add_0_r, app_nil_r. by rewrite (proj2 (Z.ltb_lt _ _) Hs).
Qed.

Lemma emits_bind f g s t : emits f s -> emits g t -> emits (fun sql => f sql ≫= g) (s ++ t).
Proof.
  intros Hf Hg sql Hs. rewrite Hf, zlen_app by done. pose proof (zlen_nonneg t).
  destruct (zlen sql + zlen s <? cap) eqn:E; simpl; b2p.
  - rewrite Hg by (rewrite zlen_app; lia). rewrite zlen_app, <- app_assoc.
    by replace (zlen sql + (zlen s + zlen t)) with (zlen sql + zlen s + zlen t) by lia.
  - by replace (zlen sql + (zlen s + zlen t) <? cap) with false by (symmetry; apply Z.ltb_ge; lia).
Qed.

Lemma emits_ext f g t : (forall sql, f sql = g sql) -> emits g t -> emits f t.
Proof. intros E Hg sql Hs. rewrite E. by apply Hg. Qed.

Lemma emits_if (b : bool) f g s t : emits f s -> emits g t -> emits (fun sql => if b then f sql else g sql) (if b then s else t).
Proof. by destruct b. Qed.

Lemma to_wide_short n nm : zlen (widen nm) <= 295 -> 296 <= n -> to_wide n nm = Some (widen nm).
Proof. intros Hn Hc. unfold to_wide. destruct (_ >? _) eqn:E; [blia|done]. Qed.

Lemma emits_col nm : zlen (widen nm) <= 295 -> emits (fun sql => append_col cap sql nm) (name_text nm).
Proof.
  intros Hn. eapply emits_ext; [|apply emits_append]. intros sql. unfold append_col.
  by rewrite to_wide_short by (done || lia).
Qed.

Lemma emits_proj wkt c :
  zlen (widen (name c)) <= 295 -> emits (fun sql => append_col_proj cap sql c wkt) (proj_text wkt c).
Proof.
  intros Hn. pose proof (emits_col _ Hn) as Hcol. unfold proj_text, append_col_proj, append_col_spatial.
  destruct (vtype c); try exact Hcol.
  - destruct (is_ansi c); [|exact Hcol]. rewrite to_wide_short by (done || lia). cbn [mbind option_bind].
    apply emits_bind; [apply emits_append|]. apply emits_bind; apply emits_append.
  - destruct (is_ansi c); [|exact Hcol]. rewrite to_wide_short by (done || lia). cbn [mbind option_bind].
    apply emits_bind; [apply emits_append|]. apply emits_bind; apply emits_append.
  - rewrite to_wide_short by (done || lia). cbn [mbind option_bind]. apply emits_bind; apply emits_append.
Qed.

(** The loops that put a separator before every element but the first. *)
Fixpoint emit_list {A} (sep : list Z) (f : A -> list Z -> option (list Z)) (i : nat) (l : list A)
    (sql : list Z) : option (list Z) :=
  match l with
  | [] => Some sql
  | x :: l' =>
      sql ← (match i with O => Some sql | S _ => append_w cap sql sep end);
      sql ← f x sql;
      emit_list sep f (S i) l' sql
  end.

Definition list_text {A} (sep : list Z) (g : A -> list Z) (i : nat) (l : list A) : list Z :=
  match i with O => sep_join sep (map g l) | S _ => flat_map (fun x => sep ++ g x) l end.

Lemma flat_map_map {A B C} (f : B -> list C) (g : A -> B) l : flat_map f (map g l) = flat_map (fun x => f (g x)) l.
Proof. induction l as [|x l IH]; simpl; [done|]. by rewrite IH. Qed.

Lemma emits_list {A} sep (f : A -> list Z -> option (list Z)) g l i :
  Forall (fun x => emits (f x) (g x)) l -> emits (emit_list sep f i l) (list_text sep g i l).
Proof.
  intros HF. revert i. induction HF as [|x l Hx HF IH]; intros i; [destruct i; apply emits_nil|].
  cbn [emit_list]. specialize (IH (S i)). destruct i as [|i]; cbn [list_text map sep_join flat_map] in *.
  - rewrite flat_map_map. apply (emits_bind Some _ []); [apply emits_nil|]. by apply emits_bind.
  - rewrite <- app_assoc. apply emits_bind; [apply emits_append|]. by apply emits_bind.
Qed.

Lemma proj_all_list wkt cs i sql :
  proj_all cap i cs wkt sql = emit_list (str ", ") (fun c sql => append_col_proj cap sql c wkt) i cs sql.
Proof.
  revert i sql; induction cs as [|c cs IH]; intros i sql; simpl; [done|].
  destruct (match i with O => _ | S _ => _ end); simpl; [|done].
  destruct (append_col_proj _ _ _ _); simpl; [apply IH|done].
Qed.

Lemma emits_proj_all wkt cs i :
  Forall (fun c => zlen (widen (name c)) <= 295) cs ->
  emits (proj_all cap i cs wkt) (list_text (str ", ") (proj_text wkt) i cs).
Proof.
  intros HF. eapply emits_ext; [intros; apply proj_all_list|]. apply emits_list.
  eapply Forall_impl; [exact HF|]. intros c Hc. by apply emits_proj.
Qed.

Lemma masked_Forall (P : VmsMetaColumn -> Prop) mask i cs : Forall P cs -> Forall P (masked mask i cs).
Proof.
  intros HF. revert i; induction HF as [|c cs Hc HF IH]; intros i; simpl; [constructor|].
  destruct (negb _); [constructor|]. destruct (_ =? 0); [apply IH|constructor; [done|apply IH]].
Qed.

Lemma proj_masked_more mask wkt cs : forall i sql,
  Forall (fun c => zlen (widen (name c)) <= 295) cs -> zlen sql < cap ->
  proj_masked cap mask i cs wkt false sql =
  (proj_all cap 1 (masked mask i cs) wkt sql ≫= fun r => Some (false, r)).
Proof.
  induction cs as [|c cs IH]; intros i sql HF Hs; cbn [proj_masked masked]; [done|].
  destruct (negb (i <? 62)); [done|]. apply Forall_cons in HF as [Hc HF].
  pose proof (masked_Forall _ mask (i + 1) cs HF) as HF'.
  destruct (Z.land mask _ =? 0); [by apply IH|]. cbn [proj_all].
  rewrite (emits_append (str ", ") sql Hs). destruct (_ <? cap) eqn:E1; [|done]. b2p. cbn [mbind option_bind].
  rewrite (emits_proj wkt c Hc) by (rewrite zlen_app; lia).
  destruct (_ <? cap) eqn:E2; [|done]. b2p. cbn [mbind option_bind].
  rewrite IH by (done || (rewrite !zlen_app in *; lia)).
  by rewrite !(emits_proj_all wkt _ _ HF') by (rewrite !zlen_app in *; lia).
Qed.

Lemma proj_masked_first mask wkt cs : forall i sql,
  Forall (fun c => zlen (widen (name c)) <= 295) cs -> zlen sql < cap ->
  proj_masked cap mask i cs wkt true sql =
  match masked mask i cs with
  | [] => Some (true, sql)
  | ms => proj_all cap 0 ms wkt sql ≫= fun r => Some (false, r)
  end.
Proof.
  induction cs as [|c cs IH]; intros i sql HF Hs; cbn [proj_masked masked]; [done|].
  destruct (negb (i <? 62)); [done|]. apply Forall_cons in HF as [Hc HF].
  destruct (Z.land mask _ =? 0); [by apply IH|]. cbn [proj_all mbind option_bind].
  rewrite (emits_proj wkt c Hc) by done.
  destruct (_ <? cap) eqn:E2; [|done]. b2p. cbn [mbind option_bind].
  by rewrite proj_masked_more by (done || (rewrite zlen_app; lia)).
Qed.

Definition proj_part (plan : VmsPlan) (cols : list VmsMetaColumn) (wkt : bool) (sql : list Z) : option (list Z) :=
  if (used_mask plan =? 0) || (used_mask plan =? 4294967295) then proj_all cap 0 cols wkt sql
  else match proj_masked cap (used_mask plan) 0 cols wkt true sql with
       | None => None
       | Some (first, sql) => if (first : bool) then append_w cap sql (str "*") else Some sql
       end.

Lemma emits_projection plan cols wkt :
  Forall (fun c => zlen (widen (name c)) <= 295) cols ->
  emits (proj_part plan cols wkt) (projection_text plan cols wkt).
Proof.
  intros HF. unfold proj_part, projection_text, projected, full_mask. destruct (_ || _).
  - pose proof (emits_proj_all wkt cols 0 HF). by destruct cols.
  - intros sql Hs. rewrite proj_masked_first by done.
    pose proof (masked_Forall _ (used_mask plan) 0 cols HF) as HF'.
    destruct (masked _ _ _) as [|m ms] eqn:Em; [by apply emits_append|].
    rewrite (emits_proj_all wkt _ 0 HF' sql Hs). by destruct (_ <? cap).
Qed.

Definition where_term (cols : list VmsMetaColumn) (t : VmsPlanTerm) (sql : list Z) : option (list Z) :=
  if tcol t <? 0 then append_w cap sql (str "1 = 0")
  else nm ← col_name cols (tcol t); sql ← append_col cap sql nm; append_w cap sql (op_text (top t)).

Lemma where_terms_list cols ts i sql :
  where_terms cap cols i ts sql = emit_list (str " AND ") (where_term cols) i ts sql.
Proof.
  revert i sql; induction ts as [|t ts IH]; intros i sql; simpl; [done|].
  destruct (match i with O => _ | S _ => _ end); simpl; [|done]. fold (where_term cols t l).
  destruct (where_term cols t l); simpl; [apply IH|done].
Qed.

Lemma emits_where cols ts :
  Forall (fun c => zlen (widen (name c)) <= 295) cols -> Forall (fun t => tcol t < ncols cols) ts ->
  emits (where_terms cap cols 0 ts) (sep_join (str " AND ") (map (term_text cols) ts)).
Proof.
  intros HF HT. eapply emits_ext; [intros; apply where_terms_list|].
  apply (emits_list (str " AND ") (where_term cols) (term_text cols) ts 0).
  eapply Forall_impl; [exact HT|]. intros t Ht.
  unfold where_term, term_text, nth_name, col_name. destruct (tcol t <? 0) eqn:E; [apply emits_append|]. b2p.
  destruct (lookup_lt_is_Some_2 cols (Z.to_nat (tcol t))) as [c Hc]; [unfold ncols, zlen in Ht; lia|].
  rewrite Hc. cbn [mbind option_bind]. rewrite Forall_lookup in HF.
  apply emits_bind; [apply emits_col, (HF _ _ Hc)|apply emits_append].
Qed.

Lemma order_terms_list cols os i sql :
  order_terms cap cols i os sql =
  emit_list (str ", ") (fun o sql => nm ← col_name cols (fst o); sql ← append_col cap sql nm;
                                     if (snd o : bool) then append_w cap sql (str " DESC") else Some sql) i os sql.
Proof.
  revert i sql; induction os as [|[c d] os IH]; intros i sql; simpl; [done|].
  destruct (match i with O => _ | S _ => _ end); simpl; [|done].
  destruct (col_name cols c); simpl; [|done]. destruct (append_col _ _ _); simpl; [|done].
  destruct d; simpl; [destruct (append_w _ _ _); simpl; [|done]|]; apply IH.
Qed.

Lemma emits_order cols os :
  Forall (fun c => zlen (widen (name c)) <= 295) cols -> Forall (fun o => 0 <= fst o < ncols cols) os ->
  emits (order_terms cap cols 0 os) (sep_join (str ", ") (map (order_text cols) os)).
Proof.
  intros HF HT. eapply emits_ext; [intros; apply order_terms_list|].
  apply (emits_list (str ", ") _ (order_text cols) os 0). eapply Forall_impl; [exact HT|]. intros [c d] Hc.
  unfold order_text, nth_name, col_name. cbn [fst snd] in *.
  destruct (lookup_lt_is_Some_2 cols (Z.to_nat c)) as [m Hm]; [unfold ncols, zlen in Hc; lia|].
  rewrite Hm. cbn [mbind option_bind]. rewrite Forall_lookup in HF.
  apply emits_bind; [apply emits_col, (HF _ _ Hm)|]. destruct d; [apply emits_append|apply emits_nil].
Qed.

Lemma ident_widen nm : vms_meta_ident_valid (Some nm) 128 = true -> widen nm = nm /\ zlen nm <= 128.
Proof.
  intros (_ & Hl & Hc)%ident_valid_spec. split; [|done]. apply widen_ascii.
  eapply Forall_impl; [exact Hc|]. intros c Hc'. unfold ident_char, isalnum, isalpha, isupper, islower, isdigit in Hc'.
  repeat (apply orb_prop in Hc' as [Hc'|Hc']); b2p; try lia; subst; vm_compute; split; congruence.
Qed.

Lemma build_sql_text plan schema table cols wkt :
  0 < cap -> magic plan = VMS_PLAN_MAGIC -> plan_cols_ok plan cols ->
  vms_meta_ident_valid (Some schema) 128 = true -> vms_meta_ident_valid (Some table) 128 = true ->
  vms_plan_build_sql cap plan (Some schema) (Some table) cols wkt =
  if zlen (plan_text plan schema table cols wkt) <? cap
  then Some (plan_text plan schema table cols wkt, nargs plan) else None.
Proof.
  intros Hcap Hm (HT & HO & HN) Hs Ht. unfold vms_plan_build_sql.
  rewrite Hm, Z.eqb_refl, Hs, Ht. cbn [negb orb from_option id].
  destruct (ident_widen _ Hs) as [Es Hls], (ident_widen _ Ht) as [Et Hlt].
  assert (Hall : emits (fun sql =>
    sql ← append_w cap sql (str "SELECT ");
    sql ← proj_part plan cols wkt sql;
    sql ← append_w cap sql (str " FROM [");
    sql ← append_w cap sql (widen schema);
    sql ← append_w cap sql (str "].[");
    sql ← append_w cap sql (widen table);
    sql ← append_w cap sql (str "]");
    sql ← (if nterms plan >? 0 then append_w cap sql (str " WHERE ") else Some sql);
    sql ← where_terms cap cols 0 (terms plan) sql;
    sql ← (if norder plan >? 0 then append_w cap sql (str " ORDER BY ") else Some sql);
    sql ← order_terms cap cols 0 (orders plan) sql;
    append_w cap sql (limit_text plan)) (plan_text plan schema table cols wkt)).
  { unfold plan_text.
    repeat (apply emits_bind;
      [first [apply emits_append | by apply emits_projection | by apply emits_where | by apply emits_order
             | apply emits_if; [apply emits_append|apply emits_nil]]|]). apply emits_append. }
  specialize (Hall [] Hcap). change (zlen (@nil Z)) with 0 in Hall. rewrite Z.add_0_l in Hall.
  cbn [app] in Hall. cbv beta in Hall.
  rewrite !to_wide_short by (rewrite ?Es, ?Et; lia). cbn [mbind option_bind].
  transitivity ((if zlen (plan_text plan schema table cols wkt) <? cap
                 then Some (plan_text plan schema table cols wkt) else None)
                ≫= fun sql => if zlen sql <? cap then Some (sql, nargs plan) else None).
  - rewrite <- Hall. unfold proj_part.
    repeat match goal with |- (?f ≫= _) = _ => destruct f; cbn [mbind option_bind]; [|done] end. done.
  - destruct (zlen _ <? cap) eqn:E; simpl; [by rewrite E|done].
Qed.
End Text.

(** ** Projection *)

Lemma shl1_u32_pow i : shl1_u32 i = 2 ^ (i mod 32).
Proof.
  unfold shl1_u32, wrap_u32. pose proof (Z.mod_pos_bound i 32 ltac:(lia)) as Hi.
  rewrite Z.shiftl_1_l. apply Z.mod_small. split; [lia|]. apply Z.pow_lt_mono_r; lia.
Qed.

Lemma land_pow2 m k : 0 <= k -> (Z.land m (2 ^ k) =? 0) = negb (Z.testbit m k).
Proof.
  intros Hk. destruct (Z.testbit m k) eqn:E; simpl.
  - apply Z.eqb_neq. intros H0. apply (f_equal (fun z => Z.testbit z k)) in H0.
    rewrite Z.land_spec, E, Z.pow2_bits_true, Z.bits_0 in H0 by done. done.
  - apply Z.eqb_eq. apply Z.bits_inj'. intros j Hj. rewrite Z.land_spec, Z.bits_0.
    destruct (Z.eq_dec k j) as [<-|]; [by rewrite E|]. rewrite Z.pow2_bits_false by done. apply andb_false_r.
Qed.

(** Whether a mask selects column [i]. *)
Definition selects (m i : Z) : bool := Z.testbit m (i mod 32).

Lemma mask_selects m i : (Z.land m (shl1_u32 i) =? 0) = negb (selects m i).
Proof.
  rewrite shl1_u32_pow. apply land_pow2. pose proof (Z.mod_pos_bound i 32 ltac:(lia)). lia.
Qed.

Lemma mark_selects m i j : selects (mark m i) j = selects m j || (i mod 32 =? j mod 32).
Proof.
  unfold selects, mark. rewrite shl1_u32_pow, Z.lor_spec. f_equal.
  pose proof (Z.mod_pos_bound i 32 ltac:(lia)). pose proof (Z.mod_pos_bound j 32 ltac:(lia)).
  destruct (i mod 32 =? j mod 32) eqn:E; b2p.
  - rewrite E. apply Z.pow2_bits_true. lia.
  - apply Z.pow2_bits_false. lia.
Qed.

Lemma mark_col_mono m c j : selects m j = true -> selects (mark_col m c) j = true.
Proof. intros Hm. unfold mark_col. destruct (_ && _); [|done]. by rewrite mark_selects, Hm. Qed.

Lemma mark_cols_mono {A} (f : A -> Z) l m j :
  selects m j = true -> selects (foldl (fun m x => mark_col m (f x)) m l) j = true.
Proof. revert m; induction l as [|x l IH]; intros m Hm; simpl; [done|]. by apply IH, mark_col_mono. Qed.

Lemma mark_cols_in {A} (f : A -> Z) l m x :
  x ∈ l -> 0 <= f x < 62 -> selects (foldl (fun m x => mark_col m (f x)) m l) (f x) = true.
Proof.
  intros Hx Hr. revert m. induction Hx as [x l|x y l Hx IH]; intros m; simpl; [|by apply IH].
  apply mark_cols_mono. unfold mark_col. replace ((f x >=? 0) && (f x <? 62)) with true.
  - rewrite mark_selects, Z.eqb_refl. apply orb_true_r.
  - symmetry. apply andb_true_iff. rewrite Z.geb_leb, Z.leb_le, Z.ltb_lt. lia.
Qed.

Lemma mark_used_mono n i cu m j : selects m j = true -> selects (mark_used n i cu m) j = true.
Proof.
  revert i m; induction n as [|n IH]; intros i m Hm; simpl; [done|]. destruct (negb (i <? 62)); [done|].
  apply IH. destruct (negb _); [|done]. by rewrite mark_selects, Hm.
Qed.

Lemma mark_used_in n i cu m j :
  0 <= i <= j -> j < i + Z.of_nat n -> j < 62 -> Z.testbit cu j = true -> selects (mark_used n i cu m) j = true.
Proof.
  revert i m; induction n as [|n IH]; intros i m Hi Hn Hj Hb; [lia|]. cbn [mark_used].
  replace (negb (i <? 62)) with false by (symmetry; apply negb_false_iff, Z.ltb_lt; lia).
  destruct (Z.eq_dec i j) as [<-|]; [|apply IH; (done || lia)].
  apply mark_used_mono. rewrite Z.shiftl_1_l, land_pow2, Hb by lia. simpl.
  rewrite mark_selects, Z.eqb_refl. apply orb_true_r.
Qed.

(** A column below 62 that the host reads is selected by the mask. *)
Lemma projection_mask_used cols info j :
  0 <= j < ncols cols -> j < 62 -> Z.testbit (colUsed info) j = true ->
  projection_mask cols info = 4294967295 \/ selects (projection_mask cols info) j = true.
Proof.
  intros Hr Hj Hb. unfold projection_mask. rewrite Z.shiftl_1_l, land_pow2 by lia.
  destruct (Z.testbit (colUsed info) 63); simpl; [by left|]. right.
  apply mark_cols_mono, mark_cols_mono, mark_used_in; try done; unfold ncols, zlen in Hr; lia.
Qed.

(** ** Properties *)

Lemma order_loop_range cols os acc :
  Forall (fun o => 0 <= fst o < ncols cols) acc ->
  Forall (fun o => 0 <= fst o < ncols cols) (snd (order_loop cols os acc)).
Proof.
  revert acc; induction os as [|o os IH]; intros acc HF; simpl; [done|].
  destruct ((oColumn o <? 0) || (oColumn o >=? ncols cols) || _) eqn:E; [done|].
  destruct (zlen acc >=? _); [done|]. apply IH. apply Forall_app. split; [done|]. constructor; [|constructor]. simpl. blia.
Qed.

Lemma compile_cols_ok `{WideConv} cols info :
  fresh_info info -> Forall (fun c => zlen (widen (name c)) <= 295) cols ->
  plan_cols_ok (snd (vms_plan_compile cols info)) cols.
Proof.
  intros Hf HN. split_and!; [| |done].
  - destruct (compile_inv cols info Hf) as (js & i & l & Hl & _). destruct Hl as [Hs _ _ _ _ _ _ _ _].
    revert Hs. generalize (terms (snd (vms_plan_compile cols info))) as ts. intros ts Hs.
    induction Hs as [|j t js' ts' (c & _ & _ & _ & Hr & _) _ IH]; constructor; [lia|done].
  - unfold vms_plan_compile. pose proof (order_loop_range cols (aOrderBy info) [] (Forall_nil_2 _)) as Ho.
    destruct (order_loop _ _ _) as [ok ords]. cbn [snd orders] in *. by destruct (ok && _ && _).
Qed.

(** [C1]: compilation consumes a constraint only when it is usable and tests
    an existing column, as a comparison or IN on an integer column or as a
    null test; each term of the plan stands for exactly one constraint and
    carries the argument position reported for it; every constraint the host
    is told to skip has its term or is a LIMIT or OFFSET; the reported
    argument positions are exactly 1 to [nargs], each once. *)
Theorem plan_compile_sound cols info :
  fresh_info info ->
  let us := aConstraintUsage (fst (vms_plan_compile cols info)) in
  let plan := snd (vms_plan_compile cols info) in
  (exists js, NoDup js /\ Forall2 (served cols (aConstraint info) us) js (terms plan) /\
     forall j u, us !! j = Some u -> omit u = true -> j ∈ js \/
       exists c, aConstraint info !! j = Some c /\ (cop c = IC_LIMIT \/ cop c = IC_OFFSET)) /\
  positives us ≡ₚ seqZ 1 (nargs plan) /\ nterms plan <= 32.
Proof.
  intros Hf us plan. destruct (compile_inv cols info Hf) as (js & i & l & [Hs Ha _ _ Hu _ _ _ _] & Hus & Hn & _ & _ & _ & _ & Hnd & Hb).
  unfold us, plan. rewrite Hus, Hn. split_and!; [|done|exact Hb].
  exists js. split_and!; [done|done|]. intros j u Hj Ho. destruct (decide (j ∈ js)) as [|Hnj]; [by left|].
  right. destruct (Hu j u Hj Hnj) as [->|[_ ?]]; done.
Qed.

(** A table and a query: a text comparison stays local, two integer
    constraints and the limit are consumed. *)
Definition demo_table : list VmsMetaColumn :=
  [mkCol (str "id") (str "int") CT_INT64 0 1 0 4 10 0;
   mkCol (str "note") (str "varchar") CT_TEXT 1 0 0 40 0 0;
   mkCol (str "qty") (str "bigint") CT_INT64 1 0 0 8 19 0].

Definition demo_info : index_info :=
  mkInfo 7 [mkCons 1 IC_EQ true; mkCons 0 IC_GE true; mkCons 2 IC_ISNOTNULL true; mkCons (-1) IC_LIMIT true]
         [mkOrd 0 true] (fun _ => false) (fun _ => false) (replicate 4 unused) false 0%Q.

Lemma plan_compile_sound_witness :
  terms (snd (vms_plan_compile demo_table demo_info)) = [mkTerm 0 OP_GE 0; mkTerm 2 OP_ISNOTNULL (-1)] /\
  positives (aConstraintUsage (fst (vms_plan_compile demo_table demo_info))) ≡ₚ [1; 2].
Proof.
  split; [vm_compute; reflexivity|].
  destruct (plan_compile_sound demo_table demo_info) as (_ & Hp & _); [reflexivity|exact Hp].
Defined.


