(* ===== verification/Scan.v ===== *)
(** * Scans of the virtual table (src/src/vms_vtab.c, xBestIndex to xRowid)

    Planning, binding of the host's argument values to the plan, the map from
    table columns to projected columns, and the row loop.  The remote cursor
    is the sequence of results its fetches deliver. *)

From Stdlib Require Import QArith.
From S2P Require Import Prelude Foundation Client Identity Plan.

#[local] Open Scope Z_scope.

(** ** xBestIndex *)

Record VmsVtab := mkTab {
  t_schema : list Z;
  t_table : list Z;
  t_cols : list VmsMetaColumn;
  t_query_source : bool;
  t_rw : bool;
  t_wkt : bool
}.

(** The key columns a writable table always projects. *)
Fixpoint mark_key (nm : list Z) (j : Z) (cs : list VmsMetaColumn) (m : Z) : Z :=
  match cs with
  | [] => m
  | c :: cs' => mark_key nm (j + 1) cs' (if stricmp_eq (name c) nm && (j <? 62) then mark m j else m)
  end.

Definition mark_keys (key : VmsStableKey) (cols : list VmsMetaColumn) (m : Z) : Z :=
  foldl (fun m p => mark_key (kname p) 0 cols m) m (take (Z.to_nat (part_count key)) (parts key)).

Definition with_mask (p : VmsPlan) (m : Z) : VmsPlan :=
  mkPlan (magic p) m (omit_mask p) (terms p) (nargs p) (orders p) (has_limit p) (has_offset p)
         (limit_arg p) (offset_arg p).

(** [dml_key] is the key of the write context, when one can be had;
    [malloc_ok] the outcome of allocating the index string.  The result is
    the index number and the serialized plan, [None] for out of memory. *)
Definition vms_vtab_best_index (tab : VmsVtab) (dml_key : option VmsStableKey) (malloc_ok : bool)
    (info : index_info) : option (Z * option VmsPlan * index_info) :=
  if t_query_source tab then Some (2, None, info)
  else
    let '(info, plan) := vms_plan_compile (t_cols tab) info in
    let plan :=
      match t_rw tab, dml_key with
      | true, Some k => with_mask plan (mark_keys k (t_cols tab) (used_mask plan))
      | _, _ => plan
      end in
    if negb malloc_ok then None else Some (1, Some plan, info).

(** ** xFilter: argument values *)

(** What the host's value interface reports of one argument: its integer
    value when its numeric type is integer, and the values of the list behind
    an IN, each integer or not. *)
Record Arg := mkArg { a_int : option Z; a_in : list (option Z) }.

Definition set_col (t : VmsPlanTerm) (c : Z) : VmsPlanTerm := mkTerm c (top t) (arg_index t).

(** The integer items of an IN list that the buffer of 64 holds. *)
Definition in_items (a : option Arg) : list Z := take 64 (omap id (from_option a_in [] a)).

Definition get_arg (argv : list Arg) (i : Z) : option Arg :=
  if (i >=? 0) && (i <? zlen argv) then argv !! Z.to_nat i else None.

(** One term with the value bound for it; [None] is the error return. *)
Definition bind_term (argv : list Arg) (t : VmsPlanTerm) : option (VmsPlanTerm * Z) :=
  let v := get_arg argv (arg_index t) in
  match top t with
  | OP_ISNULL | OP_ISNOTNULL => Some (t, 0)
  | OP_IN =>
      match in_items v with
      | [] => Some (set_col t (-1), 0)
      | x :: xs => if forallb (Z.eqb x) xs then Some (t, x) else Some (set_col t (-2), 0)
      end
  | _ => match v ≫= a_int with Some z => Some (t, z) | None => None end
  end.

Record bound_plan := mkBound { bp : VmsPlan; bvals : list Z; blimit : Z; boffset : Z }.

Definition arg_int (argv : list Arg) (present : bool) (i dflt : Z) : Z :=
  if present then match get_arg argv i with Some a => default dflt (a_int a) | None => dflt end else dflt.

Definition bind_plan (plan : VmsPlan) (argv : list Arg) : option bound_plan :=
  bs ← mapM (bind_term argv) (terms plan);
  let limit := arg_int argv (has_limit plan) (limit_arg plan) (-1) in
  let offset := arg_int argv (has_offset plan) (offset_arg plan) 0 in
  let drop_limit := has_limit plan && (limit <? 0) in
  Some (mkBound
    (mkPlan (magic plan) (used_mask plan) (omit_mask plan) (map fst bs) (nargs plan) (orders plan)
            (if drop_limit then false else has_limit plan) (if drop_limit then false else has_offset plan)
            (limit_arg plan) (offset_arg plan))
    (map snd bs) limit offset).

(** The values in the order of the placeholders of the statement. *)
Fixpoint term_params (ts : list VmsPlanTerm) (vs : list Z) : list Z :=
  match ts, vs with
  | t :: ts', v :: vs' =>
      (if is_null_test (top t) then [] else if tcol t <? 0 then [] else [v]) ++ term_params ts' vs'
  | _, _ => []
  end.

Definition sql_params (b : bound_plan) : list Z :=
  let p := bp b in
  (if has_limit p && (norder p =? 0) && negb (has_offset p) then [blimit b] else []) ++
  term_params (terms p) (bvals b) ++
  (if has_offset p && (norder p >? 0) then [boffset b; blimit b]
   else if has_limit p && (norder p >? 0) then [blimit b] else []).

(** ** xFilter: column map *)

Definition is_projected (have_plan : option VmsPlan) (i : Z) : bool :=
  match have_plan with
  | Some p => if full_mask (used_mask p) then true
              else (i <? 62) && negb (Z.land (used_mask p) (shl1_u32 i) =? 0)
  | None => true
  end.

Fixpoint col_map_loop (have_plan : option VmsPlan) (n : nat) (vcol proj : Z) : list Z :=
  match n with
  | O => []
  | S n' =>
      if is_projected have_plan vcol then proj :: col_map_loop have_plan n' (vcol + 1) (proj + 1)
      else -1 :: col_map_loop have_plan n' (vcol + 1) proj
  end.

Definition col_map (have_plan : option VmsPlan) (ncol : nat) : list Z :=
  col_map_loop have_plan (Nat.min ncol 512) 0 0.

(** ** Row loop *)

Inductive fetch_result : Type := FRow (vals : list VmsValue) | FErr (e : VmsError).

(** The cursor: the open remote cursor as the results still to come (or a
    snapshot statement), the current row, the column map, the end flag and
    the row counter. *)
Inductive source : Type :=
| SrcNone
| SrcRemote (todo : list fetch_result)
| SrcSnapshot (todo : list fetch_result).

Record VmsVtabCursor := mkCur {
  c_src : source;
  c_row : list VmsValue;
  c_map : list Z;
  c_eof : bool;
  c_counter : Z
}.

Inductive sqlite_rc : Type := RC_OK | RC_ERROR.

(** The second component is the error text stored in the table. *)
Definition vms_vtab_next (cur : VmsVtabCursor) : VmsVtabCursor * sqlite_rc * option VmsError :=
  match c_src cur with
  | SrcSnapshot (FRow r :: todo) =>
      (mkCur (SrcSnapshot todo) r (c_map cur) false (c_counter cur + 1), RC_OK, None)
  | SrcSnapshot (FErr _ :: _) => (mkCur SrcNone [] (c_map cur) true (c_counter cur), RC_ERROR, None)
  | SrcSnapshot [] => (mkCur SrcNone [] (c_map cur) true (c_counter cur), RC_OK, None)
  | SrcNone => (mkCur SrcNone (c_row cur) (c_map cur) true (c_counter cur), RC_OK, None)
  | SrcRemote (FErr e :: _) => (mkCur SrcNone [] (c_map cur) true (c_counter cur), RC_ERROR, Some e)
  | SrcRemote [] => (mkCur SrcNone [] (c_map cur) true (c_counter cur), RC_OK, None)
  | SrcRemote (FRow r :: todo) =>
      (mkCur (SrcRemote todo) r (c_map cur) false (c_counter cur + 1), RC_OK, None)
  end.

Definition vms_vtab_eof (cur : VmsVtabCursor) : bool := c_eof cur.

Definition vms_vtab_column (ncol : Z) (cur : VmsVtabCursor) (col : Z) : VmsValue :=
  match c_src cur with
  | SrcNone => VAL_NULL
  | SrcSnapshot _ =>
      let c := nth (Z.to_nat col) (c_map cur) (-1) in
      if c_eof cur || (c <? 0) then VAL_NULL
      else match c_row cur !! Z.to_nat c with Some v => v | None => VAL_NULL end
  | SrcRemote _ =>
      if c_eof cur then VAL_NULL
      else
        let c := nth (Z.to_nat col) (c_map cur) (-1) in
        if (col <? 0) || (col >=? ncol) || (c <? 0) then VAL_NULL
        else match c_row cur !! Z.to_nat c with
             | Some (VAL_BIGTEXT _) | None => VAL_NULL
             | Some v => v
             end
  end.

(** The scan the host runs: position, then read and advance until the end. *)
Fixpoint scan_loop {A} (fuel : nat) (emit : VmsVtabCursor -> A) (cur : VmsVtabCursor) : option (list A * sqlite_rc) :=
  match fuel with
  | O => None
  | S fuel' =>
      if vms_vtab_eof cur then Some ([], RC_OK)
      else
        let '(cur', rc, _) := vms_vtab_next cur in
        match rc with
        | RC_ERROR => Some ([emit cur], RC_ERROR)
        | RC_OK => '(rs, rc') ← scan_loop fuel' emit cur'; Some (emit cur :: rs, rc')
        end
  end.

(** ** xRowid *)

Section Rowid.
Context `{FloatIO}.

(** The text stashed for one key value; [None] when there is none. *)
Definition key_text_of (v : option VmsValue) : option (list Z) :=
  match v with
  | Some (VAL_INT64 i) => Some (trunc_copy 160 (print_i i))
  | Some (VAL_FLOAT64 f) => Some (trunc_copy 160 (fmt_g17 f))
  | Some (VAL_TEXT t) => Some (take 159 t)
  | _ => None
  end.

(** The first projected column with the name of a key part. *)
Fixpoint find_mapped (cols : list VmsMetaColumn) (m : list Z) (nm : list Z) : option Z :=
  match cols, m with
  | c :: cols', k :: m' => if (k >=? 0) && stricmp_eq (name c) nm then Some k else find_mapped cols' m' nm
  | _, _ => None
  end.

(** The stashed texts of all key parts, when every part has one. *)
Definition stash_key (tab : VmsVtab) (cur : VmsVtabCursor) (key : VmsStableKey) : option (list (list Z)) :=
  mapM (fun p => k ← find_mapped (t_cols tab) (c_map cur) (kname p);
                 key_text_of (c_row cur !! Z.to_nat k))
       (take (Z.to_nat (part_count key)) (parts key)).

(** The first projected integer column decides, if its value is an integer. *)
Fixpoint rowid_loop (cols : list VmsMetaColumn) (m : list Z) (row : list VmsValue) : option Z :=
  match cols, m with
  | c :: cols', k :: m' =>
      if k <? 0 then rowid_loop cols' m' row
      else if negb (bool_decide (vtype c = CT_INT64)) then rowid_loop cols' m' row
      else match row !! Z.to_nat k with Some (VAL_INT64 i) => Some i | _ => None end
  | _, _ => None
  end.

(** [dml_key] is the key of an existing write context.  The result is the
    stashed key and the row id. *)
Definition vms_vtab_rowid (tab : VmsVtab) (dml_key : option VmsStableKey) (cur : VmsVtabCursor) :
    option (list (list Z)) * Z :=
  match c_src cur with
  | SrcRemote _ =>
      (if negb (zlen (t_cols tab) >? 0) || negb (t_rw tab) then None else dml_key ≫= stash_key tab cur,
       if zlen (t_cols tab) >? 0 then
         default (c_counter cur) (rowid_loop (t_cols tab) (c_map cur) (c_row cur))
       else c_counter cur)
  | _ => (None, c_counter cur)
  end.

End Rowid.

(** ** xFilter: acquiring, opening and retrying

    The environment answers the pool, the materializer and the cursor layer;
    [n] counts the calls.  The calls are recorded in order. *)

Inductive event : Type :=
| EvClose                                  (* vms_cursor_close of the previous scan *)
| EvAcquire                                (* vms_pool_acquire that returned a lease *)
| EvRelease                                (* vms_pool_release of that lease *)
| EvOpenSql (sql : list Z) (params : list Z)
| EvOpenShared (sql : list Z) (params : list Z)
| EvOpenTable
| EvBuildMat.

Class ScanEnv := {
  acquire : nat -> option VmsError;        (* None: a lease *)
  open_sql : nat -> list Z -> list Z -> VmsError + list fetch_result;
  open_shared : list Z -> list Z -> VmsError + list fetch_result;
  open_table : nat -> VmsError + list fetch_result;
  query_text : option (list Z);
  mat_on : bool;                           (* the table is materialized *)
  mat_built : bool;                        (* its snapshot exists *)
  mat_create : bool;
  mat_build : option VmsError;             (* None: built *)
  snapshot : option (list fetch_result);   (* None: the snapshot cannot be read *)
  in_txn : bool
}.

Inductive filter_outcome : Type :=
| Failed (e : option VmsError) (text : list Z)
| Opened (src : source) (map : list Z).

Definition full_plan : VmsPlan := mkPlan VMS_PLAN_MAGIC 4294967295 0 [] 0 [] false false 0 0.

Definition retryable (c : VmsErrClass) : bool :=
  match c with VMS_ERR_TRANSPORT | VMS_ERR_CONNECT | VMS_ERR_TIMEOUT => true | _ => false end.

Section Filter.
Context `{WideConv} `{ScanEnv}.
Variable tab : VmsVtab.

Definition build (p : VmsPlan) : option (list Z) :=
  fst <$> vms_plan_build_sql 2048 p (Some (t_schema tab)) (Some (t_table tab)) (t_cols tab) (t_wkt tab).

(** The query-source branch, with the lease held. *)
Definition filter_query : list event * filter_outcome :=
  let m := col_map None (length (t_cols tab)) in
  if mat_on then
    if negb mat_built && negb mat_create then
      ([EvRelease], Failed None (str "virtualmssql: materializer init failed"))
    else match (if mat_built then None else Some mat_build) with
         | Some (Some e) => ([EvBuildMat; EvRelease], Failed (Some e) [])
         | built =>
             let evs := (match built with None => [] | Some _ => [EvBuildMat] end) ++ [EvRelease] in
             match snapshot with
             | None => (evs, Failed None (str "virtualmssql: snapshot read failed"))
             | Some rows => (evs, Opened (SrcSnapshot rows) m)
             end
         end
  else match query_text with
       | None => ([EvRelease], Failed None (str "virtualmssql: query copy failed"))
       | Some q =>
           match open_sql 0 q [] with
           | inl e => ([EvOpenSql q []; EvRelease], Failed (Some e) [])
           | inr rows => ([EvOpenSql q []; EvRelease], Opened (SrcRemote rows) m)
           end
       end.

(** Opening the remote cursor for attempt [n]; [inl None] is a statement
    that could not be built. *)
Definition open_scan (n : nat) (bound : option bound_plan) : list event * (option VmsError + list fetch_result) :=
  match bound with
  | Some b =>
      match build (bp b) with
      | None => ([], inl None)
      | Some sql =>
          if in_txn then ([EvOpenShared sql (sql_params b)],
                          match open_shared sql (sql_params b) with inl e => inl (Some e) | inr r => inr r end)
          else ([EvOpenSql sql (sql_params b)],
                match open_sql n sql (sql_params b) with inl e => inl (Some e) | inr r => inr r end)
      end
  | None =>
      if in_txn then
        match build full_plan with
        | None => ([], inl (vms_error_set (Some err_zero) VMS_ERR_INTERNAL None 0
                              (fun _ => str "plan SQL build failed (txn full scan)")))
        | Some sql => ([EvOpenShared sql []],
                       match open_shared sql [] with inl e => inl (Some e) | inr r => inr r end)
        end
      else ([EvOpenTable], match open_table n with inl e => inl (Some e) | inr r => inr r end)
  end.

Definition filter_table (bound : option bound_plan) : list event * filter_outcome :=
  let m := col_map (bp <$> bound) (length (t_cols tab)) in
  match bound, build <$> (bp <$> bound) with
  | Some _, Some None => ([EvRelease], Failed None (str "virtualmssql: plan SQL build failed"))
  | _, _ =>
      let '(evs, r) := open_scan 0 bound in
      let evs := evs ++ [EvRelease] in
      match r with
      | inr rows => (evs, Opened (SrcRemote rows) m)
      | inl oe =>
          let e := default err_zero oe in
          if negb in_txn && retryable (cls e) then
            match acquire 1 with
            | Some e2 => (evs, Failed (Some e2) [])
            | None =>
                let '(evs2, r2) := open_scan 1 bound in
                match r2 with
                | inr rows => (evs ++ [EvAcquire] ++ evs2 ++ [EvRelease], Opened (SrcRemote rows) m)
                | inl oe2 => (evs ++ [EvAcquire] ++ evs2 ++ [EvRelease], Failed (Some (default err_zero oe2)) [])
                end
            end
          else (evs, Failed (Some e) [])
      end
  end.

Definition vms_vtab_filter (was_open : bool) (idxNum : Z) (idxStr : option VmsPlan) (argv : list Arg) :
    list event * filter_outcome :=
  let evs0 := if was_open then [EvClose] else [] in
  let plan := if (idxNum =? 1) && negb (t_query_source tab) then idxStr ≫= vms_plan_deserialize else None in
  match plan, plan ≫= fun p => bind_plan p argv with
  | Some _, None =>
      (evs0, Failed None (str "virtualmssql: non-integer value for pushed-down constraint (plan/arg mismatch)"))
  | _, bound =>
      match acquire 0 with
      | Some e => (evs0, Failed (Some e) [])
      | None =>
          let '(evs, r) := if t_query_source tab then filter_query else filter_table bound in
          (evs0 ++ [EvAcquire] ++ evs, r)
      end
  end.

End Filter.

(** ** Leases *)

(** Leases held after a trace; [None] when one is acquired while another is
    held or released without being held. *)
Fixpoint held (n : Z) (evs : list event) : option Z :=
  match evs with
  | [] => Some n
  | EvAcquire :: evs' => if n =? 0 then held 1 evs' else None
  | EvRelease :: evs' => if n =? 1 then held 0 evs' else None
  | _ :: evs' => held n evs'
  end.

Definition is_open (e : event) : bool :=
  match e with EvOpenSql _ _ | EvOpenShared _ _ | EvOpenTable => true | _ => false end.

Definition opens (evs : list event) : list event := List.filter is_open evs.

Section FilterProps.
Context `{WideConv} `{ScanEnv}.
Variable tab : VmsVtab.

Lemma open_scan_shape n b :
  exists l, fst (open_scan tab n b) = l /\ (l = [] \/ exists e, l = [e] /\ is_open e = true).
Proof.
  unfold open_scan. eexists. split; [reflexivity|].
  destruct b as [b|]; [destruct (build _ _); [|by left]|];
    (destruct in_txn; [try (destruct (build _ _); [|by left])|]); right; eexists; split; reflexivity.
Qed.

Lemma filter_query_held : held 1 (fst (filter_query tab)) = Some 0.
Proof.
  unfold filter_query. destruct mat_on.
  - destruct (negb mat_built && _); [done|].
    destruct mat_built; [by destruct snapshot|]. destruct mat_build; [done|]. by destruct snapshot.
  - destruct query_text; [|done]. by destruct (open_sql _ _ _).
Qed.

Lemma open_scan_held n b k evs : held k (fst (open_scan tab n b) ++ evs) = held k evs.
Proof.
  destruct (open_scan_shape n b) as (l & -> & [->|(e & -> & He)]); [done|]. by destruct e.
Qed.

Lemma filter_table_held b : held 1 (fst (filter_table tab b)) = Some 0.
Proof.
  unfold filter_table. destruct b as [b|]; cbn [fmap option_fmap option_map].
  1: destruct (build tab (bp b)); [|done].
  all: match goal with |- context [open_scan tab 0 ?x] =>
         pose proof (open_scan_held 0 x) as Ho; pose proof (open_scan_held 1 x) as Hr;
         destruct (open_scan tab 0 x) as [evs r], (open_scan tab 1 x) as [evs2 r2] end;
       cbn [fst] in *; destruct r as [e|]; [|cbn [fst]; by rewrite Ho];
       (destruct (negb in_txn && _); [|cbn [fst]; by rewrite Ho]);
       (destruct (acquire 1); [cbn [fst]; by rewrite Ho|]); destruct r2; cbn [fst]; rewrite <- app_assoc, Ho; simpl;
       by rewrite Hr.
Qed.

(** xFilter holds at most one pool lease at a time, and on every path
    (failed binding, failed acquisition, failed or retried opening, query
    source, materialized table) each lease it acquired is released before it
    returns. *)
Theorem filter_releases_leases was_open idxNum idxStr argv :
  held 0 (fst (vms_vtab_filter tab was_open idxNum idxStr argv)) = Some 0.
Proof.
  unfold vms_vtab_filter. set (plan := if _ && _ then _ else None).
  assert (Hmain : forall b, held 0 (fst (match acquire 0 with
      | Some e => (if was_open then [EvClose] else [], Failed (Some e) [])
      | None => let '(evs, r) := if t_query_source tab then filter_query tab else filter_table tab b in
                ((if was_open then [EvClose] else []) ++ [EvAcquire] ++ evs, r) end)) = Some 0).
  { intros b. destruct (acquire 0); [by destruct was_open|].
    pose proof filter_query_held as Hq. pose proof (filter_table_held b) as Ht.
    destruct (t_query_source tab); [destruct (filter_query tab)|destruct (filter_table tab b)];
      destruct was_open; simpl in *; done. }
  destruct plan as [p|]; cbn [mbind option_bind]; [|apply Hmain].
  destruct (bind_plan p argv); [apply Hmain|by destruct was_open].
Qed.

(** The remote cursor is opened at most twice; a second attempt only
    follows a first one that failed with a transport, connection or timeout
    error outside a transaction, and repeats the same statement with the same
    parameters. *)
Theorem filter_retries_once idxNum idxStr argv :
  t_query_source tab = false ->
  let evs := fst (vms_vtab_filter tab false idxNum idxStr argv) in
  (length (opens evs) <= 2)%nat /\
  (forall e1 e2, opens evs = [e1; e2] ->
     e1 = e2 /\ in_txn = false /\
     exists err, retryable (cls err) = true /\
       match e1 with
       | EvOpenSql sql ps => open_sql 0 sql ps = inl err
       | EvOpenTable => open_table 0 = inl err
       | _ => False
       end).
Proof.
  intros Hq evs. unfold evs, vms_vtab_filter. rewrite Hq. set (plan := if _ && _ then _ else None).
  assert (Hmain : forall b, let t := fst (match acquire 0 with
      | Some e => ([], Failed (Some e) [])
      | None => let '(evs, r) := filter_table tab b in ([] ++ [EvAcquire] ++ evs, r) end) in
      (length (opens t) <= 2)%nat /\
      (forall e1 e2, opens t = [e1; e2] -> e1 = e2 /\ in_txn = false /\
         exists err, retryable (cls err) = true /\
           match e1 with EvOpenSql sql ps => open_sql 0 sql ps = inl err
                       | EvOpenTable => open_table 0 = inl err | _ => False end)).
  { intros b. destruct (acquire 0); [simpl; split; [lia|done]|].
    unfold filter_table, open_scan. destruct b as [b|]; cbn [fmap option_fmap option_map].
    - destruct (build tab (bp b)) as [sql|]; [|simpl; split; [lia|done]].
      destruct in_txn.
      + destruct (open_shared _ _); simpl; (split; [lia|done]).
      + destruct (open_sql 0 _ _) as [err|] eqn:E0; [|simpl; split; [lia|done]].
        cbn [negb andb default]. destruct (retryable _) eqn:Er; [|simpl; split; [lia|done]].
        destruct (acquire 1); [simpl; split; [lia|done]|].
        destruct (open_sql 1 _ _); simpl; (split; [lia|]); intros e1 e2 [= <- <-]; split_and!; try done;
          exists err; done.
    - destruct in_txn.
      + destruct (build tab full_plan); [destruct (open_shared _ _)|]; simpl; (split; [lia|done]).
      + destruct (open_table 0) as [err|] eqn:E0; [|simpl; split; [lia|done]].
        cbn [negb andb default]. destruct (retryable _) eqn:Er; [|simpl; split; [lia|done]].
        destruct (acquire 1); [simpl; split; [lia|done]|].
        destruct (open_table 1); simpl; (split; [lia|]); intros e1 e2 [= <- <-]; split_and!; try done;
          exists err; done. }
  destruct plan as [p|]; cbn [mbind option_bind]; [|apply Hmain].
  destruct (bind_plan p argv); [apply Hmain|simpl; split; [lia|done]].
Qed.

End FilterProps.

(** ** Columns *)

(** The row the server sends for a row [vals] of the table. *)
Definition server_row (have_plan : option VmsPlan) (vals : list VmsValue) : list VmsValue :=
  match have_plan with
  | None => vals
  | Some p => match projected p vals with [] => vals | r => r end
  end.

Lemma col_map_unprojected hp n v q k :
  (k < n)%nat -> is_projected hp (v + Z.of_nat k) = false -> nth k (col_map_loop hp n v q) (-1) = -1.
Proof.
  revert v q k; induction n as [|n IH]; intros v q k Hk Hp; [lia|]. cbn [col_map_loop].
  destruct k as [|k]; [rewrite Z.add_0_r in Hp; by rewrite Hp|].
  replace (v + Z.of_nat (S k)) with (v + 1 + Z.of_nat k) in Hp by lia.
  destruct (is_projected hp v); simpl; apply IH; (done || lia).
Qed.

Lemma col_map_full hp n v q k :
  (k < n)%nat -> (forall i, is_projected hp i = true) -> nth k (col_map_loop hp n v q) (-1) = q + Z.of_nat k.
Proof.
  intros Hk Hp. revert v q k Hk; induction n as [|n IH]; intros v q k Hk; [lia|]. cbn [col_map_loop].
  rewrite Hp. destruct k as [|k]; simpl; [lia|]. rewrite IH by lia. lia.
Qed.

Lemma col_map_masked p (vals : list VmsValue) v q k x :
  full_mask (used_mask p) = false -> vals !! k = Some x ->
  is_projected (Some p) (v + Z.of_nat k) = true ->
  exists j, nth k (col_map_loop (Some p) (length vals) v q) (-1) = q + Z.of_nat j /\
            masked (used_mask p) v vals !! j = Some x.
Proof.
  intros Hf. revert v q k; induction vals as [|y vals IH]; intros v q k Hk Hp; [done|].
  assert (Hstep : is_projected (Some p) v = (v <? 62) && negb (Z.land (used_mask p) (shl1_u32 v) =? 0))
    by (simpl; by rewrite Hf).
  assert (Hv : (v <? 62) = true).
  { simpl in Hp. rewrite Hf in Hp. b2p. apply Z.ltb_lt. lia. }
  cbn [length col_map_loop masked]. rewrite Hstep, Hv. cbn [negb andb].
  destruct k as [|k]; simpl in Hk.
  - injection Hk as ->. rewrite Z.add_0_r, Hstep, Hv in Hp. cbn [andb] in Hp. apply negb_true_iff in Hp.
    rewrite Hp. cbn [negb]. exists 0%nat. split; [simpl; lia|done].
  - replace (v + Z.of_nat (S k)) with (v + 1 + Z.of_nat k) in Hp by lia.
    destruct (Z.land (used_mask p) (shl1_u32 v) =? 0); cbn [negb].
    + destruct (IH (v + 1) q k Hk Hp) as (j & Hj & Hm). exists j. split; [exact Hj|done].
    + destruct (IH (v + 1) (q + 1) k Hk Hp) as (j & Hj & Hm). exists (S j). split; [|done].
      simpl. rewrite Hj. lia.
Qed.

Definition shown (v : VmsValue) : VmsValue := match v with VAL_BIGTEXT _ => VAL_NULL | _ => v end.

(** On a row of the server, xColumn yields the table's value. *)
Lemma column_value hp vals todo counter j x :
  (length vals <= 512)%nat -> 0 <= j -> vals !! Z.to_nat j = Some x ->
  vms_vtab_column (zlen vals) (mkCur (SrcRemote todo) (server_row hp vals) (col_map hp (length vals)) false counter) j =
  if is_projected hp j then shown x else VAL_NULL.
Proof.
  intros Hl Hj0 Hx. pose proof (lookup_lt_Some _ _ _ Hx) as Hlt.
  unfold vms_vtab_column. cbn [c_src c_eof c_map c_row]. unfold col_map. rewrite Nat.min_l by done.
  replace ((j <? 0) || (j >=? zlen vals)) with false
    by (symmetry; apply orb_false_iff; rewrite Z.geb_leb; split; [apply Z.ltb_ge|apply Z.leb_gt]; unfold zlen; lia).
  assert (Ej : 0 + Z.of_nat (Z.to_nat j) = j) by lia.
  destruct (is_projected hp j) eqn:Ep; rewrite <- Ej in Ep; cycle 1.
  { by rewrite (col_map_unprojected hp _ 0 0 _ Hlt Ep). }
  assert (Hq : exists q, nth (Z.to_nat j) (col_map_loop hp (length vals) 0 0) (-1) = Z.of_nat q /\
                         server_row hp vals !! q = Some x).
  { destruct hp as [p|]; cycle 1.
    { exists (Z.to_nat j). split; [by rewrite col_map_full|done]. }
    destruct (full_mask (used_mask p)) eqn:Ef.
    - exists (Z.to_nat j). split; [rewrite col_map_full; [done|done|]; intros i; simpl; by rewrite Ef|].
      unfold server_row, projected. rewrite Ef. by destruct vals.
    - destruct (col_map_masked p vals 0 0 (Z.to_nat j) x Ef Hx Ep) as (q & Hq & Hm).
      exists q. split; [by rewrite Hq|]. unfold server_row, projected. rewrite Ef.
      destruct (masked _ _ _); [done|exact Hm]. }
  destruct Hq as (q & -> & Hs). cbn [orb].
  replace (Z.of_nat q <? 0) with false by (symmetry; apply Z.ltb_ge; lia).
  rewrite Nat2Z.id, Hs. by destruct x.
Qed.

Lemma mark_full i : mark 4294967295 i = 4294967295.
Proof.
  unfold mark. rewrite shl1_u32_pow. pose proof (Z.mod_pos_bound i 32 ltac:(lia)) as Hi.
  change 4294967295 with (Z.ones 32). apply Z.bits_inj'. intros k Hk.
  rewrite Z.lor_spec, Z.testbit_ones_nonneg by lia.
  destruct (Z.eq_dec (i mod 32) k) as [<-|Hne].
  - rewrite (proj2 (Z.ltb_lt _ _)) by lia. done.
  - rewrite Z.pow2_bits_false by done. apply orb_false_r.
Qed.

Lemma mark_key_keeps nm cs : forall j m (P : Z -> Prop),
  (forall m i, P m -> P (mark m i)) -> P m -> P (mark_key nm j cs m).
Proof.
  induction cs as [|c cs IH]; intros j m P HP Hm; simpl; [done|]. apply IH; [done|]. destruct (_ && _); auto.
Qed.

Lemma mark_keys_keeps key cols m (P : Z -> Prop) :
  (forall m i, P m -> P (mark m i)) -> P m -> P (mark_keys key cols m).
Proof.
  intros HP. unfold mark_keys. revert m.
  induction (take _ _) as [|k ks IH]; intros m Hm; simpl; [done|]. apply IH. by apply mark_key_keeps.
Qed.

(** A mask that contains what the host reads, before and after key marking. *)
Lemma projected_of_mask p j :
  j < 62 -> used_mask p = 4294967295 \/ selects (used_mask p) j = true -> is_projected (Some p) j = true.
Proof.
  intros Hj [Hm|Hm]; simpl; unfold full_mask.
  - by rewrite Hm.
  - destruct (_ || _); [done|]. by rewrite mask_selects, Hm, (proj2 (Z.ltb_lt _ _) Hj).
Qed.

Lemma best_index_projects tab key malloc_ok info idx p info' j :
  vms_vtab_best_index tab key malloc_ok info = Some (idx, Some p, info') ->
  0 <= j < zlen (t_cols tab) -> j < 62 -> Z.testbit (colUsed info) j = true ->
  is_projected (Some p) j = true.
Proof.
  unfold vms_vtab_best_index. destruct (t_query_source tab); [done|].
  intros Hb Hr Hj Hu. pose proof (projection_mask_used (t_cols tab) info j Hr Hj Hu) as Hm.
  assert (Hmask : used_mask (snd (vms_plan_compile (t_cols tab) info)) = projection_mask (t_cols tab) info).
  { unfold vms_plan_compile. by destruct (order_loop _ _ _). }
  rewrite <- Hmask in Hm. destruct (vms_plan_compile _ _) as [i' plan]. cbn [snd] in *.
  destruct malloc_ok; [|done]. cbn [negb] in Hb. injection Hb as _ <- _.
  apply projected_of_mask; [done|].
  assert (Hkeys : forall k, used_mask (with_mask plan (mark_keys k (t_cols tab) (used_mask plan))) = 4294967295 \/
                            selects (used_mask (with_mask plan (mark_keys k (t_cols tab) (used_mask plan)))) j = true).
  { intros k. cbn [used_mask with_mask]. destruct Hm as [Hm|Hm]; [left|right].
    - apply mark_keys_keeps; [|done]. intros m i ->. apply mark_full.
    - apply (mark_keys_keeps k (t_cols tab) _ (fun m => selects m j = true)); [|done].
      intros m i Hs. by rewrite mark_selects, Hs. }
  destruct (t_rw tab); [|done]. destruct key; [apply Hkeys|done].
Qed.

(** [C28]: for the plan xBestIndex hands to a scan, xColumn returns the
    table's value of every column below 62 that the host announced it will
    read, at every row the server sends, whatever other columns are left out
    of the projection; a column that is not projected reads as NULL. *)
Theorem scan_columns_correct tab key info p info' vals todo counter j x :
  vms_vtab_best_index tab key true info = Some (1, Some p, info') ->
  length vals = length (t_cols tab) -> (length vals <= 512)%nat ->
  0 <= j -> vals !! Z.to_nat j = Some x ->
  let cur := mkCur (SrcRemote todo) (server_row (Some p) vals) (col_map (Some p) (length vals)) false counter in
  (j < 62 -> Z.testbit (colUsed info) j = true -> vms_vtab_column (zlen vals) cur j = shown x) /\
  (is_projected (Some p) j = false -> vms_vtab_column (zlen vals) cur j = VAL_NULL).
Proof.
  intros Hb Hlen Hl Hj Hx cur. pose proof (lookup_lt_Some _ _ _ Hx) as Hlt.
  unfold cur. rewrite (column_value (Some p) vals todo counter j x) by done. split.
  - intros Hj62 Hu. rewrite (best_index_projects _ _ _ _ _ _ _ j Hb); [done| |done|done]. unfold zlen. lia.
  - by intros ->.
Qed.

Definition demo_tab : VmsVtab := mkTab (str "dbo") (str "t") demo_table false false false.

Definition demo_info2 : index_info :=
  mkInfo 4 [mkCons 0 IC_EQ true] [] (fun _ => false) (fun _ => false) (replicate 1 unused) false 0%Q.

Definition demo_vals : list VmsValue := [VAL_INT64 7; VAL_TEXT (str "x"); VAL_INT64 40].

Definition demo_plan2 : VmsPlan := snd (vms_plan_compile demo_table demo_info2).

Lemma scan_columns_correct_witness :
  vms_vtab_column 3 (mkCur (SrcRemote []) (server_row (Some demo_plan2) demo_vals)
                           (col_map (Some demo_plan2) 3) false 1) 2 = VAL_INT64 40 /\
  server_row (Some demo_plan2) demo_vals = [VAL_INT64 7; VAL_INT64 40].
Proof.
  split; [|vm_compute; reflexivity].
  destruct (scan_columns_correct demo_tab None demo_info2 demo_plan2 (fst (vms_plan_compile demo_table demo_info2))
              demo_vals [] 1 2 (VAL_INT64 40)) as [Hc _].
  - vm_compute. reflexivity.
  - reflexivity.
  - vm_compute. lia.
  - lia.
  - reflexivity.
  - apply Hc; [lia|vm_compute; reflexivity].
Defined.

(** Column 62 has its own bit in the host's mask, but the loops stop before
    it: it is announced as read and comes back as NULL. *)
Example column_62_lost :
  let cols := replicate 63 (mkCol (str "c") (str "int") CT_INT64 0 0 0 4 10 0) in
  let tab := mkTab (str "dbo") (str "t") cols false false false in
  let info := mkInfo (2 ^ 62 + 1) [] [] (fun _ => false) (fun _ => false) [] false 0%Q in
  let p := snd (vms_plan_compile cols info) in
  let vals := replicate 63 (VAL_INT64 5) in
  vms_vtab_column 63 (mkCur (SrcRemote []) (server_row (Some p) vals) (col_map (Some p) 63) false 1) 62 = VAL_NULL.
Proof. vm_compute. reflexivity. Qed.

(** ** The row loop *)

Definition start_cursor (src : source) (m : list Z) : VmsVtabCursor := mkCur src [] m false 0.

Definition observe (c : VmsVtabCursor) : list VmsValue * Z := (c_row c, c_counter c).

Fixpoint numbered (n : Z) (rows : list (list VmsValue)) : list (list VmsValue * Z) :=
  match rows with [] => [] | r :: rs => (r, n) :: numbered (n + 1) rs end.

Lemma scan_loop_rows rows : forall m r n fuel,
  (length rows + 1 < fuel)%nat ->
  scan_loop fuel observe (mkCur (SrcRemote (map FRow rows)) r m false n) = Some (numbered n (r :: rows), RC_OK).
Proof.
  induction rows as [|r1 rows IH]; intros m r n fuel Hf; (destruct fuel as [|fuel]; [simpl in Hf; lia|]).
  - destruct fuel as [|fuel]; [simpl in Hf; lia|]. done.
  - cbn [scan_loop vms_vtab_eof c_eof vms_vtab_next c_src map c_map c_counter]. rewrite IH by (simpl in Hf; lia). done.
Qed.

(** A scan over a cursor that delivers [rows] without an error shows
    the host exactly those rows, in order and numbered from 1, and then ends;
    the loop needs no more steps than there are rows. *)
Theorem scan_enumerates rows m fuel :
  (length rows + 1 < fuel)%nat ->
  let '(cur, rc, _) := vms_vtab_next (start_cursor (SrcRemote (map FRow rows)) m) in
  rc = RC_OK /\ scan_loop fuel observe cur = Some (numbered 1 rows, RC_OK).
Proof.
  intros Hf. destruct rows as [|r rows]; simpl.
  - split; [done|]. by destruct fuel; [lia|].
  - split; [done|]. apply (scan_loop_rows rows m r 1). simpl in Hf. lia.
Qed.

Lemma scan_enumerates_witness :
  scan_loop 5 observe (fst (fst (vms_vtab_next (start_cursor (SrcRemote [FRow [VAL_INT64 1]; FRow [VAL_NULL]]) [0])))) =
  Some ([([VAL_INT64 1], 1); ([VAL_NULL], 2)], RC_OK).
Proof.
  pose proof (scan_enumerates [[VAL_INT64 1]; [VAL_NULL]] [0] 5 ltac:(simpl; lia)) as [_ Hs]. exact Hs.
Defined.

(** ** Placeholders and parameters *)

Definition count_q (s : list Z) : Z := zlen (List.filter (Z.eqb (chr "?")) s).

Lemma count_q_app a b : count_q (a ++ b) = count_q a + count_q b.
Proof. unfold count_q. by rewrite List.filter_app, zlen_app. Qed.

Lemma count_q_ident nm : vms_meta_ident_valid (Some nm) 128 = true -> count_q nm = 0.
Proof.
  intros (_ & _ & Hc)%ident_valid_spec. induction Hc as [|c nm Hc _ IH]; [done|].
  unfold count_q in *. cbn [List.filter]. destruct (chr "?" =? c) eqn:E; [|done].
  b2p. subst c. by vm_compute in Hc.
Qed.

Lemma count_q_join (l : list (list Z)) sep :
  count_q sep = 0 -> count_q (sep_join sep l) = foldr (fun x n => count_q x + n) 0 l.
Proof.
  intros Hs. assert (Hf : forall l, count_q (flat_map (fun y => sep ++ y) l) = foldr (fun x n => count_q x + n) 0 l).
  { intros l'. induction l' as [|x l' IH]; simpl; [done|]. rewrite !count_q_app, IH. lia. }
  destruct l as [|x l]; [done|]. simpl. by rewrite count_q_app, Hf.
Qed.

Lemma count_q_all_zero {A} (f : A -> list Z) l :
  Forall (fun x => count_q (f x) = 0) l -> foldr (fun x n => count_q x + n) 0 (map f l) = 0.
Proof. induction 1 as [|x l Hx _ IH]; simpl; [done|]. lia. Qed.

Section Placeholders.
Context `{WideConv}.

Definition plain_names (cols : list VmsMetaColumn) : Prop := Forall (fun c => count_q (widen (name c)) = 0) cols.

Lemma count_q_name nm : count_q (name_text nm) = count_q (widen nm).
Proof. unfold name_text, bracketed. rewrite !count_q_app. simpl. change (count_q (str "[")) with 0. change (count_q (str "]")) with 0. lia. Qed.

Lemma count_q_proj wkt c : count_q (widen (name c)) = 0 -> count_q (proj_text wkt c) = 0.
Proof.
  intros Hn. unfold proj_text. destruct (vtype c); try (by rewrite count_q_name);
    try (destruct (is_ansi c)); rewrite ?count_q_app, ?count_q_name, Hn; try done; by destruct wkt.
Qed.

Lemma count_q_nth cols i : plain_names cols -> count_q (widen (nth_name cols i)) = 0.
Proof.
  intros HF. unfold nth_name. destruct (cols !! _) as [c|] eqn:E.
  - unfold plain_names in HF. rewrite Forall_lookup in HF. by eapply HF.
  - by rewrite widen_ascii by constructor.
Qed.

Lemma masked_plain (cols : list VmsMetaColumn) mask i : plain_names cols -> plain_names (masked mask i cols).
Proof.
  intros HF. revert i; induction HF as [|c cs Hc HF IH]; intros i; simpl; [constructor|].
  destruct (negb _); [constructor|]. destruct (_ =? 0); [apply IH|constructor; [done|apply IH]].
Qed.

Lemma count_q_projection plan cols wkt : plain_names cols -> count_q (projection_text plan cols wkt) = 0.
Proof.
  intros HF. unfold projection_text. assert (HP : plain_names (projected plan cols)).
  { unfold projected. destruct (full_mask _); [done|by apply masked_plain]. }
  destruct (projected plan cols) as [|c cs]; [by destruct (full_mask _)|].
  rewrite count_q_join by done. apply count_q_all_zero.
  eapply Forall_impl; [exact HP|]. intros x. apply count_q_proj.
Qed.

(** Placeholders of a statement: one per comparing term that is not a
    contradiction, and those of the limit clause. *)
Lemma count_q_plan plan schema table cols wkt :
  plain_names cols -> vms_meta_ident_valid (Some schema) 128 = true -> vms_meta_ident_valid (Some table) 128 = true ->
  count_q (plan_text plan schema table cols wkt) =
  zlen (List.filter (fun t => takes_value t && negb (tcol t <? 0)) (terms plan)) + count_q (limit_text plan).
Proof.
  intros HF Hs Ht. unfold plan_text. rewrite !count_q_app, count_q_projection by done.
  destruct (ident_widen _ Hs) as [-> _], (ident_widen _ Ht) as [-> _].
  rewrite (count_q_ident _ Hs), (count_q_ident _ Ht). rewrite !count_q_join by done.
  replace (foldr _ 0 (map (order_text cols) (orders plan))) with 0; cycle 1.
  { symmetry. apply count_q_all_zero, Forall_true. intros [c d]. unfold order_text.
    rewrite count_q_app, count_q_name, count_q_nth by done. by destruct d. }
  replace (foldr _ 0 (map (term_text cols) (terms plan)))
    with (zlen (List.filter (fun t => takes_value t && negb (tcol t <? 0)) (terms plan))); cycle 1.
  { induction (terms plan) as [|t ts IH]; [done|]. cbn [List.filter map foldr]. rewrite <- IH.
    assert (Ht' : count_q (term_text cols t) = if takes_value t && negb (tcol t <? 0) then 1 else 0).
    { unfold term_text. destruct (tcol t <? 0); [by rewrite andb_false_r|].
      rewrite count_q_app, count_q_name, count_q_nth by done. unfold takes_value. by destruct (top t). }
    rewrite Ht'. destruct (_ && _); rewrite ?zlen_cons; lia. }
  repeat match goal with |- context [count_q (if ?b then str ?x else [])] =>
    replace (count_q (if b then str x else [])) with 0 by (by destruct b) end.
  change (count_q (str "SELECT ")) with 0. change (count_q (str " FROM [")) with 0.
  change (count_q (str "].[")) with 0. change (count_q (str "]")) with 0. lia.
Qed.

End Placeholders.

Lemma term_params_length ts vs :
  length vs = length ts ->
  zlen (term_params ts vs) = zlen (List.filter (fun t => takes_value t && negb (tcol t <? 0)) ts).
Proof.
  revert vs; induction ts as [|t ts IH]; intros [|v vs] Hl; simplify_eq/=; [done|].
  rewrite zlen_app, IH by done. unfold takes_value. destruct (is_null_test (top t)); simpl; [done|].
  destruct (tcol t <? 0); simpl; rewrite ?zlen_cons; unfold zlen; simpl; lia.
Qed.

Lemma bind_term_op argv t t' v : bind_term argv t = Some (t', v) -> top t' = top t.
Proof.
  unfold bind_term. destruct t as [c op a]; simpl.
  destruct op; try (destruct (_ ≫= a_int)); try (by intros [= <- <-]); try done.
  destruct (in_items _); [by intros [= <- <-]|]. destruct (forallb _ _); by intros [= <- <-].
Qed.

Lemma bind_plan_shape p argv b :
  bind_plan p argv = Some b ->
  orders (bp b) = orders p /\ length (bvals b) = length (terms (bp b)) /\
  length (List.filter takes_value (terms (bp b))) = length (List.filter takes_value (terms p)) /\
  (has_limit (bp b) = true -> has_limit p = true) /\ (has_offset (bp b) = true -> has_offset p = true) /\
  nargs (bp b) = nargs p.
Proof.
  unfold bind_plan. destruct (mapM _ _) as [bs|] eqn:Em; [|done]. intros [= <-]. simpl.
  split_and!; try done; [by rewrite !length_map| |by destruct (_ && _)..].
  apply mapM_Some_1 in Em. induction Em as [|t [t' v] ts bs Hb _ IH]; [done|].
  assert (Ht : takes_value t' = takes_value t) by (unfold takes_value; by rewrite (bind_term_op _ _ _ _ Hb)).
  cbn [map fst List.filter]. rewrite Ht. destruct (takes_value t); cbn [length]; by rewrite IH.
Qed.

(** [C29]: the statement of a bound plan has exactly as many placeholders as
    xFilter binds values, for every plan whose OFFSET comes with an ORDER BY;
    and the values of a plan that passed validation always fit the array of
    32. *)
Theorem filter_params_match `{WideConv} cols info argv b schema table wkt :
  let plan := snd (vms_plan_compile cols info) in
  fresh_info info -> vms_plan_deserialize plan = Some plan -> bind_plan plan argv = Some b ->
  plain_names cols -> vms_meta_ident_valid (Some schema) 128 = true -> vms_meta_ident_valid (Some table) 128 = true ->
  (has_offset (bp b) = true -> 0 < norder (bp b)) ->
  count_q (plan_text (bp b) schema table cols wkt) = zlen (sql_params b) /\ zlen (sql_params b) <= 32.
Proof.
  intros plan Hf Hd Hb HF Hs Ht Hoff.
  destruct (bind_plan_shape plan argv b Hb) as (Ho & Hl & Hc & H1 & H2 & H3).
  assert (Hlim : count_q (limit_text (bp b)) =
    (if has_limit (bp b) && (norder (bp b) =? 0) && negb (has_offset (bp b)) then 1 else 0) +
    (if has_offset (bp b) && (norder (bp b) >? 0) then 2
     else if has_limit (bp b) && (norder (bp b) >? 0) then 1 else 0)).
  { unfold limit_text. pose proof (zlen_nonneg (orders (bp b))) as Hn. unfold norder in *.
    destruct (has_offset (bp b)) eqn:Eo, (has_limit (bp b)) eqn:El; simpl;
      destruct (zlen (orders (bp b)) >? 0) eqn:E1, (zlen (orders (bp b)) =? 0) eqn:E2; simpl;
      try reflexivity; b2p; try lia; specialize (Hoff eq_refl); lia. }
  assert (Hps : zlen (sql_params b) =
    zlen (List.filter (fun t => takes_value t && negb (tcol t <? 0)) (terms (bp b))) + count_q (limit_text (bp b))).
  { unfold sql_params. rewrite !zlen_app, term_params_length, Hlim by done.
    repeat match goal with |- context [if ?b then _ else _] => destruct b end;
      rewrite ?zlen_cons, ?zlen_nil; lia. }
  split; [by rewrite count_q_plan, Hps|].
  destruct (compile_inv cols info Hf) as (js & i & l & [_ _ _ _ _ _ Hlo _ Hct] & _ & Hn & Hll & Hlof & _).
  fold plan in Hct, Hn, Hll, Hlof.
  assert (Hna : nargs plan <= 32).
  { unfold vms_plan_deserialize in Hd. destruct (negb _); [done|]. destruct (_ || _); [done|].
    destruct ((nargs plan <? 0) || _) eqn:E; [done|]. unfold VMS_PLAN_MAX_ARGS in E. blia. }
  assert (Hsub : zlen (List.filter (fun t => takes_value t && negb (tcol t <? 0)) (terms (bp b))) <=
                 zlen (List.filter takes_value (terms plan))).
  { unfold zlen. rewrite <- Hc. apply inj_le. clear. induction (terms (bp b)) as [|t ts IH]; [done|]. cbn [List.filter].
    destruct (takes_value t); simpl; [destruct (negb _); simpl; lia|done]. }
  assert (Hle : count_q (limit_text (bp b)) <= (if ll l then 1 else 0) + (if lo l then 1 else 0)).
  { rewrite Hlim. rewrite Hll in H1. rewrite Hlof in H2.
    destruct (has_offset (bp b)); [rewrite (H2 eq_refl); destruct (Hlo (H2 eq_refl)) as [-> _]|];
      (destruct (has_limit (bp b)); [try rewrite (H1 eq_refl)|]);
      cbn [andb negb]; destruct (norder (bp b) =? 0) eqn:E1, (norder (bp b) >? 0) eqn:E2;
      cbn [andb]; b2p; try lia; destruct (ll l), (lo l); lia. }
  rewrite Hps. lia.
Qed.

Lemma filter_params_match_witness :
  exists b, bind_plan (snd (vms_plan_compile demo_table demo_info)) [mkArg (Some 5) []; mkArg (Some 10) []] = Some b /\
    count_q (@plan_text IdWideConv (bp b) (str "dbo") (str "t") demo_table false) = zlen (sql_params b) /\
    sql_params b = [5; 10].
Proof.
  eexists. split; [vm_compute; reflexivity|]. split; [|vm_compute; reflexivity].
  destruct (@filter_params_match IdWideConv demo_table demo_info [mkArg (Some 5) []; mkArg (Some 10) []]
    (mkBound (snd (vms_plan_compile demo_table demo_info)) [5; 0] 10 0) (str "dbo") (str "t") false) as [Hq _];
    try (vm_compute; reflexivity); try exact Hq.
  - repeat constructor; vm_compute; reflexivity.
Defined.

(** A LIMIT with an OFFSET but no consumed ORDER BY: the statement has one
    placeholder and no value is bound for it. *)
Example offset_without_order_mismatch :
  let info := mkInfo 1 [mkCons (-1) IC_LIMIT true; mkCons (-1) IC_OFFSET true] []
                     (fun _ => false) (fun _ => false) (replicate 2 unused) false 0%Q in
  exists b, bind_plan (snd (vms_plan_compile demo_table info)) [mkArg (Some 5) []; mkArg (Some 2) []] = Some b /\
    @plan_text IdWideConv (bp b) (str "dbo") (str "t") demo_table false = str "SELECT [id] FROM [dbo].[t] TOP (?)" /\
    sql_params b = [].
Proof. eexists. split; [vm_compute; reflexivity|]. split; vm_compute; reflexivity. Qed.

(** Thirty-two pushed constraints and a LIMIT need 33 arguments: the plan
    fails validation and the scan falls back to reading the whole table,
    although the host was told to skip all its own checks. *)
Example too_many_arguments_full_scan :
  let info := mkInfo 1 (replicate 32 (mkCons 0 IC_GE true) ++ [mkCons (-1) IC_LIMIT true]) []
                     (fun _ => false) (fun _ => false) (replicate 33 unused) false 0%Q in
  vms_plan_deserialize (snd (vms_plan_compile demo_table info)) = None /\
  forallb omit (aConstraintUsage (fst (vms_plan_compile demo_table info))) = true.
Proof. split; vm_compute; reflexivity. Qed.

(** An IN over several values is replaced by a contradiction although its
    constraint is marked as handled. *)
Example in_list_contradiction :
  bind_term [mkArg None [Some 1; Some 2]] (mkTerm 0 OP_IN 0) = Some (mkTerm (-2) OP_IN 0, 0).
Proof. reflexivity. Qed.

(** ** Pushdown preserves the rows *)

Section Pushdown.
Variable cols : list VmsMetaColumn.
Variable info : index_info.

(** The right-hand side of constraint [j], and the host's own test for what
    is not an integer comparison. *)
Variable rhs : nat -> Arg.
Variable other : nat -> list VmsValue -> bool.

Definition int_test (o : cons_op) (x z : Z) : bool :=
  match o with
  | IC_EQ => x =? z | IC_LT => x <? z | IC_LE => x <=? z | IC_GT => z <? x | IC_GE => z <=? x | _ => false
  end.

(** The host's meaning of constraint [j]. *)
Definition host_holds (row : list VmsValue) (j : nat) (c : constraint) : bool :=
  match row !! Z.to_nat (iColumn c) with
  | None => other j row
  | Some v =>
      if iColumn c <? 0 then other j row
      else match cop c with
           | IC_EQ | IC_LT | IC_LE | IC_GT | IC_GE =>
               match v, a_int (rhs j) with
               | VAL_INT64 x, Some z => int_test (cop c) x z
               | VAL_NULL, Some _ => false
               | _, _ => other j row
               end
           | IC_ISNULL => bool_decide (v = VAL_NULL)
           | IC_ISNOTNULL => negb (bool_decide (v = VAL_NULL))
           | IC_IN => match v with
                      | VAL_INT64 x => existsb (fun i => bool_decide (i = Some x)) (a_in (rhs j))
                      | VAL_NULL => false
                      | _ => other j row
                      end
           | _ => other j row
           end
  end.

(** The server's meaning of a term of the statement with its parameter. *)
Definition server_holds (row : list VmsValue) (tv : VmsPlanTerm * Z) : bool :=
  let '(t, v) := tv in
  if tcol t <? 0 then false
  else match row !! Z.to_nat (tcol t) with
       | None => false
       | Some x =>
           match top t with
           | OP_ISNULL => bool_decide (x = VAL_NULL)
           | OP_ISNOTNULL => negb (bool_decide (x = VAL_NULL))
           | op => match x with
                   | VAL_INT64 i =>
                       match op with
                       | OP_EQ | OP_IN => i =? v | OP_LT => i <? v | OP_LE => i <=? v
                       | OP_GT => v <? i | OP_GE => v <=? i | _ => false
                       end
                   | _ => false
                   end
           end
       end.

(** A row of the table: integer columns hold integers or NULL. *)
Definition row_typed (row : list VmsValue) : Prop :=
  length row = length cols /\
  forall i c v, cols !! i = Some c -> row !! i = Some v -> vtype c = CT_INT64 ->
    v = VAL_NULL \/ exists x, v = VAL_INT64 x.

(** The host passes the right-hand side of a constraint at its position. *)
Definition args_passed (us : list usage) (argv : list Arg) : Prop :=
  forall j u, us !! j = Some u -> 0 < argvIndex u -> argv !! Z.to_nat (argvIndex u - 1) = Some (rhs j).

(** IN lists are integer lists with at most one distinct value. *)
Definition in_lists_single : Prop :=
  forall j c, aConstraint info !! j = Some c -> cop c = IC_IN ->
    exists x n, a_in (rhs j) = replicate n (Some x).

Lemma get_arg_passed us argv j t :
  args_passed us argv -> us !! j = Some (mkUse (arg_index t + 1) true) -> 0 <= arg_index t ->
  get_arg argv (arg_index t) = Some (rhs j).
Proof.
  intros Hp Hu Ha. specialize (Hp j _ Hu ltac:(simpl; lia)). cbn [argvIndex] in Hp.
  replace (arg_index t + 1 - 1) with (arg_index t) in Hp by lia.
  unfold get_arg. pose proof (lookup_lt_Some _ _ _ Hp).
  replace ((arg_index t >=? 0) && (arg_index t <? zlen argv)) with true; [done|].
  symmetry. apply andb_true_iff. rewrite Z.geb_leb, Z.leb_le, Z.ltb_lt. unfold zlen. lia.
Qed.

Lemma in_items_replicate x n v : a_in v = replicate n (Some x) -> in_items (Some v) = replicate (Nat.min n 64) x.
Proof.
  intros E. unfold in_items. simpl. rewrite E.
  assert (Ho : omap id (replicate n (Some x)) = replicate n x) by (clear E; induction n as [|n IH]; [done|]; exact (f_equal (cons x) IH)).
  rewrite Ho. by rewrite take_replicate, Nat.min_comm.
Qed.

Lemma existsb_replicate x y n :
  existsb (fun i => bool_decide (i = Some y)) (replicate n (Some x)) = negb (Nat.eqb n 0) && (y =? x).
Proof.
  induction n as [|n IH]; [done|]. cbn [replicate existsb]. rewrite IH. simpl.
  destruct (y =? x) eqn:E; b2p.
  - subst. by rewrite bool_decide_true.
  - rewrite bool_decide_false by congruence. simpl. by rewrite andb_false_r.
Qed.

Lemma server_in row t v x c :
  top t = OP_IN -> 0 <= tcol t -> row !! Z.to_nat (tcol t) = Some x -> c = tcol t ->
  server_holds row (set_col t c, v) = match x with VAL_INT64 i => i =? v | _ => false end.
Proof.
  intros Ho Hc Hx ->. unfold server_holds, set_col. cbn [tcol top]. rewrite Ho, Hx.
  by replace (tcol t <? 0) with false by (symmetry; apply Z.ltb_ge; lia).
Qed.

(** A consumed constraint and its bound term agree on every typed row. *)
Lemma term_agrees us argv row j t t' v :
  in_lists_single -> args_passed us argv -> row_typed row ->
  served cols (aConstraint info) us j t -> bind_term argv t = Some (t', v) ->
  exists c, aConstraint info !! j = Some c /\ server_holds row (t', v) = host_holds row j c.
Proof.
  intros Hin Hp [Hrl Hrt] (c & Hc & Hus & Hcol & Hr & Hop & Harg & Hu) Hb. exists c. split; [done|].
  destruct (lookup_lt_is_Some_2 row (Z.to_nat (tcol t))) as [x Hx]; [unfold ncols, zlen in Hr; lia|].
  unfold host_holds. rewrite <- Hcol, Hx. assert (Hneg : (tcol t <? 0) = false) by (apply Z.ltb_ge; lia).
  rewrite Hneg. destruct (is_null_test (top t)) eqn:En.
  { assert (Hbt : (t', v) = (t, 0)).
    { revert Hb En. unfold bind_term. destruct (top t); intros; try done; congruence. }
    injection Hbt as -> ->. unfold server_holds. rewrite Hneg, Hx.
    destruct Hop as [Hop|[_ Hop]]; [|by rewrite Hop in En].
    revert En Hop. destruct (top t); try done; by destruct (cop c). }
  destruct Harg as [Hint Ha].
  assert (Hx' : x = VAL_NULL \/ exists i, x = VAL_INT64 i).
  { unfold col_is_int in Hint. destruct (cols !! _) as [cc|] eqn:Ec; [|done].
    apply bool_decide_eq_true in Hint. by eapply Hrt. }
  destruct Hop as [Hop|[Hop Ht]].
  - unfold bind_term in Hb. rewrite (get_arg_passed us argv j t Hp Hu Ha) in Hb. cbn [mbind option_bind] in Hb.
    assert (Hval : exists z, a_int (rhs j) = Some z /\ t' = t /\ v = z).
    { revert Hb En Hop. destruct (top t); intros; try done; try (by destruct (cop c));
        (destruct (a_int (rhs j)) as [z|]; [|done]); exists z; split_and!; congruence. }
    destruct Hval as (z & Hz & -> & ->). unfold server_holds. rewrite Hneg, Hx, Hz.
    revert En Hop. destruct (top t), (cop c); intros; simplify_eq/=; by destruct Hx' as [->|[i ->]].
  - destruct (Hin j c Hc Hop) as (y & n & Hn). rewrite Hop.
    unfold bind_term in Hb. rewrite Ht, (get_arg_passed us argv j t Hp Hu Ha), (in_items_replicate y n _ Hn) in Hb.
    rewrite Hn. assert (Hsame : forallb (Z.eqb y) (replicate (pred (Nat.min n 64)) y) = true).
    { induction (pred (Nat.min n 64)); simpl; [done|]. by rewrite Z.eqb_refl. }
    destruct n as [|n].
    + simpl in Hb. injection Hb as <- <-. unfold server_holds. simpl. by destruct Hx' as [->|[i ->]].
    + change (Nat.min (S n) 64) with (S (Nat.min n 63)) in *. cbn [replicate pred] in *. rewrite Hsame in Hb.
      injection Hb as <- <-. replace t with (set_col t (tcol t)) at 1 by (by destruct t).
      rewrite (server_in row t y x (tcol t)) by (done || lia).
      destruct Hx' as [->|[i ->]]; [done|]. change (Some y :: replicate n (Some y)) with (replicate (S n) (Some y)). rewrite (existsb_replicate y i (S n)). simpl. done.
Qed.


End Pushdown.

Definition demo_rhs (j : nat) : Arg := if decide (j = 3%nat) then mkArg (Some 10) [] else mkArg (Some 5) [].
Definition demo_argv : list Arg := [mkArg (Some 5) []; mkArg (Some 10) []].


(** An environment whose first opening fails with a transport error. *)
Definition flaky_env : ScanEnv := {|
  acquire := fun _ => None;
  open_sql := fun n _ _ => match n with O => inl (mkError VMS_ERR_TRANSPORT (str "08S01") 0 []) | S _ => inr [] end;
  open_shared := fun _ _ => inr [];
  open_table := fun _ => inr [];
  query_text := None; mat_on := false; mat_built := false; mat_create := false; mat_build := None;
  snapshot := None; in_txn := false
|}.

Lemma filter_retries_once_witness :
  opens (fst (@vms_vtab_filter IdWideConv flaky_env demo_tab false 1 (Some demo_plan2) [mkArg (Some 5) []])) =
  [EvOpenSql (str "SELECT [id], [qty] FROM [dbo].[t] WHERE [id] = ?") [5];
   EvOpenSql (str "SELECT [id], [qty] FROM [dbo].[t] WHERE [id] = ?") [5]] /\
  @in_txn flaky_env = false.
Proof.
  destruct (@filter_retries_once IdWideConv flaky_env demo_tab 1 (Some demo_plan2) [mkArg (Some 5) []] eq_refl) as [_ H2].
  split; [vm_compute; reflexivity|]. apply (H2 (EvOpenSql (str "SELECT [id], [qty] FROM [dbo].[t] WHERE [id] = ?") [5])
    (EvOpenSql (str "SELECT [id], [qty] FROM [dbo].[t] WHERE [id] = ?") [5])). vm_compute. reflexivity.
Defined.
