(* ===== verification/Dml.v ===== *)
(** * Write statements (src/src/vms_dml.c)

    The DML context, the SQL buffer, conversion of the host's text values,
    and the generation and execution of INSERT, UPDATE and DELETE.  The
    statements are proved equal to a specification of their text. *)

From S2P Require Import Prelude Foundation Client Identity Lexer Meta Plan.

Definition VMS_DML_SQL_CAP : Z := 4096.
Definition VMS_DML_MAX_PARAMS : Z := 64.

(** ** Context *)

Record VmsDmlContext := mkDml {
  d_schema : list Z;
  d_table : list Z;
  d_cols : list VmsMetaColumn;
  d_key : VmsStableKey;
  rowversion_col : Z
}.

Definition col_is_rowversion (c : VmsMetaColumn) : bool :=
  stricmp_eq (type_name c) (str "rowversion") || stricmp_eq (type_name c) (str "timestamp").

Definition col_writable (c : VmsMetaColumn) : bool :=
  (is_identity c =? 0) && (is_computed c =? 0) &&
  negb (stricmp_eq (type_name c) (str "rowversion")) && negb (stricmp_eq (type_name c) (str "timestamp")).

Fixpoint find_rowversion (i : Z) (cols : list VmsMetaColumn) : Z :=
  match cols with
  | [] => -1
  | c :: cs => if col_is_rowversion c then i else find_rowversion (i + 1) cs
  end.

Definition vms_dml_init `{SqlClient} (schema table : option (list Z)) (cols : list VmsMetaColumn) (err : VmsError) :
    option VmsDmlContext * VmsError :=
  if negb (vms_meta_ident_valid schema 128) || negb (vms_meta_ident_valid table 128) then
    (None, default err (vms_error_set (Some err) VMS_ERR_INVALID_ARG None 0 (fun _ => str "dml init: bad args")))
  else
    match vms_meta_stable_key schema table (Some err_zero) with
    | (Some key, e) =>
        (Some (mkDml (trunc_copy 128 (default [] schema)) (trunc_copy 128 (default [] table)) cols key
                     (find_rowversion 0 cols)), default err_zero e)
    | (None, e) =>
        let e := default err_zero e in
        (None, if bool_decide (cls e = VMS_OK) then
                 default e (vms_error_set (Some e) VMS_ERR_INVALID_ARG None 0
                   (fun _ => str "table has no usable stable key: writes are not allowed"))
               else e)
    end.

(** The key parts in use. *)
Definition key_parts (d : VmsDmlContext) : list VmsKeyColumn := take (Z.to_nat (part_count (d_key d))) (parts (d_key d)).

Fixpoint find_col (nm : list Z) (j : Z) (cols : list VmsMetaColumn) : option (Z * VmsMetaColumn) :=
  match cols with
  | [] => None
  | c :: cs => if stricmp_eq (name c) nm then Some (j, c) else find_col nm (j + 1) cs
  end.

Definition key_part_col (d : VmsDmlContext) (p : VmsKeyColumn) : option (Z * VmsMetaColumn) :=
  find_col (kname p) 0 (d_cols d).

Definition is_key_col (d : VmsDmlContext) (i : Z) : bool :=
  existsb (fun p => match key_part_col d p with Some (j, _) => j =? i | None => false end) (key_parts d).

(** ** Values *)

(** [_strtoi64(text, &end, 10)]; [None] when no digit was consumed. *)
Definition strtoi64 (s : list Z) : option Z :=
  let s1 := snd (span isspace s) in
  let '(neg, s2) :=
    match s1 with
    | c :: r => if c =? chr "-" then (true, r) else if c =? chr "+" then (false, r) else (false, s1)
    | [] => (false, [])
    end in
  match fst (span isdigit s2) with
  | [] => None
  | ds =>
      let v := foldl digit_step 0 ds in
      Some (if neg then Z.max INT64_MIN (- v) else Z.min INT64_MAX v)
  end.

Section Statements.
Context `{WideConv} `{FloatIO}.
(** Outcome of an allocation of so many bytes. *)
Variable alloc : Z -> bool.

Definition text_to_value (text : option (list Z)) (vt : VmsColType) : option VmsValue :=
  match text with
  | None => Some VAL_NULL
  | Some t =>
      match vt with
      | CT_INT64 => i ← strtoi64 t; Some (VAL_INT64 i)
      | CT_FLOAT64 => '(f, _) ← strtod t; Some (VAL_FLOAT64 f)
      | _ => if alloc (zlen t + 1) then Some (VAL_TEXT t) else None
      end
  end.

(** ** The SQL buffer *)

(** A step of the builder: the text so far, a failure for lack of room (or
    of memory), or a refusal with a message. *)
Inductive bres : Type := BOk (sql : list Z) | BRoom | BBad (msg : list Z).

Definition bbind (m : bres) (k : list Z -> bres) : bres :=
  match m with BOk s => k s | BRoom => BRoom | BBad e => BBad e end.

Notation "m >>> k" := (bbind m k) (at level 50, left associativity).

Definition sb_add (s : list Z) (sql : list Z) : bres :=
  match append_w VMS_DML_SQL_CAP sql s with Some r => BOk r | None => BRoom end.

Definition sb_add_ident (nm : list Z) (sql : list Z) : bres :=
  match to_wide 276 nm with None => BRoom | Some w => sb_add (bracketed w) sql end.

Definition sb_add_wide (nm : list Z) (sql : list Z) : bres :=
  match to_wide 300 nm with None => BRoom | Some w => sb_add w sql end.

Definition sb_add_table (schema table : list Z) (sql : list Z) : bres :=
  sb_add (str "[") sql >>> sb_add_wide schema >>> sb_add (str "].[") >>> sb_add_wide table >>> sb_add (str "]").

Fixpoint sb_add_chars (w : list Z) (sql : list Z) : bres :=
  match w with
  | [] => BOk sql
  | c :: w' => (if c =? chr "'" then sb_add (str "''") sql else sb_add [c] sql) >>> sb_add_chars w'
  end.

Definition sb_add_value (v : VmsValue) (sql : list Z) : bres :=
  match v with
  | VAL_INT64 i => sb_add (trunc_copy 24 (print_i i)) sql
  | VAL_FLOAT64 f => sb_add (trunc_copy 40 (fmt_g17 f)) sql
  | VAL_TEXT t =>
      let w := widen t in
      if negb (alloc ((zlen w + 1) * 2)) then BRoom
      else sb_add (str "N'") sql >>> sb_add_chars w >>> sb_add (str "'")
  | _ => sb_add (str "NULL") sql
  end.

(** ** Statements *)

(** The value callbacks; [None] for NULL. *)
Variable get : Z -> option (list Z).
Variable present : option (list bool).

(** The statement handed to the connection, or the refusal. *)
Inductive dml_result : Type := Send (sql : list Z) | Refuse (msg : list Z).

Definition to_result (b : bres) : dml_result :=
  match b with BOk s => Send s | BRoom => Refuse [] | BBad m => Refuse m end.

Definition absent (i : Z) : bool :=
  match present with None => false | Some l => negb (nth (Z.to_nat i) l false) end.

Definition blank (t : option (list Z)) : bool := match t with None | Some [] => true | _ => false end.

(** Columns an INSERT leaves out. *)
Definition insert_skips (d : VmsDmlContext) (i : Z) (c : VmsMetaColumn) : bool :=
  if negb (col_writable c) then true
  else if is_key_col d i && blank (get i) then true
  else absent i.

Fixpoint insert_names (d : VmsDmlContext) (i : Z) (cs : list VmsMetaColumn) (first : bool) (np : Z) (sql : list Z) : bres * Z :=
  match cs with
  | [] => (BOk sql, np)
  | c :: cs' =>
      if insert_skips d i c then insert_names d (i + 1) cs' first np sql
      else match (if first then BOk sql else sb_add (str ", ") sql) >>> sb_add_ident (name c) with
           | BOk sql => insert_names d (i + 1) cs' false (np + 1) sql
           | b => (b, np)
           end
  end.

Fixpoint insert_values (d : VmsDmlContext) (i : Z) (cs : list VmsMetaColumn) (first : bool) (sql : list Z) : bres :=
  match cs with
  | [] => BOk sql
  | c :: cs' =>
      if insert_skips d i c then insert_values d (i + 1) cs' first sql
      else match text_to_value (get i) (vtype c) with
           | None => BBad (str "insert: bad value for '" ++ name c ++ str "'")
           | Some v =>
               (if first then BOk sql else sb_add (str ", ") sql) >>> sb_add_value v
                 >>> insert_values d (i + 1) cs' false
           end
  end.

Definition vms_dml_insert (d : VmsDmlContext) : dml_result :=
  to_result (
    sb_add (str "INSERT INTO ") [] >>> sb_add_table (d_schema d) (d_table d) >>> sb_add (str " (") >>> fun sql =>
    let '(b, np) := insert_names d 0 (d_cols d) true 0 sql in
    b >>> fun sql =>
    if (np =? 0) || (np >? VMS_DML_MAX_PARAMS) then BBad (str "insert: no writable columns or too many")
    else sb_add (str ") VALUES (") sql >>> insert_values d 0 (d_cols d) true >>> sb_add (str ")")).

(** Columns an UPDATE leaves out. *)
Definition update_skips (d : VmsDmlContext) (i : Z) (c : VmsMetaColumn) : bool :=
  if negb (col_writable c) then true else if is_key_col d i then true else absent i.

Fixpoint update_sets (d : VmsDmlContext) (i : Z) (cs : list VmsMetaColumn) (first : bool) (np : Z) (sql : list Z) : bres * Z :=
  match cs with
  | [] => (BOk sql, np)
  | c :: cs' =>
      if update_skips d i c then update_sets d (i + 1) cs' first np sql
      else match text_to_value (get i) (vtype c) with
           | None => (BBad (str "update: bad value for '" ++ name c ++ str "'"), np)
           | Some v =>
               match (if first then BOk sql else sb_add (str ", ") sql) >>> sb_add_ident (name c)
                       >>> sb_add (str " = ") >>> sb_add_value v with
               | BOk sql => update_sets d (i + 1) cs' false (np + 1) sql
               | b => (b, np)
               end
           end
  end.

(** The WHERE clause over the key parts; [kget] reads the key values. *)
Fixpoint key_conds (d : VmsDmlContext) (nocol bad : list Z) (kget : Z -> option (list Z)) (i : nat)
    (ps : list VmsKeyColumn) (sql : list Z) : bres :=
  match ps with
  | [] => BOk sql
  | p :: ps' =>
      match key_part_col d p with
      | None => BBad nocol
      | Some (j, c) =>
          match text_to_value (kget j) (vtype c) with
          | None => BBad bad
          | Some v =>
              (match i with O => BOk sql | S _ => sb_add (str " AND ") sql end) >>> sb_add_ident (name c)
                >>> sb_add (str " = ") >>> sb_add_value v >>> key_conds d nocol bad kget (S i) ps'
          end
      end
  end.

Definition vms_dml_update (d : VmsDmlContext) (key_get : option (Z -> option (list Z))) : dml_result :=
  let kget := default get key_get in
  to_result (
    sb_add (str "UPDATE ") [] >>> sb_add_table (d_schema d) (d_table d) >>> sb_add (str " SET ") >>> fun sql =>
    let '(b, np) := update_sets d 0 (d_cols d) true 0 sql in
    b >>> fun sql =>
    if np =? 0 then BBad (str "update: nothing to set")
    else sb_add (str " WHERE ") sql >>>
         key_conds d (str "update: bad key value") (str "update: bad key value") kget 0 (key_parts d)).

Definition vms_dml_delete (d : VmsDmlContext) (key_get : option (Z -> option (list Z))) : dml_result :=
  let kget := default get key_get in
  to_result (
    sb_add (str "DELETE FROM ") [] >>> sb_add_table (d_schema d) (d_table d) >>> sb_add (str " WHERE ") >>>
    key_conds d [] (str "delete: bad key value") kget 0 (key_parts d)).

(** The tail every statement shares: execution and the reported row count.
    [exec] is the connection, [None] for success. *)
Definition run_dml (exec : list Z -> option VmsError) (r : dml_result) : Z * Z * VmsError :=
  match r with
  | Send sql => match exec sql with None => (0, 1, err_zero) | Some e => (-1, 0, e) end
  | Refuse [] => (-1, 0, err_zero)
  | Refuse m =>
      (-1, 0, default err_zero (vms_error_set (Some err_zero) VMS_ERR_INVALID_ARG None 0 (fun _ => m)))
  end.

End Statements.

(** ** Specification of the statements *)

Section Spec.
Context `{WideConv} `{FloatIO}.
Variable alloc : Z -> bool.
Variable get : Z -> option (list Z).
Variable present : option (list bool).

(** The literal of a value. *)
Definition lit_text (v : VmsValue) : option (list Z) :=
  match v with
  | VAL_INT64 i => Some (trunc_copy 24 (print_i i))
  | VAL_FLOAT64 f => Some (trunc_copy 40 (fmt_g17 f))
  | VAL_TEXT t => if alloc ((zlen (widen t) + 1) * 2) then Some (str "N'" ++ double_quotes (widen t) ++ str "'") else None
  | _ => Some (str "NULL")
  end.

Definition value_lit (g : Z -> option (list Z)) (ic : Z * VmsMetaColumn) : option (list Z) :=
  v ← text_to_value alloc (g (fst ic)) (vtype (snd ic)); lit_text v.

Definition ident_text (ic : Z * VmsMetaColumn) : option (list Z) :=
  w ← to_wide 276 (name (snd ic)); Some (bracketed w).

Definition table_text (d : VmsDmlContext) : option (list Z) :=
  s ← to_wide 300 (d_schema d); t ← to_wide 300 (d_table d);
  Some (str "[" ++ s ++ str "].[" ++ t ++ str "]").

(** [column = literal] *)
Definition assign_text (g : Z -> option (list Z)) (ic : Z * VmsMetaColumn) : option (list Z) :=
  l ← value_lit g ic; n ← ident_text ic; Some (n ++ str " = " ++ l).

(** The columns of the table from index [i] that are not skipped. *)
Fixpoint chosen (skips : Z -> VmsMetaColumn -> bool) (i : Z) (cs : list VmsMetaColumn) : list (Z * VmsMetaColumn) :=
  match cs with
  | [] => []
  | c :: cs' => if skips i c then chosen skips (i + 1) cs' else (i, c) :: chosen skips (i + 1) cs'
  end.

Definition fits (t : list Z) : option (list Z) := if zlen t <? VMS_DML_SQL_CAP then Some t else None.

Definition key_conds_text (d : VmsDmlContext) (g : Z -> option (list Z)) : option (list Z) :=
  cs ← mapM (key_part_col d) (key_parts d);
  ts ← mapM (assign_text g) cs;
  Some (sep_join (str " AND ") ts).

Definition insert_spec (d : VmsDmlContext) : option (list Z) :=
  let cs := chosen (insert_skips get present d) 0 (d_cols d) in
  tbl ← table_text d;
  ns ← mapM ident_text cs;
  vs ← mapM (value_lit get) cs;
  if (zlen cs =? 0) || (zlen cs >? 64) then None
  else fits (str "INSERT INTO " ++ tbl ++ str " (" ++ sep_join (str ", ") ns ++ str ") VALUES (" ++
             sep_join (str ", ") vs ++ str ")").

Definition update_spec (d : VmsDmlContext) (g : Z -> option (list Z)) : option (list Z) :=
  let cs := chosen (update_skips present d) 0 (d_cols d) in
  tbl ← table_text d;
  sets ← mapM (assign_text get) cs;
  conds ← key_conds_text d g;
  if zlen cs =? 0 then None
  else fits (str "UPDATE " ++ tbl ++ str " SET " ++ sep_join (str ", ") sets ++ str " WHERE " ++ conds).

Definition delete_spec (d : VmsDmlContext) (g : Z -> option (list Z)) : option (list Z) :=
  tbl ← table_text d;
  conds ← key_conds_text d g;
  fits (str "DELETE FROM " ++ tbl ++ str " WHERE " ++ conds).

(** The statement a result sends. *)
Definition sent (r : dml_result) : option (list Z) := match r with Send s => Some s | Refuse _ => None end.

(** *** Builders *)

Definition bopt (b : bres) : option (list Z) := match b with BOk s => Some s | _ => None end.

Lemma sent_bopt b : sent (to_result b) = bopt b.
Proof. by destruct b. Qed.

(** [f] appends the text [ot], if there is one and it fits. *)
Definition emitsO (f : list Z -> bres) (ot : option (list Z)) : Prop :=
  forall sql, zlen sql < VMS_DML_SQL_CAP -> bopt (f sql) = (t ← ot; fits (sql ++ t)).

Definition cat (a b : option (list Z)) : option (list Z) := x ← a; y ← b; Some (x ++ y).

Lemma fits_app sql s t : (x ← fits (sql ++ s); fits (x ++ t)) = fits (sql ++ s ++ t).
Proof.
  unfold fits. rewrite !zlen_app, app_assoc. pose proof (zlen_nonneg t).
  destruct (zlen sql + zlen s <? _) eqn:E; simpl; b2p.
  - by rewrite !zlen_app, Z.add_assoc.
  - by replace (zlen sql + (zlen s + zlen t) <? VMS_DML_SQL_CAP) with false by (symmetry; apply Z.ltb_ge; lia).
Qed.

Lemma fits_bound sql t : fits sql = Some t -> sql = t /\ zlen t < VMS_DML_SQL_CAP.
Proof. unfold fits. destruct (_ <? _) eqn:E; [|done]. intros [= ->]. b2p. done. Qed.

Lemma emitsO_bind f g a b : emitsO f a -> emitsO g b -> emitsO (fun sql => bbind (f sql) g) (cat a b).
Proof.
  intros Hf Hg sql Hs. specialize (Hf sql Hs). unfold cat.
  destruct (f sql) as [s| |m]; cbn [bopt bbind] in *.
  - destruct a as [t|]; [|done]. cbn [mbind option_bind] in *. symmetry in Hf.
    pose proof (fits_bound _ _ Hf) as [_ Hb]. rewrite Hg by done.
    destruct b as [u|]; [|done]. cbn [mbind option_bind]. by rewrite <- fits_app, Hf.
  - destruct a as [t|]; [|done]. cbn [mbind option_bind] in *.
    destruct b as [u|]; [|done]. cbn [mbind option_bind]. by rewrite <- fits_app, <- Hf.
  - destruct a as [t|]; [|done]. cbn [mbind option_bind] in *.
    destruct b as [u|]; [|done]. cbn [mbind option_bind]. by rewrite <- fits_app, <- Hf.
Qed.

Lemma emitsO_add s : emitsO (sb_add s) (Some s).
Proof.
  intros sql Hs. unfold sb_add, append_w, fits. simpl. rewrite zlen_app.
  destruct (_ >? _) eqn:E1, (_ <? _) eqn:E2; try done; blia.
Qed.

Lemma emitsO_nil : emitsO BOk (Some []).
Proof. intros sql Hs. simpl. rewrite app_nil_r. unfold fits. by rewrite (proj2 (Z.ltb_lt _ _) Hs). Qed.

Lemma emitsO_ext f g a b : (forall sql, bopt (f sql) = bopt (g sql)) -> a = b -> emitsO g b -> emitsO f a.
Proof. intros E -> Hg sql Hs. rewrite E. by apply Hg. Qed.

Lemma emitsO_ident ic : emitsO (sb_add_ident (name (snd ic))) (ident_text ic).
Proof.
  intros sql Hs. unfold sb_add_ident, ident_text. destruct (to_wide _ _); [|done]. by apply emitsO_add.
Qed.

Lemma emitsO_wide nm : emitsO (sb_add_wide nm) (to_wide 300 nm).
Proof. intros sql Hs. unfold sb_add_wide. destruct (to_wide _ _); [|done]. by apply emitsO_add. Qed.

Lemma emitsO_table d : emitsO (sb_add_table (d_schema d) (d_table d)) (table_text d).
Proof.
  eapply emitsO_ext; [reflexivity| |]; cycle 1.
  { unfold sb_add_table. do 4 (apply emitsO_bind; [|first [apply emitsO_add|apply emitsO_wide]]). apply emitsO_add. }
  unfold table_text, cat. destruct (to_wide 300 (d_schema d)); simpl; [|done].
  destruct (to_wide 300 (d_table d)); simpl; [|done]. by rewrite <- !app_assoc.
Qed.

Lemma emitsO_chars w : emitsO (sb_add_chars w) (Some (double_quotes w)).
Proof.
  induction w as [|c w IH]; [apply emitsO_nil|]. cbn [sb_add_chars].
  eapply emitsO_ext; [reflexivity| |eapply (emitsO_bind _ _ (Some (if c =? chr "'" then [c; c] else [c]))); [|exact IH]].
  - unfold double_quotes, cat. cbn [flat_map]. by destruct (c =? chr "'").
  - destruct (c =? chr "'") eqn:E; [|apply emitsO_add]. b2p. subst. apply emitsO_add.
Qed.

Lemma emitsO_value v : emitsO (sb_add_value alloc v) (lit_text v).
Proof.
  destruct v as [|i|f|t|bl|t]; try apply emitsO_add. unfold sb_add_value, lit_text.
  destruct (alloc _); cbn [negb]; [|by intros sql Hs].
  eapply emitsO_ext; [reflexivity| |apply emitsO_bind; [apply emitsO_bind; [apply emitsO_add|apply emitsO_chars]|apply emitsO_add]].
  unfold cat. simpl. by rewrite <- ?app_assoc.
Qed.

(** *** Loops *)

Definition joined (sep : list Z) (first : bool) (ts : list (list Z)) : list Z :=
  if first then sep_join sep ts else flat_map (fun y => sep ++ y) ts.

Definition lead (sep : list Z) (first : bool) : list Z := if first then [] else sep.

Lemma joined_cons sep first t ts : joined sep first (t :: ts) = lead sep first ++ t ++ joined sep false ts.
Proof. destruct first; simpl; by rewrite <- ?app_assoc. Qed.

Lemma emitsO_lead sep (first : bool) :
  emitsO (fun sql => if first then BOk sql else sb_add sep sql) (Some (lead sep first)).
Proof. destruct first; [apply emitsO_nil|apply emitsO_add]. Qed.

(** One more element in front of a joined list. *)
Lemma joined_mapM {A} (f : A -> option (list Z)) sep first x l :
  cat (cat (Some (lead sep first)) (f x)) (ts ← mapM f l; Some (joined sep false ts)) =
  (ts ← mapM f (x :: l); Some (joined sep first ts)).
Proof.
  unfold cat. cbn [mapM]. destruct (f x) as [t|]; [|done]. cbn [mbind option_bind].
  destruct (mapM f l) as [ts|]; [|done]. cbn [mbind option_bind mret option_ret].
  by rewrite joined_cons, <- !app_assoc.
Qed.

Lemma joined_nil_text sep first : emitsO BOk (Some (joined sep first [])).
Proof. destruct first; apply emitsO_nil. Qed.

Lemma emitsO_values d cs : forall i first,
  emitsO (insert_values alloc get present d i cs first)
    (ts ← mapM (value_lit get) (chosen (insert_skips get present d) i cs); Some (joined (str ", ") first ts)).
Proof.
  induction cs as [|c cs IH]; intros i first; cbn [insert_values chosen]; [apply joined_nil_text|].
  destruct (insert_skips get present d i c); [apply IH|]. rewrite <- joined_mapM. unfold value_lit at 1. cbn [fst snd].
  destruct (text_to_value alloc (get i) (vtype c)) as [v|]; [|by intros sql Hs].
  cbn [mbind option_bind]. apply emitsO_bind; [apply emitsO_bind; [apply emitsO_lead|apply emitsO_value]|apply IH].
Qed.

Lemma emitsO_names d cs : forall i first np,
  emitsO (fun sql => fst (insert_names get present d i cs first np sql))
    (ts ← mapM ident_text (chosen (insert_skips get present d) i cs); Some (joined (str ", ") first ts)).
Proof.
  induction cs as [|c cs IH]; intros i first np; cbn [insert_names chosen]; [apply joined_nil_text|].
  destruct (insert_skips get present d i c); [apply IH|]. rewrite <- joined_mapM.
  eapply emitsO_ext; [|reflexivity|eapply (emitsO_bind _ (fun sql => fst (insert_names get present d (i + 1) cs false (np + 1) sql)));
    [apply emitsO_bind; [apply emitsO_lead|apply (emitsO_ident (i, c))]|apply IH]].
  intros sql. cbv beta. cbn [snd]. by destruct (bbind _ (sb_add_ident (name c))).
Qed.

Lemma names_count d cs : forall i first np sql s,
  fst (insert_names get present d i cs first np sql) = BOk s ->
  snd (insert_names get present d i cs first np sql) = np + zlen (chosen (insert_skips get present d) i cs).
Proof.
  induction cs as [|c cs IH]; intros i first np sql s; cbn [insert_names chosen]; [simpl; rewrite zlen_nil; lia|].
  destruct (insert_skips get present d i c); [apply IH|].
  destruct (bbind _ _) as [sql'| |]; [|done..]. intros Hr%IH. rewrite Hr, zlen_cons. lia.
Qed.

Lemma assign_cat g ic v :
  text_to_value alloc (g (fst ic)) (vtype (snd ic)) = Some v ->
  assign_text g ic = cat (cat (ident_text ic) (Some (str " = "))) (lit_text v).
Proof.
  intros Hv. unfold assign_text, value_lit, cat. rewrite Hv. cbn [mbind option_bind].
  destruct (lit_text v), (ident_text ic); cbn [mbind option_bind]; by rewrite <- ?app_assoc.
Qed.

Lemma emitsO_assign g ic v :
  text_to_value alloc (g (fst ic)) (vtype (snd ic)) = Some v ->
  emitsO (fun sql => bbind (bbind (sb_add_ident (name (snd ic)) sql) (sb_add (str " = "))) (sb_add_value alloc v))
         (assign_text g ic).
Proof.
  intros Hv. rewrite (assign_cat g ic v Hv).
  apply emitsO_bind; [apply emitsO_bind; [apply emitsO_ident|apply emitsO_add]|apply emitsO_value].
Qed.

Lemma bbind_assoc m k1 k2 : bbind (bbind m k1) k2 = bbind m (fun s => bbind (k1 s) k2).
Proof. by destruct m. Qed.

Lemma emitsO_sets d cs : forall i first np,
  emitsO (fun sql => fst (update_sets alloc get present d i cs first np sql))
    (ts ← mapM (assign_text get) (chosen (update_skips present d) i cs); Some (joined (str ", ") first ts)).
Proof.
  induction cs as [|c cs IH]; intros i first np; cbn [update_sets chosen]; [apply joined_nil_text|].
  destruct (update_skips present d i c); [apply IH|]. rewrite <- joined_mapM.
  destruct (text_to_value alloc (get i) (vtype c)) as [v|] eqn:Ev; cycle 1.
  { intros sql Hs. unfold assign_text at 1, value_lit at 1. cbn [fst snd]. by rewrite Ev. }
  eapply emitsO_ext; [|reflexivity|eapply (emitsO_bind _ (fun sql => fst (update_sets alloc get present d (i + 1) cs false (np + 1) sql)));
    [apply emitsO_bind; [apply emitsO_lead|by apply (emitsO_assign get (i, c))]|apply IH]].
  intros sql. cbv beta. cbn [snd]. destruct (if first then _ else _) as [s1| |]; [|done..]. cbn [bbind].
  destruct (sb_add_ident _ s1) as [s2| |]; [|done..]. cbn [bbind].
  destruct (sb_add _ s2) as [s3| |]; [|done..]. cbn [bbind]. by destruct (sb_add_value _ _ s3).
Qed.

Lemma sets_count d cs : forall i first np sql s,
  fst (update_sets alloc get present d i cs first np sql) = BOk s ->
  snd (update_sets alloc get present d i cs first np sql) = np + zlen (chosen (update_skips present d) i cs).
Proof.
  induction cs as [|c cs IH]; intros i first np sql s; cbn [update_sets chosen]; [simpl; rewrite zlen_nil; lia|].
  destruct (update_skips present d i c); [apply IH|]. destruct (text_to_value _ _ _); [|done].
  destruct (bbind _ _) as [sql'| |]; [|done..]. intros Hr%IH. rewrite Hr, zlen_cons. lia.
Qed.

Lemma emitsO_conds d nocol bad g ps : forall i : nat,
  emitsO (key_conds alloc d nocol bad g i ps)
    (cs ← mapM (key_part_col d) ps; ts ← mapM (assign_text g) cs;
     Some (joined (str " AND ") (match i with O => true | S _ => false end) ts)).
Proof.
  induction ps as [|q ps IH]; intros i; cbn [key_conds].
  { destruct i; apply (joined_nil_text (str " AND ")). }
  specialize (IH (S i)). cbn [mapM]. destruct (key_part_col d q) as [[j c]|]; [|by intros sql Hs].
  cbn [mbind option_bind mret option_ret] in *.
  destruct (text_to_value alloc (g j) (vtype c)) as [v|] eqn:Ev; cycle 1.
  { assert (Ha : assign_text g (j, c) = None) by (unfold assign_text, value_lit; cbn [fst snd]; by rewrite Ev).
    intros sql Hs. destruct (mapM (key_part_col d) ps); [|done]. cbn [mbind option_bind mret option_ret mapM]. by rewrite Ha. }
  eapply emitsO_ext; [| |eapply (emitsO_bind _ (key_conds alloc d nocol bad g (S i) ps));
    [eapply (emitsO_bind _ _ _ _ (emitsO_lead (str " AND ") (match i with O => true | S _ => false end)));
     by apply (emitsO_assign g (j, c))|exact IH]].
  - intros sql. cbv beta. cbn [snd].
    replace (match i with O => BOk sql | S _ => sb_add (str " AND ") sql end)
      with (if match i with O => true | S _ => false end then BOk sql else sb_add (str " AND ") sql) by (by destruct i).
    set (m := if match i with O => true | S _ => false end then BOk sql else _). by destruct m.
  - destruct (mapM (key_part_col d) ps) as [cs|]; [|unfold cat; cbn [mbind option_bind]; by destruct (assign_text g (j, c))].
    cbn [mbind option_bind]. by rewrite joined_mapM.
Qed.

(** *** The statements meet their specification *)

Lemma bopt_of_emits f ot : emitsO f ot -> bopt (f []) = (t ← ot; fits t).
Proof. intros Hf. by rewrite Hf. Qed.

Lemma delete_text d key_get :
  sent (vms_dml_delete alloc get d key_get) = delete_spec d (default get key_get).
Proof.
  unfold vms_dml_delete. rewrite sent_bopt.
  rewrite (bopt_of_emits (fun sql => bbind (bbind (bbind (sb_add (str "DELETE FROM ") sql)
    (sb_add_table (d_schema d) (d_table d))) (sb_add (str " WHERE ")))
    (key_conds alloc d [] (str "delete: bad key value") (default get key_get) 0 (key_parts d)))
    _ (emitsO_bind _ _ _ _ (emitsO_bind _ _ _ _ (emitsO_bind _ _ _ _ (emitsO_add _) (emitsO_table d)) (emitsO_add _))
        (emitsO_conds d _ _ _ _ 0))).
  unfold delete_spec, key_conds_text, cat. cbn [mbind option_bind joined].
  destruct (table_text d); cbn [mbind option_bind]; [|done].
  destruct (mapM (key_part_col d) (key_parts d)); cbn [mbind option_bind]; [|done].
  destruct (mapM _ _); cbn [mbind option_bind]; [|done]. by rewrite <- !app_assoc.
Qed.
(** A loop that counts, and a test of its count. *)
Lemma emitsO_checked (f : list Z -> bres * Z) (P : Z -> bool) m g a b n :
  emitsO (fun sql => fst (f sql)) a -> (forall sql s, fst (f sql) = BOk s -> snd (f sql) = n) -> emitsO g b ->
  emitsO (fun sql => let '(r, np) := f sql in bbind r (fun s => if P np then BBad m else g s))
         (if P n then None else cat a b).
Proof.
  intros Hf Hn Hg sql Hs. pose proof (emitsO_bind _ _ _ _ Hf Hg sql Hs) as Hb. cbv beta in Hb.
  specialize (Hn sql). destruct (f sql) as [[s| |] np]; cbn [fst snd bbind] in *.
  - rewrite (Hn s eq_refl). destruct (P n); [done|exact Hb].
  - destruct (P n); [done|exact Hb].
  - destruct (P n); [done|exact Hb].
Qed.

Lemma update_text d key_get :
  sent (vms_dml_update alloc get present d key_get) = update_spec d (default get key_get).
Proof.
  unfold vms_dml_update. rewrite sent_bopt.
  pose proof (emitsO_checked _ (fun n => n =? 0) (str "update: nothing to set") _ _ _ _
    (emitsO_sets d (d_cols d) 0 true 0) (sets_count d (d_cols d) 0 true 0)
    (emitsO_bind _ _ _ _ (emitsO_add (str " WHERE "))
       (emitsO_conds d (str "update: bad key value") (str "update: bad key value") (default get key_get) (key_parts d) 0))) as HF.
  pose proof (bopt_of_emits _ _ (emitsO_bind _ _ _ _ (emitsO_bind _ _ _ _ (emitsO_bind _ _ _ _
    (emitsO_add (str "UPDATE ")) (emitsO_table d)) (emitsO_add (str " SET "))) HF)) as HA.
  etransitivity; [exact HA|]. rewrite Z.add_0_l.
  unfold update_spec, key_conds_text, cat. cbn [mbind option_bind joined].
  destruct (table_text d); cbn [mbind option_bind]; [|done].
  destruct (zlen (chosen _ _ _) =? 0).
  { destruct (mapM (assign_text get) _); [|done]. cbn [mbind option_bind].
    destruct (mapM (key_part_col d) _); [|done]. cbn [mbind option_bind]. by destruct (mapM _ _). }
  destruct (mapM (assign_text get) _); cbn [mbind option_bind]; [|done].
  destruct (mapM (key_part_col d) _); cbn [mbind option_bind]; [|done].
  destruct (mapM _ _); cbn [mbind option_bind]; [|done]. by rewrite <- !app_assoc.
Qed.

Lemma insert_text d : sent (vms_dml_insert alloc get present d) = insert_spec d.
Proof.
  unfold vms_dml_insert. rewrite sent_bopt.
  pose proof (emitsO_checked _ (fun n => (n =? 0) || (n >? VMS_DML_MAX_PARAMS))
    (str "insert: no writable columns or too many") _ _ _ _
    (emitsO_names d (d_cols d) 0 true 0) (names_count d (d_cols d) 0 true 0)
    (emitsO_bind _ _ _ _ (emitsO_bind _ _ _ _ (emitsO_add (str ") VALUES (")) (emitsO_values d (d_cols d) 0 true))
       (emitsO_add (str ")")))) as HF.
  pose proof (bopt_of_emits _ _ (emitsO_bind _ _ _ _ (emitsO_bind _ _ _ _ (emitsO_bind _ _ _ _
    (emitsO_add (str "INSERT INTO ")) (emitsO_table d)) (emitsO_add (str " ("))) HF)) as HA.
  etransitivity; [exact HA|]. rewrite Z.add_0_l.
  unfold insert_spec, cat, VMS_DML_MAX_PARAMS. cbn [mbind option_bind joined].
  destruct (table_text d); cbn [mbind option_bind]; [|done].
  destruct (_ || _).
  { destruct (mapM ident_text _); [|done]. cbn [mbind option_bind]. by destruct (mapM _ _). }
  destruct (mapM ident_text _); cbn [mbind option_bind]; [|done].
  destruct (mapM _ _); cbn [mbind option_bind]; [|done]. by rewrite <- !app_assoc.
Qed.


(** The literal of a text value, at any place of a statement, is lexed
    by the T-SQL lexer as one STRING token that ends exactly with the
    literal, whatever the text contains: a value cannot continue the
    statement. *)
Theorem dml_text_literal_opaque `{WCType} t sql out r p dp :
  zlen sql < VMS_DML_SQL_CAP -> sb_add_value alloc (VAL_TEXT t) sql = BOk out ->
  match r with [] => True | c :: _ => c <> chr "'" end ->
  exists l, out = sql ++ l /\
    lex_token (l ++ r) p dp = Some (mkLex r (p + zlen l) dp, mkTok TOK_STRING p (zlen l) []).
Proof.
  intros Hs Hv Hr. pose proof (emitsO_value (VAL_TEXT t) sql Hs) as He. rewrite Hv in He. cbn [bopt lit_text] in He.
  destruct (alloc _); [|done]. cbn [mbind option_bind] in He. symmetry in He.
  apply fits_bound in He as [He _]. exists (str "N'" ++ double_quotes (widen t) ++ str "'").
  split; [by rewrite <- He|].
  assert (Hl : zlen (str "N'" ++ double_quotes (widen t) ++ str "'") = zlen (double_quotes (widen t)) + 3).
  { rewrite !zlen_app. change (zlen (str "N'")) with 2. change (zlen (str "'")) with 1. lia. }
  rewrite Hl, <- !app_assoc. apply (literal_is_one_token (widen t) r p dp Hr).
Qed.

End Spec.

Definition demo_dml : VmsDmlContext :=
  mkDml (str "dbo") (str "t")
    [mkCol (str "id") (str "int") CT_INT64 0 1 0 4 10 0;
     mkCol (str "code") (str "nvarchar") CT_TEXT 0 0 0 40 0 0;
     mkCol (str "qty") (str "bigint") CT_INT64 1 0 0 8 19 0;
     mkCol (str "rv") (str "rowversion") CT_BLOB 0 0 0 8 0 0]
    (mkKey (str "PK") true 1 (pad16 [mkKeyCol (str "ID") CT_INT64])) 3.

Definition demo_get (i : Z) : option (list Z) :=
  if i =? 0 then Some (str "7") else if i =? 1 then Some (str "it's; drop") else if i =? 2 then None else Some [].

Example update_example :
  sent (@vms_dml_update IdWideConv BitsFloatIO (fun _ => true) demo_get None demo_dml None) =
  Some (str "UPDATE [dbo].[t] SET [code] = N'it''s; drop', [qty] = NULL WHERE [id] = 7").
Proof. vm_compute. reflexivity. Qed.

(** Without a key value the statement compares the key with NULL: it is sent,
    matches no row, and is reported as one affected row. *)
Example delete_without_key_reports_success :
  let r := @vms_dml_delete IdWideConv BitsFloatIO (fun _ => true) demo_get demo_dml (Some (fun _ => None)) in
  sent r = Some (str "DELETE FROM [dbo].[t] WHERE [id] = NULL") /\
  run_dml (fun _ => None) r = (0, 1, err_zero).
Proof. split; vm_compute; reflexivity. Qed.

Lemma dml_text_literal_opaque_witness :
  @lex_token ascii_wctype (str "N'a''b'" ++ str ", 1") 5 0 =
  Some (mkLex (str ", 1") (5 + zlen (str "N'a''b'")) 0, mkTok TOK_STRING 5 (zlen (str "N'a''b'")) []).
Proof.
  destruct (@dml_text_literal_opaque IdWideConv BitsFloatIO (fun _ => true) ascii_wctype (str "a'b") (str "SET [c] = ")
    (str "SET [c] = N'a''b'") (str ", 1") 5 0) as (l & Hl & He).
  - vm_compute. reflexivity.
  - vm_compute. reflexivity.
  - vm_compute. congruence.
  - apply (app_inv_head (str "SET [c] = ") (str "N'a''b'") l) in Hl. rewrite <- Hl in He. exact He.
Defined.
