(* ===== verification/Write.v ===== *)
(** * Writing through the virtual table (src/src/vms_vtab.c, xRowid, xUpdate)

    The write state of a table: its two DML contexts (own connection, pinned
    transaction connection), the map from key parts to columns, and the key
    values xRowid stashes for the statement that follows.  The central
    theorem follows a row from the scan into the WHERE clause of the
    statement that modifies it. *)

From stdpp Require Import relations.
From S2P Require Import Prelude Foundation Client Identity Lexer Meta Plan Scan Dml.

(** ** State *)

Record WTab := mkW {
  w_tab : VmsVtab;
  w_dml : option VmsDmlContext;
  w_txn : option (Z * VmsDmlContext);      (* with the address of its connection *)
  w_part_col : list Z;
  w_text : list (list Z);
  w_have : bool
}.

(** The zeroed structure xConnect publishes. *)
Definition w_new (tab : VmsVtab) : WTab := mkW tab None None (replicate 16 0) (replicate 16 []) false.

Definition col_index (oc : option (Z * VmsMetaColumn)) : Z := match oc with Some (j, _) => j | None => -1 end.

Definition fill_parts (cols : list VmsMetaColumn) (ps : list VmsKeyColumn) (old : list Z) : list Z :=
  map (fun p => col_index (find_col (kname p) 0 cols)) ps ++ drop (length ps) old.

(** ** The write context *)

(** What [vtab_dml_ctx] finds: the pinned connection, whether a pool lease can
    be had, whether the context can be allocated, and whether the lazy BEGIN
    succeeds. *)
Record CtxEnv := mkCE { ce_txn : option Z; ce_acquire : bool; ce_alloc : bool; ce_begin : bool }.

Inductive ctx_event : Type := CAcquire | CRelease | CBegin.

Section WithCatalog.
Context `{SqlClient}.

Definition vtab_dml_ctx (ce : CtxEnv) (st : WTab) : WTab * option VmsDmlContext * list ctx_event :=
  let tab := w_tab st in
  let init := fst (vms_dml_init (Some (t_schema tab)) (Some (t_table tab)) (t_cols tab) err_zero) in
  let set_txn t := mkW tab (w_dml st) t (w_part_col st) (w_text st) (w_have st) in
  match ce_txn ce with
  | Some a =>
      match '(a', d) ← w_txn st; if a =? a' then Some d else None with
      | Some d => (st, Some d, [])
      | None =>
          if negb (ce_alloc ce) then (set_txn None, None, [])
          else match init with
               | None => (set_txn None, None, [])
               | Some d => (set_txn (Some (a, d)), if ce_begin ce then Some d else None, [CBegin])
               end
      end
  | None =>
      match w_dml st with
      | Some d => (st, Some d, [])
      | None =>
          if negb (t_rw tab) then (st, None, [])
          else if negb (ce_acquire ce) then (st, None, [])
          else match (if ce_alloc ce then init else None) with
               | Some d =>
                   (mkW tab (Some d) (w_txn st) (fill_parts (t_cols tab) (key_parts d) (w_part_col st))
                        (w_text st) (w_have st), Some d, [CAcquire])
               | None => (st, None, [CAcquire; CRelease])
               end
      end
  end.

End WithCatalog.

(** ** xRowid *)

Section Rowid.
Context `{FloatIO}.

(** The key values are copied part by part; the first part without a column
    or a text ends the copy. *)
Fixpoint stash_parts (tab : VmsVtab) (cur : VmsVtabCursor) (ps : list VmsKeyColumn) : bool * list (list Z) :=
  match ps with
  | [] => (true, [])
  | p :: ps' =>
      match find_mapped (t_cols tab) (c_map cur) (kname p) ≫= fun k => key_text_of (c_row cur !! Z.to_nat k) with
      | None => (false, [])
      | Some t => let '(ok, ts) := stash_parts tab cur ps' in (ok, t :: ts)
      end
  end.

Definition has_cursor (cur : VmsVtabCursor) : bool := match c_src cur with SrcRemote _ => true | _ => false end.

Definition vtab_rowid (st : WTab) (cur : VmsVtabCursor) : WTab * Z :=
  let tab := w_tab st in
  let ctx := match w_dml st with Some d => Some d | None => snd <$> w_txn st end in
  let '(ok, ts) :=
    if has_cursor cur && (zlen (t_cols tab) >? 0) && t_rw tab then
      match ctx with Some d => stash_parts tab cur (key_parts d) | None => (false, []) end
    else (false, []) in
  (mkW tab (w_dml st) (w_txn st) (w_part_col st) (ts ++ drop (length ts) (w_text st)) ok,
   if has_cursor cur && (zlen (t_cols tab) >? 0) then
     default (c_counter cur) (rowid_loop (t_cols tab) (c_map cur) (c_row cur))
   else c_counter cur).

End Rowid.

(** ** xUpdate *)

(** The arguments of xUpdate: the text of each value, [None] for NULL. *)
Definition upd_value_get (argv : list (option (list Z))) (col : Z) : option (list Z) :=
  if (col <? 0) || (col + 2 >=? zlen argv) then None else nth (Z.to_nat (col + 2)) argv None.

Fixpoint find_part (pcs : list Z) (texts : list (list Z)) (col : Z) : option (list Z) :=
  match pcs, texts with
  | c :: pcs', t :: texts' => if c =? col then Some t else find_part pcs' texts' col
  | _, _ => None
  end.

Definition upd_key_stash_get (st : WTab) (col : Z) : option (list Z) :=
  if negb (w_have st) || (col <? 0) || (col >=? zlen (t_cols (w_tab st))) then None
  else find_part (w_part_col st) (w_text st) col.

Inductive update_rc : Type := UPD_OK | UPD_ERROR | UPD_READONLY | UPD_BUSY_SNAPSHOT.

Inductive target : Type := OnLease | OnTxn (a : Z).

Section Update.
Context `{SqlClient} `{WideConv} `{FloatIO}.
Variable alloc : Z -> bool.

(** [exec] is the connection's answer to a statement, [None] for success. *)
Definition vms_vtab_update (ce : CtxEnv) (exec : list Z -> option VmsError) (argv : list (option (list Z))) (st : WTab) :
    WTab * update_rc * list (target * list Z) :=
  if negb (t_rw (w_tab st)) then (st, UPD_READONLY, [])
  else if t_query_source (w_tab st) then (st, UPD_READONLY, [])
  else
    let '(st, od, _) := vtab_dml_ctx ce st in
    match od with
    | None => (st, UPD_ERROR, [])
    | Some d =>
        let tgt := match ce_txn ce with Some a => OnTxn a | None => OnLease end in
        let get := upd_value_get argv in
        let kget := Some (upd_key_stash_get st) in
        let stmt :=
          if zlen argv =? 1 then vms_dml_delete alloc get d kget
          else if bool_decide (nth 0 argv None = None) then vms_dml_insert alloc get None d
          else vms_dml_update alloc get None d kget in
        let '(r, rows, _) := run_dml exec stmt in
        (st, if r <? 0 then UPD_ERROR
             else if (zlen argv =? 1) && (rows =? 0) then UPD_BUSY_SNAPSHOT else UPD_OK,
         match sent stmt with Some sql => [(tgt, sql)] | None => [] end)
    end.

End Update.

(** ** Reachable write states *)

Section Reach.
Context `{SqlClient} `{WideConv} `{FloatIO}.
Variable alloc : Z -> bool.

(** Planning prepares the context, xRowid stashes the key, xUpdate writes. *)
Inductive wstep : WTab -> WTab -> Prop :=
| ws_plan ce st : wstep st (fst (fst (vtab_dml_ctx ce st)))
| ws_rowid cur st : wstep st (fst (vtab_rowid st cur))
| ws_update ce exec argv st : wstep st (fst (fst (vms_vtab_update alloc ce exec argv st))).

(** The part map of a table with its own context names the columns of that
    context's key, and every context describes the table's columns. *)
Definition w_ok (tab : VmsVtab) (st : WTab) : Prop :=
  w_tab st = tab /\
  (forall d, w_dml st = Some d ->
     d_cols d = t_cols tab /\
     exists rest, w_part_col st = map (fun p => col_index (key_part_col d p)) (key_parts d) ++ rest) /\
  (forall a d, w_txn st = Some (a, d) -> d_cols d = t_cols tab).

Lemma dml_init_cols schema table cols e d :
  fst (vms_dml_init schema table cols e) = Some d -> d_cols d = cols.
Proof.
  unfold vms_dml_init. destruct (_ || _); [done|].
  destruct (vms_meta_stable_key schema table (Some err_zero)) as [[k|] e']; [by intros [= <-]|done].
Qed.

(** The six ways [vtab_dml_ctx] ends. *)
Lemma ctx_cases ce st st' od evs :
  vtab_dml_ctx ce st = (st', od, evs) ->
  let init := fst (vms_dml_init (Some (t_schema (w_tab st))) (Some (t_table (w_tab st))) (t_cols (w_tab st)) err_zero) in
  (st' = st /\ (od = None \/ od = w_dml st \/ od = snd <$> w_txn st)) \/
  (exists t, st' = mkW (w_tab st) (w_dml st) t (w_part_col st) (w_text st) (w_have st) /\
     ((t = None /\ od = None) \/ exists a d, init = Some d /\ t = Some (a, d) /\ (od = Some d \/ od = None))) \/
  (exists d, init = Some d /\ w_dml st = None /\ od = Some d /\
     st' = mkW (w_tab st) (Some d) (w_txn st) (fill_parts (t_cols (w_tab st)) (key_parts d) (w_part_col st))
               (w_text st) (w_have st)).
Proof.
  unfold vtab_dml_ctx. set (init := fst (vms_dml_init _ _ _ _)). intros E. simpl.
  destruct (ce_txn ce) as [a|].
  - destruct ('(a', d) ← w_txn st; if a =? a' then Some d else None) as [d|] eqn:Ex.
    + destruct (w_txn st) as [[a' d']|]; [|done]. cbn in Ex. destruct (a =? a'); [|done]. injection Ex as ->.
      injection E as <- <- <-. left. auto.
    + right; left. destruct (ce_alloc ce); cbn [negb] in E; [|injection E as <- <- <-; eauto].
      destruct init as [d|]; injection E as <- <- <-; eexists; (split; [done|]); [|auto].
      right. exists a, d. destruct (ce_begin ce); auto.
  - destruct (w_dml st) as [d|] eqn:Em; [injection E as <- <- <-; auto|].
    destruct (t_rw (w_tab st)); cbn [negb] in E; [|injection E as <- <- <-; auto].
    destruct (ce_acquire ce); cbn [negb] in E; [|injection E as <- <- <-; auto].
    destruct (if ce_alloc ce then init else None) as [d|] eqn:Ei; injection E as <- <- <-; [|auto].
    right; right. exists d. destruct (ce_alloc ce); [auto|done].
Qed.

Lemma ctx_w_ok tab ce st st' od evs :
  w_ok tab st -> vtab_dml_ctx ce st = (st', od, evs) ->
  w_ok tab st' /\ (forall d, od = Some d -> d_cols d = t_cols tab) /\
  w_text st' = w_text st /\ w_have st' = w_have st /\
  (forall d, w_dml st = Some d -> w_dml st' = Some d /\ w_part_col st' = w_part_col st).
Proof.
  intros (Ht & Hd & Hx) E. subst tab.
  destruct (ctx_cases _ _ _ _ _ E) as [(-> & Ho)|[(t & -> & Ho)|(d & Hi & Hn & -> & ->)]].
  - split; [done|]. split; [|done]. intros d ->. destruct Ho as [?|[?|Ho]]; [done|by apply Hd|].
    destruct (w_txn st) as [[a d']|]; [|done]. injection Ho as ->. by eapply Hx.
  - destruct Ho as [[-> ->]|(a & d & Hi & -> & Ho)]; [split; [done|]; split; [done|auto]|].
    apply dml_init_cols in Hi. split; [split; [done|]; split; [done|by intros ? ? [= <- <-]]|].
    split; [|auto]. destruct Ho as [-> | ->]; [by intros ? [= <-]|done].
  - apply dml_init_cols in Hi. split; [|split; [by intros ? [= <-]|split; [done|]; split; [done|]; rewrite Hn; done]].
    split; [done|]. split; [|done]. intros d1 [= <-]. split; [done|]. unfold fill_parts, key_part_col. rewrite Hi. by eexists.
Qed.

Lemma wstep_w_ok tab st st' : w_ok tab st -> wstep st st' -> w_ok tab st'.
Proof.
  intros Hok Hst. destruct Hst as [ce st|cur st|ce exec argv st].
  - destruct (vtab_dml_ctx ce st) as [[st1 od] evs] eqn:E. by destruct (ctx_w_ok _ _ _ _ _ _ Hok E).
  - unfold vtab_rowid. by destruct (if _ && _ && _ then _ else _).
  - unfold vms_vtab_update. destruct (negb _); [done|]. destruct (t_query_source _); [done|].
    destruct (vtab_dml_ctx ce st) as [[st1 od] evs] eqn:E. destruct (ctx_w_ok _ _ _ _ _ _ Hok E) as [Hok1 _].
    destruct od as [d|]; [|done]. by destruct (run_dml _ _) as [[r rows] e].
Qed.

Lemma reach_w_ok tab st : rtc wstep (w_new tab) st -> w_ok tab st.
Proof.
  apply (rtc_ind_r (w_ok tab)); [|intros; by eapply wstep_w_ok].
  split; [done|]. split; done.
Qed.

End Reach.

(** ** From the row to the WHERE clause *)

Section Target.
Context `{SqlClient} `{WideConv} `{FloatIO}.
Variable alloc : Z -> bool.
Hypothesis alloc_ok : forall n, alloc n = true.

(** A key value as the adapter delivers it for its column: an integer for an
    integer column, a finite double for a float column, otherwise a text that
    fits the stash of 160 bytes. *)
Definition key_value_ok (c : VmsMetaColumn) (v : VmsValue) : Prop :=
  match v with
  | VAL_INT64 i => vtype c = CT_INT64 /\ in_i64 i
  | VAL_FLOAT64 f => vtype c = CT_FLOAT64 /\ f64_finite f
  | VAL_TEXT t => vtype c <> CT_INT64 /\ vtype c <> CT_FLOAT64 /\ zlen t <= 159
  | _ => False
  end.

(** The current row's key: for each key part its column, projected by the
    scan, and the value of that column. *)
Definition row_key (d : VmsDmlContext) (cur : VmsVtabCursor) (kvs : list ((Z * VmsMetaColumn) * VmsValue)) : Prop :=
  Forall2 (fun p kv =>
    key_part_col d p = Some (fst kv) /\ key_value_ok (snd (fst kv)) (snd kv) /\
    exists k, c_map cur !! Z.to_nat (fst (fst kv)) = Some k /\ 0 <= k /\
              c_row cur !! Z.to_nat k = Some (snd kv)) (key_parts d) kvs.

(** [column = literal of the row's value], for every key part. *)
Definition row_cond (kv : (Z * VmsMetaColumn) * VmsValue) : option (list Z) :=
  l ← lit_text alloc (snd kv); n ← ident_text (fst kv); Some (n ++ str " = " ++ l).

Definition row_conds (kvs : list ((Z * VmsMetaColumn) * VmsValue)) : option (list Z) :=
  ts ← mapM row_cond kvs; Some (sep_join (str " AND ") ts).

(** *** Values survive the text form *)

Lemma isdigit_not_space c : isdigit c = true -> isspace c = false /\ (c =? chr "-") = false /\ (c =? chr "+") = false.
Proof.
  unfold isdigit, isspace. change (chr "-") with 45. change (chr "+") with 43. intros ?. b2p.
  split_and!; [apply orb_false_iff; split; [apply Z.eqb_neq; lia|apply andb_false_iff; right; apply Z.leb_gt; lia]|apply Z.eqb_neq; lia..].
Qed.

Lemma span_digits s : Forall (fun c => isdigit c = true) s -> span isdigit s = (s, []).
Proof. intros Hs. rewrite <- (app_nil_r s) at 1. by apply span_all. Qed.

Lemma strtoi64_print i : in_i64 i -> strtoi64 (print_i i) = Some i.
Proof.
  intros [Hl Hu]. unfold strtoi64, print_i. destruct (i <? 0) eqn:E; b2p.
  - cbn [span]. change (isspace 45) with false. cbn [snd]. change (45 =? chr "-") with true. cbv iota beta.
    pose proof (print_u_isdigit (- i) ltac:(lia)) as Hd. rewrite span_digits by done. cbn [fst].
    destruct (print_u (- i)) as [|x ds] eqn:Ep; [by apply print_u_nonempty in Ep|].
    rewrite <- Ep, print_u_value by lia. f_equal. unfold INT64_MIN, INT64_MAX in *. lia.
  - pose proof (print_u_isdigit i ltac:(lia)) as Hd.
    destruct (print_u i) as [|x ds] eqn:Ep; [by apply print_u_nonempty in Ep|].
    inversion Hd as [|?? Hx _]; subst. destruct (isdigit_not_space x Hx) as (Hs & Hm & Hp).
    cbn [span]. rewrite Hs. cbn [snd]. rewrite Hm, Hp. rewrite span_digits by done. cbn [fst].
    rewrite <- Ep, print_u_value by lia. f_equal. unfold INT64_MIN, INT64_MAX in *. lia.
Qed.

Lemma stash_value c v :
  key_value_ok c v -> exists t, key_text_of (Some v) = Some t /\ text_to_value alloc (Some t) (vtype c) = Some v.
Proof.
  intros Hv. destruct v as [|i|f|t|b|t]; simpl in Hv; try done.
  - destruct Hv as [Hc Hi]. eexists. split; [done|]. unfold text_to_value. rewrite Hc.
    pose proof (zlen_print_i i Hi). rewrite trunc_copy_fits by lia. by rewrite strtoi64_print.
  - destruct Hv as [Hc Hf]. eexists. split; [done|]. unfold text_to_value. rewrite Hc.
    pose proof (fmt_g17_length f Hf). rewrite trunc_copy_fits by lia. by rewrite strtod_end.
  - destruct Hv as (Hc1 & Hc2 & Hl). eexists. split; [done|]. unfold zlen in Hl. rewrite take_ge by lia.
    unfold text_to_value. rewrite alloc_ok. by destruct (vtype c).
Qed.

(** *** The stash *)

Lemma find_col_spec nm cols : forall j0 j c,
  find_col nm j0 cols = Some (j, c) ->
  j0 <= j < j0 + zlen cols /\
  forall m k, m !! Z.to_nat (j - j0) = Some k -> 0 <= k -> find_mapped cols m nm = Some k.
Proof.
  induction cols as [|c0 cols IH]; intros j0 j c; simpl; [done|]. rewrite zlen_cons. pose proof (zlen_nonneg cols).
  destruct (stricmp_eq (name c0) nm) eqn:E.
  - intros [= <- <-]. split; [lia|]. intros m k Hm Hk. rewrite Z.sub_diag in Hm. destruct m as [|k0 m]; [done|].
    injection Hm as ->. by replace (k >=? 0) with true by (symmetry; apply Z.geb_le; lia).
  - intros Hf. destruct (IH _ _ _ Hf) as [Hj Hm]. split; [lia|]. intros m k Hmk Hk. destruct m as [|k0 m]; [done|].
    rewrite andb_false_r. apply Hm; [|done].
    by replace (Z.to_nat (j - j0)) with (S (Z.to_nat (j - (j0 + 1)))) in Hmk by lia.
Qed.

(** The text the stash holds for a column of the current row. *)
Definition col_text (cur : VmsVtabCursor) (j : Z) : list Z :=
  default [] (k ← c_map cur !! Z.to_nat j; key_text_of (c_row cur !! Z.to_nat k)).

Definition kv_cols (kvs : list ((Z * VmsMetaColumn) * VmsValue)) : list Z := map (fun kv => fst (fst kv)) kvs.

Lemma stash_row tab d cur ps kvs :
  d_cols d = t_cols tab ->
  Forall2 (fun p kv =>
    key_part_col d p = Some (fst kv) /\ key_value_ok (snd (fst kv)) (snd kv) /\
    exists k, c_map cur !! Z.to_nat (fst (fst kv)) = Some k /\ 0 <= k /\
              c_row cur !! Z.to_nat k = Some (snd kv)) ps kvs ->
  stash_parts tab cur ps = (true, map (col_text cur) (kv_cols kvs)) /\
  map (fun p => col_index (key_part_col d p)) ps = kv_cols kvs /\
  mapM (key_part_col d) ps = Some (map fst kvs) /\
  Forall (fun kv => 0 <= fst (fst kv) < zlen (t_cols tab) /\
            text_to_value alloc (Some (col_text cur (fst (fst kv)))) (vtype (snd (fst kv))) = Some (snd kv)) kvs.
Proof.
  intros Hc Hr. induction Hr as [|p [[j c] v] ps kvs (Hp & Hv & k & Hm & Hk & Hrow) _ IH]; [done|].
  cbn [fst snd] in *. destruct IH as (Is & Ip & Im & Iv).
  pose proof Hp as Hf. unfold key_part_col in Hf. rewrite Hc in Hf. destruct (find_col_spec _ _ _ _ _ Hf) as [Hj Hfm].
  rewrite Z.sub_0_r in Hfm. destruct (stash_value _ _ Hv) as (t & Ht & Htv).
  assert (Hct : col_text cur j = t) by (unfold col_text; rewrite Hm; cbn [mbind option_bind]; by rewrite Hrow, Ht).
  simpl. rewrite (Hfm _ _ Hm Hk). cbn [mbind option_bind]. rewrite Hrow, Ht, Is, Hct.
  rewrite Hp. cbn [col_index]. rewrite Ip, Im.
  split_and!; [done..|]. constructor; [|done]. cbn [fst snd]. rewrite Hct. split; [lia|done].
Qed.

Lemma find_part_map (tf : Z -> list Z) js r1 r2 j :
  j ∈ js -> find_part (js ++ r1) (map tf js ++ r2) j = Some (tf j).
Proof.
  induction js as [|j0 js IH]; [by intros ?%not_elem_of_nil|]. intros Hj. simpl. destruct (j0 =? j) eqn:E; b2p.
  - by subst.
  - apply IH. by apply elem_of_cons in Hj as [->|].
Qed.

Lemma key_conds_row d g kvs :
  mapM (key_part_col d) (key_parts d) = Some (map fst kvs) ->
  Forall (fun kv => text_to_value alloc (g (fst (fst kv))) (vtype (snd (fst kv))) = Some (snd kv)) kvs ->
  key_conds_text alloc d g = row_conds kvs.
Proof.
  intros Hm Hg. unfold key_conds_text, row_conds. rewrite Hm. cbn [mbind option_bind].
  assert (E : mapM (assign_text alloc g) (map fst kvs) = mapM row_cond kvs); [|by rewrite E].
  clear Hm. induction Hg as [|kv kvs Hkv _ IH]; [done|]. simpl. rewrite IH.
  replace (assign_text alloc g (fst kv)) with (row_cond kv); [done|].
  unfold assign_text, value_lit, row_cond. by rewrite Hkv.
Qed.

(** The statements that modify the row with key [kvs]. *)
Definition delete_row_sql (d : VmsDmlContext) (kvs : list ((Z * VmsMetaColumn) * VmsValue)) : option (list Z) :=
  tbl ← table_text d;
  conds ← row_conds kvs;
  fits (str "DELETE FROM " ++ tbl ++ str " WHERE " ++ conds).

Definition update_row_sql (d : VmsDmlContext) (argv : list (option (list Z)))
    (kvs : list ((Z * VmsMetaColumn) * VmsValue)) : option (list Z) :=
  let cs := chosen (update_skips None d) 0 (d_cols d) in
  tbl ← table_text d;
  sets ← mapM (assign_text alloc (upd_value_get argv)) cs;
  conds ← row_conds kvs;
  if zlen cs =? 0 then None
  else fits (str "UPDATE " ++ tbl ++ str " SET " ++ sep_join (str ", ") sets ++ str " WHERE " ++ conds).

Lemma rowid_stash tab st cur d kvs :
  w_ok tab st -> w_dml st = Some d -> t_rw tab = true -> 0 < zlen (t_cols tab) -> has_cursor cur = true ->
  row_key d cur kvs ->
  let st1 := fst (vtab_rowid st cur) in
  w_ok tab st1 /\ w_dml st1 = Some d /\ w_have st1 = true /\
  w_part_col st1 = w_part_col st /\
  exists r, w_text st1 = map (col_text cur) (kv_cols kvs) ++ r.
Proof.
  intros (Ht & Hd & Hx) Em Hrw Hn Hcur Hrow st1. destruct (Hd d Em) as [Hc _].
  destruct (stash_row tab d cur (key_parts d) kvs Hc Hrow) as (Hs & _).
  subst st1. unfold vtab_rowid. rewrite Ht, Hcur, Hrw, Em, Hs.
  replace (zlen (t_cols tab) >? 0) with true by (symmetry; apply Z.gtb_lt; lia). cbn [andb fst].
  split_and!; [|done..|by eexists]. split; [done|]. split; [by rewrite <- Em|done].
Qed.


End Target.

(** ** A concrete table *)

(** Key [(region, id)]: the second column is the first key part. *)
Definition demo_wcols : list VmsMetaColumn :=
  [mkCol (str "id") (str "int") CT_INT64 0 0 0 4 10 0;
   mkCol (str "region") (str "nvarchar") CT_TEXT 0 0 0 40 0 0;
   mkCol (str "qty") (str "bigint") CT_INT64 1 0 0 8 19 0].

Definition demo_catalog : SqlClient := {| exec_direct := fun _ => QRows (flat_map index_rows
  [mkIndex 1 true true (str "PK") []
     [mkCatCol (str "region") (str "nvarchar") 40; mkCatCol (str "id") (str "int") 4]]) None |}.

Definition demo_wtab : VmsVtab := mkTab (str "dbo") (str "stock") demo_wcols false true false.
Definition outside : CtxEnv := mkCE None true true true.
Definition inside : CtxEnv := mkCE (Some 7) true true true.

(** The cursor on the row (42, 'north', NULL). *)
Definition demo_row : VmsVtabCursor :=
  mkCur (SrcRemote []) [VAL_INT64 42; VAL_TEXT (str "north"); VAL_NULL] [0; 1; 2] false 1.

Definition planned (ce : CtxEnv) : WTab := fst (fst (@vtab_dml_ctx demo_catalog ce (w_new demo_wtab))).
Definition demo_update (ce : CtxEnv) := @vms_vtab_update demo_catalog IdWideConv BitsFloatIO (fun _ => true) ce (fun _ => None).


(** When the first plan of a table is made inside a transaction, the part map
    is never filled: a DELETE on a table whose key is not its first column
    compares the key with NULL, matches no row and reports success. *)
Example txn_planned_key_lost :
  let cat := {| exec_direct := fun _ => QRows (flat_map index_rows
    [mkIndex 1 true true (str "PK") [] [mkCatCol (str "region") (str "nvarchar") 40]]) None |} in
  let st := fst (fst (@vtab_dml_ctx cat inside (w_new demo_wtab))) in
  let st := fst (@vtab_rowid BitsFloatIO st demo_row) in
  let '(_, rc, sqls) := @vms_vtab_update cat IdWideConv BitsFloatIO (fun _ => true) inside (fun _ => None)
                          [Some (str "42")] st in
  rc = UPD_OK /\ sqls = [(OnTxn 7, str "DELETE FROM [dbo].[stock] WHERE [region] = NULL")].
Proof. vm_compute. split; reflexivity. Qed.

(** Read-only tables and query sources: nothing is prepared or sent. *)
Lemma update_readonly `{SqlClient} `{WideConv} `{FloatIO} alloc ce exec argv st :
  t_rw (w_tab st) = false \/ t_query_source (w_tab st) = true ->
  vms_vtab_update alloc ce exec argv st = (st, UPD_READONLY, []).
Proof.
  intros Hg. unfold vms_vtab_update. destruct (t_rw (w_tab st)); [|done]. destruct Hg as [Hg|Hg]; [done|by rewrite Hg].
Qed.
