(* ===== verification/Txn.v ===== *)
(** * Explicit transactions (src/src/vms_odbc_adapter.c, R11 jobs, and the
    transaction hooks of src/src/vms_vtab.c)

    The connection flags and the jobs that move them, the environment's
    pinned connection, and the hooks the host calls.  The answers of the ODBC
    driver are an argument of every step; the operations that reach the wire
    are recorded. *)

From stdpp Require Import relations.
From S2P Require Import Prelude Client Identity.

(** ** Connections *)

Inductive wire : Type :=
| WBegin                              (* BEGIN TRANSACTION, executed *)
| WBeginFailed                        (* BEGIN TRANSACTION, refused *)
| WJoin                               (* a transaction was found open *)
| WSave (nm : list Z)                 (* SAVE TRANSACTION [nm] *)
| WRollbackTo (nm : list Z)           (* ROLLBACK TRANSACTION [nm] *)
| WEndTran (rollback : bool)          (* SQLEndTran *)
| WStmt.                              (* a DML statement *)

Record VmsConnection := mkConn {
  addr : Z;
  txn_pinned : bool;
  txn_active : bool;
  quarantined : bool;
  autocommit : bool;
  wires : list wire
}.

Definition conn_new (a : Z) : VmsConnection := mkConn a false false false true [].

Definition set_active (c : VmsConnection) (b : bool) : VmsConnection :=
  mkConn (addr c) (txn_pinned c) b (quarantined c) (autocommit c) (wires c).
Definition send (c : VmsConnection) (w : wire) : VmsConnection :=
  mkConn (addr c) (txn_pinned c) (txn_active c) (quarantined c) (autocommit c) (wires c ++ [w]).

(** A diagnostic record of the driver: SQLSTATE, native code, message. *)
Record Diag := mkDiag { dg_state : list Z; dg_native : Z; dg_msg : list Z }.

(** The driver's answers during one hook; [None] is success where the answer
    is an optional diagnostic. *)
Record Odbc := mkOdbc {
  o_open : option VmsError;           (* None: connected *)
  o_addr : Z;                         (* address of a new connection *)
  o_autocommit_off : option Diag;
  o_autobegin_off : option Diag;
  o_primer : option Diag;
  o_trancount : option Z;             (* @@TRANCOUNT, None: the query failed *)
  o_begin : bool;
  o_save_alloc : bool;
  o_save : option Diag;
  o_stmt_alloc : bool;                (* SQLAllocHandle for a DML statement *)
  o_stmt : option Diag;
  o_xact_state : option Z;
  o_endtran : option Diag;
  o_raced : option VmsConnection      (* the pin another thread stored meanwhile *)
}.

(** [diag_capture]: the class, the quarantine request and the stored error. *)
Definition diag_capture (d : Diag) (what : list Z) : VmsErrClass * bool * VmsError :=
  let '(c, q) := classify_state (trunc_copy 6 (dg_state d)) in
  (c, q, default err_zero (vms_error_set (Some err_zero) c (Some (trunc_copy 6 (dg_state d))) (dg_native d)
           (fun _ => what ++ str ": " ++
              match dg_msg d with [] => str "no ODBC diagnostics available" | m => m end))).

(** ** Jobs *)

Definition job_txn_pin (o : Odbc) (c : VmsConnection) : VmsConnection * bool * VmsError :=
  if txn_pinned c then (c, true, err_zero)
  else match o_autocommit_off o with
       | Some st => (c, false, snd (diag_capture st (str "txn pin: autocommit off")))
       | None =>
           let c := mkConn (addr c) (txn_pinned c) (txn_active c) (quarantined c) false (wires c) in
           match o_autobegin_off o with
           | Some st => (c, false, snd (diag_capture st (str "txn pin: autobegin off")))
           | None =>
               match o_primer o with
               | Some st =>
                   (mkConn (addr c) (txn_pinned c) (txn_active c) (quarantined c) true (wires c), false,
                    snd (diag_capture st (str "txn pin: primer")))
               | None => (mkConn (addr c) true (txn_active c) (quarantined c) (autocommit c) (wires c), true, err_zero)
               end
           end
       end.

Definition lazy_failed : VmsError := mkError VMS_ERR_EXEC [] 0 (str "lazy txn start failed").

Definition job_txn_begin_lazy (o : Odbc) (c : VmsConnection) : VmsConnection * bool * VmsError :=
  if txn_active c then (c, true, err_zero)
  else if negb (txn_pinned c) then
    (c, false, default err_zero (vms_error_set (Some err_zero) VMS_ERR_INVALID_ARG None 0
                 (fun _ => str "lazy txn start: connection not pinned")))
  else match o_trancount o with
       | None => (c, false, lazy_failed)
       | Some tc =>
           if tc >? 0 then (set_active (send c WJoin) true, true, err_zero)
           else if o_begin o then (set_active (send c WBegin) true, true, err_zero)
           else (send c WBeginFailed, false, lazy_failed)
       end.

Definition savepoint_sql (rollback_op : bool) (nm : list Z) : list Z :=
  trunc_copy 160 ((if rollback_op then str "ROLLBACK" else str "SAVE") ++ str " TRANSACTION [" ++ nm ++ str "]").

(** [vms_txn_savepoint] with its job. *)
Definition vms_txn_savepoint (o : Odbc) (c : VmsConnection) (nm : list Z) (rollback_op : bool) :
    VmsConnection * bool * option VmsError :=
  if negb (vms_meta_ident_valid (Some nm) 128) then (c, false, None)
  else if negb (o_save_alloc o) then
    (c, false, vms_error_set (Some err_zero) VMS_ERR_INTERNAL None 0 (fun _ => str "savepoint: alloc failed"))
  else
    let c := send c (if rollback_op then WRollbackTo nm else WSave nm) in
    match o_save o with
    | None => (c, true, Some err_zero)
    | Some d => (c, false, vms_error_set (Some err_zero) VMS_ERR_EXEC (Some (dg_state d)) (dg_native d)
                             (fun _ => savepoint_sql rollback_op nm ++ str ": " ++
                                match dg_msg d with [] => str "no diagnostics" | m => m end))
    end.

Definition job_txn_doomed (o : Odbc) (c : VmsConnection) : bool :=
  txn_active c && match o_xact_state o with Some s => s =? -1 | None => false end.

Definition vms_txn_validate (o : Odbc) (c : VmsConnection) : bool :=
  txn_active c && negb (job_txn_doomed o c).

(** Execution of a DML statement on the connection, as the write path calls
    it ([vms_conn_exec_dml] with no parameters: the holder allocations and the
    binding loop are empty). *)
Definition job_dml (o : Odbc) (c : VmsConnection) : VmsConnection * bool * VmsError :=
  if quarantined c then
    (c, false, default err_zero (vms_error_set (Some err_zero) VMS_ERR_QUARANTINED None 0
                 (fun _ => str "connection quarantined")))
  else if negb (o_stmt_alloc o) then
    (c, false, default err_zero (vms_error_set (Some err_zero) VMS_ERR_NO_MEMORY None 0
                 (fun _ => str "OOM dml stmt")))
  else match o_stmt o with
       | None => (send c WStmt, true, err_zero)
       | Some d => (send c WStmt, false, snd (diag_capture d (str "DML execute")))
       end.

Inductive VmsTxnResult : Type := TXN_OK | TXN_BUSY | TXN_ROLLED_BACK | TXN_UNKNOWN.

Definition quarantine (c : VmsConnection) : VmsConnection :=
  mkConn (addr c) (txn_pinned c) (txn_active c) true (autocommit c) (wires c).

Definition job_txn_finalize (o : Odbc) (rollback_op : bool) (c : VmsConnection) :
    VmsConnection * VmsTxnResult * VmsError :=
  let was_active := txn_active c in
  let c := send (set_active c false) (WEndTran rollback_op) in
  match o_endtran o with
  | Some st =>
      let '(cl, q, e) := diag_capture st (if rollback_op then str "SQLEndTran rollback" else str "SQLEndTran commit") in
      if q || bool_decide (cl = VMS_ERR_TRANSPORT) || bool_decide (cl = VMS_ERR_CONNECT) then
        (quarantine c, TXN_UNKNOWN, e)
      else if bool_decide (cl = VMS_ERR_TIMEOUT) then
        (if was_active then set_active c true else c, TXN_BUSY, e)
      else if negb rollback_op && was_active then (quarantine c, TXN_UNKNOWN, e)
      else (c, TXN_BUSY, e)
  | None => (mkConn (addr c) false (txn_active c) (quarantined c) true (wires c), TXN_OK, err_zero)
  end.

(** ** Environment and hooks *)

Definition VMS_TXN_MAX_SAVEPOINTS : Z := 32.

(** The pinned connection, the savepoint names in use, the connections that
    were closed (most recent first), and the table's transaction-bound write
    context as the address of the connection it was made for. *)
Record VmsVtabEnv := mkEnv {
  txn_cn : option VmsConnection;
  sv_names : list (list Z);
  closed : list VmsConnection;
  dml_txn : option Z
}.

Inductive rc : Type := SQLITE_OK | SQLITE_BUSY | SQLITE_ERROR.

Definition put_cn (env : VmsVtabEnv) (c : VmsConnection) : VmsVtabEnv :=
  mkEnv (Some c) (sv_names env) (closed env) (dml_txn env).

Definition close_cn (env : VmsVtabEnv) (c : VmsConnection) : VmsVtabEnv :=
  mkEnv (txn_cn env) (sv_names env) (c :: closed env) (dml_txn env).

Definition txn_pin_shared (o : Odbc) (env : VmsVtabEnv) : VmsVtabEnv * option VmsConnection * VmsError :=
  match txn_cn env with
  | Some c => (env, Some c, err_zero)
  | None =>
      match o_open o with
      | Some e => (env, None, e)
      | None =>
          let '(c, ok, e) := job_txn_pin o (conn_new (o_addr o)) in
          if negb ok then (close_cn env c, None, e)
          else match o_raced o with
               | Some other =>
                   let '(c', _, e') := job_txn_finalize o true c in
                   (close_cn (put_cn env other) c', Some other, e')
               | None => (put_cn env c, Some c, err_zero)
               end
      end
  end.

(** The connection is closed, never given to the pool. *)
Definition txn_unpin (env : VmsVtabEnv) : VmsVtabEnv :=
  match txn_cn env with
  | None => env
  | Some c => mkEnv None [] (c :: closed env) (dml_txn env)
  end.

Definition vms_vtab_begin (o : Odbc) (env : VmsVtabEnv) : VmsVtabEnv * rc :=
  let '(env, c, _) := txn_pin_shared o env in
  (env, match c with Some _ => SQLITE_OK | None => SQLITE_ERROR end).

Definition vms_vtab_sync (o : Odbc) (env : VmsVtabEnv) : rc * option (list Z) :=
  match txn_cn env with
  | None => (SQLITE_OK, None)
  | Some c =>
      if negb (vms_txn_validate o c) then
        if job_txn_doomed o c then
          (SQLITE_ERROR, Some (str "virtualmssql: transaction is uncommittable (XACT_STATE()=-1); rollback required"))
        else (SQLITE_ERROR, Some (str "virtualmssql: transaction lost on the remote connection"))
      else (SQLITE_OK, None)
  end.

Definition vms_vtab_commit (o : Odbc) (env : VmsVtabEnv) : VmsVtabEnv * rc :=
  match txn_cn env with
  | None => (env, SQLITE_OK)
  | Some c =>
      let '(c, res, _) := job_txn_finalize o false c in
      let env := txn_unpin (put_cn env c) in
      (env, match res with TXN_OK => SQLITE_OK | TXN_BUSY => SQLITE_BUSY | _ => SQLITE_ERROR end)
  end.

Definition vms_vtab_rollback (o : Odbc) (env : VmsVtabEnv) : VmsVtabEnv * rc :=
  match txn_cn env with
  | None => (env, SQLITE_OK)
  | Some c =>
      let '(c, res, _) := job_txn_finalize o true c in
      let env := txn_unpin (put_cn env c) in
      (env, match res with TXN_OK => SQLITE_OK | TXN_BUSY => SQLITE_BUSY | _ => SQLITE_ERROR end)
  end.

Definition sv_name (n : Z) : list Z := trunc_copy 48 (str "vms_sv_" ++ print_i n).

Definition vms_vtab_savepoint (o : Odbc) (env : VmsVtabEnv) (n : Z) : VmsVtabEnv * rc :=
  let '(env, oc, _) := txn_pin_shared o env in
  match oc with
  | None => (env, SQLITE_ERROR)
  | Some c =>
      let '(c, ok, _) := job_txn_begin_lazy o c in
      let env := put_cn env c in
      if negb ok then (env, SQLITE_ERROR)
      else
        let nm := sv_name n in
        let '(c, ok, _) := vms_txn_savepoint o c nm false in
        let env := put_cn env c in
        if negb ok then (env, SQLITE_ERROR)
        else (mkEnv (txn_cn env) (if zlen (sv_names env) <? VMS_TXN_MAX_SAVEPOINTS then sv_names env ++ [nm]
                                  else sv_names env) (closed env) (dml_txn env), SQLITE_OK)
  end.

Definition vms_vtab_release (env : VmsVtabEnv) (n : Z) : VmsVtabEnv * rc :=
  (mkEnv (txn_cn env) (take (length (sv_names env) - 1) (sv_names env)) (closed env) (dml_txn env), SQLITE_OK).

Definition vms_vtab_rollback_to (o : Odbc) (env : VmsVtabEnv) (n : Z) : VmsVtabEnv * rc :=
  match txn_cn env with
  | None => (env, SQLITE_OK)
  | Some c =>
      let '(c, ok, _) := vms_txn_savepoint o c (sv_name n) true in
      let env := put_cn env c in
      if negb ok then (env, SQLITE_ERROR)
      else
        let keep := n + 1 in
        (mkEnv (txn_cn env) (if zlen (sv_names env) >? keep then take (Z.to_nat keep) (sv_names env)
                             else sv_names env) (closed env) (dml_txn env), SQLITE_OK)
  end.

(** [vtab_dml_ctx] on the pinned connection: the write context is made once
    per connection and its first use begins the transaction.  [init_ok] is the
    outcome of preparing the context; the result is the connection to write
    on. *)
Definition txn_ctx (o : Odbc) (init_ok : bool) (env : VmsVtabEnv) : VmsVtabEnv * option VmsConnection :=
  match txn_cn env with
  | None => (env, None)
  | Some c =>
      if bool_decide (dml_txn env = Some (addr c)) then (env, Some c)
      else if negb init_ok then (mkEnv (txn_cn env) (sv_names env) (closed env) None, None)
      else
        let env := mkEnv (txn_cn env) (sv_names env) (closed env) (Some (addr c)) in
        let '(c, ok, _) := job_txn_begin_lazy o c in
        (put_cn env c, if ok then Some c else None)
  end.

(** A write inside the transaction: the context, then the statement. *)
Definition txn_write (o : Odbc) (init_ok : bool) (env : VmsVtabEnv) : VmsVtabEnv * rc :=
  match txn_ctx o init_ok env with
  | (env, None) => (env, SQLITE_ERROR)
  | (env, Some c) => let '(c, ok, _) := job_dml o c in (put_cn env c, if ok then SQLITE_OK else SQLITE_ERROR)
  end.

(** The host's calls, as a step relation (planning a statement on a writable
    table prepares the write context too); [P] says which answers of the
    driver are considered in which state. *)
Inductive hook_step (P : Odbc -> VmsVtabEnv -> Prop) : VmsVtabEnv -> VmsVtabEnv -> Prop :=
| st_begin o env : P o env -> hook_step P env (fst (vms_vtab_begin o env))
| st_commit o env : P o env -> hook_step P env (fst (vms_vtab_commit o env))
| st_rollback o env : P o env -> hook_step P env (fst (vms_vtab_rollback o env))
| st_savepoint o env n : P o env -> hook_step P env (fst (vms_vtab_savepoint o env n))
| st_release env n : hook_step P env (fst (vms_vtab_release env n))
| st_rollback_to o env n : P o env -> hook_step P env (fst (vms_vtab_rollback_to o env n))
| st_plan o init_ok env : P o env -> hook_step P env (fst (txn_ctx o init_ok env))
| st_write o init_ok env : P o env -> hook_step P env (fst (txn_write o init_ok env)).

Definition env_init : VmsVtabEnv := mkEnv None [] [] None.

Definition reachable (P : Odbc -> VmsVtabEnv -> Prop) (env : VmsVtabEnv) : Prop := rtc (hook_step P) env_init env.

(** ** Protocol on the wire

    The states of one connection's transaction as the server sees it, and the
    operations allowed in each: no BEGIN inside a transaction, no SAVE outside
    one, nothing after the end.  In the strict protocol statements are only
    allowed inside the transaction. *)

Inductive wstate : Type := Idle | Open | Ended.

#[global] Instance wstate_eq_dec : EqDecision wstate.
Proof. solve_decision. Defined.

Definition wire_step (strict : bool) (s : wstate) (w : wire) : option wstate :=
  match s, w with
  | Ended, _ => None
  | _, WEndTran _ => Some Ended
  | Idle, (WBegin | WJoin) => Some Open
  | Idle, WBeginFailed => Some Idle
  | Open, (WBegin | WJoin | WBeginFailed) => None
  | Idle, WSave _ => None
  | Open, WSave _ => Some Open
  | s, WRollbackTo _ => Some s
  | Idle, WStmt => if strict then None else Some Idle
  | Open, WStmt => Some Open
  end.

Fixpoint wire_run (strict : bool) (s : wstate) (ws : list wire) : option wstate :=
  match ws with [] => Some s | w :: ws' => s' ← wire_step strict s w; wire_run strict s' ws' end.

Lemma wire_run_snoc strict s ws w :
  wire_run strict s (ws ++ [w]) = (s' ← wire_run strict s ws; wire_step strict s' w).
Proof.
  revert s; induction ws as [|x ws IH]; intros s; simpl.
  - by destruct (wire_step strict s w).
  - destruct (wire_step strict s x); simpl; [apply IH|done].
Qed.

(** A pinned connection whose flag agrees with the protocol state. *)
Definition conn_ok (strict : bool) (c : VmsConnection) : Prop :=
  txn_pinned c = true /\ wire_run strict Idle (wires c) = Some (if txn_active c then Open else Idle).

Definition env_ok (strict : bool) (env : VmsVtabEnv) : Prop :=
  (forall c, txn_cn env = Some c -> conn_ok strict c) /\
  Forall (fun c => exists s, wire_run strict Idle (wires c) = Some s) (closed env) /\
  zlen (sv_names env) <= 32.

(** The pin of another thread satisfies the same protocol. *)
Definition raced_ok (strict : bool) (o : Odbc) : Prop := forall c, o_raced o = Some c -> conn_ok strict c.

Lemma pin_ok strict o a c e : job_txn_pin o (conn_new a) = (c, true, e) -> conn_ok strict c /\ wires c = [] /\ addr c = a.
Proof.
  unfold job_txn_pin. simpl. destruct (o_autocommit_off o); [done|].
  destruct (o_autobegin_off o); [done|]. destruct (o_primer o); [done|]. by intros [= <- <-].
Qed.

Lemma pin_wires o a c ok e : job_txn_pin o (conn_new a) = (c, ok, e) -> wires c = [].
Proof.
  unfold job_txn_pin. simpl. destruct (o_autocommit_off o); [by intros [= <- <- <-]|].
  destruct (o_autobegin_off o); [by intros [= <- <- <-]|].
  destruct (o_primer o); by intros [= <- <- <-].
Qed.

Lemma begin_lazy_ok strict o c c' ok e :
  conn_ok strict c -> job_txn_begin_lazy o c = (c', ok, e) ->
  conn_ok strict c' /\ addr c' = addr c /\ (ok = true -> txn_active c' = true).
Proof.
  intros [Hp Hw]. unfold job_txn_begin_lazy. destruct (txn_active c) eqn:Ea; [intros [= <- <- <-]; split; [by split; [|rewrite Ea]|split; done]|].
  rewrite Hp. cbn [negb]. destruct (o_trancount o) as [tc|]; [|intros [= <- <- <-]; split; [by split; [|rewrite Ea]|split; done]].
  destruct (tc >? 0); [|destruct (o_begin o)]; intros [= <- <- <-];
    (split; [split; [exact Hp|simpl; rewrite wire_run_snoc, Hw, ?Ea; done]|split; done]).
Qed.

Lemma savepoint_ok strict o c nm rb c' ok e :
  conn_ok strict c -> (rb = false -> txn_active c = true) -> vms_txn_savepoint o c nm rb = (c', ok, e) ->
  conn_ok strict c' /\ addr c' = addr c /\ txn_active c' = txn_active c.
Proof.
  intros [Hp Hw] Ha. unfold vms_txn_savepoint. destruct (negb _); [by intros [= <- <- <-]|].
  destruct (negb _); [by intros [= <- <- <-]|].
  assert (Hc : conn_ok strict (send c (if rb then WRollbackTo nm else WSave nm))).
  { split; [done|]. simpl. rewrite wire_run_snoc, Hw. destruct rb; simpl; [by destruct (txn_active c)|].
    by rewrite Ha. }
  destruct (o_save o); by intros [= <- <- <-].
Qed.

Lemma dml_ok strict o c c' ok e :
  conn_ok strict c -> (strict = true -> txn_active c = true) -> job_dml o c = (c', ok, e) ->
  conn_ok strict c' /\ addr c' = addr c /\ txn_active c' = txn_active c.
Proof.
  intros [Hp Hw] Ha. unfold job_dml. destruct (quarantined c); [by intros [= <- <- <-]|].
  destruct (negb (o_stmt_alloc o)); [by intros [= <- <- <-]|].
  assert (Hc : conn_ok strict (send c WStmt)).
  { split; [done|]. simpl. rewrite wire_run_snoc, Hw. destruct (txn_active c); [done|]. simpl.
    destruct strict; [by specialize (Ha eq_refl)|done]. }
  destruct (o_stmt o); by intros [= <- <- <-].
Qed.

Lemma finalize_wires strict o rb c c' res e :
  conn_ok strict c -> job_txn_finalize o rb c = (c', res, e) -> wire_run strict Idle (wires c') = Some Ended.
Proof.
  intros [Hp Hw]. unfold job_txn_finalize.
  assert (Hr : wire_run strict Idle (wires c ++ [WEndTran rb]) = Some Ended).
  { rewrite wire_run_snoc, Hw. simpl. by destruct (txn_active c). }
  destruct (o_endtran o) as [d|]; [|by intros [= <- <- <-]].
  destruct (diag_capture d _) as [[cl q] e']. destruct (q || _ || _); [by intros [= <- <- <-]|].
  destruct (bool_decide _); [destruct (txn_active c); by intros [= <- <- <-]|].
  destruct (_ && _); by intros [= <- <- <-].
Qed.

Lemma pin_shared_ok strict o env env' oc e :
  env_ok strict env -> raced_ok strict o -> txn_pin_shared o env = (env', oc, e) ->
  env_ok strict env' /\ sv_names env' = sv_names env /\ dml_txn env' = dml_txn env /\ txn_cn env' = oc.
Proof.
  intros Henv Hr. pose proof Henv as (Hc & Hcl & Hsv). unfold txn_pin_shared.
  destruct (txn_cn env) as [c|] eqn:Ec; [by intros [= <- <- <-]|].
  destruct (o_open o); [by intros [= <- <- <-]|].
  destruct (job_txn_pin o (conn_new (o_addr o))) as [[c ok] e0] eqn:Ep.
  pose proof (pin_wires _ _ _ _ _ Ep) as Hw. destruct ok; cbn [negb].
  - destruct (pin_ok strict _ _ _ _ Ep) as (Hok & _ & _). destruct (o_raced o) as [other|] eqn:Eo.
    + destruct (job_txn_finalize o true c) as [[c' res] e'] eqn:Ef.
      pose proof (finalize_wires strict _ _ _ _ _ _ Hok Ef). intros [= <- <- <-].
      split_and!; try done. split_and!; simpl; [intros ? [= <-]; by apply Hr|constructor; eauto|done].
    + intros [= <- <- <-]. split_and!; try done. split_and!; simpl; [by intros ? [= <-]|done|done].
  - intros [= <- <- <-]. split_and!; try done. split_and!; simpl; [by rewrite Ec|constructor; [by rewrite Hw; eauto|done]|done].
Qed.

Lemma env_ok_put strict env c : env_ok strict env -> conn_ok strict c -> env_ok strict (put_cn env c).
Proof. intros (_ & Hcl & Hsv) Hc. split_and!; simpl; [by intros ? [= <-]|done|done]. Qed.

Lemma env_ok_init strict : env_ok strict env_init.
Proof. split_and!; simpl; [done|constructor|rewrite zlen_nil; lia]. Qed.

Lemma finalize_env_ok strict o rb env c c' res e :
  env_ok strict env -> txn_cn env = Some c -> job_txn_finalize o rb c = (c', res, e) ->
  env_ok strict (txn_unpin (put_cn env c')).
Proof.
  intros (Hc & Hcl & Hsv) Ec Ef. pose proof (finalize_wires strict _ _ _ _ _ _ (Hc _ Ec) Ef) as Hw.
  split_and!; simpl; [done|constructor; eauto|rewrite zlen_nil; lia].
Qed.

Lemma savepoint_env_ok strict o env n :
  env_ok strict env -> raced_ok strict o -> env_ok strict (fst (vms_vtab_savepoint o env n)).
Proof.
  intros Henv Hr. unfold vms_vtab_savepoint. destruct (txn_pin_shared o env) as [[env1 oc] e1] eqn:Ep.
  destruct (pin_shared_ok strict _ _ _ _ _ Henv Hr Ep) as (Henv1 & _ & _ & Hoc).
  destruct oc as [c|]; [|done]. destruct (job_txn_begin_lazy o c) as [[c1 ok1] e2] eqn:Eb.
  destruct (begin_lazy_ok strict _ _ _ _ _ (proj1 Henv1 _ Hoc) Eb) as (Hc1 & _ & Hact).
  destruct ok1; cbn [negb]; [|by apply env_ok_put].
  destruct (vms_txn_savepoint o c1 (sv_name n) false) as [[c2 ok2] e3] eqn:Es.
  destruct (savepoint_ok strict _ _ _ _ _ _ _ Hc1 (fun _ => Hact eq_refl) Es) as (Hc2 & _ & _).
  destruct (env_ok_put strict env1 c2 Henv1 Hc2) as (Hcc & Hcl & Hsv).
  destruct ok2; cbn [negb]; [|exact (conj Hcc (conj Hcl Hsv))].
  split; [exact Hcc|split; [exact Hcl|]]. cbn [fst sv_names put_cn].
  unfold VMS_TXN_MAX_SAVEPOINTS. destruct (_ <? 32) eqn:E; [|exact Hsv]. autorewrite with vms_len. blia.
Qed.

Lemma zlen_take_le {A} n (l : list A) k : zlen l <= k -> zlen (take n l) <= k.
Proof. unfold zlen. rewrite length_take. lia. Qed.

Lemma rollback_to_env_ok strict o env n : env_ok strict env -> env_ok strict (fst (vms_vtab_rollback_to o env n)).
Proof.
  intros Henv. unfold vms_vtab_rollback_to. destruct (txn_cn env) as [c|] eqn:Ec; [|done].
  destruct (vms_txn_savepoint o c (sv_name n) true) as [[c2 ok2] e3] eqn:Es.
  destruct (savepoint_ok strict o c (sv_name n) true c2 ok2 e3 (proj1 Henv _ Ec) ltac:(discriminate) Es) as (Hc2 & _ & _).
  destruct (env_ok_put strict env c2 Henv Hc2) as (Hcc & Hcl & Hsv).
  destruct ok2; cbn [negb]; [|exact (conj Hcc (conj Hcl Hsv))].
  split; [exact Hcc|split; [exact Hcl|]]. cbn [fst sv_names put_cn].
  destruct (_ >? _); [by apply zlen_take_le|done].
Qed.

(** The write context. *)
Lemma ctx_env_ok strict o init_ok env env' oc :
  env_ok strict env ->
  (strict = true -> forall c, txn_cn env = Some c -> dml_txn env = Some (addr c) -> txn_active c = true) ->
  txn_ctx o init_ok env = (env', oc) ->
  env_ok strict env' /\
  (forall c, oc = Some c -> txn_cn env' = Some c /\ (strict = true -> txn_active c = true)).
Proof.
  intros Henv Hact. unfold txn_ctx. destruct (txn_cn env) as [c|] eqn:Ec; [|by intros [= <- <-]].
  pose proof (proj1 Henv _ Ec) as Hc. destruct (bool_decide _) eqn:Ed.
  - apply bool_decide_eq_true in Ed. intros [= <- <-]. split; [done|]. intros c0 [= <-]. split; [done|].
    intros Hs. by apply Hact.
  - destruct Henv as (H1 & H2 & H3). destruct init_ok; cbn [negb].
    + destruct (job_txn_begin_lazy o c) as [[c1 ok1] e1] eqn:Eb. intros [= <- <-].
      destruct (begin_lazy_ok strict _ _ _ _ _ Hc Eb) as (Hc1 & _ & Hact1).
      split; [split_and!; simpl; [by intros ? [= <-]|done|done]|].
      destruct ok1; [|done]. intros c0 [= <-]. split; [done|]. intros _. by apply Hact1.
    + intros [= <- <-]. split; [rewrite <- Ec; exact (conj H1 (conj H2 H3))|done].
Qed.

(** Writes: the statement needs an open transaction in the strict protocol. *)
Lemma write_env_ok strict o init_ok env :
  env_ok strict env ->
  (strict = true -> forall c, txn_cn env = Some c -> dml_txn env = Some (addr c) -> txn_active c = true) ->
  env_ok strict (fst (txn_write o init_ok env)).
Proof.
  intros Henv Hact. unfold txn_write. destruct (txn_ctx o init_ok env) as [env1 oc] eqn:Ex.
  destruct (ctx_env_ok strict _ _ _ _ _ Henv Hact Ex) as [Henv1 Hoc]. destruct oc as [c|]; [|done].
  destruct (Hoc c eq_refl) as [Ec Ha]. destruct (job_dml o c) as [[c1 ok1] e1] eqn:Ej.
  destruct (dml_ok strict _ _ _ _ _ (proj1 Henv1 _ Ec) Ha Ej) as (Hc1 & _ & _). by apply env_ok_put.
Qed.

(** One hook, given what it needs for writes. *)
Lemma hook_env_ok strict P env env' :
  (forall o e, P o e -> raced_ok strict o) ->
  (strict = true -> forall c, txn_cn env = Some c -> dml_txn env = Some (addr c) -> txn_active c = true) ->
  env_ok strict env -> hook_step P env env' -> env_ok strict env'.
Proof.
  intros HP Hw Henv Hst. destruct Hst as [o env Ho|o env Ho|o env Ho|o env n Ho|env n|o env n Ho|o i env Ho|o i env Ho].
  - unfold vms_vtab_begin. destruct (txn_pin_shared o env) as [[env1 oc] e1] eqn:Ep.
    by destruct (pin_shared_ok strict _ _ _ _ _ Henv (HP _ _ Ho) Ep).
  - unfold vms_vtab_commit. destruct (txn_cn env) as [c|] eqn:Ec; [|done].
    destruct (job_txn_finalize o false c) as [[c1 res] e1] eqn:Ef. by eapply finalize_env_ok.
  - unfold vms_vtab_rollback. destruct (txn_cn env) as [c|] eqn:Ec; [|done].
    destruct (job_txn_finalize o true c) as [[c1 res] e1] eqn:Ef. by eapply finalize_env_ok.
  - apply savepoint_env_ok; [done|by eapply HP].
  - destruct Henv as (H1 & H2 & H3). split; [exact H1|split; [exact H2|by apply zlen_take_le]].
  - by apply rollback_to_env_ok.
  - destruct (txn_ctx o i env) as [env1 oc] eqn:Ex. by destruct (ctx_env_ok strict _ _ _ _ _ Henv Hw Ex).
  - by apply write_env_ok.
Qed.

Definition any_answer (o : Odbc) (_ : VmsVtabEnv) : Prop := raced_ok false o.


(** ** Writes inside the transaction *)

(** Answers of a driver that can start transactions and whose connections get
    fresh addresses. *)
Definition healthy (o : Odbc) (env : VmsVtabEnv) : Prop :=
  raced_ok true o /\ o_raced o = None /\ (exists tc, o_trancount o = Some tc) /\ o_begin o = true /\
  dml_txn env <> Some (o_addr o).

(** A write context made for the current connection implies an open
    transaction. *)
Definition ctx_ok (env : VmsVtabEnv) : Prop :=
  forall c, txn_cn env = Some c -> dml_txn env = Some (addr c) -> txn_active c = true.

Lemma begin_lazy_healthy o env c c' ok e :
  healthy o env -> conn_ok true c -> job_txn_begin_lazy o c = (c', ok, e) -> ok = true.
Proof.
  intros (_ & _ & (tc & Ht) & Hb & _) [Hp _]. unfold job_txn_begin_lazy. destruct (txn_active c); [by intros [= <- <- <-]|].
  rewrite Hp, Ht, Hb. cbn [negb]. destruct (tc >? 0); by intros [= <- <- <-].
Qed.

Lemma pin_shared_ctx o env env' oc e :
  healthy o env -> ctx_ok env -> txn_pin_shared o env = (env', oc, e) -> ctx_ok env'.
Proof.
  intros (_ & Hra & _ & _ & Hfr) Hctx. unfold txn_pin_shared. destruct (txn_cn env) as [c|] eqn:Ec; [by intros [= <- <- <-]|].
  destruct (o_open o); [by intros [= <- <- <-]|].
  destruct (job_txn_pin o (conn_new (o_addr o))) as [[c ok] e0] eqn:Ep. destruct ok; cbn [negb].
  - rewrite Hra. intros [= <- <- <-]. intros c0 [= <-] Hd. simpl in Hd.
    destruct (pin_ok true _ _ _ _ Ep) as (_ & _ & Ha). rewrite Ha in Hd. done.
  - intros [= <- <- <-]. intros c0. simpl. by rewrite Ec.
Qed.

Lemma txn_ctx_ctx o i env env' oc :
  healthy o env -> env_ok true env -> ctx_ok env -> txn_ctx o i env = (env', oc) -> ctx_ok env'.
Proof.
  intros Ho Henv Hctx. unfold txn_ctx. destruct (txn_cn env) as [c|] eqn:Ec; [|by intros [= <- <-]].
  destruct (bool_decide _); [by intros [= <- <-]|]. destruct i; cbn [negb]; [|by intros [= <- <-] c0 _].
  destruct (job_txn_begin_lazy o c) as [[c1 ok1] e1] eqn:Eb. intros [= <- <-].
  pose proof (begin_lazy_healthy _ _ _ _ _ _ Ho (proj1 Henv _ Ec) Eb) as ->.
  destruct (begin_lazy_ok true _ _ _ _ _ (proj1 Henv _ Ec) Eb) as (_ & _ & Hact).
  intros c0 [= <-] _. by apply Hact.
Qed.

Lemma hook_ctx_ok env env' : env_ok true env -> ctx_ok env -> hook_step healthy env env' -> ctx_ok env'.
Proof.
  intros Henv Hctx Hst. destruct Hst as [o env Ho|o env Ho|o env Ho|o env n Ho|env n|o env n Ho|o i env Ho|o i env Ho].
  - unfold vms_vtab_begin. destruct (txn_pin_shared o env) as [[env1 oc] e1] eqn:Ep. by eapply pin_shared_ctx.
  - unfold vms_vtab_commit. destruct (txn_cn env) as [c|] eqn:Ec; [|done]. destruct (job_txn_finalize _ _ _) as [[c1 res] e1]. done.
  - unfold vms_vtab_rollback. destruct (txn_cn env) as [c|] eqn:Ec; [|done]. destruct (job_txn_finalize _ _ _) as [[c1 res] e1]. done.
  - unfold vms_vtab_savepoint. destruct (txn_pin_shared o env) as [[env1 oc] e1] eqn:Ep.
    pose proof (pin_shared_ctx _ _ _ _ _ Ho Hctx Ep) as Hctx1.
    destruct (pin_shared_ok true _ _ _ _ _ Henv (proj1 Ho) Ep) as (Henv1 & _ & _ & Hoc).
    destruct oc as [c|]; [|done]. destruct (job_txn_begin_lazy o c) as [[c1 ok1] e2] eqn:Eb.
    pose proof (begin_lazy_healthy _ _ _ _ _ _ Ho (proj1 Henv1 _ Hoc) Eb) as ->. cbn [negb].
    destruct (begin_lazy_ok true _ _ _ _ _ (proj1 Henv1 _ Hoc) Eb) as (Hc1 & _ & Hact).
    destruct (vms_txn_savepoint o c1 (sv_name n) false) as [[c2 ok2] e3] eqn:Es.
    destruct (savepoint_ok true _ _ _ _ _ _ _ Hc1 (fun _ => Hact eq_refl) Es) as (_ & _ & Ha2).
    destruct ok2; cbn [negb]; intros c0 [= <-] _; rewrite Ha2; by apply Hact.
  - done.
  - unfold vms_vtab_rollback_to. destruct (txn_cn env) as [c|] eqn:Ec; [|done].
    destruct (vms_txn_savepoint o c (sv_name n) true) as [[c2 ok2] e3] eqn:Es.
    destruct (savepoint_ok true o c (sv_name n) true c2 ok2 e3 (proj1 Henv _ Ec) ltac:(discriminate) Es) as (_ & Had & Ha2).
    destruct ok2; cbn [negb]; intros c0 [= <-] Hd; rewrite Ha2; apply (Hctx c Ec); by rewrite <- Had.
  - destruct (txn_ctx o i env) as [env1 oc] eqn:Ex. by eapply txn_ctx_ctx.
  - unfold txn_write. destruct (txn_ctx o i env) as [env1 oc] eqn:Ex.
    pose proof (txn_ctx_ctx _ _ _ _ _ Ho Henv Hctx Ex) as Hctx1.
    destruct (ctx_env_ok true _ _ _ _ _ Henv (fun _ => Hctx) Ex) as [Henv1 Hoc]. destruct oc as [c|]; [|done].
    destruct (Hoc c eq_refl) as [Ec Ha]. destruct (job_dml o c) as [[c1 ok1] e1] eqn:Ej.
    destruct (dml_ok true _ _ _ _ _ (proj1 Henv1 _ Ec) (fun _ => Ha eq_refl) Ej) as (_ & Had & Ha1).
    intros c0 [= <-] _. rewrite Ha1. by apply Ha.
Qed.


(** ** Finalization *)


(** After xCommit or xRollback, whatever its result, no connection is
    pinned and no savepoint is recorded, and a connection that was pinned has
    been closed rather than returned; xCommit succeeds only if the driver
    committed. *)
Theorem txn_end_unpins o env :
  (txn_cn (fst (vms_vtab_commit o env)) = None /\ txn_cn (fst (vms_vtab_rollback o env)) = None) /\
  (forall c, txn_cn env = Some c ->
     (exists c', closed (fst (vms_vtab_commit o env)) = c' :: closed env /\ addr c' = addr c /\
                 wires c' = wires c ++ [WEndTran false]) /\
     sv_names (fst (vms_vtab_commit o env)) = [] /\
     (snd (vms_vtab_commit o env) = SQLITE_OK <-> o_endtran o = None)).
Proof.
  assert (Ha : forall rb c, addr (fst (fst (job_txn_finalize o rb c))) = addr c /\
    wires (fst (fst (job_txn_finalize o rb c))) = wires c ++ [WEndTran rb] /\
    (snd (fst (job_txn_finalize o rb c)) = TXN_OK <-> o_endtran o = None)).
  { intros rb c. unfold job_txn_finalize. destruct (o_endtran o) as [d|]; [|done].
    destruct (diag_capture d _) as [[cl q] e]. destruct (q || _ || _); [done|].
    destruct (bool_decide _); [by destruct (txn_active c)|]. by destruct (_ && _). }
  split.
  - unfold vms_vtab_commit, vms_vtab_rollback. destruct (txn_cn env) as [c|] eqn:Ec; [|done].
    destruct (job_txn_finalize o false c) as [[c1 r1] e1], (job_txn_finalize o true c) as [[c2 r2] e2]. done.
  - intros c Ec. unfold vms_vtab_commit. rewrite Ec. specialize (Ha false c).
    destruct (job_txn_finalize o false c) as [[c1 r1] e1]. cbn [fst snd] in *. destruct Ha as (H1 & H2 & H3).
    split_and!; [by exists c1|done|]. rewrite <- H3. by destruct r1.
Qed.

(** ** Concrete runs *)

Definition demo_odbc : Odbc := mkOdbc None 100 None None None (Some 0) true true None true None (Some 1) None None.

Definition demo_begin : VmsVtabEnv := fst (vms_vtab_begin demo_odbc env_init).
Definition demo_save : VmsVtabEnv := fst (vms_vtab_savepoint demo_odbc demo_begin 0).
Definition demo_write : VmsVtabEnv := fst (txn_write demo_odbc true demo_save).
Definition demo_commit : VmsVtabEnv := fst (vms_vtab_commit demo_odbc demo_write).

Lemma demo_run P :
  P demo_odbc env_init -> P demo_odbc demo_begin -> P demo_odbc demo_save -> P demo_odbc demo_write ->
  reachable P demo_commit.
Proof.
  intros H0 H1 H2 H3. eapply rtc_l; [exact (st_begin P demo_odbc env_init H0)|].
  eapply rtc_l; [exact (st_savepoint P demo_odbc demo_begin 0 H1)|].
  eapply rtc_l; [exact (st_write P demo_odbc true demo_save H2)|].
  eapply rtc_l; [exact (st_commit P demo_odbc demo_write H3)|]. apply rtc_refl.
Qed.


(** The run without the savepoint: the first write begins the transaction. *)
Lemma demo_healthy : healthy demo_odbc env_init /\ healthy demo_odbc demo_begin.
Proof. split; (split; [intros c Hc; discriminate Hc|split_and!; [done|by exists 0|done|done]]). Qed.


(** A transaction in which nothing was written cannot be committed: the
    validation hook reports it as lost. *)
Example empty_transaction_refused :
  vms_vtab_sync demo_odbc demo_begin =
  (SQLITE_ERROR, Some (str "virtualmssql: transaction lost on the remote connection")).
Proof. vm_compute. reflexivity. Qed.

(** After a refused BEGIN the write context stays bound to the connection:
    the next write is sent outside any transaction. *)
Example write_after_failed_begin :
  let bad := mkOdbc None 100 None None None (Some 0) false true None true None (Some 1) None None in
  let env := fst (txn_write bad true demo_begin) in
  let '(env', r) := txn_write demo_odbc true env in
  r = SQLITE_OK /\ (wires <$> txn_cn env') = Some [WBeginFailed; WStmt].
Proof. vm_compute. split; reflexivity. Qed.

(** A commit that timed out with its transaction still open is closed all the
    same. *)
Example busy_commit_closes :
  let late := mkOdbc None 100 None None None (Some 0) true true None true None (Some 1)
                     (Some (mkDiag (str "HYT00") 0 [])) None in
  let '(env', r) := vms_vtab_commit late demo_write in
  r = SQLITE_BUSY /\ txn_cn env' = None /\ map txn_active (closed env') = [true].
Proof. vm_compute. split_and!; reflexivity. Qed.
