(* ===== verification/Pool.v ===== *)
(** * Connection pool (src/src/vms_pool.c)

    The sequential operations as functions, and the same operations cut at
    their critical sections as a step relation over all threads, with the
    accounting invariant. *)

From stdpp Require Import relations.
From S2P Require Import Prelude.

(** Connections are identified by their handles. *)
Definition cid : Type := Z.

Record VmsPool := mkPool {
  capacity : Z;
  idle_count : Z;
  live_count : Z;
  idle : list cid
}.

Definition vms_pool_create (cap : Z) (alloc_ok client_ok : bool) : option VmsPool :=
  if cap <? 1 then None else if negb alloc_ok then None else if negb client_ok then None
  else Some (mkPool cap 0 0 []).

(** The connections closed on destruction. *)
Definition vms_pool_destroy (p : VmsPool) : list cid := idle p.

(** [verify] is the clean-state check, [fresh] the outcome of building the
    connection string and connecting.  The result is the connection and the
    connections closed on the way. *)
Definition vms_pool_acquire (verify : cid -> bool) (fresh : option cid) (p : VmsPool) :
    VmsPool * option cid * list cid :=
  let open_fresh p cl :=
    match fresh with
    | Some c => (mkPool (capacity p) (idle_count p) (live_count p + 1) (idle p), Some c, cl)
    | None => (p, None, cl)
    end in
  match idle p with
  | c :: rest =>
      let p := mkPool (capacity p) (idle_count p - 1) (live_count p) rest in
      if verify c then (p, Some c, [])
      else open_fresh (mkPool (capacity p) (idle_count p) (live_count p - 1) (idle p)) [c]
  | [] => open_fresh p []
  end.

Definition vms_pool_release (verify : cid -> bool) (slot_ok : bool) (p : VmsPool) (c : cid) : VmsPool * list cid :=
  if verify c && (idle_count p <? capacity p) && slot_ok then
    (mkPool (capacity p) (idle_count p + 1) (live_count p) (c :: idle p), [])
  else (mkPool (capacity p) (idle_count p) (live_count p - 1) (idle p), [c]).

(** ** Interleavings

    A thread inside an operation is at one of these points; the critical
    sections and the unlocked calls between them are the steps. *)

Inductive pc : Type :=
| AcqVerify (c : cid)   (* took an idle connection, checking it *)
| AcqDec                (* closed it, has to decrement the live count *)
| AcqOpen               (* about to connect *)
| AcqInc (c : cid)      (* connected, has to increment the live count *)
| RelVerify (c : cid)   (* checking a returned connection *)
| RelDec.               (* closed it, has to decrement the live count *)

(** The pool, the threads inside operations, the connections callers hold
    and those that were closed. *)
Record world := mkWorld { pool : VmsPool; pcs : list pc; held : list cid; dead : list cid }.

Definition pop_idle (p : VmsPool) (rest : list cid) : VmsPool := mkPool (capacity p) (idle_count p - 1) (live_count p) rest.
Definition push_idle (p : VmsPool) (c : cid) : VmsPool := mkPool (capacity p) (idle_count p + 1) (live_count p) (c :: idle p).
Definition add_live (p : VmsPool) (d : Z) : VmsPool := mkPool (capacity p) (idle_count p) (live_count p + d) (idle p).

Definition pc_conns (x : pc) : list cid :=
  match x with AcqVerify c | AcqInc c | RelVerify c => [c] | _ => [] end.

Definition all_conns (w : world) : list cid := idle (pool w) ++ held w ++ flat_map pc_conns (pcs w) ++ dead w.

Inductive pool_step : world -> world -> Prop :=
| acq_take p ps h d c rest :
    idle p = c :: rest -> pool_step (mkWorld p ps h d) (mkWorld (pop_idle p rest) (AcqVerify c :: ps) h d)
| acq_none p ps h d :
    idle p = [] -> pool_step (mkWorld p ps h d) (mkWorld p (AcqOpen :: ps) h d)
| acq_clean p ps qs h d c :
    ps ≡ₚ AcqVerify c :: qs -> pool_step (mkWorld p ps h d) (mkWorld p qs (c :: h) d)
| acq_dirty p ps qs h d c :
    ps ≡ₚ AcqVerify c :: qs -> pool_step (mkWorld p ps h d) (mkWorld p (AcqDec :: qs) h (c :: d))
| acq_dec p ps qs h d :
    ps ≡ₚ AcqDec :: qs -> pool_step (mkWorld p ps h d) (mkWorld (add_live p (-1)) (AcqOpen :: qs) h d)
| acq_fail p ps qs h d :
    ps ≡ₚ AcqOpen :: qs -> pool_step (mkWorld p ps h d) (mkWorld p qs h d)
| acq_open p ps qs h d c :
    ps ≡ₚ AcqOpen :: qs -> c ∉ all_conns (mkWorld p ps h d) ->
    pool_step (mkWorld p ps h d) (mkWorld p (AcqInc c :: qs) h d)
| acq_inc p ps qs h d c :
    ps ≡ₚ AcqInc c :: qs -> pool_step (mkWorld p ps h d) (mkWorld (add_live p 1) qs (c :: h) d)
| rel_start p ps h h' d c :
    h ≡ₚ c :: h' -> pool_step (mkWorld p ps h d) (mkWorld p (RelVerify c :: ps) h' d)
| rel_keep p ps qs h d c :
    ps ≡ₚ RelVerify c :: qs -> idle_count p < capacity p ->
    pool_step (mkWorld p ps h d) (mkWorld (push_idle p c) qs h d)
| rel_close p ps qs h d c :
    ps ≡ₚ RelVerify c :: qs -> pool_step (mkWorld p ps h d) (mkWorld p (RelDec :: qs) h (c :: d))
| rel_dec p ps qs h d :
    ps ≡ₚ RelDec :: qs -> pool_step (mkWorld p ps h d) (mkWorld (add_live p (-1)) qs h d).

(** The contribution of a thread to the live count. *)
Definition weight (x : pc) : Z :=
  match x with AcqVerify _ | AcqDec | RelVerify _ | RelDec => 1 | AcqOpen | AcqInc _ => 0 end.

Definition weights (ps : list pc) : Z := foldr (fun x n => weight x + n) 0 ps.

Record pool_inv (w : world) : Prop := {
  pi_idle : idle_count (pool w) = zlen (idle (pool w));
  pi_cap : idle_count (pool w) <= capacity (pool w);
  pi_live : live_count (pool w) = zlen (idle (pool w)) + zlen (held w) + weights (pcs w);
  pi_owner : NoDup (all_conns w)
}.

Lemma weights_cons x ps : weights (x :: ps) = weight x + weights ps.
Proof. done. Qed.

Lemma weights_perm ps qs : ps ≡ₚ qs -> weights ps = weights qs.
Proof. induction 1; simpl; lia. Qed.

Lemma conns_perm ps qs : ps ≡ₚ qs -> flat_map pc_conns ps ≡ₚ flat_map pc_conns qs.
Proof.
  induction 1; simpl; [done|by rewrite IHPermutation| |by etransitivity].
  rewrite !app_assoc. by rewrite (Permutation_app_comm (pc_conns y)).
Qed.

(** Each step only moves connections between the places that own them. *)
Lemma step_conns w w' : pool_step w w' ->
  (all_conns w' ≡ₚ all_conns w) \/ (exists c, (c ∉ all_conns w) /\ (all_conns w' ≡ₚ (c :: all_conns w))).
Proof.
  unfold all_conns. intros Hst.
  destruct Hst as [p ps h d c rest Hi|p ps h d Hi|p ps qs h d c Hp|p ps qs h d c Hp|p ps qs h d Hp
    |p ps qs h d Hp|p ps qs h d c Hp Hf|p ps qs h d c Hp|p ps h h' d c Hh|p ps qs h d c Hp Hlt|p ps qs h d c Hp|p ps qs h d Hp];
    cbn [pool pcs held dead pop_idle push_idle add_live idle flat_map pc_conns app] in *;
    try (apply conns_perm in Hp; cbn [flat_map pc_conns app] in Hp).
  7: { right. exists c. split; [exact Hf|]. rewrite Hp. solve_Permutation. }
  all: left; try rewrite Hi; try rewrite Hp; try rewrite Hh; solve_Permutation.
Qed.

Lemma pool_step_inv w w' : pool_inv w -> pool_step w w' -> pool_inv w'.
Proof.
  intros [Hi Hc Hl Ho] Hst. split; cycle 3.
  { destruct (step_conns w w' Hst) as [->|(c & Hc' & ->)]; [done|]. by apply NoDup_cons. }
  all: destruct Hst as [p ps h d c rest Hid|p ps h d Hid|p ps qs h d c Hp|p ps qs h d c Hp|p ps qs h d Hp
    |p ps qs h d Hp|p ps qs h d c Hp Hf|p ps qs h d c Hp|p ps h h' d c Hh|p ps qs h d c Hp Hlt|p ps qs h d c Hp|p ps qs h d Hp];
    cbn [pool pcs held dead pop_idle push_idle add_live idle idle_count live_count capacity] in *;
    try (apply weights_perm in Hp); try (apply Permutation_length in Hh);
    rewrite ?weights_cons in *; cbn [weight] in *;
    try match type of Hid with ?a = _ => apply (f_equal length) in Hid end;
    unfold zlen in *; cbn [length] in *; lia.
Qed.

Definition world_init (p : VmsPool) : world := mkWorld p [] [] [].

(** [C32]: in every interleaving of acquisitions and releases by any number of
    threads, the idle count equals the length of the idle list and never
    exceeds the capacity, every connection has exactly one owner (the idle
    list, one thread, one caller, or closed), and the live count equals the
    idle, lent and in-flight connections; when no thread is inside an
    operation it is exactly the number of open connections. *)
Theorem pool_accounting cap p w :
  vms_pool_create cap true true = Some p -> rtc pool_step (world_init p) w ->
  pool_inv w /\ (pcs w = [] -> live_count (pool w) = zlen (idle (pool w)) + zlen (held w)).
Proof.
  intros Hcr Hr. assert (Hinv : pool_inv w).
  { revert Hr. apply (rtc_ind_r pool_inv); [|intros; by eapply pool_step_inv].
    unfold vms_pool_create in Hcr. destruct (cap <? 1) eqn:E; [done|]. injection Hcr as <-.
    split; simpl; [done|blia|done|constructor]. }
  split; [done|]. intros Hp. destruct Hinv as [_ _ Hl _]. rewrite Hl, Hp. simpl. lia.
Qed.

(** ** The operations are sequences of steps *)

Lemma acquire_steps verify fresh p h d p' oc cl :
  (forall c, fresh = Some c -> c ∉ all_conns (mkWorld p [] h d)) ->
  vms_pool_acquire verify fresh p = (p', oc, cl) ->
  rtc pool_step (mkWorld p [] h d) (mkWorld p' [] (match oc with Some c => c :: h | None => h end) (cl ++ d)).
Proof.
  intros Hfr. unfold vms_pool_acquire.
  assert (Hopen : forall q e d', (forall c, fresh = Some c -> c ∉ all_conns (mkWorld q [AcqOpen] h d')) ->
    (match fresh with
     | Some c => (mkPool (capacity q) (idle_count q) (live_count q + 1) (idle q), Some c, e)
     | None => (q, None, e) end) = (p', oc, cl) ->
    e = cl /\ rtc pool_step (mkWorld q [AcqOpen] h d') (mkWorld p' [] (match oc with Some c => c :: h | None => h end) d')).
  { intros q e d' Hq. destruct fresh as [c|]; intros [= <- <- <-]; (split; [done|]).
    - eapply rtc_l; [apply (acq_open q [AcqOpen] [] h d' c); [done|by apply Hq]|].
      eapply rtc_l; [by apply (acq_inc q [AcqInc c] [] h d' c)|]. apply rtc_refl.
    - eapply rtc_l; [by apply (acq_fail q [AcqOpen] [] h d')|]. apply rtc_refl. }
  destruct (idle p) as [|c rest] eqn:Ei.
  - intros Hr. destruct (Hopen p [] d) as [<- Hst]; [|by rewrite Ei|].
    { intros c Hc. specialize (Hfr c Hc). unfold all_conns in *. simpl in *. done. }
    eapply rtc_l; [by apply acq_none|exact Hst].
  - destruct (verify c); [intros [= <- <- <-]|intros Hr].
    + eapply rtc_l; [by apply (acq_take p [] h d c rest)|].
      eapply rtc_l; [by apply (acq_clean _ [AcqVerify c] [] h d c)|]. apply rtc_refl.
    + destruct (Hopen (mkPool (capacity p) (idle_count p - 1) (live_count p - 1) rest) [c] (c :: d)) as [<- Hst]; [|exact Hr|].
      { intros c' Hc'. specialize (Hfr c' Hc'). unfold all_conns in *. simpl in *. rewrite Ei in Hfr.
        rewrite !not_elem_of_app, !not_elem_of_cons in *. tauto. }
      eapply rtc_l; [by apply (acq_take p [] h d c rest)|].
      eapply rtc_l; [by apply (acq_dirty _ [AcqVerify c] [] h d c)|].
      eapply rtc_l; [by apply (acq_dec _ [AcqDec] [] h (c :: d))|]. exact Hst.
Qed.

Lemma release_steps verify slot_ok p h d c p' cl :
  vms_pool_release verify slot_ok p c = (p', cl) ->
  rtc pool_step (mkWorld p [] (c :: h) d) (mkWorld p' [] h (cl ++ d)).
Proof.
  unfold vms_pool_release. destruct (verify c && _ && slot_ok) eqn:E; intros [= <- <-].
  - b2p. eapply rtc_l; [by apply (rel_start p [] (c :: h) h d c)|].
    eapply rtc_l; [by apply (rel_keep p [RelVerify c] [] h d c)|]. apply rtc_refl.
  - eapply rtc_l; [by apply (rel_start p [] (c :: h) h d c)|].
    eapply rtc_l; [by apply (rel_close p [RelVerify c] [] h d c)|].
    eapply rtc_l; [by apply (rel_dec p [RelDec] [] h (c :: d))|]. apply rtc_refl.
Qed.

(** [C33]: run without interruption, the two operations of the code are runs
    of the interleaved model: an acquisition adds the connection it returns to
    those callers hold, a release takes it away, and the connections closed on
    the way are recorded. *)
Theorem pool_operations_refine verify fresh slot_ok p h d c :
  (forall c, fresh = Some c -> c ∉ all_conns (mkWorld p [] h d)) ->
  (let '(p', oc, cl) := vms_pool_acquire verify fresh p in
   rtc pool_step (mkWorld p [] h d) (mkWorld p' [] (match oc with Some c => c :: h | None => h end) (cl ++ d))) /\
  (let '(p', cl) := vms_pool_release verify slot_ok p c in
   rtc pool_step (mkWorld p [] (c :: h) d) (mkWorld p' [] h (cl ++ d))).
Proof.
  intros Hfr. split.
  - destruct (vms_pool_acquire verify fresh p) as [[p' oc] cl] eqn:E. by eapply acquire_steps.
  - destruct (vms_pool_release verify slot_ok p c) as [p' cl] eqn:E. by eapply release_steps.
Qed.

Lemma pool_operations_refine_witness :
  rtc pool_step (mkWorld (mkPool 4 1 1 [7]) [] [] []) (mkWorld (mkPool 4 0 0 []) [] [] [7]).
Proof.
  destruct (pool_operations_refine (fun _ => false) None true (mkPool 4 1 1 [7]) [] [] 0) as [Ha _]; [done|exact Ha].
Defined.

Lemma pool_accounting_witness :
  let w := mkWorld (mkPool 4 0 1 []) [] [7] [] in
  rtc pool_step (world_init (mkPool 4 0 0 [])) w /\ live_count (pool w) = zlen (idle (pool w)) + zlen (held w).
Proof.
  assert (Hr : rtc pool_step (world_init (mkPool 4 0 0 [])) (mkWorld (mkPool 4 0 1 []) [] [7] [])).
  { eapply rtc_l; [by apply acq_none|]. eapply rtc_l; [apply (acq_open _ [AcqOpen] [] [] [] 7); [done|apply not_elem_of_nil]|].
    eapply rtc_l; [by apply (acq_inc _ [AcqInc 7] [] [] [] 7)|]. apply rtc_refl. }
  split; [exact Hr|].
  destruct (pool_accounting 4 (mkPool 4 0 0 []) _ eq_refl Hr) as [_ Hl]. apply Hl. reflexivity.
Defined.

(** A connection handed to a write context is closed directly when its table
    is disconnected: the live count keeps counting it. *)
Example direct_close_leaks :
  let '(p, oc, _) := vms_pool_acquire (fun _ => true) (Some 7) (mkPool 4 0 0 []) in
  oc = Some 7 /\ live_count p = 1 /\ idle p = [].
Proof. split_and!; reflexivity. Qed.
