(* ===== verification/Worker.v ===== *)
(** * Connection worker (src/src/vms_odbc_worker.c)

    One worker thread runs the jobs of a connection.  Client threads push a
    job and wait for its completion on a condition variable
    ([vms_worker_run]), or push it and poll its flag later
    ([vms_worker_post], [vms_job_wait]); [vms_worker_stop] asks the thread to
    leave, joins it and frees the worker.

    The steps are the critical sections and the wake-ups between them.  Waking
    a condition variable wakes one sleeper, which one is not determined;
    wake-ups without a cause are not modelled.  The function of a job is
    assumed to return: the step that ends it is always possible. *)

From stdpp Require Import relations.
From S2P Require Import Prelude.

(** A job, and the client thread that waits for it. *)
Definition jid : Type := nat.

(** Where the worker thread stands in [worker_main]. *)
Inductive wthread :=
| WTest                       (* about to test the queue under the lock *)
| WSleep                      (* asleep on cv_push *)
| WRun (j : jid)              (* in_job *)
| WExit.                      (* left the loop *)

(** Where the caller of [vms_worker_stop] stands. *)
Inductive stopper :=
| NotStopping
| StopSet                     (* stopping = 1, cv_push not yet woken *)
| StopJoin                    (* WaitForSingleObject *)
| Freed.                      (* the worker's memory is released *)

#[global] Instance wthread_eq_dec : EqDecision wthread.
Proof. solve_decision. Defined.
#[global] Instance stopper_eq_dec : EqDecision stopper.
Proof. solve_decision. Defined.

Record VmsWorker := mkWorker {
  queue : list jid;           (* head to tail *)
  thread : wthread;
  stop : stopper;
  done_jobs : list jid;       (* jobs whose done flag is set, in order *)
  waking : list (bool * jid); (* pushed, cv_push not yet woken; true: posted *)
  awake : list jid;           (* clients about to test their done flag *)
  asleep : list jid;          (* clients sleeping on cv_done *)
  polling : list jid;         (* posted jobs whose owner has to poll *)
  returned : list jid;        (* clients whose call returned *)
  pushed : list jid;          (* jobs in the order they were pushed *)
  skipped : list jid          (* calls that returned for want of memory *)
}.

Definition stopping (w : VmsWorker) : bool := bool_decide (stop w <> NotStopping).

Definition running (w : VmsWorker) : option jid :=
  match thread w with WRun j => Some j | _ => None end.

(** The thread starts in front of its first test. *)
Definition worker_start : VmsWorker := mkWorker [] WTest NotStopping [] [] [] [] [] [] [] [].

(** The critical section of [worker_push]; the caller still has to wake
    cv_push. *)
Definition worker_push (w : VmsWorker) (posted : bool) (j : jid) : VmsWorker :=
  mkWorker (queue w ++ [j]) (thread w) (stop w) (done_jobs w) ((posted, j) :: waking w)
           (awake w) (asleep w) (polling w) (returned w) (pushed w ++ [j]) (skipped w).

(** [vms_worker_run] up to its wait: without memory for the job it returns at
    once and the function is never called. *)
Definition vms_worker_run (alloc : bool) (w : VmsWorker) (j : jid) : VmsWorker :=
  if alloc then worker_push w false j
  else mkWorker (queue w) (thread w) (stop w) (done_jobs w) (waking w)
         (awake w) (asleep w) (polling w) (returned w) (pushed w) (j :: skipped w).

(** [vms_worker_post]: the caller learns of a failed allocation. *)
Definition vms_worker_post (alloc : bool) (w : VmsWorker) (j : jid) : option VmsWorker :=
  if alloc then Some (worker_push w true j) else None.

(** WakeConditionVariable on cv_push. *)
Definition wake_push (t : wthread) : wthread :=
  match t with WSleep => WTest | _ => t end.

(** The client [(posted, j)] wakes cv_push and goes on to its wait. *)
Definition client_wake (w : VmsWorker) (posted : bool) (j : jid) (rest : list (bool * jid)) : VmsWorker :=
  mkWorker (queue w) (wake_push (thread w)) (stop w) (done_jobs w) rest
           (if posted then awake w else j :: awake w) (asleep w)
           (if posted then j :: polling w else polling w) (returned w) (pushed w) (skipped w).

(** The critical section at the head of the loop of [worker_main]: take a job,
    leave when stopping, or sleep. *)
Definition worker_take (w : VmsWorker) : option VmsWorker :=
  match thread w with
  | WTest =>
      let '(q, t) := match queue w with
                     | j :: q => (q, WRun j)
                     | [] => ([], if stopping w then WExit else WSleep)
                     end in
      Some (mkWorker q t (stop w) (done_jobs w) (waking w) (awake w) (asleep w) (polling w)
                     (returned w) (pushed w) (skipped w))
  | _ => None
  end.

(** The job's function has returned: its flag is set and the sleeper [k], if
    there is one, is woken. *)
Definition worker_finish (w : VmsWorker) (j : jid) (woken : option jid) (rest : list jid) : VmsWorker :=
  mkWorker (queue w) WTest (stop w) (done_jobs w ++ [j]) (waking w)
           (option_list woken ++ awake w) rest (polling w) (returned w) (pushed w) (skipped w).

(** The wait loop of [vms_worker_run]: test the flag, sleep or return. *)
Definition wait_check (w : VmsWorker) (j : jid) (rest : list jid) : VmsWorker :=
  if bool_decide (j ∈ done_jobs w) then
    mkWorker (queue w) (thread w) (stop w) (done_jobs w) (waking w) rest (asleep w) (polling w)
             (j :: returned w) (pushed w) (skipped w)
  else mkWorker (queue w) (thread w) (stop w) (done_jobs w) (waking w) rest (j :: asleep w) (polling w)
             (returned w) (pushed w) (skipped w).

(** [vms_job_wait]: the poll that finds the flag set. *)
Definition vms_job_wait (w : VmsWorker) (j : jid) (rest : list jid) : option VmsWorker :=
  if bool_decide (j ∈ done_jobs w) then
    Some (mkWorker (queue w) (thread w) (stop w) (done_jobs w) (waking w) (awake w) (asleep w) rest
                   (j :: returned w) (pushed w) (skipped w))
  else None.

(** [vms_worker_stop]: set the flag; wake the thread; join it and release the
    worker. *)
Definition vms_worker_stop (w : VmsWorker) : option VmsWorker :=
  let next t s := Some (mkWorker (queue w) t s (done_jobs w) (waking w) (awake w) (asleep w) (polling w)
                                 (returned w) (pushed w) (skipped w)) in
  match stop w with
  | NotStopping => next (thread w) StopSet
  | StopSet => next (wake_push (thread w)) StopJoin
  | StopJoin => if bool_decide (thread w = WExit) then next (thread w) Freed else None
  | Freed => None
  end.

(** Steps of calls already made and of the worker thread. *)
Inductive worker_progress : VmsWorker -> VmsWorker -> Prop :=
| wp_wake w posted j rest :
    waking w ≡ₚ (posted, j) :: rest -> worker_progress w (client_wake w posted j rest)
| wp_take w w' : worker_take w = Some w' -> worker_progress w w'
| wp_finish_wake w j k rest :
    thread w = WRun j -> asleep w ≡ₚ k :: rest -> worker_progress w (worker_finish w j (Some k) rest)
| wp_finish_none w j :
    thread w = WRun j -> asleep w = [] -> worker_progress w (worker_finish w j None [])
| wp_check w j rest :
    awake w ≡ₚ j :: rest -> worker_progress w (wait_check w j rest)
| wp_poll w j rest w' :
    polling w ≡ₚ j :: rest -> vms_job_wait w j rest = Some w' -> worker_progress w w'
| wp_stop w w' :
    stop w <> NotStopping -> vms_worker_stop w = Some w' -> worker_progress w w'.

(** No client is inside a call on the worker. *)
Definition idle (w : VmsWorker) : Prop :=
  waking w = [] /\ awake w = [] /\ asleep w = [] /\ polling w = [].

(** New calls come before the worker is stopped; with [single] one thread at a
    time makes calls, and the last of them stops the worker. *)
Inductive worker_step (single : bool) : VmsWorker -> VmsWorker -> Prop :=
| ws_run w alloc j :
    j ∉ pushed w -> stop w = NotStopping -> (single = true -> idle w) ->
    worker_step single w (vms_worker_run alloc w j)
| ws_post w w' j alloc :
    j ∉ pushed w -> stop w = NotStopping -> (single = true -> idle w) ->
    vms_worker_post alloc w j = Some w' -> worker_step single w w'
| ws_stop w w' :
    stop w = NotStopping -> (single = true -> idle w) ->
    vms_worker_stop w = Some w' -> worker_step single w w'
| ws_progress w w' : worker_progress w w' -> worker_step single w w'.

(** ** Order *)

Definition clients (w : VmsWorker) : list jid :=
  (waking w).*2 ++ awake w ++ asleep w ++ polling w ++ returned w.

Record worker_inv (w : VmsWorker) : Prop := mkInv {
  inv_order : pushed w = done_jobs w ++ option_list (running w) ++ queue w;
  inv_once : NoDup (pushed w);
  inv_clients : clients w ≡ₚ pushed w;
  inv_returned : forall j, j ∈ returned w -> j ∈ done_jobs w;
  inv_sleep : thread w = WSleep ->
    (forall j, j ∈ queue w -> j ∈ (waking w).*2) /\ (stopping w = true -> stop w = StopSet);
  inv_exit : thread w = WExit -> stopping w = true /\ queue w = [];
  inv_freed : stop w = Freed -> thread w = WExit
}.

Lemma worker_push_inv w posted j :
  j ∉ pushed w -> stop w = NotStopping -> worker_inv w -> worker_inv (worker_push w posted j).
Proof.
  intros Hj Hs [Ho Hn Hc Hr Hsl He Hf].
  assert (Hst : stopping w = false) by (unfold stopping; rewrite Hs; reflexivity).
  constructor; cbn -[stopping].
  - rewrite Ho, <- !app_assoc. done.
  - apply NoDup_app. split_and!; [done| |apply NoDup_singleton]. by intros x Hx ->%list_elem_of_singleton.
  - unfold clients. cbn. rewrite <- Hc. unfold clients. solve_Permutation.
  - done.
  - intros Ht. destruct (Hsl Ht) as [Hq _]. split; [|unfold stopping; cbn; by rewrite Hs].
    intros x [Hx| ->%list_elem_of_singleton]%elem_of_app; [right; by apply Hq|left].
  - intros Ht. by destruct (He Ht) as [? _]; congruence.
  - by rewrite Hs.
Qed.

Lemma stop_inv w w' : worker_inv w -> vms_worker_stop w = Some w' -> worker_inv w'.
Proof.
  intros [Ho Hn Hc Hr Hsl He Hf] H. unfold vms_worker_stop in H.
  destruct (stop w) eqn:Es; simplify_eq/=.
  - constructor; cbn in *; try done.
    + intros Ht. destruct (Hsl Ht). done.
    + intros Ht. destruct (He Ht). done.
  - constructor; cbn in *; try done.
    + rewrite Ho. unfold running. cbn. by destruct (thread w).
    + by destruct (thread w).
    + intros Ht. destruct (thread w) eqn:Et; try done. by destruct (He eq_refl).
  - destruct (bool_decide_reflect (thread w = WExit)); simplify_eq/=. constructor; cbn in *; try done.
    + congruence.
    + intros Ht. by destruct (He Ht).
Qed.

Lemma worker_finish_inv w j k rest :
  thread w = WRun j -> asleep w ≡ₚ option_list k ++ rest -> worker_inv w -> worker_inv (worker_finish w j k rest).
Proof.
  intros Ht Hk [Ho Hn Hc Hr Hsl He Hf]. unfold running in Ho. rewrite Ht in Ho. cbn in Ho.
  constructor; cbn; try done.
  - by rewrite <- app_assoc.
  - rewrite <- Hc. unfold clients. cbn. rewrite Hk. solve_Permutation.
  - intros x Hx. apply elem_of_app. left. by apply Hr.
  - intros Hs. specialize (Hf Hs). congruence.
Qed.

Lemma client_wake_inv w posted j rest :
  waking w ≡ₚ (posted, j) :: rest -> worker_inv w -> worker_inv (client_wake w posted j rest).
Proof.
  intros Hw [Ho Hn Hc Hr Hsl He Hf]. constructor; cbn -[stopping]; try done.
  - rewrite Ho. unfold running. cbn. by destruct (thread w).
  - rewrite <- Hc. unfold clients. rewrite Hw. cbn. destruct posted; solve_Permutation.
  - by destruct (thread w).
  - intros Ht. destruct (thread w) eqn:Et; try done. by destruct (He eq_refl).
  - intros Hs. by rewrite (Hf Hs).
Qed.

Lemma worker_take_inv w w' : worker_take w = Some w' -> worker_inv w -> worker_inv w'.
Proof.
  intros Ht [Ho Hn Hc Hr Hsl He Hf]. unfold worker_take in Ht. unfold running in Ho.
  destruct (thread w) eqn:Et; try done.
  destruct (queue w) as [|j q] eqn:Eq; simplify_eq/=;
    constructor; cbn -[stopping]; unfold running; cbn; try done.
  - rewrite Ho. by destruct (stopping w).
  - destruct (stopping w) eqn:Es; [done|]. intros _. split; [|by unfold stopping in *; cbn in *; congruence].
    intros x Hx. by apply not_elem_of_nil in Hx.
  - destruct (stopping w) eqn:Es; [|done]. by unfold stopping in *; cbn in *.
  - intros Hs. by specialize (Hf Hs).
  - intros Hs. by specialize (Hf Hs).
Qed.

Lemma worker_progress_inv w w' : worker_inv w -> worker_progress w w' -> worker_inv w'.
Proof.
  intros Hi Hst.
  destruct Hst as [w posted j rest Hw|w w' Ht|w j k rest Hj Hk|w j Hj Ha|w j rest Ha|w j rest w' Hp Hj|w w' Hs Hst].
  - by apply client_wake_inv.
  - by eapply worker_take_inv.
  - by apply worker_finish_inv.
  - apply worker_finish_inv; [done| |done]. by rewrite Ha.
  - destruct Hi as [Ho Hn Hc Hr Hsl He Hf]. unfold wait_check.
    destruct (bool_decide _) eqn:Eb; constructor; cbn -[stopping]; try done; unfold clients in *; cbn in *.
    + rewrite <- Hc, Ha. solve_Permutation.
    + apply bool_decide_eq_true in Eb. intros x [->|Hx]%elem_of_cons; [done|by apply Hr].
    + rewrite <- Hc, Ha. solve_Permutation.
  - destruct Hi as [Ho Hn Hc Hr Hsl He Hf]. unfold vms_job_wait in Hj.
    destruct (bool_decide _) eqn:Eb; simplify_eq/=. constructor; cbn -[stopping]; try done; unfold clients in *; cbn in *.
    + rewrite <- Hc, Hp. solve_Permutation.
    + apply bool_decide_eq_true in Eb. intros x [->|Hx]%elem_of_cons; [done|by apply Hr].
  - by eapply stop_inv.
Qed.

Lemma worker_step_inv single w w' : worker_inv w -> worker_step single w w' -> worker_inv w'.
Proof.
  intros Hi Hst. destruct Hst as [w alloc j Hj Hs _|w w1 j alloc Hj Hs _ Hp|w w1 Hs _ Hst|w w1 Hp].
  - destruct alloc; [by apply worker_push_inv|]. by destruct Hi.
  - destruct alloc; simplify_eq/=. by apply worker_push_inv.
  - by eapply stop_inv.
  - by eapply worker_progress_inv.
Qed.

Lemma worker_reach_inv single w : rtc (worker_step single) worker_start w -> worker_inv w.
Proof.
  apply (rtc_ind_r worker_inv); [|intros; by eapply worker_step_inv].
  constructor; try done. constructor.
Qed.

(** With any number of clients the worker executes the jobs one at a
    time and in the order in which they were pushed, each exactly once; a
    client returns only after its own job is done, and every client is in
    exactly one place of its call. *)
Theorem worker_fifo w :
  rtc (worker_step false) worker_start w ->
  pushed w = done_jobs w ++ option_list (running w) ++ queue w /\ NoDup (pushed w) /\
  (clients w ≡ₚ pushed w) /\ (forall j, j ∈ returned w -> j ∈ done_jobs w).
Proof. intros H%worker_reach_inv. by destruct H. Qed.

(** ** Wake-ups *)

Definition occupancy (w : VmsWorker) : nat :=
  length (waking w) + length (awake w) + length (asleep w) + length (polling w).

(** One caller at a time: nobody sleeps on a job that is done, at most one
    client is inside a call, and none once the worker is stopping. *)
Definition single_inv (w : VmsWorker) : Prop :=
  (forall j, j ∈ asleep w -> j ∉ done_jobs w) /\ (occupancy w <= 1)%nat /\
  (stop w <> NotStopping -> occupancy w = 0%nat).

Lemma idle_occupancy w : idle w -> occupancy w = 0%nat.
Proof. intros (E1 & E2 & E3 & E4). unfold occupancy. by rewrite E1, E2, E3, E4. Qed.

Lemma single_progress w w' : single_inv w -> worker_progress w w' -> single_inv w'.
Proof.
  intros (Hl & H1 & H0) Hst. unfold single_inv, occupancy in *.
  destruct Hst as [w posted j rest Hw|w w' Ht|w j k rest Hj Hk|w j Hj Ha|w j rest Ha|w j rest w' Hp Hj|w w' Hs Hst].
  - apply Permutation_length in Hw. cbn in *. split_and!; [done| |intros Hs; specialize (H0 Hs)];
      destruct posted; cbn; lia.
  - unfold worker_take in Ht. destruct (thread w); try done. by destruct (queue w); simplify_eq/=.
  - apply Permutation_length in Hk. cbn in *. destruct rest; [|cbn in *; lia]. cbn in *.
    split_and!; [by intros x Hx%not_elem_of_nil|lia|intros Hs; specialize (H0 Hs); lia].
  - cbn in *. rewrite Ha in *. cbn in *. split_and!; [by intros x Hx%not_elem_of_nil|lia|intros Hs; specialize (H0 Hs); lia].
  - apply Permutation_length in Ha. cbn in Ha. unfold wait_check.
    destruct (bool_decide _) eqn:Eb; cbn; split_and!; try (done || lia || (intros Hs; specialize (H0 Hs); lia)).
    apply bool_decide_eq_false in Eb. intros x [->|Hx]%elem_of_cons; [done|by apply Hl].
  - apply Permutation_length in Hp. cbn in Hp. unfold vms_job_wait in Hj.
    destruct (bool_decide _); simplify_eq/=. split_and!; [done|lia|intros Hs; specialize (H0 Hs); lia].
  - specialize (H0 Hs). unfold vms_worker_stop in Hst.
    destruct (stop w); simplify_eq/=; repeat case_match; simplify_eq/=; by split_and!.
Qed.

Lemma single_step w w' : single_inv w -> worker_step true w w' -> single_inv w'.
Proof.
  intros Hi Hst. destruct Hst as [w alloc j Hj Hs Hd|w w1 j alloc Hj Hs Hd Hp|w w1 Hs Hd Hst|w w1 Hp].
  - pose proof (idle_occupancy _ (Hd eq_refl)) as E. destruct alloc; [|done]. destruct Hi as (Hl & _ & _).
    unfold single_inv, occupancy in *. cbn in *. split_and!; [done|lia|by rewrite Hs].
  - pose proof (idle_occupancy _ (Hd eq_refl)) as E. destruct alloc; simplify_eq/=. destruct Hi as (Hl & _ & _).
    unfold single_inv, occupancy in *. cbn in *. split_and!; [done|lia|by rewrite Hs].
  - pose proof (idle_occupancy _ (Hd eq_refl)) as E. destruct Hi as (Hl & _ & _).
    unfold vms_worker_stop in Hst. rewrite Hs in Hst. simplify_eq/=.
    unfold single_inv, occupancy in *. cbn in *. split_and!; [done|lia|done].
  - by eapply single_progress.
Qed.

Lemma single_reach w : rtc (worker_step true) worker_start w -> single_inv w.
Proof.
  apply (rtc_ind_r single_inv); [|intros; by eapply single_step].
  split_and!; [by intros j Hj%not_elem_of_nil|cbn; lia|done].
Qed.

(** [C36]: when one thread at a time calls the worker, no client sleeps on a
    job that is already done (a completion always wakes its waiter), and once
    [vms_worker_stop] has released the worker the thread has left its loop and
    no client is inside a call, so nothing touches the released memory. *)
Theorem worker_single_no_lost_wakeup w :
  rtc (worker_step true) worker_start w ->
  (forall j, j ∈ asleep w -> j ∉ done_jobs w) /\ (stop w = Freed -> thread w = WExit /\ occupancy w = 0%nat).
Proof.
  intros Hr. destruct (single_reach w Hr) as (Hl & _ & H0). split; [done|]. intros Hf. split.
  - by eapply inv_freed; [eapply worker_reach_inv|].
  - apply H0. by rewrite Hf.
Qed.

(** ** Shutdown terminates *)

(** What is left to do: every progress step makes it smaller. *)
Definition work_left (w : VmsWorker) : nat :=
  10 * length (queue w) + 4 * length (waking w) + length (awake w) + length (polling w) +
  match thread w with WTest => 2 | WRun _ => 8 | _ => 0 end +
  match stop w with StopSet => 4 | StopJoin => 1 | _ => 0 end.

Lemma wake_push_work t :
  (match wake_push t with WTest => 2 | WRun _ => 8 | _ => 0 end <=
   2 + match t with WTest => 2 | WRun _ => 8 | _ => 0 end)%nat.
Proof. destruct t; cbn; lia. Qed.

Lemma progress_decreases w w' : worker_progress w w' -> (work_left w' < work_left w)%nat.
Proof.
  intros Hst. unfold work_left.
  destruct Hst as [w posted j rest Hw|w w' Ht|w j k rest Hj Hk|w j Hj Ha|w j rest Ha|w j rest w' Hp Hj|w w' Hs Hst].
  - apply Permutation_length in Hw. pose proof (wake_push_work (thread w)). cbn in *. destruct posted; cbn; lia.
  - unfold worker_take in Ht. destruct (thread w); try done. destruct (queue w); simplify_eq/=; [|lia].
    destruct (stopping w); lia.
  - cbn in *. rewrite Hj. lia.
  - cbn in *. rewrite Hj. lia.
  - apply Permutation_length in Ha. cbn in *. unfold wait_check. case_match; cbn; lia.
  - apply Permutation_length in Hp. cbn in *. unfold vms_job_wait in Hj. case_match; simplify_eq/=. lia.
  - pose proof (wake_push_work (thread w)). unfold vms_worker_stop in Hst.
    destruct (stop w); simplify_eq/=; try done; try lia. destruct (bool_decide _); simplify_eq/=. lia.
Qed.

(** A stopping worker that cannot go on has finished. *)
Lemma stopped_finished w :
  worker_inv w -> stop w <> NotStopping -> nf worker_progress w ->
  stop w = Freed /\ thread w = WExit /\ done_jobs w = pushed w.
Proof.
  intros Hi Hs Hnf. assert (Ht : thread w = WExit).
  { destruct (thread w) as [| |j|] eqn:Et; [| | |done]; exfalso; apply Hnf.
    - destruct (queue w) eqn:Eq; eexists; apply wp_take; unfold worker_take; rewrite Et, Eq; reflexivity.
    - destruct (inv_sleep w Hi Et) as [_ Hss].
      assert (Hset : stop w = StopSet) by (apply Hss, bool_decide_eq_true; done).
      eexists. eapply wp_stop; [done|]. unfold vms_worker_stop. by rewrite Hset.
    - destruct (asleep w) as [|k rest] eqn:Ea; [eexists; by apply wp_finish_none|].
      eexists. eapply wp_finish_wake; [done|]. by rewrite Ea. }
  destruct (inv_exit w Hi Ht) as [_ Hq].
  split_and!; [|done|rewrite (inv_order w Hi), Hq; unfold running; rewrite Ht; cbn; by rewrite app_nil_r].
  destruct (stop w) eqn:Es; try done; exfalso; apply Hnf; eexists; (eapply wp_stop; [congruence|]);
    unfold vms_worker_stop; rewrite Es; [done|]. by rewrite bool_decide_eq_true_2.
Qed.

Lemma progress_stopping w w' : worker_progress w w' -> stop w <> NotStopping -> stop w' <> NotStopping.
Proof.
  intros Hst Hs.
  destruct Hst as [w posted j rest Hw|w w' Ht|w j k rest Hj Hk|w j Hj Ha|w j rest Ha|w j rest w' Hp Hj|w w' _ Hst];
    cbn; try done.
  - unfold worker_take in Ht. destruct (thread w); try done. by destruct (queue w); simplify_eq/=.
  - unfold wait_check. by case_match.
  - unfold vms_job_wait in Hj. by case_match; simplify_eq/=.
  - unfold vms_worker_stop in Hst. by destruct (stop w); simplify_eq/=; repeat case_match; simplify_eq/=.
Qed.

Lemma progress_rtc_inv w w' :
  rtc worker_progress w w' -> worker_inv w -> stop w <> NotStopping ->
  worker_inv w' /\ stop w' <> NotStopping.
Proof.
  induction 1 as [|w1 w2 w3 Hst _ IH]; [done|]. intros Hi Hs.
  apply IH; [by eapply worker_progress_inv|by eapply progress_stopping].
Qed.


(** ** Two clients *)

(** Both sleep, the worker finishes the first job and wakes the second
    client, which goes back to sleep. *)
Definition two_clients : VmsWorker :=
  mkWorker [] WSleep NotStopping [1; 2]%nat [] [] [2]%nat [] [1]%nat [1; 2]%nat [].

Ltac wstep := eapply rtc_l; [apply ws_progress|].

Lemma two_clients_reached : rtc (worker_step false) worker_start two_clients.
Proof.
  eapply rtc_l; [apply (ws_run false _ true 1%nat); [apply not_elem_of_nil|done|done]|].
  wstep; [by apply (wp_wake _ false 1%nat [])|]. wstep; [by apply (wp_check _ 1%nat [])|].
  eapply rtc_l; [apply (ws_run false _ true 2%nat); [|done|done]|].
  { cbn. intros [?|H]%elem_of_cons; [done|by apply not_elem_of_nil in H]. }
  wstep; [by apply (wp_wake _ false 2%nat [])|]. wstep; [by apply (wp_check _ 2%nat [])|].
  wstep; [by apply wp_take|]. wstep; [by apply (wp_finish_wake _ 1%nat 2%nat [1%nat])|].
  wstep; [by apply (wp_check _ 2%nat [])|].
  wstep; [by apply wp_take|]. wstep; [apply (wp_finish_wake _ 2%nat 1%nat [2%nat]); [done|cbn; solve_Permutation]|].
  wstep; [by apply (wp_check _ 1%nat [])|]. wstep; [by apply wp_take|]. apply rtc_refl.
Qed.

(** With two clients a completed call can hang: there is a reachable
    state in which both jobs are done, one client still sleeps, and nothing
    but a further call can happen, so nothing wakes it. *)
Theorem worker_two_clients_hang :
  exists w j, rtc (worker_step false) worker_start w /\ j ∈ asleep w /\ j ∈ done_jobs w /\ nf worker_progress w.
Proof.
  exists two_clients, 2%nat. split_and!; [apply two_clients_reached|cbn; by left|cbn; right; left|].
  intros [w' Hst].
  inversion Hst as [w posted j rest Hw|w w1 Ht|w j k rest Hj Hk|w j Hj Ha|w j rest Ha|w j rest w1 Hp Hj|w w1 Hs Hst']; subst; try done.
  - cbn in Hw. by apply Permutation_nil_cons in Hw.
  - cbn in Ha. by apply Permutation_nil_cons in Ha.
  - cbn in Hp. by apply Permutation_nil_cons in Hp.
Qed.

(** A call that finds no memory for its job returns without the job: it is
    neither queued nor ever run by that call. *)
Lemma run_without_memory w j :
  pushed (vms_worker_run false w j) = pushed w /\ queue (vms_worker_run false w j) = queue w /\
  skipped (vms_worker_run false w j) = j :: skipped w.
Proof. done. Qed.

Lemma worker_fifo_witness : pushed two_clients = [1; 2]%nat /\ NoDup (pushed two_clients).
Proof.
  destruct (worker_fifo two_clients two_clients_reached) as (_ & Hn & _). split; [reflexivity|exact Hn].
Defined.

(** One client that sleeps on its job. *)
Definition one_client : VmsWorker :=
  mkWorker [5%nat] WTest NotStopping [] [] [] [5%nat] [] [] [5%nat] [].

Lemma worker_single_no_lost_wakeup_witness : 5%nat ∉ done_jobs one_client.
Proof.
  destruct (worker_single_no_lost_wakeup one_client) as [H _]; [|apply H; cbn; by left].
  eapply rtc_l; [apply (ws_run true _ true 5%nat); [apply not_elem_of_nil|done|by repeat split]|].
  wstep; [by apply (wp_wake _ false 5%nat [])|]. wstep; [by apply (wp_check _ 5%nat [])|]. apply rtc_refl.
Defined.

(** A posted job is still queued when the worker is stopped. *)
Definition stop_queued : VmsWorker :=
  mkWorker [7%nat] WTest StopSet [] [(true, 7%nat)] [] [] [] [] [7%nat] [].

