(* ===== verification/QuerySource.v ===== *)
(** * Query sources (src/src/vms_query_source.c)

    A query source is a remote SELECT: its text is validated, described by
    the server, and kept for the cursors.  The describing statement carries
    the query as one string literal. *)

From S2P Require Import Prelude Foundation Client Identity Lexer Meta.

(** [MultiByteToWideChar] with [MB_ERR_INVALID_CHARS]: [None] for bytes that
    are not UTF-8.  ASCII text converts to itself, and an ASCII unit of the
    result stands for the same byte of the source. *)
Class StrictConv := {
  strict_widen : list Z -> option (list Z);
  strict_widen_ascii : forall s, Forall (fun c => 0 < c < 128) s -> strict_widen s = Some s;
  strict_widen_unit : forall s w c, strict_widen s = Some w -> c ∈ w -> c < 128 -> c ∈ s
}.

Definition IdStrictConv : StrictConv.
Proof. refine {| strict_widen := Some |}; [done|]. by intros s w c [= <-]. Defined.

(** The conversion into a buffer of [cap] units, terminator included. *)
Definition to_wide_strict `{StrictConv} (cap : Z) (s : list Z) : option (list Z) :=
  w ← strict_widen s; if zlen w + 1 >? cap then None else Some w.

Record VmsQuerySource := mkQS { q_query : list Z; q_cols : list VmsMetaColumn }.

(** ** Described columns *)

Definition desc_vtype (t : list Z) (max_len : Z) : VmsColType :=
  if one_of t ["bigint"; "int"; "smallint"; "tinyint"; "bit"]%string then CT_INT64
  else if one_of t ["float"; "real"]%string then CT_FLOAT64
  else if one_of t ["decimal"; "numeric"; "money"; "smallmoney"]%string then CT_DECIMAL
  else if one_of t ["date"; "time"; "datetime"; "datetime2"; "smalldatetime";
                    "datetimeoffset"]%string then CT_DATETIME
  else if one_of t ["uniqueidentifier"]%string then CT_GUID
  else if one_of t ["geometry"; "geography"]%string then CT_SPATIAL
  else if one_of t ["binary"; "varbinary"; "image"; "rowversion"]%string then CT_BLOB
  else if one_of t ["xml"]%string then CT_BIGTEXT
  else if one_of t ["nvarchar"; "nchar"; "varchar"; "char"; "text"; "ntext"]%string then
    if (max_len =? 2 ^ 32 - 1) || (max_len =? 0) then CT_BIGTEXT else CT_TEXT
  else CT_UNSUPPORTED.

(** The column of one row of the description; its type name is not kept. *)
Definition desc_col (st : list VmsValue) : VmsMetaColumn :=
  let ml := wrap_u32 (get_i64 (colv st 2) 0) in
  mkCol (copy_text VMS_META_MAX_NAME (colv st 0)) [] (desc_vtype (copy_text 64 (colv st 1)) ml)
        (wrap_i32 (get_i64 (colv st 5) 1)) 0 0 ml
        (wrap_u8 (get_i64 (colv st 3) 0)) (wrap_u8 (get_i64 (colv st 4) 0)).

Definition desc_row (cols : list VmsMetaColumn) (st : list VmsValue) : option (list VmsMetaColumn) :=
  if zlen cols >=? 512 then None
  else if existsb (fun c => stricmp_eq (name c) (name (desc_col st))) cols then None
  else Some (cols ++ [desc_col st]).

(** ** The describing statement *)

(** The doubling pass over the query, at position [w] of its buffer. *)
Fixpoint wrap_loop (q : list Z) (w : Z) : list Z :=
  match q with
  | [] => []
  | c :: q' =>
      if w >=? 34800 then []
      else if c =? chr "'" then c :: c :: wrap_loop q' (w + 2) else c :: wrap_loop q' (w + 1)
  end.

Definition wrapped (q : list Z) : list Z := str "N'" ++ wrap_loop q 2 ++ str "'".

Definition describe_prefix : list Z :=
  str "SELECT name, system_type_name, max_length, precision, scale, is_nullable FROM sys.dm_exec_describe_first_result_set(".

Definition describe_sql (q : list Z) : list Z :=
  trunc_copy 34816 (describe_prefix ++ wrapped q ++ str ", NULL, 0)").

(** ** Operations *)

Section Prepare.
Context `{SqlClient} `{WCType} `{StrictConv}.

Definition invalid (e : VmsError) (m : list Z) : VmsError :=
  default e (vms_error_set (Some e) VMS_ERR_INVALID_ARG None 0 (fun _ => m)).

(** [malloc_ok] is the outcome of allocating the copy of the query. *)
Definition vms_query_source_prepare (malloc_ok : bool) (query_utf8 : option (list Z)) :
    option VmsQuerySource * VmsError :=
  match query_utf8 with
  | None => (None, invalid err_zero (str "query source: bad args"))
  | Some u =>
      match to_wide_strict 32768 u with
      | None => (None, invalid err_zero (str "query is not valid UTF-8"))
      | Some q =>
          match vms_tsql_validate_query (Some q) with
          | Some m => (None, invalid err_zero (str "query rejected: " ++ trunc_copy 256 m))
          | None =>
              let '(ok, cols, e) := run_query (describe_sql q) desc_row [] (Some err_zero) in
              let e := default err_zero e in
              if negb ok then
                (None, if bool_decide (cls e = VMS_OK) then
                         invalid e (str "query result contract violated (duplicate or too many columns)")
                       else e)
              else if zlen cols <? 1 then (None, invalid e (str "query produces no result set"))
              else if negb malloc_ok then
                (None, default e (vms_error_set (Some e) VMS_ERR_NO_MEMORY None 0 (fun _ => str "OOM query source")))
              else (Some (mkQS q cols), e)
          end
      end
  end.

End Prepare.

Definition vms_query_source_get_sql (src : VmsQuerySource) (out_wchars : Z) : option (list Z) :=
  if zlen (q_query src) + 1 >? out_wchars then None else Some (q_query src).

(** ** The result contract *)

Definition lower_names (cols : list VmsMetaColumn) : list (list Z) := map (fun c => map tolower (name c)) cols.

Lemma duplicate_name cols c :
  existsb (fun c' => stricmp_eq (name c') (name c)) cols = true <-> map tolower (name c) ∈ lower_names cols.
Proof.
  unfold lower_names. rewrite existsb_exists, list_elem_of_fmap. unfold stricmp_eq. split.
  - intros (c' & Hc & He%str_eqb_eq). exists c'. split; [done|by apply list_elem_of_In].
  - intros (c' & He & Hc). exists c'. split; [by apply list_elem_of_In|]. by rewrite str_eqb_eq.
Qed.

Lemma desc_rows rows : forall acc,
  NoDup (lower_names acc) -> zlen acc <= 512 ->
  (fst (fetch_rows desc_row rows acc) = true <->
   zlen acc + zlen rows <= 512 /\ NoDup (lower_names (acc ++ map desc_col rows))) /\
  (fst (fetch_rows desc_row rows acc) = true -> snd (fetch_rows desc_row rows acc) = acc ++ map desc_col rows).
Proof.
  induction rows as [|r rows IH]; intros acc Hnd Hl; simpl.
  - rewrite app_nil_r. split; [|done]. split; [|done]. intros _. autorewrite with vms_len. split; [lia|done].
  - unfold desc_row at 1 3 5. destruct (zlen acc >=? 512) eqn:E512; b2p.
    { simpl. split; [|done]. split; [done|]. rewrite zlen_cons. pose proof (zlen_nonneg rows). lia. }
    destruct (existsb _ acc) eqn:Ed.
    { simpl. split; [|done]. split; [done|]. intros [_ Hn]. exfalso. apply duplicate_name in Ed.
      unfold lower_names in *. rewrite map_app in Hn. apply NoDup_app in Hn as (_ & Hd & _).
      apply (Hd _ Ed). simpl. by left. }
    assert (Hn : NoDup (lower_names (acc ++ [desc_col r]))).
    { unfold lower_names. rewrite map_app. apply NoDup_app. split_and!; [done| |apply NoDup_singleton].
      intros x Hx Hx'%list_elem_of_singleton. subst x. apply duplicate_name in Hx. congruence. }
    destruct (IH (acc ++ [desc_col r]) Hn) as [I1 I2]; [autorewrite with vms_len; lia|].
    rewrite <- app_assoc in I1, I2. simpl in I1, I2. split; [|done]. rewrite I1. autorewrite with vms_len.
    split; intros [? ?]; (split; [lia|done]).
Qed.

Section Contract.
Context `{SqlClient} `{WCType} `{StrictConv}.


End Contract.

(** ** The literal *)

Lemma wrap_loop_doubles q : forall w, w + zlen (double_quotes q) <= 34800 -> wrap_loop q w = double_quotes q.
Proof.
  unfold double_quotes. induction q as [|c q IH]; intros w Hw; [done|]. simpl in *.
  pose proof (zlen_nonneg (flat_map (fun c => if c =? chr "'" then [c; c] else [c]) q)).
  destruct (c =? chr "'"); simpl in *; autorewrite with vms_len in Hw;
    (replace (w >=? 34800) with false by (symmetry; rewrite Z.geb_leb; apply Z.leb_gt; lia));
    rewrite IH by lia; done.
Qed.

(** While the statement fits its buffer, the query reaches the server as one
    string literal, whatever quotes it contains. *)
Lemma describe_literal `{WCType} q p d :
  zlen describe_prefix + zlen (double_quotes q) + 13 < 34816 ->
  exists lit, describe_sql q = describe_prefix ++ lit ++ str ", NULL, 0)" /\
    lex_token (lit ++ str ", NULL, 0)") p d =
      Some (mkLex (str ", NULL, 0)") (p + zlen lit) d, mkTok TOK_STRING p (zlen lit) []).
Proof.
  change (zlen describe_prefix) with 116. intros Hz. exists (wrapped q). unfold describe_sql, wrapped.
  rewrite wrap_loop_doubles by lia. split.
  - apply trunc_copy_fits. rewrite !zlen_app. change (zlen describe_prefix) with 116.
    change (zlen (str "N'")) with 2. change (zlen (str "'")) with 1. change (zlen (str ", NULL, 0)")) with 10. lia.
  - rewrite <- !app_assoc. rewrite !zlen_app. change (zlen (str "N'")) with 2. change (zlen (str "'")) with 1.
    replace (2 + (zlen (double_quotes q) + 1)) with (zlen (double_quotes q) + 3) by lia.
    apply (literal_is_one_token q (str ", NULL, 0)") p d). vm_compute. congruence.
Qed.

(** The server's [system_type_name] carries the length of a sized type, which
    no registry name matches: every sized column is unsupported. *)
Example sized_types_unsupported :
  desc_vtype (str "nvarchar(50)") 100 = CT_UNSUPPORTED /\ desc_vtype (str "decimal(18,2)") 9 = CT_UNSUPPORTED.
Proof. split; reflexivity. Qed.

(** The registry of table columns knows [timestamp] and sizes [xml]. *)
Example registries_differ :
  desc_vtype (str "timestamp") 8 = CT_UNSUPPORTED /\ vtype_from_sql_type (str "timestamp") 8 = CT_BLOB /\
  desc_vtype (str "xml") 8 = CT_BIGTEXT /\ vtype_from_sql_type (str "xml") 8 = CT_TEXT.
Proof. split_and!; reflexivity. Qed.
