(* ===== verification/Mat.v ===== *)
(** * Materialized snapshots (src/src/vms_mat.c)

    A query source may be copied once into a private SQLite database, from
    which its scans are then served.  The private database is an interface;
    the remote cursor is the sequence of rows it delivers. *)

From S2P Require Import Prelude Foundation Client Identity Lexer Meta QuerySource.

Definition VMS_MAT_BATCH : Z := 2000.
Definition VMS_MAT_TABLE : list Z := str "vms_snapshot".

Inductive VmsMatMode : Type := MAT_OFF | MAT_MEMORY | MAT_TEMP.
Inductive VmsMatState : Type := MAT_BUILDING | MAT_READY | MAT_PUBLISHED | MAT_FAILED.

#[global] Instance VmsMatMode_eq_dec : EqDecision VmsMatMode.
Proof. solve_decision. Defined.
#[global] Instance VmsMatState_eq_dec : EqDecision VmsMatState.
Proof. solve_decision. Defined.

(** [None] for an unknown mode. *)
Definition vms_mat_mode_parse (s : option (list Z)) : option VmsMatMode :=
  match s with
  | None | Some [] => None
  | Some s =>
      if stricmp_eq s (str "off") then Some MAT_OFF
      else if stricmp_eq s (str "memory") then Some MAT_MEMORY
      else if stricmp_eq s (str "temp") then Some MAT_TEMP
      else None
  end.

(** ** The private database

    Each operation may fail.  What the materializer relies on: the database
    starts without rows, an insertion adds its row at the end, and the other
    statements leave the rows alone. *)

Class SnapshotStore := {
  sdb : Type;
  s_open : VmsMatMode -> option sdb;
  s_exec : list Z -> sdb -> option sdb;
  s_prepare : list Z -> sdb -> bool;
  s_bind : VmsValue -> bool;
  s_insert : list VmsValue -> sdb -> option sdb;
  s_rows : sdb -> list (list VmsValue)
}.

Class SnapshotLaws `{SnapshotStore} := {
  open_rows : forall m d, s_open m = Some d -> s_rows d = [];
  exec_rows : forall sql d d', s_exec sql d = Some d' -> s_rows d' = s_rows d;
  insert_rows : forall r d d', s_insert r d = Some d' -> s_rows d' = s_rows d ++ [r]
}.

Section Mat.
Context `{SnapshotStore}.

Record VmsMat := mkMat {
  m_mode : VmsMatMode;
  m_state : VmsMatState;
  m_db : option sdb;
  m_max_rows : Z;
  m_max_bytes : Z;
  m_rows : Z;
  m_file : bool                      (* the temporary file may exist *)
}.

Definition vms_mat_create (mode : VmsMatMode) (max_rows max_bytes : Z) (alloc_ok : bool) : option VmsMat :=
  if bool_decide (mode = MAT_OFF) then None
  else if negb alloc_ok then None
  else Some (mkMat mode MAT_BUILDING None (if max_rows >? 0 then max_rows else 10000000)
                   (if max_bytes >? 0 then max_bytes else 1073741824) 0 false).

Definition vms_mat_state (m : option VmsMat) : VmsMatState :=
  match m with Some m => m_state m | None => MAT_FAILED end.

Definition vms_mat_db (m : option VmsMat) : option sdb :=
  match m with
  | Some m => if bool_decide (m_state m = MAT_PUBLISHED) then m_db m else None
  | None => None
  end.

Definition vms_mat_row_count (m : option VmsMat) : Z := match m with Some m => m_rows m | None => 0 end.

(** [fail]: the snapshot is closed and its file removed.  The text is
    formatted after the error structure has been cleared; [msg] gets the
    message the structure then holds. *)
Definition fail_with (m : VmsMat) (e : VmsError) (msg : list Z -> list Z) : VmsMat * bool * VmsError :=
  (mkMat (m_mode m) MAT_FAILED None (m_max_rows m) (m_max_bytes m) (m_rows m)
         (if bool_decide (m_mode m = MAT_TEMP) then false else m_file m), false,
   default e (vms_error_set (Some e) VMS_ERR_INTERNAL None 0 (fun old => str "materialization: " ++ msg (message old)))).

Definition fail (m : VmsMat) (msg : list Z) : VmsMat * bool * VmsError := fail_with m err_zero (fun _ => msg).

(** ** Texts *)

Definition dq : list Z := [34].

Definition affinity (t : VmsColType) : list Z :=
  match t with CT_INT64 => str "INTEGER" | CT_FLOAT64 => str "REAL" | CT_BLOB => str "BLOB" | _ => str "TEXT" end.

Definition ddl_col (i : nat) (c : VmsMetaColumn) : list Z :=
  trunc_copy 280 ((match i with O => [] | S _ => str "," end) ++ dq ++ name c ++ dq ++ str " " ++ affinity (vtype c)).

Fixpoint ddl_loop (i : nat) (cols : list VmsMetaColumn) (ddl : list Z) : option (list Z) :=
  match cols with
  | [] => Some ddl
  | c :: cols' => if zlen ddl + zlen (ddl_col i c) + 2 >=? 8192 then None else ddl_loop (S i) cols' (ddl ++ ddl_col i c)
  end.

Definition snapshot_ddl (cols : list VmsMetaColumn) : option (list Z) :=
  ddl ← ddl_loop 0 cols (str "CREATE TABLE " ++ VMS_MAT_TABLE ++ str "("); Some (ddl ++ str ")").

(** Each piece must fit what is left of the 8192 bytes. *)
Fixpoint insert_loop (i : nat) (n : nat) (ins : list Z) : option (list Z) :=
  match n with
  | O => Some ins
  | S n' =>
      let piece := match i with O => str "?" | S _ => str ",?" end in
      if zlen ins + zlen piece <? 8192 then insert_loop (S i) n' (ins ++ piece) else None
  end.

Definition insert_sql (n : nat) : option (list Z) :=
  insert_loop 0 n (str "INSERT INTO " ++ VMS_MAT_TABLE ++ str " VALUES(").

Definition index_sql (i : Z) (c : VmsMetaColumn) : list Z :=
  trunc_copy 512 (str "CREATE INDEX " ++ VMS_MAT_TABLE ++ str "_i" ++ print_i i ++ str " ON " ++ VMS_MAT_TABLE ++
                  str "(" ++ dq ++ name c ++ dq ++ str ")").

(** ** Build *)

(** Streamed long text has no binding. *)
Definition bind_value (v : VmsValue) : bool := match v with VAL_BIGTEXT _ => false | _ => s_bind v end.

(** The values bound for one row: missing columns are NULL. *)
Definition bound_row (n : nat) (r : list VmsValue) : list VmsValue :=
  map (fun i => default VAL_NULL (r !! i)) (seq 0 n).

(** The row loop.  [cancelled k] is the flag observed before row [k]; the
    result is the database and the row count, or the failure with the count
    reached. *)
Fixpoint stream (cancelled : nat -> bool) (max_rows : Z) (ncols : nat) (k : nat) (batch rows : Z)
    (todo : list (list VmsValue)) (fin : option VmsError) (d : sdb) : (sdb * Z) + (Z * list Z) :=
  match todo with
  | [] => match fin with Some _ => inr (rows, str "remote scan failed") | None => inl (d, rows) end
  | r :: todo' =>
      if cancelled k then inr (rows, str "cancelled")
      else if rows >=? max_rows then inr (rows, str "row limit exceeded")
      else if negb (forallb bind_value (bound_row ncols r)) then inr (rows, str "bind failed")
      else match s_insert (bound_row ncols r) d with
           | None => inr (rows, str "insert step failed")
           | Some d =>
               if batch + 1 >=? VMS_MAT_BATCH then
                 match s_exec (str "COMMIT") d ≫= s_exec (str "BEGIN") with
                 | None => inr (rows + 1, str "commit failed")
                 | Some d => stream cancelled max_rows ncols (S k) 0 (rows + 1) todo' fin d
                 end
               else stream cancelled max_rows ncols (S k) (batch + 1) (rows + 1) todo' fin d
           end
  end.

Fixpoint build_indexes (i : Z) (cols : list VmsMetaColumn) (d : sdb) : option sdb :=
  match cols with
  | [] => Some d
  | c :: cols' =>
      if bool_decide (vtype c = CT_INT64) then s_exec (index_sql i c) d ≫= build_indexes (i + 1) cols'
      else build_indexes (i + 1) cols' d
  end.

Definition with_db (m : VmsMat) (d : sdb) (rows : Z) : VmsMat :=
  mkMat (m_mode m) (m_state m) (Some d) (m_max_rows m) (m_max_bytes m) rows
        (m_file m || bool_decide (m_mode m = MAT_TEMP)).

Definition publish (m : VmsMat) (d : sdb) : VmsMat :=
  mkMat (m_mode m) MAT_PUBLISHED (Some d) (m_max_rows m) (m_max_bytes m) (m_rows m) (m_file m).

(** The phases after the database is open: table, transaction, statement. *)
Definition prepare_snapshot (cols : list VmsMetaColumn) (d : sdb) : (sdb + list Z) :=
  match snapshot_ddl cols with
  | None => inr (str "schema too wide")
  | Some ddl =>
      match s_exec ddl d with
      | None => inr (str "snapshot DDL failed")
      | Some d =>
          match s_exec (str "BEGIN") d with
          | None => inr (str "cannot begin snapshot transaction")
          | Some d =>
              match insert_sql (length cols) with
              | None => inr (str "insert stmt too wide")
              | Some ins =>
                  if (zlen ins + 1 <? 8192) && s_prepare (ins ++ str ")") d then inl d
                  else inr (str "insert prepare failed")
              end
          end
      end
  end.

(** [scan] is what opening the cursor on the query delivers.  The result
    says whether the snapshot was published. *)
Definition vms_mat_build (cancelled : nat -> bool) (scan : list Z -> QueryResult) (m : VmsMat) (src : VmsQuerySource) :
    VmsMat * bool * VmsError :=
  if negb (bool_decide (m_state m = MAT_BUILDING)) || bool_decide (m_mode m = MAT_OFF) then
    (m, false, default err_zero (vms_error_set (Some err_zero) VMS_ERR_INVALID_ARG None 0
                  (fun _ => str "materialization: bad args/state")))
  else match s_open (m_mode m) with
  | None => fail m (str "cannot open private db")
  | Some d =>
      let m := with_db m d (m_rows m) in
      match prepare_snapshot (q_cols src) d with
      | inr msg => fail m msg
      | inl d =>
          match vms_query_source_get_sql src 34816 with
          | None => fail m (str "query copy failed")
          | Some sql =>
              match scan sql with
              | QExecError e => fail_with m e id
              | QRows todo fin =>
                  match stream cancelled (m_max_rows m) (length (q_cols src)) 0 0 (m_rows m) todo fin d with
                  | inr (rows, msg) => fail (with_db m d rows) msg
                  | inl (d, rows) =>
                      let m := with_db m d rows in
                      match s_exec (str "COMMIT") d with
                      | None => fail m (str "final commit failed")
                      | Some d =>
                          match build_indexes 0 (q_cols src) d with
                          | None => fail m (str "index creation failed")
                          | Some d => (publish m d, true, err_zero)
                          end
                      end
                  end
              end
          end
      end
  end.

(** ** Correctness *)

Context `{!SnapshotLaws}.

Lemma prepare_rows cols d d' : prepare_snapshot cols d = inl d' -> s_rows d' = s_rows d.
Proof.
  unfold prepare_snapshot. destruct (snapshot_ddl cols); [|done].
  destruct (s_exec _ d) as [d1|] eqn:E1; [|done]. destruct (s_exec (str "BEGIN") d1) as [d2|] eqn:E2; [|done].
  destruct (insert_sql _); [|done]. destruct (_ && _); [|done]. intros [= <-].
  by rewrite (exec_rows _ _ _ E2), (exec_rows _ _ _ E1).
Qed.

Lemma stream_rows cancelled mx n todo fin : forall k batch rows d d' rows',
  rows <= mx -> stream cancelled mx n k batch rows todo fin d = inl (d', rows') ->
  s_rows d' = s_rows d ++ map (bound_row n) todo /\ rows' = rows + zlen todo /\ rows' <= mx /\ fin = None /\
  Forall (fun r => forallb bind_value (bound_row n r) = true) todo.
Proof.
  induction todo as [|r todo IH]; intros k batch rows d d' rows' Hm; simpl.
  - destruct fin; [done|]. intros [= <- <-]. rewrite app_nil_r, zlen_nil. split_and!; [done|lia|lia|done|constructor].
  - destruct (cancelled k); [done|]. destruct (rows >=? mx) eqn:E; [done|]. b2p.
    destruct (forallb bind_value (bound_row n r)) eqn:Eb; [|done]. cbn [negb].
    destruct (s_insert _ d) as [d1|] eqn:Ei; [|done]. pose proof (insert_rows _ _ _ Ei) as Hi.
    destruct (batch + 1 >=? VMS_MAT_BATCH).
    + destruct (s_exec (str "COMMIT") d1) as [d2|] eqn:E2; [|done]. cbn [mbind option_bind].
      destruct (s_exec (str "BEGIN") d2) as [d3|] eqn:E3; [|done]. intros Hs.
      apply IH in Hs as (H1 & H2 & H3 & H4 & H5); [|lia].
      rewrite (exec_rows _ _ _ E3), (exec_rows _ _ _ E2), Hi in H1. rewrite zlen_cons.
      split_and!; [by rewrite <- app_assoc in H1|lia|done|done|by constructor].
    + intros Hs. apply IH in Hs as (H1 & H2 & H3 & H4 & H5); [|lia]. rewrite Hi in H1. rewrite zlen_cons.
      split_and!; [by rewrite <- app_assoc in H1|lia|done|done|by constructor].
Qed.

Lemma indexes_rows cols : forall i d d', build_indexes i cols d = Some d' -> s_rows d' = s_rows d.
Proof.
  induction cols as [|c cols IH]; intros i d d'; simpl; [by intros [= <-]|].
  destruct (bool_decide _); [|apply IH]. destruct (s_exec _ d) as [d1|] eqn:E; [|done]. cbn [mbind option_bind].
  intros ->%IH. by apply exec_rows in E.
Qed.

(** The two outcomes of a build. *)
Definition mat_outcome (scan : list Z -> QueryResult) (m m' : VmsMat) (src : VmsQuerySource) (ok : bool) : Prop :=
  if ok then
    exists todo d, scan (q_query src) = QRows todo None /\ vms_mat_db (Some m') = Some d /\
      s_rows d = map (bound_row (length (q_cols src))) todo /\
      vms_mat_row_count (Some m') = zlen todo /\ zlen todo <= m_max_rows m
  else m_state m' = MAT_FAILED /\ m_db m' = None /\ m_file m' = false /\ vms_mat_db (Some m') = None.

Lemma fail_outcome scan m src m1 e1 msg m' ok e :
  m_mode m1 = m_mode m -> (m_file m1 = true -> m_mode m = MAT_TEMP) ->
  fail_with m1 e1 msg = (m', ok, e) -> mat_outcome scan m m' src ok.
Proof.
  intros Hm Hf. unfold fail_with. intros [= <- <- <-]. cbn. split_and!; try done.
  rewrite Hm. destruct (bool_decide (m_mode m = MAT_TEMP)) eqn:E; [done|]. apply bool_decide_eq_false in E.
  destruct (m_file m1); [by destruct E; apply Hf|done].
Qed.

Lemma with_db_file m d r : (m_file m = true -> m_mode m = MAT_TEMP) -> m_file (with_db m d r) = true -> m_mode m = MAT_TEMP.
Proof. intros Hf. unfold with_db. cbn. intros [?|?%bool_decide_eq_true]%orb_prop; auto. Qed.


(** A store none of whose operations fails. *)
Definition store_works : Prop :=
  (forall m, is_Some (s_open m)) /\ (forall sql d, is_Some (s_exec sql d)) /\ (forall sql d, s_prepare sql d = true) /\
  (forall v, s_bind v = true) /\ (forall r d, is_Some (s_insert r d)).

Definition no_bigtext (v : VmsValue) : bool := match v with VAL_BIGTEXT _ => false | _ => true end.

Lemma stream_succeeds cancelled mx n todo : forall k batch rows d,
  store_works -> (forall j, cancelled j = false) -> rows + zlen todo <= mx ->
  Forall (fun r => forallb no_bigtext r = true) todo ->
  is_Some (match stream cancelled mx n k batch rows todo None d with inl x => Some x | inr _ => None end).
Proof.
  induction todo as [|r todo IH]; intros k batch rows d Hw Hc Hm Hb; simpl; [done|].
  rewrite Hc. rewrite zlen_cons in Hm. pose proof (zlen_nonneg todo).
  replace (rows >=? mx) with false by (symmetry; rewrite Z.geb_leb; apply Z.leb_gt; lia).
  inversion Hb as [|?? Hr Hb']; subst. destruct Hw as (W1 & W2 & W3 & W4 & W5).
  replace (forallb bind_value (bound_row n r)) with true; cbn [negb].
  2:{ symmetry. apply forallb_forall. intros v (i & <- & _)%in_map_iff. unfold bind_value.
      destruct (r !! i) as [v|] eqn:E; [|simpl; apply W4]. simpl. rewrite W4.
      rewrite forallb_forall in Hr. specialize (Hr v ltac:(apply list_elem_of_In; by eapply list_elem_of_lookup_2)).
      by destruct v. }
  destruct (W5 (bound_row n r) d) as [d1 ->].
  destruct (W2 (str "COMMIT") d1) as [d2 Hd2]. destruct (W2 (str "BEGIN") d2) as [d3 Hd3].
  destruct (_ >=? VMS_MAT_BATCH); [rewrite Hd2; cbn [mbind option_bind]; rewrite Hd3|];
    (apply IH; [done|done|lia|done]).
Qed.

Lemma indexes_succeed cols : forall i d, store_works -> is_Some (build_indexes i cols d).
Proof.
  induction cols as [|c cols IH]; intros i d Hw; simpl; [done|].
  destruct (bool_decide _); [|by apply IH]. destruct Hw as (W1 & W2 & W3).
  destruct (W2 (index_sql i c) d) as [d1 ->]. by apply IH.
Qed.

(** [C23]: nothing but the stated conditions stops a build: with a working
    store, no cancellation, a schema and query that fit their buffers, and a
    scan of at most the limit of rows without streamed long text, the snapshot
    is published. *)
Theorem mat_build_succeeds cancelled scan m src todo ddl ins :
  store_works -> (forall j, cancelled j = false) ->
  m_state m = MAT_BUILDING -> m_mode m <> MAT_OFF -> m_rows m = 0 -> zlen todo <= m_max_rows m ->
  snapshot_ddl (q_cols src) = Some ddl -> insert_sql (length (q_cols src)) = Some ins -> zlen ins < 8191 ->
  zlen (q_query src) < 34816 -> scan (q_query src) = QRows todo None ->
  Forall (fun r => forallb no_bigtext r = true) todo ->
  exists m', vms_mat_build cancelled scan m src = (m', true, err_zero) /\ m_state m' = MAT_PUBLISHED.
Proof.
  intros Hw Hc Hst Hmode Hr0 Hmax Hddl Hins Hil Hq Hs Hb. unfold vms_mat_build.
  rewrite Hst, bool_decide_true by done. rewrite (bool_decide_false (m_mode m = MAT_OFF)) by done. cbn [negb orb].
  pose proof Hw as (W1 & W2 & W3 & W4 & W5). destruct (W1 (m_mode m)) as [d ->].
  unfold prepare_snapshot. rewrite Hddl. destruct (W2 ddl d) as [d1 ->]. destruct (W2 (str "BEGIN") d1) as [d2 ->].
  rewrite Hins, W3. replace (zlen ins + 1 <? 8192) with true by (symmetry; apply Z.ltb_lt; lia). cbn [andb].
  unfold vms_query_source_get_sql. replace (_ >? 34816) with false by (symmetry; rewrite Z.gtb_ltb; apply Z.ltb_ge; lia).
  rewrite Hs. cbn [m_max_rows m_rows with_db]. rewrite Hr0.
  destruct (stream_succeeds cancelled (m_max_rows m) (length (q_cols src)) todo 0 0 0 d2 Hw Hc Hmax Hb) as [[d3 rows] Hst3].
  destruct (stream _ _ _ _ _ _ _ _ _) as [[d4 rows']|]; [|done].
  destruct (W2 (str "COMMIT") d4) as [d5 ->]. destruct (indexes_succeed (q_cols src) 0 d5 Hw) as [d6 ->]. eauto.
Qed.

End Mat.

(** ** A concrete store *)

Definition ListStore : SnapshotStore := {|
  sdb := list (list VmsValue);
  s_open := fun _ => Some [];
  s_exec := fun _ d => Some d;
  s_prepare := fun _ _ => true;
  s_bind := fun _ => true;
  s_insert := fun r d => Some (d ++ [r]);
  s_rows := id
|}.

Lemma ListStoreLaws : @SnapshotLaws ListStore.
Proof. split; cbn; intros; by simplify_eq. Qed.

Definition demo_src : VmsQuerySource :=
  mkQS (str "select a, b from t")
    [mkCol (str "a") [] CT_INT64 1 0 0 4 10 0; mkCol (str "b") [] CT_TEXT 1 0 0 40 0 0].

Definition demo_scan (_ : list Z) : QueryResult := QRows [[VAL_INT64 1; VAL_TEXT (str "x")]; [VAL_INT64 2; VAL_NULL]] None.
Definition demo_mat : @VmsMat ListStore := @mkMat ListStore MAT_TEMP MAT_BUILDING None 10 100 0 false.
Definition no_cancel (_ : nat) : bool := false.
Definition demo_built := @vms_mat_build ListStore no_cancel demo_scan demo_mat demo_src.


Lemma mat_build_succeeds_witness :
  exists m', vms_mat_build no_cancel demo_scan demo_mat demo_src = (m', true, err_zero) /\ m_state m' = MAT_PUBLISHED.
Proof.
  eapply (@mat_build_succeeds ListStore no_cancel demo_scan demo_mat demo_src).
  - split_and!; intros; try reflexivity; eexists; reflexivity.
  - reflexivity.
  - reflexivity.
  - discriminate.
  - reflexivity.
  - instantiate (1 := [[VAL_INT64 1; VAL_TEXT (str "x")]; [VAL_INT64 2; VAL_NULL]]). vm_compute. congruence.
  - vm_compute. reflexivity.
  - vm_compute. reflexivity.
  - vm_compute. reflexivity.
  - vm_compute. reflexivity.
  - reflexivity.
  - repeat constructor.
Defined.

(** A value of the separate kind for long texts would not be bound; the decoder
    of the adapter never makes one. *)
Example bigtext_never_materialized :
  let scan _ := QRows [[VAL_INT64 1; VAL_BIGTEXT (str "long")]] None in
  let '(m, ok, e) := @vms_mat_build ListStore no_cancel scan demo_mat demo_src in
  ok = false /\ m_state m = MAT_FAILED /\ message e = str "materialization: bind failed".
Proof. vm_compute. split_and!; reflexivity. Qed.

(** The message of a failed cursor open is read after it was cleared. *)
Example open_failure_message_lost :
  let scan _ := QExecError (mkError VMS_ERR_TRANSPORT (str "08S01") 0 (str "link down")) in
  message (snd (@vms_mat_build ListStore no_cancel scan demo_mat demo_src)) = str "materialization: ".
Proof. vm_compute. reflexivity. Qed.

(** ** The file of a snapshot *)

(** The path: [tmpdir] is the directory for temporary files, [pid] the process
    and [tick] the milliseconds since the start of the system. *)
Definition mat_path (mode : VmsMatMode) (tmpdir : list Z) (pid tick : Z) : list Z :=
  if bool_decide (mode = MAT_MEMORY) then str ":memory:"
  else trunc_copy 512 (tmpdir ++ trunc_copy 96 (str "vms_mat_" ++ print_u pid ++ str "_" ++ print_u tick ++ str ".db")).

Definition vms_mat_table_name : list Z := str "vms_snapshot".

(** What the destructor does, in order. *)
Inductive mat_event : Type := MeClose | MeDelete (path : list Z) | MeFree.

Definition vms_mat_destroy `{SnapshotStore} (m : option VmsMat) (path : list Z) : list mat_event :=
  match m with
  | None => []
  | Some m =>
      (if bool_decide (is_Some (m_db m)) then [MeClose] else []) ++
      (if bool_decide (m_mode m = MAT_TEMP) && negb (bool_decide (path = [])) && negb (str_eqb path (str ":memory:"))
       then [MeDelete path] else []) ++ [MeFree]
  end.

(** [vms_mat_cancel]: from the call on, the flag the row loop reads is set. *)
Definition vms_mat_cancel (since : nat) (cancelled : nat -> bool) : nat -> bool :=
  fun k => (since <=? k)%nat || cancelled k.

(** A cancelled build stops at the first row it reads after the cancellation:
    it stores no further row. *)
Lemma cancel_stops `{SnapshotStore} mx n k batch rows r todo fin d cancelled :
  stream (vms_mat_cancel k cancelled) mx n k batch rows (r :: todo) fin d = inr (rows, str "cancelled").
Proof. cbn [stream]. unfold vms_mat_cancel. by rewrite Nat.leb_refl. Qed.

(** The file is removed after the database is closed, and only a temporary
    one. *)
Lemma mat_destroy_order `{SnapshotStore} (m : VmsMat) path :
  m_mode m = MAT_TEMP -> is_Some (m_db m) -> path <> [] -> path <> str ":memory:" ->
  vms_mat_destroy (Some m) path = [MeClose; MeDelete path; MeFree].
Proof.
  intros Hm Hd Hp Hq. unfold vms_mat_destroy. rewrite (bool_decide_eq_true_2 _ Hd), (bool_decide_eq_true_2 _ Hm).
  rewrite (bool_decide_eq_false_2 _ Hp). destruct (str_eqb path (str ":memory:")) eqn:E; [by apply str_eqb_eq in E|done].
Qed.

(** Two snapshots made by one process in the same tick share their file. *)
Lemma mat_path_collision tmpdir pid tick mode1 mode2 :
  mode1 <> MAT_MEMORY -> mode2 <> MAT_MEMORY -> mat_path mode1 tmpdir pid tick = mat_path mode2 tmpdir pid tick.
Proof. intros H1 H2. unfold mat_path. by rewrite (bool_decide_eq_false_2 _ H1), (bool_decide_eq_false_2 _ H2). Qed.
