(* ===== verification/Config.v ===== *)
(** * Profiles, credentials and connection strings
    (src/src/vms_connstr.c, src/src/vms_credentials.c)

    A profile is parsed from a strict key=value grammar and rendered as an
    ODBC connection string; SQL logins are resolved through the active
    credential provider, whose secrets pass through one static buffer. *)

From S2P Require Import Prelude Foundation Client Identity Lexer Meta QuerySource.

(** ** Credentials *)

(** A provider: the secret of a key, or an error; [secret_end] wipes. *)
Record VmsCredProviderV1 := mkProv {
  abi_version : Z;
  prov_name : option (list Z);
  secret_begin : option (list Z -> VmsError + list Z);
  secret_end : bool
}.

Definition VMS_CRED_PROVIDER_ABI_VERSION : Z := 1.

Definition vms_cred_provider_valid (p : option VmsCredProviderV1) : bool :=
  match p with
  | Some p =>
      (abi_version p =? VMS_CRED_PROVIDER_ABI_VERSION) && bool_decide (is_Some (prov_name p)) &&
      match secret_begin p with Some _ => secret_end p | None => false end
  | None => false
  end.

(** The static buffer of 512 units, as its text; [[]] when it is wiped. *)
Definition SecretBuf : Type := list Z.

Section Dispatcher.
Variable provider : option VmsCredProviderV1.

Definition vms_cred_secret_begin (key : list Z) (buf : SecretBuf) : (VmsError + list Z) * SecretBuf :=
  match provider ≫= secret_begin with
  | None => (inl (invalid err_zero (str "credential ref: bad args/provider")), buf)
  | Some f => match f key with inl e => (inl e, buf) | inr s => (inr s, s) end
  end.

(** [secret] is NULL when nothing was opened. *)
Definition vms_cred_secret_end (opened : bool) (buf : SecretBuf) : SecretBuf :=
  match provider with Some p => if opened && secret_end p then [] else buf | None => buf end.

End Dispatcher.

(** *** The in-memory provider *)

(** The list of entries, most recent key first; an entry loses its secret
    when replacing it fails. *)
Definition MemEntries : Type := list (list Z * option (list Z)).

(** [ok] is the outcome of the allocations.  The old secret is wiped over its
    length first, which reads through the pointer of the entry. *)
Fixpoint mem_replace (ok : bool) (key secret : list Z) (es : MemEntries) : cres (option MemEntries) :=
  match es with
  | [] => Ret None
  | (k, s) :: es' =>
      if str_eqb k key then
        match s with
        | None => Fault OobRead
        | Some _ => Ret (Some ((k, if ok then Some secret else None) :: es'))
        end
      else r ← mem_replace ok key secret es'; Ret (option_map (cons (k, s)) r)
  end.

Definition vms_cred_memory_set (ok : bool) (key secret : list Z) (es : MemEntries) : cres (bool * MemEntries) :=
  r ← mem_replace ok key secret es;
  Ret (match r with
       | Some es' => (ok, es')
       | None => if ok then (true, (key, Some secret) :: es) else (false, es)
       end).

Fixpoint mem_secret_begin (es : MemEntries) (key : list Z) : cres (VmsError + list Z) :=
  match es with
  | [] => Ret (inl (invalid err_zero (str "credential key not found")))
  | (k, s) :: es' =>
      if str_eqb k key then
        match s with
        | None => Fault OobRead
        | Some s => if zlen s + 1 >? 512 then Ret (inl (invalid err_zero (str "secret too large"))) else Ret (inr s)
        end
      else mem_secret_begin es' key
  end.

(** *** The provider of the Windows Credential Manager *)

(** An answer of [CredReadW]: the error code, or the whole units of the blob
    (a trailing odd byte is dropped by the division). *)
Inductive cred_answer : Type :=
| CredError (code : Z)
| CredBlob (units : list Z).

Definition ERROR_NOT_FOUND : Z := 1168.
Definition VMS_WCRED_PREFIX : list Z := str "VirtualMSSQL/".

(** The units of the buffer up to its first terminator are the secret the
    caller sees; the reported length is the second component.  The text of
    the first error is that of an ASCII key. *)
Definition wcred_secret_begin (cred_read : list Z -> cred_answer) (key : list Z) (max_len : Z) :
    VmsError + (list Z * Z) :=
  if zlen key + zlen VMS_WCRED_PREFIX + 1 >? 300 then inl (invalid err_zero (str "credential key too long"))
  else
    match cred_read (VMS_WCRED_PREFIX ++ key) with
    | CredError e =>
        if e =? ERROR_NOT_FOUND then
          inl (invalid err_zero (str "credential '" ++ key ++ str "' not found in Windows Credential Manager"))
        else inl (default err_zero (vms_error_set (Some err_zero) VMS_ERR_INTERNAL None 0
                    (fun _ => str "CredRead failed (winerror=" ++ print_u e ++ str ")")))
    | CredBlob units =>
        let n := zlen units in
        if n + 1 >? max_len then inl (invalid err_zero (str "secret too large for buffer"))
        else
          let n := if (n >? 0) && (default 0 (last units) =? 0) then n - 1 else n in
          inr (fst (span (fun u => negb (u =? 0)) (take (Z.to_nat n) units)), n)
    end.

(** A secret without embedded terminators comes back as it was stored, with
    or without its terminator in the blob, whenever it fits; the name asked
    for is the key under the prefix, never truncated. *)
Lemma wcred_roundtrip cred_read key secret term max_len :
  cstring secret -> zlen key <= 286 -> zlen secret + 2 <= max_len -> (term = [] \/ term = [0]) ->
  cred_read (VMS_WCRED_PREFIX ++ key) = CredBlob (secret ++ term) ->
  wcred_secret_begin cred_read key max_len = inr (secret, zlen secret).
Proof.
  intros Hs Hk Hm Ht Hc. unfold wcred_secret_begin.
  assert (zlen VMS_WCRED_PREFIX = 13) as -> by reflexivity.
  destruct (zlen key + 13 + 1 >? 300) eqn:E1; [blia|]. rewrite Hc, zlen_app.
  destruct (zlen secret + zlen term + 1 >? max_len) eqn:E2.
  { destruct Ht as [-> | ->]; cbn in E2; unfold zlen in *; simpl in *; blia. }
  assert (Hspan : span (fun u => negb (u =? 0)) secret = (secret, [])).
  { pose proof (span_all (fun u => negb (u =? 0)) secret []) as Hp. rewrite app_nil_r in Hp. apply Hp; [|done].
    eapply Forall_impl; [exact Hs|]. intros u Hu. cbn. apply negb_true_iff. by apply Z.eqb_neq. }
  destruct Ht as [-> | ->].
  - rewrite app_nil_r. replace (zlen secret + zlen []) with (zlen secret) by (unfold zlen; simpl; lia). assert (H : (zlen secret >? 0) && (default 0 (last secret) =? 0) = false).
    { destruct (last secret) as [u|] eqn:El.
      - apply last_Some in El as [l' ->]. apply Forall_app in Hs as [_ Hu]. apply Forall_inv in Hu. 
        cbn [default from_option id]. rewrite (proj2 (Z.eqb_neq u 0) Hu). apply andb_false_r.
      - apply last_None in El as ->. done. }
    rewrite H. unfold zlen. rewrite Nat2Z.id, firstn_all. by rewrite Hspan.
  - rewrite last_snoc. cbn [default from_option id]. rewrite Z.eqb_refl, andb_true_r.
    assert (Hz : zlen secret + zlen [0] = zlen secret + 1) by reflexivity. rewrite Hz.
    rewrite (proj2 (Z.gtb_lt _ _)) by (pose proof (zlen_nonneg secret); lia).
    replace (zlen secret + 1 - 1) with (zlen secret) by lia.
    unfold zlen. rewrite Nat2Z.id, take_app_length. by rewrite Hspan.
Qed.

(** ** Profiles *)

Inductive VmsAuthMode : Type := AUTH_SQL | AUTH_WINDOWS.
Inductive VmsTlsMode : Type := TLS_VERIFY | TLS_TRUST_SERVER_CERTIFICATE | TLS_OPTIONAL.

#[global] Instance VmsAuthMode_eq_dec : EqDecision VmsAuthMode.
Proof. solve_decision. Defined.
#[global] Instance VmsTlsMode_eq_dec : EqDecision VmsTlsMode.
Proof. solve_decision. Defined.

Record VmsProfile := mkProfile {
  server : list Z;
  database : list Z;
  auth : VmsAuthMode;
  cred_key : list Z;
  tls : VmsTlsMode;
  login_timeout_sec : Z;
  query_timeout_sec : Z;
  app_name : list Z;
  mars : bool
}.

Definition vms_profile_defaults : VmsProfile :=
  mkProfile [] [] AUTH_SQL [] TLS_VERIFY 10 0 (str "VirtualMSSQL") false.

Definition semi : Z := chr ";".

(** The pieces between separators. *)
Fixpoint split_at (sep : Z) (s : list Z) : list (list Z) :=
  match s with
  | [] => [[]]
  | c :: s' =>
      if c =? sep then [] :: split_at sep s'
      else match split_at sep s' with [] => [[c]] | p :: ps => (c :: p) :: ps end
  end.

(** [strtok_s] over the whole text: empty pieces are skipped. *)
Definition tokens (spec : list Z) : list (list Z) :=
  List.filter (fun t => negb (bool_decide (t = []))) (split_at semi spec).

Definition split_kv (t : list Z) : option (list Z * list Z) :=
  match span (fun c => negb (c =? chr "=")) t with
  | (_, []) => None
  | (k, _ :: v) =>
      if (zlen k =? 0) || (zlen k >=? 32) || (zlen v >=? 256) then None
      else Some (snd (span (fun c => c =? 32) k), v)
  end.

Fixpoint eqi (a b : list Z) : bool :=
  match a, b with
  | x :: a', y :: b' => if tolower x =? tolower y then eqi a' b' else false
  | [], [] => true
  | _, _ => false
  end.

(** [atoi] of the C library: the value of the leading numeral, saturated. *)
Definition atoi (s : list Z) : Z :=
  let s1 := snd (span isspace s) in
  let '(neg, s2) :=
    match s1 with
    | c :: r => if c =? chr "-" then (true, r) else if c =? chr "+" then (false, r) else (false, s1)
    | [] => (false, [])
    end in
  let v := foldl digit_step 0 (fst (span isdigit s2)) in
  if neg then Z.max (- 2 ^ 31) (- v) else Z.min INT_MAX v.

Section Parse.
Context `{StrictConv}.

Definition copy_wide (cap : Z) (s : list Z) : option (list Z) := to_wide_strict cap s.

Definition is_key (k : list Z) (names : list string) : bool := existsb (fun n => eqi k (str n)) names.

(** One key=value pair; the error text when it is refused.  The flag says that
    a server was given. *)
Definition apply_kv (p : VmsProfile) (have_server : bool) (k v : list Z) : list Z + (VmsProfile * bool) :=
  let '(mkProfile sv db au cr tl lt qt ap ma) := p in
  if is_key k ["server"; "host"]%string then
    match copy_wide 256 v with
    | None => inl (str "server too long/invalid")
    | Some w => inr (mkProfile w db au cr tl lt qt ap ma, true)
    end
  else if is_key k ["db"; "database"]%string then
    match copy_wide 128 v with
    | None => inl (str "db too long/invalid")
    | Some w => inr (mkProfile sv w au cr tl lt qt ap ma, have_server)
    end
  else if is_key k ["auth"]%string then
    if eqi v (str "sql") then inr (mkProfile sv db AUTH_SQL cr tl lt qt ap ma, have_server)
    else if eqi v (str "windows") then inr (mkProfile sv db AUTH_WINDOWS cr tl lt qt ap ma, have_server)
    else inl (str "auth must be sql|windows, got '" ++ v ++ str "'")
  else if is_key k ["cred"]%string then
    match copy_wide 256 v with
    | None => inl (str "cred key too long")
    | Some w => inr (mkProfile sv db au w tl lt qt ap ma, have_server)
    end
  else if is_key k ["tls"]%string then
    if eqi v (str "verify") then inr (mkProfile sv db au cr TLS_VERIFY lt qt ap ma, have_server)
    else if eqi v (str "trust_server_certificate") || eqi v (str "trust") then
      inr (mkProfile sv db au cr TLS_TRUST_SERVER_CERTIFICATE lt qt ap ma, have_server)
    else if eqi v (str "optional") then inr (mkProfile sv db au cr TLS_OPTIONAL lt qt ap ma, have_server)
    else inl (str "tls must be verify|trust_server_certificate|optional, got '" ++ v ++ str "'")
  else if is_key k ["login_timeout"]%string then
    inr (mkProfile sv db au cr tl (Z.max 0 (atoi v)) qt ap ma, have_server)
  else if is_key k ["query_timeout"]%string then
    inr (mkProfile sv db au cr tl lt (Z.max 0 (atoi v)) ap ma, have_server)
  else if is_key k ["app"]%string then
    match copy_wide 64 v with
    | None => inl (str "app name too long")
    | Some w => inr (mkProfile sv db au cr tl lt qt w ma, have_server)
    end
  else inl (str "unknown key '" ++ k ++ str "' (strict grammar)").

Fixpoint parse_loop (ts : list (list Z)) (p : VmsProfile) (have_server : bool) : list Z + (VmsProfile * bool) :=
  match ts with
  | [] => inr (p, have_server)
  | t :: ts' =>
      match split_kv t with
      | None =>
          (* the token was cut at its equals sign *)
          inl (str "invalid token '" ++ fst (span (fun c => negb (c =? chr "=")) t) ++ str "' (expected key=value)")
      | Some (k, v) =>
          match apply_kv p have_server k v with
          | inl m => inl m
          | inr (p, h) => parse_loop ts' p h
          end
      end
  end.

Definition vms_profile_parse (dup_ok : bool) (spec : option (list Z)) : VmsError + VmsProfile :=
  match spec with
  | None => inl (invalid err_zero (str "profile parse: bad args"))
  | Some spec =>
      if negb dup_ok then
        inl (default err_zero (vms_error_set (Some err_zero) VMS_ERR_NO_MEMORY None 0 (fun _ => str "OOM profile parse")))
      else match parse_loop (tokens spec) vms_profile_defaults false with
           | inl m => inl (invalid err_zero m)
           | inr (p, have_server) =>
               if negb have_server || bool_decide (server p = []) then inl (invalid err_zero (str "server is required"))
               else if bool_decide (auth p = AUTH_SQL) && bool_decide (cred_key p = []) then
                 inl (invalid err_zero (str "auth=sql requires cred=<credential key>"))
               else inr p
           end
  end.

End Parse.

(** ** Connection strings *)

(** The accumulator: text and capacity; a block given back is not wiped. *)
Record WAcc := mkAcc { acc_text : list Z; acc_cap : Z; acc_freed : list (list Z) }.

Definition acc_zero : WAcc := mkAcc [] 0 [].

Fixpoint double_until (fuel : nat) (need ncap : Z) : Z :=
  match fuel with
  | O => ncap
  | S f => if need >? ncap then double_until f need (ncap * 2) else ncap
  end.

Section Build.
Context `{Platform}.
(** Outcome of an allocation of so many bytes. *)
Variable alloc : Z -> bool.
Variable provider : option VmsCredProviderV1.

(** Sixty-four doublings exceed every size. *)
Definition wacc_reserve (a : WAcc) (extra : Z) : option WAcc :=
  let len := zlen (acc_text a) in
  let small := match vms_add_sz len extra with Some need => need + 1 >? acc_cap a | None => true end in
  if negb small then Some a
  else
    let ncap := double_until 64 (len + extra + 1) (if acc_cap a =? 0 then 512 else acc_cap a * 2) in
    if negb (alloc (ncap * 2)) then None
    else Some (mkAcc (acc_text a) ncap (if acc_cap a =? 0 then acc_freed a else acc_text a :: acc_freed a)).

Definition wacc_add (s : list Z) (a : WAcc) : option WAcc :=
  a ← wacc_reserve a (zlen s); Some (mkAcc (acc_text a ++ s) (acc_cap a) (acc_freed a)).

Definition wacc_add_int (v : Z) : WAcc -> option WAcc := wacc_add (trunc_copy 24 (print_i v)).

Fixpoint wacc_adds (ss : list (list Z)) (a : WAcc) : option WAcc :=
  match ss with [] => Some a | s :: ss' => a ← wacc_add s a; wacc_adds ss' a end.

Definition tls_text (t : VmsTlsMode) : list Z :=
  match t with
  | TLS_VERIFY => str "Encrypt=Yes;TrustServerCertificate=No;"
  | TLS_TRUST_SERVER_CERTIFICATE => str "Encrypt=Yes;TrustServerCertificate=Yes;"
  | TLS_OPTIONAL => str "Encrypt=Optional;TrustServerCertificate=No;"
  end.

(** The key of a secret: [_snwprintf_s] into 280 units, then [wcscpy_s] into
    256, which aborts when it does not fit. *)
Definition secret_key (cred suffix : list Z) : cres (list Z) :=
  let k := trunc_copy 280 (cred ++ suffix) in
  if zlen k + 1 >? 256 then Fault InvalidParam else Ret k.

Definition must_expose (p : VmsProfile) (e : VmsError) : VmsError :=
  invalid e (str "credential '" ++ cred_key p ++ str "' must expose :uid and :pwd entries").

(** The login part: the accumulator, [None] once an addition failed, an error
    when a secret is missing, and the static buffer. *)
Definition add_login (p : VmsProfile) (a : option WAcc) (buf : SecretBuf) : cres ((VmsError + option WAcc) * SecretBuf) :=
  ku ← secret_key (cred_key p) (str ":uid");
  kp ← secret_key (cred_key p) (str ":pwd");
  let a := a ≫= wacc_add (str "UID=") in
  match vms_cred_secret_begin provider ku buf with
  | (inl e, buf) => Ret (inl (must_expose p e), buf)
  | (inr su, buf) =>
      (* [wacc_add] runs whether or not an earlier addition failed *)
      match wacc_add su (default acc_zero a) with
      | None => Ret (inl (must_expose p err_zero), vms_cred_secret_end provider true buf)
      | Some a1 =>
          match vms_cred_secret_begin provider kp buf with
          | (inl e, buf) => Ret (inl (must_expose p e), vms_cred_secret_end provider true buf)
          | (inr sp, buf) =>
              let a := match a with Some _ => Some a1 | None => None end in
              let a := a ≫= wacc_adds [str ";PWD="; sp; str ";"] in
              Ret (inr a, vms_cred_secret_end provider true (vms_cred_secret_end provider true buf))
          end
      end
  end.

(** Driver, server and database. *)
Definition add_head (p : VmsProfile) : option WAcc :=
  a ← wacc_adds [str "Driver={ODBC Driver 18 for SQL Server};Server="; server p; str ";"] acc_zero;
  if bool_decide (database p = []) then Some a else wacc_adds [str "Database="; database p; str ";"] a.

(** Everything after the login. *)
Definition add_tail (p : VmsProfile) (a : WAcc) : option WAcc :=
  a ← wacc_adds [tls_text (tls p); str "ConnectRetryCount=0;ConnectRetryInterval=1;MARS_Connection=";
                 if mars p then str "Yes" else str "No"; str ";"; str "APP="; app_name p; str ";"] a;
  if login_timeout_sec p >? 0 then
    a ← wacc_add (str "LoginTimeout=") a; a ← wacc_add_int (login_timeout_sec p) a; wacc_add (str ";") a
  else Some a.

(** The result is the string or the error, and the static buffer. *)
Definition vms_connstr_build (p : VmsProfile) (buf : SecretBuf) : cres ((VmsError + list Z) * SecretBuf) :=
  if bool_decide (server p = []) then Ret (inl (invalid err_zero (str "connstr build: bad args")), buf)
  else
    let a := add_head p in
    r ← (match auth p return cres ((VmsError + option WAcc) * SecretBuf) with
         | AUTH_WINDOWS => Ret (inr (a ≫= wacc_add (str "Trusted_Connection=Yes;")), buf)
         | AUTH_SQL => add_login p a buf
         end);
    match r with
    | (inl e, buf) => Ret (inl e, buf)
    | (inr a, buf) =>
        Ret (match a ≫= add_tail p with
             | None => inl (default err_zero (vms_error_set (Some err_zero) VMS_ERR_NO_MEMORY None 0
                                                (fun _ => str "OOM connstr build")))
             | Some a => inr (acc_text a)
             end, buf)
    end.

End Build.

(** ** Splitting *)

Lemma split_at_nonempty sep s : split_at sep s <> [].
Proof. destruct s as [|c s]; simpl; [done|]. destruct (c =? sep); [done|]. by destruct (split_at sep s). Qed.

Lemma split_at_piece sep a s : sep ∉ a -> split_at sep (a ++ sep :: s) = a :: split_at sep s.
Proof.
  induction a as [|c a IH]; intros Ha; simpl.
  - by rewrite Z.eqb_refl.
  - apply not_elem_of_cons in Ha as [Hc Ha]. replace (c =? sep) with false by (symmetry; apply Z.eqb_neq; congruence).
    by rewrite IH.
Qed.

Lemma split_at_last sep a : sep ∉ a -> split_at sep a = [a].
Proof.
  induction a as [|c a IH]; intros Ha; simpl; [done|]. apply not_elem_of_cons in Ha as [Hc Ha].
  replace (c =? sep) with false by (symmetry; apply Z.eqb_neq; congruence). by rewrite IH.
Qed.

Definition terminated (attrs : list (list Z)) : list Z := flat_map (fun a => a ++ [semi]) attrs.

Lemma split_terminated attrs :
  Forall (fun a => semi ∉ a) attrs -> split_at semi (terminated attrs) = attrs ++ [[]].
Proof.
  induction 1 as [|a attrs Ha _ IH]; [done|]. simpl. rewrite <- app_assoc. simpl.
  rewrite split_at_piece by done. by rewrite IH.
Qed.

Lemma split_pieces_clean sep s : Forall (fun a => sep ∉ a) (split_at sep s).
Proof.
  induction s as [|c s IH]; simpl; [constructor; [apply not_elem_of_nil|constructor]|].
  destruct (c =? sep) eqn:E; b2p; [constructor; [apply not_elem_of_nil|done]|].
  pose proof (split_at_nonempty sep s). destruct (split_at sep s) as [|p ps]; [done|].
  inversion IH as [|?? Hp Hps]; subst. constructor; [|done]. apply not_elem_of_cons. split; [congruence|done].
Qed.

(** ** The accumulator *)

Section Accumulator.
Context `{Platform}.
Variable alloc : Z -> bool.

Lemma double_until_enough fuel need : forall ncap,
  0 < ncap -> need <= ncap * 2 ^ Z.of_nat fuel -> need <= double_until fuel need ncap.
Proof.
  induction fuel as [|f IH]; intros ncap Hn Hf; simpl double_until; [simpl in Hf; lia|].
  destruct (need >? ncap) eqn:E; b2p; [|lia]. apply IH; [lia|].
  rewrite Nat2Z.inj_succ, Z.pow_succ_r in Hf by lia. lia.
Qed.

(** The text and its terminator always fit the block. *)
Definition acc_ok (a : WAcc) : Prop := 0 <= acc_cap a /\ (if acc_cap a =? 0 then acc_text a = [] else zlen (acc_text a) + 1 <= acc_cap a).

Lemma wacc_add_spec s a a' :
  acc_ok a -> zlen (acc_text a) + zlen s + 1 <= 2 ^ 64 -> wacc_add alloc s a = Some a' ->
  acc_text a' = acc_text a ++ s /\ acc_ok a'.
Proof.
  intros [Hc Hok] Hs. unfold wacc_add, wacc_reserve. pose proof (zlen_nonneg (acc_text a)). pose proof (zlen_nonneg s).
  set (ncap := double_until _ _ _).
  assert (Hn : zlen (acc_text a) + zlen s + 1 <= ncap).
  { apply double_until_enough; [destruct (acc_cap a =? 0) eqn:E; b2p; lia|].
    change (2 ^ Z.of_nat 64) with (2 ^ 64). destruct (acc_cap a =? 0) eqn:E; b2p; nia. }
  destruct (match vms_add_sz _ _ with Some need => _ | None => true end) eqn:Es; cbn [negb].
  - destruct (alloc _); cbn [negb]; [|done]. intros [= <-]. split; [done|]. split; [simpl; lia|]. simpl.
    replace (ncap =? 0) with false by (symmetry; apply Z.eqb_neq; lia). rewrite zlen_app. lia.
  - cbn [mbind option_bind]. intros [= <-]. split; [done|]. unfold vms_add_sz in Es.
    destruct (_ >? SIZE_MAX - _) eqn:Ez; [done|]. b2p. rewrite wrap_sz_small in Es by (split; lia).
    split; [done|]. simpl. rewrite zlen_app. destruct (acc_cap a =? 0) eqn:E; b2p; lia.
Qed.

Lemma wacc_add_text s a a' : wacc_add alloc s a = Some a' -> acc_text a' = acc_text a ++ s.
Proof.
  unfold wacc_add, wacc_reserve. destruct (negb _); [by intros [= <-]|].
  destruct (negb _); [done|]. by intros [= <-].
Qed.

Lemma wacc_adds_text ss : forall a a', wacc_adds alloc ss a = Some a' -> acc_text a' = acc_text a ++ concat ss.
Proof.
  induction ss as [|s ss IH]; intros a a'; simpl; [intros [= <-]; by rewrite app_nil_r|].
  destruct (wacc_add alloc s a) as [a1|] eqn:E; [|done]. cbn [mbind option_bind]. intros ->%IH.
  by rewrite (wacc_add_text _ _ _ E), app_assoc.
Qed.

End Accumulator.

(** A concrete text without a separator. *)
Ltac no_semi := refine (bool_decide_eq_false_1 _ _); vm_compute; reflexivity.

(** ** Attributes of the connection string *)

Section Attributes.
Context `{Platform} `{StrictConv}.
Variable alloc : Z -> bool.
Variable provider : option VmsCredProviderV1.

(** The attributes of a profile with its login attributes. *)
Definition tls_attrs (t : VmsTlsMode) : list (list Z) :=
  match t with
  | TLS_VERIFY => [str "Encrypt=Yes"; str "TrustServerCertificate=No"]
  | TLS_TRUST_SERVER_CERTIFICATE => [str "Encrypt=Yes"; str "TrustServerCertificate=Yes"]
  | TLS_OPTIONAL => [str "Encrypt=Optional"; str "TrustServerCertificate=No"]
  end.

Definition login_attrs (p : VmsProfile) (uid pwd : list Z) : list (list Z) :=
  match auth p with
  | AUTH_WINDOWS => [str "Trusted_Connection=Yes"]
  | AUTH_SQL => [str "UID=" ++ uid; str "PWD=" ++ pwd]
  end.

Definition attributes (p : VmsProfile) (uid pwd : list Z) : list (list Z) :=
  [str "Driver={ODBC Driver 18 for SQL Server}"; str "Server=" ++ server p] ++
  (if bool_decide (database p = []) then [] else [str "Database=" ++ database p]) ++
  login_attrs p uid pwd ++ tls_attrs (tls p) ++
  [str "ConnectRetryCount=0"; str "ConnectRetryInterval=1";
   str "MARS_Connection=" ++ (if mars p then str "Yes" else str "No"); str "APP=" ++ app_name p] ++
  (if login_timeout_sec p >? 0 then [str "LoginTimeout=" ++ trunc_copy 24 (print_i (login_timeout_sec p))] else []).

(** The secrets a build reads, when both can be opened. *)
Definition login_of (p : VmsProfile) (uid pwd : list Z) : Prop :=
  match auth p with
  | AUTH_WINDOWS => True
  | AUTH_SQL => exists f, provider ≫= secret_begin = Some f /\
      f (cred_key p ++ str ":uid") = inr uid /\ f (cred_key p ++ str ":pwd") = inr pwd
  end.

Lemma secret_key_Ret c s k : secret_key c s = Ret k -> k = c ++ s.
Proof.
  unfold secret_key. destruct (_ >? _) eqn:E; [done|]. b2p. intros [= <-]. unfold trunc_copy, zlen in *.
  rewrite length_take in E. rewrite take_ge; [done|lia].
Qed.

Lemma add_login_spec p a buf r buf' :
  add_login alloc provider p a buf = Ret (r, buf') ->
  (forall oa, r = inr oa ->
     exists f uid pwd, provider ≫= secret_begin = Some f /\
       f (cred_key p ++ str ":uid") = inr uid /\ f (cred_key p ++ str ":pwd") = inr pwd /\
       forall a2, oa = Some a2 -> exists a1, a = Some a1 /\
         acc_text a2 = acc_text a1 ++ str "UID=" ++ uid ++ str ";PWD=" ++ pwd ++ str ";").
Proof.
  unfold add_login. destruct (secret_key _ (str ":uid")) as [ku|] eqn:Eu; [|done]. cbn [mbind cres_bind].
  destruct (secret_key _ (str ":pwd")) as [kp|] eqn:Ep; [|done]. cbn [mbind cres_bind].
  apply secret_key_Ret in Eu, Ep. subst ku kp. unfold vms_cred_secret_begin.
  destruct (provider ≫= secret_begin) as [f|]; [|intros [= <- <-]; by intros oa]. 
  destruct (f (cred_key p ++ str ":uid")) as [e|uid] eqn:E1; [intros [= <- <-]; by intros oa|].
  destruct (wacc_add alloc uid _) as [a1|] eqn:Ea; [|intros [= <- <-]; by intros oa].
  destruct (f (cred_key p ++ str ":pwd")) as [e|pwd] eqn:E2; [intros [= <- <-]; by intros oa|].
  intros [= <- <-] oa [= <-]. exists f, uid, pwd. split_and!; try done. intros a2 Ha2.
  destruct a as [a0|]; [|done]. exists a0. split; [done|]. cbn [mbind option_bind] in Ea, Ha2.
  destruct (wacc_add alloc (str "UID=") a0) as [a3|] eqn:E3; [|done].
  cbn [default mbind option_bind] in Ea, Ha2. apply wacc_add_text in E3, Ea.
  apply (wacc_adds_text alloc [str ";PWD="; pwd; str ";"] a1) in Ha2.
  cbn [id] in Ea. rewrite Ha2, Ea, E3. cbn [concat]. by rewrite <- !app_assoc, app_nil_r.
Qed.

(** Both sides are the same concatenation. *)
Ltac same_text :=
  unfold terminated; simpl; repeat first [rewrite <- app_assoc; simpl | rewrite app_nil_r; simpl]; reflexivity.

Lemma head_text p a :
  add_head alloc p = Some a ->
  acc_text a = terminated ([str "Driver={ODBC Driver 18 for SQL Server}"; str "Server=" ++ server p] ++
    (if bool_decide (database p = []) then [] else [str "Database=" ++ database p])).
Proof.
  unfold add_head. destruct (wacc_adds alloc [_; server p; _] acc_zero) as [b|] eqn:Eb; [|done].
  apply (wacc_adds_text alloc [_; server p; _]) in Eb. cbn [mbind option_bind]. destruct (bool_decide (database p = [])).
  - intros [= <-]. rewrite Eb. same_text.
  - intros Ha. apply (wacc_adds_text alloc [_; database p; _]) in Ha. rewrite Ha, Eb. same_text.
Qed.

Lemma tls_text_attrs t : tls_text t = terminated (tls_attrs t).
Proof. by destruct t. Qed.

Lemma terminated_app x y : terminated (x ++ y) = terminated x ++ terminated y.
Proof. apply flat_map_app. Qed.

Lemma tail_text p a a' :
  add_tail alloc p a = Some a' ->
  acc_text a' = acc_text a ++ terminated (tls_attrs (tls p) ++
    [str "ConnectRetryCount=0"; str "ConnectRetryInterval=1";
     str "MARS_Connection=" ++ (if mars p then str "Yes" else str "No"); str "APP=" ++ app_name p] ++
    (if login_timeout_sec p >? 0 then [str "LoginTimeout=" ++ trunc_copy 24 (print_i (login_timeout_sec p))] else [])).
Proof.
  unfold add_tail. destruct (wacc_adds alloc _ a) as [b|] eqn:Eb; [|done]. apply wacc_adds_text in Eb.
  cbn [mbind option_bind]. cbn [concat] in Eb. rewrite !terminated_app. rewrite tls_text_attrs in Eb.
  destruct (login_timeout_sec p >? 0).
  - destruct (wacc_add alloc (str "LoginTimeout=") b) as [c|] eqn:Ec; [|done]. cbn [mbind option_bind].
    destruct (wacc_add_int alloc (login_timeout_sec p) c) as [d|] eqn:Ed; [|done]. cbn [mbind option_bind].
    intros He. unfold wacc_add_int in Ed. apply wacc_add_text in Ec, Ed, He. rewrite He, Ed, Ec, Eb.
    generalize (trunc_copy 24 (print_i (login_timeout_sec p))). intros n.
    generalize (if mars p then str "Yes" else str "No"). intros m. same_text.
  - intros [= <-]. rewrite Eb. generalize (if mars p then str "Yes" else str "No"). intros m. same_text.
Qed.

(** The string of a successful build is its attributes, each terminated. *)
Lemma build_text p buf s buf' :
  vms_connstr_build alloc provider p buf = Ret (inr s, buf') ->
  exists uid pwd, login_of p uid pwd /\ s = terminated (attributes p uid pwd).
Proof.
  unfold vms_connstr_build. destruct (bool_decide (server p = [])); [done|].
  unfold login_of, attributes, login_attrs. destruct (auth p).
  - destruct (add_login alloc provider p (add_head alloc p) buf) as [[r b]|] eqn:El; [|done]. cbn [mbind cres_bind].
    destruct r as [e|oa]; [done|].
    destruct (add_login_spec _ _ _ _ _ El oa eq_refl) as (f & uid & pwd & Hf & Hu & Hp & Ht).
    destruct oa as [a2|]; [|done]. cbn [mbind option_bind]. destruct (add_tail alloc p a2) as [a3|] eqn:Et; [|done].
    intros [= <- <-]. exists uid, pwd. split; [by exists f|].
    destruct (Ht a2 eq_refl) as (a1 & Eh & Ha2). rewrite (tail_text _ _ _ Et), Ha2, (head_text _ _ Eh).
    rewrite !terminated_app. rewrite <- !app_assoc. do 2 f_equal. same_text.
  - cbn [mbind cres_bind option_bind]. destruct (add_head alloc p) as [a1|] eqn:Eh; [|done]. cbn [mbind option_bind].
    destruct (wacc_add alloc _ a1) as [a2|] eqn:E2; [|done]. cbn [mbind option_bind].
    destruct (add_tail alloc p a2) as [a3|] eqn:Et; [|done]. intros [= <- <-]. exists [], []. split; [done|].
    rewrite (tail_text _ _ _ Et), (wacc_add_text _ _ _ _ E2), (head_text _ _ Eh).
    rewrite !terminated_app. rewrite <- !app_assoc. do 2 f_equal.
Qed.

(** No field of a parsed profile contains a separator. *)
Definition clean (p : VmsProfile) : Prop :=
  semi ∉ server p /\ semi ∉ database p /\ semi ∉ cred_key p /\ semi ∉ app_name p.

Lemma copy_wide_clean cap v w : semi ∉ v -> copy_wide cap v = Some w -> semi ∉ w.
Proof.
  intros Hv. unfold copy_wide, to_wide_strict. destruct (strict_widen v) as [w'|] eqn:E; [|done]. cbn [mbind option_bind].
  destruct (_ >? _); [done|]. intros [= <-] Hw. apply Hv. eapply strict_widen_unit; [done|done|]. vm_compute. done.
Qed.

Lemma apply_kv_clean p h k v p' h' : clean p -> semi ∉ v -> apply_kv p h k v = inr (p', h') -> clean p'.
Proof.
  intros Hp Hv. destruct p as [sv db au cr tl lt qt ap ma]. destruct Hp as (H1 & H2 & H3 & H4). simpl in *.
  unfold apply_kv.
  repeat match goal with
    | |- (if ?b then _ else _) = _ -> _ => destruct b
    | |- (match copy_wide ?c v with _ => _ end) = _ -> _ =>
        let E := fresh "E" in destruct (copy_wide c v) eqn:E; [apply copy_wide_clean in E; [|done]|done]
    end; try done; intros [= <- <-]; done.
Qed.

Lemma split_kv_value t k v : split_kv t = Some (k, v) -> semi ∉ t -> semi ∉ v.
Proof.
  unfold split_kv. pose proof (span_app (fun c => negb (c =? chr "=")) t) as Ha.
  destruct (span _ t) as [k0 [|c v0]]; [done|]. simpl in Ha. destruct (_ || _); [done|].
  intros [= _ <-] Ht Hv. apply Ht. rewrite <- Ha. apply elem_of_app. right. by right.
Qed.

Lemma parse_loop_clean ts : forall p h p' h',
  Forall (fun t => semi ∉ t) ts -> clean p -> parse_loop ts p h = inr (p', h') -> clean p'.
Proof.
  induction ts as [|t ts IH]; intros p h p' h' Ht Hp; simpl; [by intros [= <- <-]|].
  inversion Ht as [|?? Ht1 Ht2]; subst. destruct (split_kv t) as [[k v]|] eqn:Es; [|done].
  destruct (apply_kv p h k v) as [m|[p1 h1]] eqn:Ea; [done|]. apply IH; [done|].
  eapply apply_kv_clean; [done| |done]. by eapply split_kv_value.
Qed.

Lemma parse_clean d spec p : vms_profile_parse d (Some spec) = inr p -> clean p.
Proof.
  unfold vms_profile_parse. destruct (negb d); [done|].
  destruct (parse_loop _ _ _) as [m|[p1 h1]] eqn:E; [done|]. destruct (_ || _); [done|]. destruct (_ && _); [done|].
  intros [= <-]. refine (parse_loop_clean _ _ _ _ _ _ _ E); [|split_and!; no_semi].
  unfold tokens. pose proof (split_pieces_clean semi spec) as Hc. rewrite Forall_forall in Hc |- *.
  intros t Ht%list_elem_of_In%filter_In. apply Hc, list_elem_of_In. by destruct Ht.
Qed.

Lemma not_elem_app {A} (x : A) l1 l2 : x ∉ l1 -> x ∉ l2 -> x ∉ l1 ++ l2.
Proof. intros H1 H2 [?|?]%elem_of_app; done. Qed.

Lemma print_no_semi n : semi ∉ print_i n.
Proof.
  assert (Hu : forall m, 0 <= m -> semi ∉ print_u m).
  { intros m Hm Hs. pose proof (print_u_isdigit m Hm) as Hd. rewrite Forall_forall in Hd. by specialize (Hd _ Hs). }
  unfold print_i. destruct (n <? 0) eqn:E; b2p; [|apply Hu; lia].
  apply not_elem_of_cons. split; [done|]. apply Hu. lia.
Qed.

Lemma attributes_clean p uid pwd :
  clean p -> semi ∉ uid -> semi ∉ pwd -> Forall (fun a => semi ∉ a) (attributes p uid pwd).
Proof.
  intros (H1 & H2 & _ & H4) Hu Hp. unfold attributes.
  assert (Hlit : forall l x, semi ∉ l -> semi ∉ x -> semi ∉ l ++ x) by (intros; by apply not_elem_app).
  repeat apply Forall_app_2.
  - repeat constructor; [no_semi|apply Hlit; [no_semi|done]].
  - destruct (bool_decide _); repeat constructor. apply Hlit; [no_semi|done].
  - unfold login_attrs. destruct (auth p); repeat constructor; first [apply Hlit; [no_semi|done]|no_semi].
  - destruct (tls p); repeat constructor; no_semi.
  - repeat constructor; [no_semi|no_semi|apply Hlit; [no_semi|destruct (mars p); no_semi]|apply Hlit; [no_semi|done]].
  - destruct (_ >? 0); repeat constructor. apply Hlit; [no_semi|].
    intros Hs%elem_of_take. destruct Hs as (i & Hi & _). apply (print_no_semi (login_timeout_sec p)).
    by eapply list_elem_of_lookup_2.
Qed.


(** Whatever the outcome, a build that opened a secret wipes the static
    buffer. *)
Lemma build_wipes p r buf' pr :
  provider = Some pr -> secret_end pr = true ->
  vms_connstr_build alloc provider p [] = Ret (r, buf') -> buf' = [].
Proof.
  intros Hpr He. unfold vms_connstr_build. destruct (bool_decide (server p = [])); [by intros [= _ <-]|].
  destruct (auth p); [|by cbn [mbind cres_bind]; intros [= _ <-]].
  destruct (add_login alloc provider p (add_head alloc p) []) as [[r1 b1]|] eqn:El; [|done]. cbn [mbind cres_bind].
  assert (Hb : b1 = []).
  { revert El. unfold add_login. destruct (secret_key _ (str ":uid")) as [ku|]; [|done]. cbn [mbind cres_bind].
    destruct (secret_key _ (str ":pwd")) as [kp|]; [|done]. cbn [mbind cres_bind]. unfold vms_cred_secret_begin, vms_cred_secret_end.
    rewrite Hpr. cbn [mbind option_bind andb]. rewrite He. destruct (secret_begin pr) as [f|]; [|by intros [= _ <-]].
    destruct (f ku); [by intros [= _ <-]|]. destruct (wacc_add _ _ _); [|by intros [= _ <-]].
    destruct (f kp); by intros [= _ <-]. }
  destruct r1; intros [= _ <-]; done.
Qed.

End Attributes.

(** ** Profile texts *)

Section RoundTrip.
Context `{StrictConv}.

Definition auth_word (a : VmsAuthMode) : list Z := match a with AUTH_SQL => str "sql" | AUTH_WINDOWS => str "windows" end.
Definition tls_word (t : VmsTlsMode) : list Z :=
  match t with
  | TLS_VERIFY => str "verify"
  | TLS_TRUST_SERVER_CERTIFICATE => str "trust_server_certificate"
  | TLS_OPTIONAL => str "optional"
  end.

(** The canonical text of a profile. *)
Definition profile_pairs (p : VmsProfile) : list (list Z * list Z) :=
  [(str "server", server p); (str "db", database p); (str "auth", auth_word (auth p)); (str "cred", cred_key p);
   (str "tls", tls_word (tls p)); (str "login_timeout", print_i (login_timeout_sec p));
   (str "query_timeout", print_i (query_timeout_sec p)); (str "app", app_name p)].

Definition profile_text (p : VmsProfile) : list Z :=
  terminated (map (fun kv => fst kv ++ str "=" ++ snd kv) (profile_pairs p)).

(** A value the grammar can carry: ASCII without a separator, within [cap]. *)
Definition field_ok (cap : Z) (s : list Z) : Prop :=
  Forall (fun c => 0 < c < 128) s /\ semi ∉ s /\ zlen s + 1 <= cap.

Definition profile_ok (p : VmsProfile) : Prop :=
  field_ok 256 (server p) /\ server p <> [] /\ field_ok 128 (database p) /\ field_ok 256 (cred_key p) /\
  (auth p = AUTH_SQL -> cred_key p <> []) /\ field_ok 64 (app_name p) /\
  0 <= login_timeout_sec p <= INT_MAX /\ 0 <= query_timeout_sec p <= INT_MAX /\ mars p = false.

Lemma copy_wide_ok cap s : field_ok cap s -> copy_wide cap s = Some s.
Proof.
  intros (Ha & _ & Hl). unfold copy_wide, to_wide_strict. rewrite strict_widen_ascii by done. cbn [mbind option_bind].
  by replace (_ >? cap) with false by (symmetry; rewrite Z.gtb_ltb; apply Z.ltb_ge; lia).
Qed.

Lemma atoi_print n : 0 <= n <= INT_MAX -> Z.max 0 (atoi (print_i n)) = n.
Proof.
  intros [H0 H1]. unfold atoi, print_i. replace (n <? 0) with false by (symmetry; apply Z.ltb_ge; lia).
  pose proof (print_u_isdigit n H0) as Hd. pose proof (print_u_value n H0) as Hv.
  destruct (print_u n) as [|x ds] eqn:Ep; [by apply print_u_nonempty in Ep|].
  pose proof (Forall_inv Hd) as Hx.
  assert (Hns : isspace x = false /\ (x =? chr "-") = false /\ (x =? chr "+") = false).
  { unfold isdigit, isspace in *. change (chr "-") with 45. change (chr "+") with 43. b2p.
    split_and!; [apply orb_false_iff; split; [|apply andb_false_iff; right]|..]; try (apply Z.eqb_neq; lia); apply Z.leb_gt; lia. }
  destruct Hns as (Hs & Hm & Hp). cbn [span]. rewrite Hs. cbn [snd]. rewrite Hm, Hp.
  assert (Hsp : span isdigit (x :: ds) = (x :: ds, [])) by (rewrite <- (app_nil_r (x :: ds)) at 1; by apply span_all).
  rewrite Hsp. cbn [fst]. rewrite Hv. unfold INT_MAX in *. lia.
Qed.

(** One pair of the canonical text. *)
Lemma split_kv_pair k v :
  Forall (fun c => c <> chr "=" /\ c <> 32) k -> 0 < zlen k < 32 -> zlen v < 256 ->
  split_kv (k ++ str "=" ++ v) = Some (k, v).
Proof.
  intros Hk Hl Hv. unfold split_kv. change (str "=" ++ v) with (chr "=" :: v).
  rewrite span_all; [| |by rewrite Z.eqb_refl].
  2:{ eapply Forall_impl; [exact Hk|]. intros c [Hc _]. apply negb_true_iff. by apply Z.eqb_neq. }
  replace (_ || _) with false.
  2:{ symmetry. rewrite !orb_false_iff, !Z.geb_leb. split_and!; [apply Z.eqb_neq|apply Z.leb_gt|apply Z.leb_gt]; lia. }
  do 2 f_equal. destruct k as [|c k]; [done|]. cbn [span]. inversion Hk as [|?? [_ Hc] _]; subst.
  by replace (c =? 32) with false by (symmetry; by apply Z.eqb_neq).
Qed.

(** Canonical tokens: no separator inside, none empty. *)
Lemma tokens_terminated attrs :
  Forall (fun a => semi ∉ a /\ a <> []) attrs -> tokens (terminated attrs) = attrs.
Proof.
  intros Ha. unfold tokens. rewrite split_terminated by (eapply Forall_impl; [exact Ha|]; naive_solver).
  rewrite List.filter_app. simpl. rewrite app_nil_r. induction Ha as [|a attrs [_ Hne] _ IH]; [done|]. simpl.
  rewrite bool_decide_false by done. simpl. by rewrite IH.
Qed.

(** A word of the grammar as a key. *)
Definition plain_key (k : list Z) : bool :=
  forallb (fun c => negb (c =? chr "=") && negb (c =? 32) && negb (c =? semi)) k && (0 <? zlen k) && (zlen k <? 32).

Lemma plain_key_pair k v :
  plain_key k = true -> semi ∉ v -> zlen v < 256 ->
  split_kv (k ++ str "=" ++ v) = Some (k, v) /\ semi ∉ k ++ str "=" ++ v /\ k ++ str "=" ++ v <> [].
Proof.
  intros Hk Hv Hl. unfold plain_key in Hk. apply andb_prop in Hk as [[Hf Hp0]%andb_prop Hp1]. b2p.
  rewrite forallb_forall in Hf.
  assert (Hc : forall c, c ∈ k -> c <> chr "=" /\ c <> 32 /\ c <> semi).
  { intros c Hc%list_elem_of_In. specialize (Hf c Hc). b2p. done. }
  split_and!.
  - apply split_kv_pair; [|lia|done]. apply Forall_forall. intros c Hcc. by destruct (Hc c Hcc) as (? & ? & _).
  - intros [Hs|[Hs|Hs]%elem_of_app]%elem_of_app; [by destruct (Hc _ Hs) as (_ & _ & ?)| |done].
    apply list_elem_of_singleton in Hs. done.
  - destruct k; done.
Qed.

Lemma parse_step k v ts p h p' h' :
  plain_key k = true -> semi ∉ v -> zlen v < 256 -> apply_kv p h k v = inr (p', h') ->
  parse_loop ((k ++ str "=" ++ v) :: ts) p h = parse_loop ts p' h'.
Proof.
  intros Hk Hv Hl Ha. cbn [parse_loop]. destruct (plain_key_pair k v Hk Hv Hl) as (-> & _). by rewrite Ha.
Qed.

Lemma short_print n : 0 <= n <= INT_MAX -> zlen (print_i n) < 256.
Proof. intros [H1 H2]. pose proof (zlen_print_i n). unfold in_i64, INT64_MIN, INT64_MAX, INT_MAX in *. lia. Qed.

(** The values of the canonical pairs. *)
Lemma pairs_ok p :
  profile_ok p -> Forall (fun kv => plain_key (fst kv) = true /\ semi ∉ snd kv /\ zlen (snd kv) < 256) (profile_pairs p).
Proof.
  intros ((_ & S1 & L1) & _ & (_ & S2 & L2) & (_ & S3 & L3) & _ & (_ & S4 & L4) & Hlt & Hqt & _).
  pose proof (short_print _ Hlt). pose proof (short_print _ Hqt).
  repeat apply Forall_cons_2; cbn [fst snd]; [..|constructor]; (split; [reflexivity|]);
    try (split; [done|lia]); try (split; [apply print_no_semi|done]).
  - destruct (auth p); (split; [no_semi|reflexivity]).
  - destruct (tls p); (split; [no_semi|reflexivity]).
Qed.

(** [C25]: the grammar can express every profile: the canonical text of a
    profile whose fields are ASCII without a separator and fit their buffers
    parses back to the same profile. *)
Theorem profile_roundtrip p : profile_ok p -> vms_profile_parse true (Some (profile_text p)) = inr p.
Proof.
  intros Hok. pose proof (pairs_ok p Hok) as Hp.
  assert (Ht : tokens (profile_text p) = map (fun kv => fst kv ++ str "=" ++ snd kv) (profile_pairs p)).
  { apply tokens_terminated. apply Forall_map. eapply Forall_impl; [exact Hp|].
    intros kv (Hk & Hs & Hl). by destruct (plain_key_pair _ _ Hk Hs Hl) as (_ & ? & ?). }
  assert (E : parse_loop (map (fun kv => fst kv ++ str "=" ++ snd kv) (profile_pairs p)) vms_profile_defaults false = inr (p, true)).
  { destruct Hok as (Hsv & _ & Hdb & Hcr & _ & Hap & Hlt & Hqt & Hm). unfold profile_pairs, vms_profile_defaults in *.
    destruct p as [sv db au cr tl lt qt ap ma]. cbn in Hsv, Hdb, Hcr, Hap, Hlt, Hqt, Hm. subst ma.
    cbn [map fst snd server database auth cred_key tls login_timeout_sec query_timeout_sec app_name] in *.
    rewrite !Forall_cons in Hp. destruct Hp as ((K1 & S1 & L1) & (K2 & S2 & L2) & (K3 & S3 & L3) & (K4 & S4 & L4) &
      (K5 & S5 & L5) & (K6 & S6 & L6) & (K7 & S7 & L7) & (K8 & S8 & L8) & _).
    erewrite parse_step; [|done..|cbn -[copy_wide]; by rewrite (copy_wide_ok _ _ Hsv)].
    erewrite parse_step; [|done..|cbn -[copy_wide]; by rewrite (copy_wide_ok _ _ Hdb)].
    erewrite parse_step; [|done..|instantiate (1 := true); instantiate (1 := mkProfile sv db au [] TLS_VERIFY 10 0 (str "VirtualMSSQL") false); by destruct au].
    erewrite parse_step; [|done..|cbn -[copy_wide]; by rewrite (copy_wide_ok _ _ Hcr)].
    erewrite parse_step; [|done..|instantiate (1 := true); instantiate (1 := mkProfile sv db au cr tl 10 0 (str "VirtualMSSQL") false); by destruct tl].
    erewrite parse_step; [|done..|cbn -[atoi print_i Z.max]; by rewrite (atoi_print _ Hlt)].
    erewrite parse_step; [|done..|cbn -[atoi print_i Z.max]; by rewrite (atoi_print _ Hqt)].
    erewrite parse_step; [|done..|cbn -[copy_wide]; by rewrite (copy_wide_ok _ _ Hap)].
    done. }
  unfold vms_profile_parse. cbn [negb]. rewrite Ht, E. destruct Hok as (_ & Hne & _ & _ & Hcn & _). cbn [negb orb].
  rewrite bool_decide_false by done. destruct (bool_decide (auth p = AUTH_SQL)) eqn:Ea; [|done].
  apply bool_decide_eq_true in Ea. by rewrite bool_decide_false by auto.
Qed.

End RoundTrip.

(** ** The in-memory provider *)

Lemma mem_replace_lookup ok key secret es es' k :
  mem_replace ok key secret es = Ret (Some es') ->
  mem_secret_begin es' k = if str_eqb key k then mem_secret_begin [(key, if ok then Some secret else None)] k
                           else mem_secret_begin es k.
Proof.
  revert es'. induction es as [|[k0 s0] es IH]; intros es'; simpl; [done|].
  destruct (str_eqb k0 key) eqn:E.
  - apply str_eqb_eq in E as ->. destruct s0; [|done]. intros [= <-]. simpl. by destruct (str_eqb key k).
  - destruct (mem_replace ok key secret es) as [[es1|]|]; [|done..]. intros [= <-]. simpl. rewrite (IH es1 eq_refl).
    destruct (str_eqb key k) eqn:Ek; [|done]. apply str_eqb_eq in Ek as <-. rewrite E. simpl. by rewrite str_eqb_refl.
Qed.

(** A secret that was stored is the one resolved, and storing it leaves the
    other keys alone. *)
Lemma memory_set_get key secret es es' k :
  zlen secret < 512 -> vms_cred_memory_set true key secret es = Ret (true, es') ->
  mem_secret_begin es' k = if str_eqb key k then Ret (inr secret) else mem_secret_begin es k.
Proof.
  intros Hs. unfold vms_cred_memory_set.
  assert (Hb : (zlen secret + 1 >? 512) = false) by (rewrite Z.gtb_ltb; apply Z.ltb_ge; lia).
  destruct (mem_replace true key secret es) as [[es1|]|] eqn:E; [| |done]; intros [= <-]; simpl.
  - rewrite (mem_replace_lookup _ _ _ _ _ k E). simpl. destruct (str_eqb key k); [|done]. by rewrite Hb.
  - by rewrite Hb.
Qed.

(** A failed replacement leaves an entry without a secret, and the next use of
    the key reads through a NULL pointer. *)
Example failed_replacement_poisons :
  exists es, vms_cred_memory_set false (str "k:pwd") (str "new") [(str "k:pwd", Some (str "old"))] = Ret (false, es) /\
    mem_secret_begin es (str "k:pwd") = Fault OobRead /\
    vms_cred_memory_set true (str "k:pwd") (str "new") es = Fault OobRead.
Proof. eexists. split_and!; vm_compute; reflexivity. Qed.

(** ** Concrete profiles *)

Definition demo_provider : VmsCredProviderV1 :=
  mkProv 1 (Some (str "memory"))
    (Some (fun k => if str_eqb k (str "k1:uid") then inr (str "sa") else if str_eqb k (str "k1:pwd") then inr (str "pw")
                    else inl (invalid err_zero (str "credential key not found")))) true.

Definition demo_profile : VmsProfile :=
  mkProfile (str "db1,1433") (str "sales") AUTH_SQL (str "k1") TLS_VERIFY 5 0 (str "app") false.

Lemma profile_roundtrip_witness :
  @vms_profile_parse IdStrictConv true (Some (profile_text demo_profile)) = inr demo_profile.
Proof.
  apply (@profile_roundtrip IdStrictConv).
  unfold profile_ok, field_ok. split_and!; try (vm_compute; congruence); try no_semi;
    repeat (apply Forall_cons_2; [vm_compute; split; congruence|]); apply Forall_nil_2.
Defined.


(** A password with a separator adds attributes of its own. *)
Example password_injects :
  let prov := mkProv 1 (Some (str "m")) (Some (fun k => inr (str "x;TrustServerCertificate=Yes"))) true in
  exists s, @vms_connstr_build Win64 (fun _ => true) (Some prov) demo_profile [] = Ret (inr s, []) /\
    In (str "TrustServerCertificate=Yes") (split_at semi s).
Proof. eexists. split; [vm_compute; reflexivity|]. vm_compute. auto 10. Qed.

(** A credential key of 252 characters is accepted by the parser and aborts
    the build. *)
Example long_key_aborts :
  let p := mkProfile (str "h") [] AUTH_SQL (replicate 252 97) TLS_VERIFY 0 0 [] false in
  profile_ok p /\ @vms_connstr_build Win64 (fun _ => true) (Some demo_provider) p [] = Fault InvalidParam.
Proof.
  split; [|vm_compute; reflexivity]. unfold profile_ok, field_ok. split_and!; try (vm_compute; congruence); try no_semi;
    repeat (apply Forall_cons_2; [vm_compute; split; congruence|]); apply Forall_nil_2.
Qed.
