(* ===== verification/Connect.v ===== *)
(** * Connecting a virtual table (src/src/vms_vtab.c, xConnect and xIntegrity)

    Arguments, identifier and shadow-name checks, discovery of the columns
    (live or through the metadata cache) and the schema declared to the host.
    The catalog, the pool and the cache table are parameters. *)

From S2P Require Import Prelude Foundation Client Identity Lexer Meta MetaCache Plan Scan QuerySource Mat Config.

(** ** Arguments *)

Record ConnArgs := mkArgs {
  ca_schema : option (list Z);
  ca_table : option (list Z);
  ca_query : option (list Z);
  ca_is_query : bool;
  ca_rw : bool;
  ca_mat : VmsMatMode;
  ca_wkt : bool;
  ca_cached : bool;
  ca_conn : option (list Z)
}.

Definition args_zero : ConnArgs := mkArgs None None None false false MAT_OFF false false None.

Definition squote : Z := chr "'".

(** [if (s[0] == '\'') s++] *)
Definition skip_quote (s : list Z) : list Z := match s with c :: r => if c =? squote then r else s | [] => [] end.

Definition msg (s : string) : list Z := str "virtualmssql: " ++ str s.

Definition parse_arg (ca : ConnArgs) (a : list Z) : list Z + ConnArgs :=
  let '(mkArgs sc tb qu iq rw mt wk cc cn) := ca in
  match strip_prefix (str "schema=") a with Some v => inr (mkArgs (Some v) tb qu iq rw mt wk cc cn) | None =>
  match strip_prefix (str "table=") a with Some v => inr (mkArgs sc (Some v) qu iq rw mt wk cc cn) | None =>
  match strip_prefix (str "source=") a with
  | Some v =>
      let v := skip_quote v in
      if starts_with v (str "query") then inr (mkArgs sc tb qu true rw mt wk cc cn)
      else if starts_with v (str "table") then inr (mkArgs sc tb qu false rw mt wk cc cn)
      else inl (msg "source must be 'table' or 'query'")
  | None =>
  match strip_prefix (str "mode=") a with
  | Some v =>
      let v := skip_quote v in
      if starts_with v (str "rw") || starts_with v (str "rw'") then inr (mkArgs sc tb qu iq true mt wk cc cn)
      else if starts_with v (str "ro") || starts_with v (str "ro'") then inr (mkArgs sc tb qu iq false mt wk cc cn)
      else inl (msg "mode must be 'ro' or 'rw'")
  | None =>
  match strip_prefix (str "query=") a with Some v => inr (mkArgs sc tb (Some v) iq rw mt wk cc cn) | None =>
  match strip_prefix (str "materialization=") a with
  | Some v =>
      let v := skip_quote v in
      let v := match last v with Some c => if c =? squote then removelast v else v | None => v end in
      match vms_mat_mode_parse (Some (trunc_copy 32 v)) with
      | Some m => inr (mkArgs sc tb qu iq rw m wk cc cn)
      | None => inl (msg "materialization must be off|memory|temp")
      end
  | None =>
  match strip_prefix (str "spatial=") a with
  | Some v =>
      let v := skip_quote v in
      if starts_with v (str "wkt") then inr (mkArgs sc tb qu iq rw mt true cc cn)
      else if starts_with v (str "wkb") then inr (mkArgs sc tb qu iq rw mt false cc cn)
      else inl (msg "spatial must be 'wkb' or 'wkt'")
  | None =>
  match strip_prefix (str "metadata_mode=") a with
  | Some v =>
      let v := skip_quote v in
      if starts_with v (str "cached") then inr (mkArgs sc tb qu iq rw mt wk true cn)
      else if starts_with v (str "live") then inr (mkArgs sc tb qu iq rw mt wk false cn)
      else inl (msg "metadata_mode must be 'live' or 'cached'")
  | None =>
  match strip_prefix (str "conn=") a with
  | Some v => inr (mkArgs sc tb qu iq rw mt wk cc (Some (skip_quote v)))
  | None => inl (msg "unknown argument '" ++ a ++ str "'")
  end end end end end end end end end.

Fixpoint parse_args (ca : ConnArgs) (argv : list (list Z)) : list Z + ConnArgs :=
  match argv with
  | [] => inr ca
  | a :: argv' => match parse_arg ca a with inl m => inl m | inr ca => parse_args ca argv' end
  end.

(** A quoted argument is copied into a stack buffer of [cap] bytes. *)
Definition unquote (cap : Z) (s : option (list Z)) : cres (option (list Z)) :=
  match s with
  | Some (c :: r) =>
      if (c =? squote) && (zlen (c :: r) >=? 2) && bool_decide (last r = Some squote) then
        if zlen (removelast r) + 1 >? cap then Fault OobWrite else Ret (Some (removelast r))
      else Ret s
  | _ => Ret s
  end.

Definition ends_with (s suffix : list Z) : bool :=
  (zlen s >? zlen suffix) && str_eqb (drop (length s - length suffix) s) suffix.

Definition vms_vtab_shadow_name (nm : list Z) : bool :=
  ends_with nm (str "_vms_schema") || ends_with nm (str "_vms_metadata").

(** The checks on the collected arguments, in the order of the code. *)
Definition check_args (ca : ConnArgs) : cres (list Z + ConnArgs) :=
  if ca_is_query ca && bool_decide (ca_query ca = None) then Ret (inl (msg "source=query requires query='...'"))
  else if negb (ca_is_query ca) && (bool_decide (ca_schema ca = None) || bool_decide (ca_table ca = None)) then
    Ret (inl (msg "schema= and table= are required"))
  else
    sc ← unquote 128 (ca_schema ca);
    tb ← unquote 128 (ca_table ca);
    qu ← unquote 32768 (ca_query ca);
    cn ← unquote 256 (ca_conn ca);
    if negb (ca_is_query ca) && (negb (vms_meta_ident_valid sc 128) || negb (vms_meta_ident_valid tb 128)) then
      Ret (inl (msg "invalid identifier"))
    else if match tb with Some t => vms_vtab_shadow_name t | None => false end then
      Ret (inl (str "virtualmssql: '" ++ default [] tb ++ str "' is a reserved shadow name (module-private)"))
    else Ret (inr (mkArgs sc tb qu (ca_is_query ca) (ca_rw ca) (ca_mat ca) (ca_wkt ca) (ca_cached ca) cn)).

(** ** Discovery *)

Inductive lease_event : Type := LAcquire | LRelease.

(** What the environment answers: the tries to acquire a probe connection
    ([None] for success), the allocations, the declaration, the clock. *)
Record ConnEnv := mkConnEnv {
  ck_acquire : nat -> option VmsError;
  ck_dup : bool;
  ck_malloc : bool;
  ck_tab_alloc : bool;
  ck_cols_alloc : bool;
  ck_declare : list Z -> option (list Z);
  ck_now : Z
}.

Record Shape := mkShape { sh_cols : list VmsMetaColumn; sh_query : option VmsQuerySource; sh_fp : Z; sh_utc : Z }.

Section Discover.
Context `{SqlClient} `{WCType} `{StrictConv} `{CacheDb}.
Variable ck : ConnEnv.

Definition discover_query (n : nat) (query : option (list Z)) (evs : list lease_event) :
    list lease_event * (list Z + Shape) :=
  match ck_acquire ck n with
  | Some e => (evs, inl (msg "probe lease failed: " ++ message e))
  | None =>
      match vms_query_source_prepare (ck_malloc ck) query with
      | (None, e) => (evs ++ [LAcquire; LRelease], inl (msg "query rejected: " ++ message e))
      | (Some src, _) => (evs ++ [LAcquire; LRelease], inr (mkShape (q_cols src) (Some src) 0 0))
      end
  end.

Definition discover_live (ca : ConnArgs) : cres (list lease_event * (list Z + Shape)) :=
  if ca_is_query ca then Ret (discover_query 0 (ca_query ca) [])
  else match ck_acquire ck 0 with
  | Some e => Ret ([], inl (msg "probe lease failed: " ++ message e))
  | None =>
      match vms_meta_columns (ck_dup ck) (ca_schema ca) (ca_table ca) [] (Some err_zero) with
      | (false, _, e) =>
          Ret ([LAcquire; LRelease], inl (msg "metadata read failed: " ++ from_option message [] e))
      | (true, cols, _) =>
          fp ← vms_meta_fingerprint (ck_malloc ck) cols;
          Ret ([LAcquire; LRelease], inr (mkShape cols None fp (ck_now ck)))
      end
  end.

(** [%s] in a message of the host, which prints nothing for NULL. *)
Definition pct_s (s : option (list Z)) : list Z := default [] s.

(** The cache misses on NULL identifiers (a query source has none). *)
Definition cache_lookup (ca : ConnArgs) (d : db) (live_fp : Z) : VmsCacheResult * option (list VmsMetaColumn) :=
  match ca_schema ca, ca_table ca with
  | Some sc, Some tb => vms_meta_cache_get (ck_malloc ck) d sc tb live_fp
  | _, _ => (CACHE_MISS, None)
  end.

Definition corrupt_msg (ca : ConnArgs) : list Z :=
  str "virtualmssql: corrupt metadata cache entry for '" ++ pct_s (ca_schema ca) ++ str "." ++ pct_s (ca_table ca) ++ str "'".

Definition drift_msg (ca : ConnArgs) : list Z :=
  str "virtualmssql: SCHEMA_DRIFT on '" ++ pct_s (ca_schema ca) ++ str "." ++ pct_s (ca_table ca) ++
  str "': cached metadata no longer matches the server; drop and recreate the virtual table".

Definition unavailable_msg (ca : ConnArgs) (m : list Z) : list Z :=
  str "virtualmssql: server unavailable and no usable cached metadata for '" ++ pct_s (ca_schema ca) ++ str "." ++
  pct_s (ca_table ca) ++ str "': " ++ m.

(** The live validation of a table whose cache entry was looked up: the
    server's columns with their fingerprint, or the last error message. *)
Definition probe_table (ca : ConnArgs) : cres (list lease_event * (list Z + (list VmsMetaColumn * Z))) :=
  match ck_acquire ck 0 with
  | Some e => Ret ([], inl (message e))
  | None =>
      match vms_meta_columns (ck_dup ck) (ca_schema ca) (ca_table ca) [] (Some err_zero) with
      | (true, cols, _) =>
          fp ← vms_meta_fingerprint (ck_malloc ck) cols; Ret ([LAcquire; LRelease], inr (cols, fp))
      | (false, _, _) => Ret ([LAcquire; LRelease], inl [])
      end
  end.

Definition discover_cached (ca : ConnArgs) (d : db) : cres (db * (list lease_event * (list Z + Shape))) :=
  let sc := pct_s (ca_schema ca) in
  let tb := pct_s (ca_table ca) in
  let '(res, cached) := cache_lookup ca d 0 in
  match res with
  | CACHE_CORRUPT => Ret (d, ([], inl (corrupt_msg ca)))
  | _ =>
      if ca_is_query ca then
        let evs := match ck_acquire ck 0 with Some _ => [] | None => [LAcquire; LRelease] end in
        Ret (d, discover_query 1 (ca_query ca) evs)
      else
        '(evs, live) ← probe_table ca;
        match live with
        | inr (cols, fp) =>
            match res with
            | CACHE_MISS =>
                '(_, d) ← vms_meta_cache_put (ck_malloc ck) d sc tb cols fp (ck_now ck);
                Ret (d, (evs, inr (mkShape cols None fp 0)))
            | _ =>
                if fp =? 0 then Ret (d, (evs, inr (mkShape cols None fp 0)))
                else match fst (cache_lookup ca d fp) with
                     | CACHE_DRIFT => Ret (vms_meta_cache_drop d sc tb, (evs, inl (drift_msg ca)))
                     | CACHE_CORRUPT => Ret (d, (evs, inl (corrupt_msg ca)))
                     | _ => Ret (d, (evs, inr (mkShape cols None fp 0)))
                     end
            end
        | inl m =>
            match res with
            | CACHE_MISS | CACHE_DRIFT => Ret (d, (evs, inl (unavailable_msg ca m)))
            | _ => Ret (d, (evs, inr (mkShape (default [] cached) None 0 (-1))))
            end
        end
  end.

End Discover.

(** ** The declared schema *)

Definition decl_affinity (wkt : bool) (t : VmsColType) : list Z :=
  match t with
  | CT_INT64 => str "INTEGER"
  | CT_FLOAT64 => str "REAL"
  | CT_BLOB => str "BLOB"
  | CT_SPATIAL => if wkt then str "TEXT" else str "BLOB"
  | _ => str "TEXT"
  end.

Definition decl_col (wkt : bool) (i : nat) (c : VmsMetaColumn) : list Z :=
  trunc_copy 200 ((match i with O => [] | S _ => str "," end) ++ dq ++ name c ++ dq ++ str " " ++
                  decl_affinity wkt (vtype c) ++ (if is_nullable c =? 0 then str " NOT NULL" else [])).

Fixpoint decl_loop (wkt : bool) (i : nat) (cols : list VmsMetaColumn) (decl : list Z) : option (list Z) :=
  match cols with
  | [] => Some decl
  | c :: cols' =>
      if zlen decl + zlen (decl_col wkt i c) + 2 >=? 4096 then None
      else decl_loop wkt (S i) cols' (decl ++ decl_col wkt i c)
  end.

(** ** xConnect *)

(** What the query-profile provider answers to a connection key. *)
Inductive resolved : Type := Resolved (spec : list Z) | UnknownKey | NoProvider.

Record VtabState := mkState {
  v_tab : VmsVtab;
  v_query : option VmsQuerySource;
  v_mat : VmsMatMode;
  v_cached : bool;
  v_fp : Z;
  v_utc : Z
}.

Inductive connect_result : Type :=
| CError (m : list Z)
| CNoMem
| CConnected (v : VtabState) (decl : list Z).

Section Connect.
Context `{SqlClient} `{WCType} `{StrictConv} `{CacheDb}.
Variable ck : ConnEnv.
Variable resolve : list Z -> resolved.

(** A connection key must name the identity of the active profile. *)
Definition check_conn (active : VmsProfile) (conn : option (list Z)) : option (list Z) :=
  match conn with
  | None => None
  | Some k =>
      if negb (vms_meta_ident_valid (Some k) 128) then Some (msg "invalid conn key")
      else match resolve k with
      | UnknownKey => Some (msg "UNKNOWN_PROFILE_KEY: conn key '" ++ k ++ str "' is not known to the provider")
      | NoProvider => Some (msg "UNSUPPORTED: conn= requires a registered query profile provider")
      | Resolved spec =>
          match vms_profile_parse (ck_dup ck) (Some spec) with
          | inl e => Some (msg "conn provider returned a bad profile: " ++ message e)
          | inr p =>
              if negb (str_eqb (server p) (server active)) || negb (str_eqb (database p) (database active)) ||
                 negb (bool_decide (auth p = auth active)) || negb (bool_decide (tls p = tls active)) ||
                 negb (str_eqb (cred_key p) (cred_key active)) then
                Some (msg "UNSUPPORTED: conn key '" ++ k ++
                      str "' resolves to a different SQL Server identity than the active profile")
              else None
          end
      end
  end.

Definition unsupported_msg (schema table : list Z) (c : VmsMetaColumn) : list Z :=
  str "virtualmssql: UNSUPPORTED_TYPE: column '" ++ name c ++ str "' of '" ++ schema ++ str "." ++ table ++
  str "' has SQL Server type '" ++ type_name c ++ str "' with no lossless mapping".

(** The table built from a discovered shape. *)
Definition publish_table (ca : ConnArgs) (sh : Shape) : connect_result :=
  let n := zlen (sh_cols sh) in
  if (n <? 1) || (n >? 512) then CError (str "virtualmssql: object has " ++ print_i n ++ str " columns (unsupported)")
  else if ca_is_query ca && ca_rw ca then CError (msg "mode=rw is only valid for source=table")
  else if negb (ck_cols_alloc ck) then CNoMem
  else
    let schema := if ca_is_query ca then [] else trunc_copy 128 (default [] (ca_schema ca)) in
    let table := if ca_is_query ca then [] else trunc_copy 128 (default [] (ca_table ca)) in
    match List.find (fun c => bool_decide (vtype c = CT_UNSUPPORTED)) (sh_cols sh) with
    | Some c => CError (unsupported_msg schema table c)
    | None =>
        match decl_loop (ca_wkt ca) 0 (sh_cols sh) (str "CREATE TABLE x(") with
        | None => CError (msg "schema too wide")
        | Some body =>
            let decl := body ++ str ")" in
            match ck_declare ck decl with
            | Some e => CError (msg "declare_vtab failed: " ++ e)
            | None =>
                CConnected (mkState (mkTab schema table (sh_cols sh) (ca_is_query ca) (ca_rw ca && negb (ca_is_query ca)) (ca_wkt ca))
                                    (sh_query sh) (if ca_is_query ca then ca_mat ca else MAT_OFF)
                                    (ca_cached ca) (sh_fp sh) (sh_utc sh)) decl
            end
        end
    end.

(** [env] is the module environment, [None] when it is not initialized, and
    [argv] the arguments after the module, database and table names; the
    result has the cache and the uses of the pool. *)
Definition vms_vtab_connect (env : option VmsProfile) (argv : list (list Z)) (d : db) :
    cres (db * list lease_event * connect_result) :=
  match env with
  | None => Ret (d, [], CError (msg "module environment not initialized"))
  | Some active =>
      match parse_args args_zero argv with
      | inl m => Ret (d, [], CError m)
      | inr ca =>
          checked ← check_args ca;
          match checked with
          | inl m => Ret (d, [], CError m)
          | inr ca =>
              if negb (ck_tab_alloc ck) then Ret (d, [], CNoMem)
              else match check_conn active (ca_conn ca) with
              | Some m => Ret (d, [], CError m)
              | None =>
                  '(d, (evs, r)) ←
                    (if ca_cached ca then discover_cached ck ca d
                     else x ← discover_live ck ca; Ret (d, x));
                  Ret (d, evs, match r with inl m => CError m | inr sh => publish_table ca sh end)
              end
          end
      end
  end.

End Connect.

(** ** xIntegrity *)

(** [None] for a clean table. *)
Fixpoint integrity_cols (i : Z) (cols : list VmsMetaColumn) : option (list Z) :=
  match cols with
  | [] => None
  | c :: cols' =>
      if bool_decide (name c = []) then
        Some (msg "integrity: column " ++ print_i i ++ str " has an empty name")
      else if (ct_code (vtype c) <? ct_code CT_INT64) || (ct_code (vtype c) >? ct_code CT_SPATIAL) then
        Some (msg "integrity: column '" ++ name c ++ str "' has an invalid type code " ++ print_i (ct_code (vtype c)))
      else if bool_decide (vtype c = CT_UNSUPPORTED) then
        Some (msg "integrity: column '" ++ name c ++ str "' is UNSUPPORTED_TYPE")
      else integrity_cols (i + 1) cols'
  end.

Definition vms_vtab_integrity (v : VtabState) : option (list Z) :=
  let n := zlen (t_cols (v_tab v)) in
  if (n <? 1) || (n >? 512) then Some (msg "integrity: ncols=" ++ print_i n ++ str " out of range")
  else match integrity_cols 0 (t_cols (v_tab v)) with
       | Some m => Some m
       | None =>
           if v_cached v && negb (t_query_source (v_tab v)) && (v_fp v =? 0) then
             Some (msg "integrity: cached-mode vtab carries no schema fingerprint")
           else None
       end.

(** ** Connected tables are well formed *)

Definition decl_text (wkt : bool) (cols : list VmsMetaColumn) : list Z :=
  str "CREATE TABLE x(" ++ concat (imap (decl_col wkt) cols) ++ str ")".

Lemma decl_loop_text wkt cols : forall i decl body,
  decl_loop wkt i cols decl = Some body -> zlen decl < 4094 ->
  body = decl ++ concat (imap (fun k => decl_col wkt (i + k)) cols) /\ zlen body < 4094.
Proof.
  induction cols as [|c cols IH]; intros i decl body; simpl; [intros [= <-]; by rewrite app_nil_r|].
  destruct (_ >=? 4096) eqn:E; [done|]. b2p. intros Hb Hd.
  apply IH in Hb as [-> Hl]; [|rewrite zlen_app; lia]. split; [|done].
  rewrite <- app_assoc, Nat.add_0_r. do 2 f_equal. f_equal. apply imap_ext. intros k x _. simpl. f_equal. lia.
Qed.

(** Every acquired probe connection is released before the next one. *)
Fixpoint balanced (evs : list lease_event) : Prop :=
  match evs with
  | [] => True
  | LAcquire :: LRelease :: evs' => balanced evs'
  | _ => False
  end.

Lemma integrity_cols_ok cols : forall i,
  Forall (fun c => vtype c <> CT_UNSUPPORTED) cols -> Forall (fun c => name c <> []) cols -> integrity_cols i cols = None.
Proof.
  induction cols as [|c cols IH]; intros i Hu Hn; [done|]. inversion Hu as [|?? Hu1 Hu2]; subst.
  inversion Hn as [|?? Hn1 Hn2]; subst. simpl. rewrite bool_decide_false by done.
  replace ((_ <? _) || _) with false by (by destruct (vtype c)).
  rewrite bool_decide_false by done. by apply IH.
Qed.

(** What a connected table guarantees. *)
Definition table_ok (v : VtabState) (decl : list Z) : Prop :=
  let tab := v_tab v in
  1 <= zlen (t_cols tab) <= 512 /\ Forall (fun c => vtype c <> CT_UNSUPPORTED) (t_cols tab) /\
  (t_rw tab = true -> t_query_source tab = false) /\
  (t_query_source tab = false ->
     exists schema table, t_schema tab = trunc_copy 128 schema /\ t_table tab = trunc_copy 128 table /\
       vms_meta_ident_valid (Some schema) 128 = true /\ vms_meta_ident_valid (Some table) 128 = true /\
       vms_vtab_shadow_name table = false) /\
  decl = decl_text (t_wkt tab) (t_cols tab) /\ zlen decl < 4096 /\
  (Forall (fun c => name c <> []) (t_cols tab) -> v_cached v = false \/ v_fp v <> 0 -> vms_vtab_integrity v = None).

Lemma publish_sound ck ca sh v decl :
  publish_table ck ca sh = CConnected v decl ->
  (ca_is_query ca = false -> exists schema table, ca_schema ca = Some schema /\ ca_table ca = Some table /\
       vms_meta_ident_valid (Some schema) 128 = true /\ vms_meta_ident_valid (Some table) 128 = true /\
       vms_vtab_shadow_name table = false) ->
  table_ok v decl.
Proof.
  unfold publish_table. destruct (_ || _) eqn:En; [done|]. destruct (_ && _) eqn:Erw; [done|].
  destruct (negb _); [done|]. destruct (List.find _ _) eqn:Ef; [done|].
  destruct (decl_loop _ _ _ _) as [body|] eqn:Ed; [|done]. destruct (ck_declare ck _); [done|].
  intros [= <- <-] Hid. unfold table_ok. cbn [v_tab t_cols t_rw t_query_source t_schema t_table t_wkt v_cached v_fp].
  apply decl_loop_text in Ed as [-> Hl]; [|vm_compute; reflexivity].
  assert (Hu : Forall (fun c => vtype c <> CT_UNSUPPORTED) (sh_cols sh)).
  { apply Forall_forall. intros c Hc%list_elem_of_In Hv. pose proof (List.find_none _ _ Ef c Hc) as Hx. simpl in Hx.
    by rewrite bool_decide_true in Hx. }
  b2p. split_and!; [lia|lia|done| | | | |].
  - intros Hr. by destruct (ca_is_query ca), (ca_rw ca).
  - intros Hq. rewrite Hq in *. destruct (Hid eq_refl) as (s & t & -> & -> & H1 & H2 & H3). exists s, t. done.
  - unfold decl_text. by rewrite <- app_assoc.
  - rewrite zlen_app. change (zlen (str ")")) with 1. lia.
  - intros Hn Hc. unfold vms_vtab_integrity. cbn [v_tab t_cols v_cached t_query_source v_fp].
    replace ((zlen (sh_cols sh) <? 1) || _) with false by (symmetry; apply orb_false_iff; rewrite Z.gtb_ltb; split; apply Z.ltb_ge; lia).
    rewrite integrity_cols_ok by done. destruct (ca_cached ca); [|done]. destruct Hc as [?|Hc]; [done|].
    replace (sh_fp sh =? 0) with false by (symmetry; by apply Z.eqb_neq). by rewrite andb_false_r.
Qed.

(** The checks let only valid, unreserved identifiers through. *)
Lemma check_args_ok ca ca' :
  check_args ca = Ret (inr ca') -> ca_is_query ca' = false ->
  exists schema table, ca_schema ca' = Some schema /\ ca_table ca' = Some table /\
    vms_meta_ident_valid (Some schema) 128 = true /\ vms_meta_ident_valid (Some table) 128 = true /\
    vms_vtab_shadow_name table = false.
Proof.
  unfold check_args. do 2 (destruct (_ && _); [done|]).
  destruct (unquote 128 (ca_schema ca)) as [sc|]; [|done]. destruct (unquote 128 (ca_table ca)) as [tb|]; [|done].
  destruct (unquote _ (ca_query ca)) as [qu|]; [|done]. destruct (unquote _ (ca_conn ca)) as [cn|]; [|done].
  cbn [mbind cres_bind]. destruct (_ && _) eqn:E1; [done|].
  destruct (match tb with Some _ => _ | None => _ end) eqn:E2; [done|]. intros [= <-] Hq. simpl in *. rewrite Hq in E1.
  simpl in E1. apply orb_false_iff in E1 as [H1%negb_false_iff H2%negb_false_iff].
  destruct sc as [sc|]; [|done]. destruct tb as [tb|]; [|done]. by exists sc, tb.
Qed.

Section DiscoverLemmas.
Context `{SqlClient} `{WCType} `{StrictConv} `{CacheDb}.
Variable ck : ConnEnv.

Lemma discover_query_balanced n q evs : balanced evs -> (evs = [] \/ evs = [LAcquire; LRelease]) ->
  balanced (fst (discover_query ck n q evs)).
Proof.
  intros Hb Hc. unfold discover_query. destruct (ck_acquire ck n); [done|].
  destruct (vms_query_source_prepare _ _) as [[?|] ?]; destruct Hc as [->| ->]; done.
Qed.

Lemma discover_live_balanced ca evs r : discover_live ck ca = Ret (evs, r) -> balanced evs.
Proof.
  unfold discover_live. destruct (ca_is_query ca).
  - intros [= Hd]. change evs with (fst (evs, r)). rewrite <- Hd. apply discover_query_balanced; [done|by left].
  - destruct (ck_acquire ck 0); [by intros [= <- _]|].
    destruct (vms_meta_columns _ _ _ _ _) as [[[] ?] ?]; [|by intros [= <- _]].
    destruct (vms_meta_fingerprint _ _); [|done]. by intros [= <- _].
Qed.

Lemma probe_table_balanced ca evs r : probe_table ck ca = Ret (evs, r) -> balanced evs.
Proof.
  unfold probe_table. destruct (ck_acquire ck 0); [by intros [= <- _]|].
  destruct (vms_meta_columns _ _ _ _ _) as [[[] ?] ?]; [|by intros [= <- _]].
  destruct (vms_meta_fingerprint _ _); [|done]. by intros [= <- _].
Qed.

Lemma discover_cached_balanced ca d d' evs r : discover_cached ck ca d = Ret (d', (evs, r)) -> balanced evs.
Proof.
  unfold discover_cached. destruct (cache_lookup ck ca d 0) as [res cached].
  assert (Hq : forall d', Ret (d, discover_query ck 1 (ca_query ca)
      match ck_acquire ck 0 with Some _ => [] | None => [LAcquire; LRelease] end) = Ret (d', (evs, r)) -> balanced evs).
  { intros ? [= _ Hd]. change evs with (fst (evs, r)). rewrite <- Hd.
    destruct (ck_acquire ck 0); apply discover_query_balanced; auto; done. }
  assert (Hp : forall f, (forall x y, f (x, y) = Ret (d', (evs, r)) -> x = evs) ->
      (x ← probe_table ck ca; f x) = Ret (d', (evs, r)) -> balanced evs).
  { intros f Hf. destruct (probe_table ck ca) as [[x y]|] eqn:E; [|done]. simpl. intros Hr.
    apply Hf in Hr as ->. by eapply probe_table_balanced. }
  destruct res; try (by intros [= _ <- _]); (destruct (ca_is_query ca); [apply Hq|]);
    apply Hp; intros x y; simpl; destruct y as [m|[cols fp]];
    repeat (match goal with
            | |- context [if ?b then _ else _] => destruct b
            | |- context [match fst ?b with _ => _ end] => destruct (fst b)
            | |- context [mbind _ ?b] => destruct b as [[? ?]|]
            end; simpl); congruence.
Qed.

End DiscoverLemmas.


(** ** Cached metadata *)

Definition table_args (ca : ConnArgs) (schema table : list Z) : Prop :=
  ca_is_query ca = false /\ ca_schema ca = Some schema /\ ca_table ca = Some table.

Lemma probe_fingerprint `{SqlClient} ck ca evs cols fp :
  probe_table ck ca = Ret (evs, inr (cols, fp)) -> vms_meta_fingerprint (ck_malloc ck) cols = Ret fp.
Proof.
  unfold probe_table. destruct (ck_acquire ck 0); [done|].
  destruct (vms_meta_columns _ _ _ _ _) as [[[] cs] ?]; [|done].
  destruct (vms_meta_fingerprint _ cs) eqn:E; [|done]. simpl. by intros [= _ <- <-].
Qed.

Lemma get_absent `{CacheDb} ok d schema table fp :
  db_select d (make_key 300 schema table) = None -> vms_meta_cache_get ok d schema table fp = (CACHE_MISS, None).
Proof. unfold vms_meta_cache_get. by intros ->. Qed.

Lemma discover_first_capture `{SqlClient} `{WCType} `{StrictConv} `{CacheDb} ck ca d schema table evs cols fp d1 ok :
  table_args ca schema table -> db_select d (make_key 300 schema table) = None ->
  probe_table ck ca = Ret (evs, inr (cols, fp)) ->
  vms_meta_cache_put (ck_malloc ck) d schema table cols fp (ck_now ck) = Ret (ok, d1) ->
  discover_cached ck ca d = Ret (d1, (evs, inr (mkShape cols None fp 0))).
Proof.
  intros (Hq & Hs & Ht) Hn Hp Hput. unfold discover_cached, cache_lookup. rewrite Hq, Hs, Ht.
  rewrite get_absent by done. rewrite Hp. cbn [mbind cres_bind pct_s default from_option]. unfold pct_s. simpl. by rewrite Hput.
Qed.

Lemma discover_with_entry `{SqlClient} `{WCType} `{StrictConv} `{CacheDb} ck ca d schema table cached stored evs live :
  table_args ca schema table ->
  (forall fp, vms_meta_cache_get (ck_malloc ck) d schema table fp =
     (if fp =? 0 then CACHE_STALE else if fp =? stored then CACHE_FRESH else CACHE_DRIFT, Some cached)) ->
  probe_table ck ca = Ret (evs, live) ->
  discover_cached ck ca d =
  match live with
  | inl _ => Ret (d, (evs, inr (mkShape cached None 0 (-1))))
  | inr (cols, fp) =>
      if (fp =? 0) || (fp =? stored) then Ret (d, (evs, inr (mkShape cols None fp 0)))
      else Ret (vms_meta_cache_drop d schema table, (evs, inl (drift_msg ca)))
  end.
Proof.
  intros (Hq & Hs & Ht) Hg Hp. unfold discover_cached, cache_lookup. rewrite Hq, Hs, Ht, Hg, Z.eqb_refl, Hp.
  cbn [mbind cres_bind]. destruct live as [m|[cols fp]]; [done|]. rewrite Hg.
  destruct (fp =? 0); [done|]. cbn [orb fst]. by destruct (fp =? stored).
Qed.

(** [C19]: the cached metadata policy, over a first connect that reaches a
    server with columns [cols] and a second one, possibly against a changed
    server.  The first stores the columns.  The second uses the live columns
    when their fingerprint agrees with the stored one; it fails with
    SCHEMA_DRIFT and forgets the entry, so that the next connect captures
    again, when it does not; and it works from the stored columns, marked
    stale and without a fingerprint, when the server cannot be read. *)
Theorem cached_metadata_policy `{WCType} `{StrictConv} `{CacheDbLaws} (server1 server2 : SqlClient)
    ck1 ck2 ca d d1 schema table evs1 evs2 cols fp live :
  table_args ca schema table -> db_select d (make_key 300 schema table) = None ->
  ck_malloc ck1 = true -> ck_malloc ck2 = true -> Forall storable cols -> 1 <= zlen cols <= 512 ->
  @probe_table server1 ck1 ca = Ret (evs1, inr (cols, fp)) ->
  vms_meta_cache_put true d schema table cols fp (ck_now ck1) = Ret (true, d1) ->
  @probe_table server2 ck2 ca = Ret (evs2, live) ->
  discover_cached (H := server1) ck1 ca d = Ret (d1, (evs1, inr (mkShape cols None fp 0))) /\
  discover_cached (H := server2) ck2 ca d1 =
    match live with
    | inl _ => Ret (d1, (evs2, inr (mkShape (map normal cols) None 0 (-1))))
    | inr (cols2, fp2) =>
        if (fp2 =? 0) || (fp2 =? fp) then Ret (d1, (evs2, inr (mkShape cols2 None fp2 0)))
        else Ret (vms_meta_cache_drop d1 schema table, (evs2, inl (drift_msg ca)))
    end /\
  vms_meta_cache_get true (vms_meta_cache_drop d1 schema table) schema table 0 = (CACHE_MISS, None).
Proof.
  intros Ha Hn Hm1 Hm2 Hs Hc Hp1 Hput Hp2. split_and!.
  - eapply discover_first_capture; [done..|]. by rewrite Hm1.
  - eapply discover_with_entry; [done| |done]. intros fp0. rewrite Hm2.
    apply probe_fingerprint in Hp1. rewrite Hm1 in Hp1. by eapply put_then_get.
  - apply get_absent. unfold vms_meta_cache_drop. by rewrite select_delete.
Qed.

(** ** Concrete connects *)

Definition up : ConnEnv := mkConnEnv (fun _ => None) true true true true (fun _ => None) 1000.

Definition down : ConnEnv :=
  mkConnEnv (fun _ => Some (mkError VMS_ERR_TRANSPORT [] 0 (str "no route"))) true true true true (fun _ => None) 2000.

Definition demo_argv : list (list Z) :=
  [str "schema='dbo'"; str "table='t'"; str "mode='rw'"; str "metadata_mode='cached'"].

Definition no_keys : list Z -> resolved := fun _ => NoProvider.

Definition server_row (nullable : Z) : list VmsValue :=
  [VAL_TEXT (str "id"); VAL_TEXT (str "int"); VAL_INT64 4; VAL_INT64 10; VAL_INT64 0; VAL_INT64 nullable; VAL_INT64 0; VAL_INT64 0].

Definition catalog (nullable : Z) : SqlClient := {| exec_direct := fun _ => QRows [server_row nullable] None |}.

Definition server_col (nullable : Z) : VmsMetaColumn := mkCol (str "id") (str "int") CT_INT64 nullable 0 0 4 10 0.

Definition demo_connect (c : SqlClient) (ck : ConnEnv) (argv : list (list Z)) (d : @db GmapCacheDb) :
    cres (@db GmapCacheDb * list lease_event * connect_result) :=
  @vms_vtab_connect c ascii_wctype IdStrictConv GmapCacheDb ck no_keys (Some demo_profile) argv d.

Definition snapshot_fp : Z := Eval vm_compute in match vms_meta_fingerprint true [server_col 0] with Ret f => f | Fault _ => 0 end.

Definition snapshot_db : @db GmapCacheDb :=
  <[make_key 300 (str "dbo") (str "t") := mkRow (wrap_i64 snapshot_fp) 1000 (payload_bytes [server_col 0])]> ∅.

Definition demo_state (fp utc : Z) : VtabState :=
  mkState (mkTab (str "dbo") (str "t") [server_col 0] false true false) None MAT_OFF true fp utc.

Definition demo_decl : list Z := str "CREATE TABLE x(" ++ dq ++ str "id" ++ dq ++ str " INTEGER NOT NULL)".


Definition demo_args : ConnArgs := mkArgs (Some (str "dbo")) (Some (str "t")) None false true MAT_OFF false true None.

Lemma cached_metadata_policy_witness :
  @discover_cached (catalog 1) ascii_wctype IdStrictConv GmapCacheDb up demo_args snapshot_db =
  Ret (vms_meta_cache_drop snapshot_db (str "dbo") (str "t"), ([LAcquire; LRelease], inl (drift_msg demo_args))).
Proof.
  destruct (@cached_metadata_policy ascii_wctype IdStrictConv GmapCacheDb GmapCacheDbLaws (catalog 0) (catalog 1)
    up up demo_args ∅ snapshot_db (str "dbo") (str "t") [LAcquire; LRelease] [LAcquire; LRelease] [server_col 0] snapshot_fp
    (inr ([server_col 1], match vms_meta_fingerprint true [server_col 1] with Ret f => f | Fault _ => 0 end)))
    as (_ & -> & _); [done|by vm_compute|done|done| | |by vm_compute|by vm_compute|by vm_compute|by vm_compute].
  - repeat constructor; try (vm_compute; congruence); simpl; try done;
      repeat (constructor; [vm_compute; congruence|]); constructor.
  - vm_compute. split; congruence.
Defined.

(** A table connected while the server is down works from the snapshot, but
    the integrity check rejects it: the stored fingerprint is not kept. *)
Example stale_table_fails_integrity :
  demo_connect (catalog 0) down demo_argv snapshot_db = Ret (snapshot_db, [], CConnected (demo_state 0 (-1)) demo_decl) /\
  vms_vtab_integrity (demo_state 0 (-1)) = Some (msg "integrity: cached-mode vtab carries no schema fingerprint").
Proof. split; vm_compute; reflexivity. Qed.

(** The quoted form of a connection key keeps its closing quote, which is not
    a letter of an identifier; the bare form reaches the provider. *)
Example quoted_conn_key_rejected :
  demo_connect (catalog 0) up (demo_argv ++ [str "conn='k1'"]) ∅ = Ret (∅, [], CError (msg "invalid conn key")) /\
  demo_connect (catalog 0) up (demo_argv ++ [str "conn=k1"]) ∅ =
    Ret (∅, [], CError (msg "UNSUPPORTED: conn= requires a registered query profile provider")).
Proof. split; vm_compute; reflexivity. Qed.

(** A quoted identifier of 128 characters overruns its buffer before it is
    validated. *)
Example long_identifier_overflows :
  demo_connect (catalog 0) up [str "schema='" ++ replicate 128 97 ++ str "'"; str "table=t"] ∅ = Fault OobWrite.
Proof. vm_compute. reflexivity. Qed.
