(* ===== verification/Log.v ===== *)
(** * Log redaction (src/src/vms_log.c)

    Every line that reaches the log sink passes through a redaction that
    replaces the values of secret-looking assignments by stars. *)

From S2P Require Import Prelude Config.

Local Open Scope nat_scope.

Definition star : Z := chr "*".
Definition equals : Z := chr "=".

(** [while (i < nl && tolower(hay[i]) == tolower(needle[i])) i++] *)
Fixpoint match_ci (hay needle : list Z) : nat :=
  match needle, hay with
  | n :: ns, h :: hs => if (tolower h =? tolower n)%Z then S (match_ci hs ns) else 0
  | _, _ => 0
  end.

(** The offset of the first occurrence. *)
Fixpoint find_ci (hay needle : list Z) : option nat :=
  match hay with
  | [] => None
  | _ :: hay' =>
      let i := match_ci hay needle in
      if i =? length needle then Some 0
      else match hay !! i with
           | None => None
           | Some _ => S <$> find_ci hay' needle
           end
  end.

(** [while ( *end && *end != ';') end++] *)
Fixpoint value_text (v : list Z) : list Z :=
  match v with
  | [] => []
  | c :: v' => if (c =? semi)%Z then [] else c :: value_text v'
  end.

(** The inner loop for one key; each turn consumes the key, so a fuel of the
    text's length is enough.  The result is the offset and the length of the
    value. *)
Fixpoint key_value (fuel : nat) (k text : list Z) : option (nat * nat) :=
  match fuel with
  | O => None
  | S fuel =>
      p ← find_ci text k;
      let eq := p + length k in
      let later := prod_map (Nat.add eq) id <$> key_value fuel k (drop eq text) in
      match drop eq text with
      | c :: v =>
          if (c =? equals)%Z && (0 <? length (value_text v)) then Some (S eq, length (value_text v)) else later
      | [] => later
      end
  end.

Definition secret_keys : list (list Z) := [str "PWD"; str "PASSWORD"; str "SECRET"; str "TOKEN"].

Fixpoint first_value (keys : list (list Z)) (text : list Z) : option (nat * nat) :=
  match keys with
  | [] => None
  | k :: keys' =>
      match key_value (S (length text)) k text with Some r => Some r | None => first_value keys' text end
  end.

Definition find_secret_value (text : list Z) : option (nat * nat) := first_value secret_keys text.

(** The loop of [vms_redact] from position [pos]: what lies before is final. *)
Fixpoint redact_loop (fuel : nat) (out : list Z) : list Z :=
  match fuel with
  | O => out
  | S fuel =>
      match find_secret_value out with
      | None => out
      | Some (off, vlen) => take off out ++ replicate vlen star ++ redact_loop fuel (drop (off + vlen) out)
      end
  end.

Definition vms_redact (alloc_ok : bool) (text : option (list Z)) : option (list Z) :=
  t ← text; if alloc_ok then Some (redact_loop (S (length t)) t) else None.

Record VmsLog := mkLog { g_sink : bool; g_level : Z }.

Definition vms_log_set_sink (sink : bool) (g : VmsLog) : VmsLog := mkLog sink (g_level g).

Definition vms_log_set_level (max_level : Z) (g : VmsLog) : VmsLog := mkLog (g_sink g) (Z.min 3 (Z.max 0 max_level)).

(** The line handed to the sink for a formatted text. *)
Definition vms_log (alloc_ok : bool) (g : VmsLog) (level : Z) (formatted : list Z) : option (list Z) :=
  if negb (g_sink g) || (level >? g_level g)%Z then None
  else let raw := trunc_copy 1024 formatted in Some (default raw (vms_redact alloc_ok (Some raw))).

(** ** Occurrences *)

(** [k] occurs in [t] at [i], in any case. *)
Definition occurs (k t : list Z) (i : nat) : Prop :=
  forall j x, k !! j = Some x -> exists c, t !! (i + j) = Some c /\ tolower c = tolower x.

(** [k=] occurs at [i] and is followed by a non-empty value. *)
Definition hit (k t : list Z) (i : nat) : Prop :=
  occurs k t i /\ t !! (i + length k) = Some equals /\
  exists c, t !! S (i + length k) = Some c /\ c <> semi.

Lemma match_ci_full h k : match_ci h k = length k <-> occurs k h 0.
Proof.
  revert h. induction k as [|x k IH]; intros h; simpl.
  { split; [|by destruct h]. intros _ j y Hy. by rewrite lookup_nil in Hy. }
  destruct h as [|c h]; [split; [done|]; intros Ho; by destruct (Ho 0 x) as (? & ? & _)|].
  simpl. destruct (Z.eqb_spec (tolower c) (tolower x)).
  - split.
    + intros [= Hm]. apply IH in Hm. intros [|j] y Hy; simpl in *; [injection Hy as <-; by exists c|]. by apply Hm.
    + intros Ho. f_equal. apply IH. intros j y Hy. by apply (Ho (S j)).
  - split; [done|]. intros Ho. destruct (Ho 0 x) as (? & [= <-] & ?); done.
Qed.

Lemma occurs_drop k t n i : occurs k (drop n t) i <-> occurs k t (n + i).
Proof. unfold occurs. by setoid_rewrite lookup_drop; setoid_rewrite Nat.add_assoc. Qed.

Lemma occurs_at k t i : match_ci (drop i t) k = length k -> occurs k t i.
Proof. rewrite match_ci_full, occurs_drop. by rewrite Nat.add_0_r. Qed.

Lemma hit_drop k t n i : hit k (drop n t) i <-> hit k t (n + i).
Proof.
  unfold hit. rewrite occurs_drop, !lookup_drop. replace (n + S (i + length k)) with (S (n + i + length k)) by lia.
  by rewrite Nat.add_assoc.
Qed.

Lemma occurs_cons k c t i : occurs k (c :: t) (S i) <-> occurs k t i.
Proof. done. Qed.

Lemma find_ci_spec t k : k <> [] ->
  match find_ci t k with
  | Some i => occurs k t i /\ forall i', occurs k t i' -> i <= i'
  | None => forall i, ~ occurs k t i
  end.
Proof.
  intros Hk. induction t as [|c t IH].
  - intros i Ho. destruct k as [|x k]; [done|]. by destruct (Ho 0 x) as (? & ? & _).
  - cbn [find_ci]. destruct (Nat.eqb_spec (match_ci (c :: t) k) (length k)) as [E|E].
    + apply match_ci_full in E. split; [done|lia].
    + assert (H0 : ~ occurs k (c :: t) 0) by (by rewrite <- match_ci_full).
      destruct ((c :: t) !! _) eqn:El.
      * destruct (find_ci t k) as [i|]; simpl.
        -- destruct IH as [Ho Hl]. split; [done|]. intros [|i'] Hi'; [done|]. specialize (Hl i' Hi'). lia.
        -- intros [|i] Hi; [done|]. by apply (IH i).
      * intros i Ho. apply lookup_ge_None in El.
        assert (Hle : forall h k', match_ci h k' <= length k').
        { clear. intros h k'. revert h. induction k' as [|x k' IH]; intros [|y h]; simpl; [lia..|].
          destruct (_ =? _)%Z; [specialize (IH h)|]; lia. }
        specialize (Hle (c :: t) k). destruct (lookup_lt_is_Some_2 k (length k - 1)) as [x Hx]; [destruct k; simpl in *; [done|lia]|].
        destruct (Ho _ _ Hx) as (c' & Hc' & _). apply lookup_lt_Some in Hc'. lia.
Qed.

(** The first letter of a key does not occur in the rest of it, and a key has
    no star: two occurrences never overlap. *)
Definition key_ok (k : list Z) : Prop :=
  exists a k', k = a :: k' /\ Forall (fun x => tolower x <> tolower a) k' /\
    Forall (fun x => tolower x <> star /\ tolower x <> semi) k.

Lemma secret_keys_ok : Forall key_ok secret_keys.
Proof.
  repeat (apply Forall_cons_2; [eexists _, _; split; [reflexivity|];
    split; repeat (apply Forall_cons_2; [vm_compute; repeat split; congruence|]); apply Forall_nil_2|]).
  apply Forall_nil_2.
Qed.

Lemma occurs_disjoint k t i i' :
  key_ok k -> occurs k t i -> occurs k t i' -> i < i' -> i + length k <= i'.
Proof.
  intros (a & k' & -> & Hk & _) Ho Ho' Hi. destruct (Nat.le_gt_cases (i + length (a :: k')) i') as [?|Hlt]; [done|].
  exfalso. simpl in Hlt. destruct (lookup_lt_is_Some_2 k' (i' - i - 1)) as [x Hx]; [lia|].
  destruct (Ho (S (i' - i - 1)) x Hx) as (c & Hc & Ec). destruct (Ho' 0 a eq_refl) as (c' & Hc' & Ec').
  rewrite Nat.add_0_r in Hc'. replace (i + S (i' - i - 1)) with i' in Hc by lia.
  rewrite Forall_lookup in Hk. apply (Hk _ _ Hx). congruence.
Qed.

Lemma value_text_nonempty v : 0 < length (value_text v) <-> exists c, v !! 0 = Some c /\ c <> semi.
Proof.
  destruct v as [|c v]; simpl; [split; [lia|by intros (? & ? & _)]|].
  destruct (Z.eqb_spec c semi) as [->|Hc]; simpl.
  - split; [lia|]. by intros (? & [= <-] & ?).
  - split; [|lia]. intros _. by exists c.
Qed.

Definition value_spec (k t : list Z) (r : option (nat * nat)) : Prop :=
  match r with
  | None => forall i, ~ hit k t i
  | Some (v, n) => exists i, v = S (i + length k) /\ n = length (value_text (drop v t)) /\ hit k t i /\
                     forall i', hit k t i' -> i <= i'
  end.

Lemma value_spec_later k t p r :
  key_ok k -> occurs k t p -> (forall i, occurs k t i -> p <= i) -> ~ hit k t p ->
  value_spec k (drop (p + length k) t) r -> value_spec k t (prod_map (Nat.add (p + length k)) id <$> r).
Proof.
  intros Hk Ho Hmin Hp Hr.
  assert (Hall : forall i, hit k t i -> p + length k <= i).
  { intros i Hi. apply occurs_disjoint with (t := t); [done..|by destruct Hi|].
    destruct Hi as [Hoi ?]. specialize (Hmin _ Hoi). destruct (decide (p = i)) as [->|]; [|lia]. by destruct Hp. }
  destruct r as [[v n]|]; simpl in *.
  - destruct Hr as (i & -> & -> & Hi & Hl). exists (p + length k + i). rewrite drop_drop. split_and!.
    + lia.
    + done.
    + by apply hit_drop.
    + intros i' Hi'. pose proof (Hall _ Hi'). assert (i <= i' - (p + length k)); [|lia].
      apply Hl, hit_drop. by replace (p + length k + (i' - (p + length k))) with i' by lia.
  - intros i Hi. pose proof (Hall _ Hi). apply (Hr (i - (p + length k))), hit_drop.
    by replace (p + length k + (i - (p + length k))) with i by lia.
Qed.

Lemma key_value_spec fuel k t : key_ok k -> length t < fuel -> value_spec k t (key_value fuel k t).
Proof.
  intros Hk. assert (Hne : k <> []) by (by destruct Hk as (? & ? & -> & _)).
  revert t. induction fuel as [|fuel IH]; intros t Hf; [lia|]. cbn [key_value].
  pose proof (find_ci_spec t k Hne) as Hfind. destruct (find_ci t k) as [p|]; cbn [mbind option_bind].
  2:{ intros i [Hi _]. by apply (Hfind i). }
  destruct Hfind as [Ho Hmin].
  assert (Hlen : p + length k <= length t).
  { destruct k as [|a k']; [done|]. destruct (lookup_lt_is_Some_2 (a :: k') (length k')) as [x Hx]; [simpl; lia|].
    destruct (Ho _ _ Hx) as (c & Hc & _). apply lookup_lt_Some in Hc. simpl. lia. }
  assert (Hnext : ~ hit k t p -> value_spec k t
     (prod_map (Nat.add (p + length k)) id <$> key_value fuel k (drop (p + length k) t))).
  { intros Hp. apply value_spec_later; [done..|]. apply IH. rewrite length_drop.
    assert (0 < length k) by (destruct k; simpl; [done|lia]). lia. }
  destruct (drop (p + length k) t) as [|c v] eqn:Ed.
  - apply Hnext. intros (_ & He & _). rewrite <- (Nat.add_0_r (p + length k)), <- lookup_drop, Ed in He. done.
  - assert (Hc : t !! (p + length k) = Some c) by (rewrite <- (Nat.add_0_r (p + length k)), <- lookup_drop, Ed; done).
    assert (Hv : drop (S (p + length k)) t = v) by (by rewrite <- Nat.add_1_r, <- drop_drop, Ed).
    destruct (_ && _) eqn:E.
    + apply andb_prop in E as [E1 E2]. apply Z.eqb_eq in E1 as ->. apply Nat.ltb_lt in E2.
      exists p. rewrite Hv. split_and!; [done..| |].
      * split_and!; [done..|]. apply value_text_nonempty in E2 as (x & Hx & ?). exists x. split; [|done].
        by rewrite <- (Nat.add_0_r (S (p + length k))), <- lookup_drop, Hv.
      * intros i' [Hi' _]. by apply Hmin.
    + apply Hnext. intros (_ & He & (x & Hx & Hs)). rewrite Hc in He. injection He as ->.
      rewrite Z.eqb_refl in E. simpl in E. apply Nat.ltb_ge in E.
      rewrite <- (Nat.add_0_r (S (p + length k))), <- lookup_drop, Hv in Hx.
      assert (0 < length (value_text v)) by (apply value_text_nonempty; by exists x). lia.
Qed.

(** ** Redaction *)

(** No key before index [m] has a value in the text. *)
Definition none_before (keys : list (list Z)) (m : nat) (t : list Z) : Prop :=
  forall m' k', m' < m -> keys !! m' = Some k' -> forall i, ~ hit k' t i.

Lemma none_before_drop keys m t n : none_before keys m t -> none_before keys m (drop n t).
Proof. intros Hn m' k' Hm Hk i Hi. apply hit_drop in Hi. by apply (Hn m' k' Hm Hk (n + i)). Qed.

Lemma first_value_spec keys t :
  Forall key_ok keys ->
  match first_value keys t with
  | None => none_before keys (length keys) t
  | Some r => exists m k, keys !! m = Some k /\ value_spec k t (Some r) /\ none_before keys m t
  end.
Proof.
  intros Hk. induction Hk as [|k keys Hk1 Hk IH]; cbn [first_value]; [intros m' k' Hm; simpl in Hm; lia|].
  assert (Hs : value_spec k t (key_value (S (length t)) k t)) by (apply key_value_spec; [done|lia]).
  assert (Hnb : forall m, (forall i, ~ hit k t i) -> none_before keys m t -> none_before (k :: keys) (S m) t).
  { intros m H0 Hm [|m'] k' Hlt; [by intros [= <-]|]. apply Hm. lia. }
  destruct (key_value _ k t) as [r|].
  - exists 0, k. split_and!; [done..|]. intros m' k' Hm. lia.
  - destruct (first_value keys t) as [r|].
    + destruct IH as (m & k1 & ? & ? & ?). exists (S m), k1. auto.
    + simpl. auto.
Qed.

Lemma value_text_rest l : drop (length (value_text l)) l = [] \/ exists r, drop (length (value_text l)) l = semi :: r.
Proof.
  induction l as [|c l IH]; [by left|]. simpl. destruct (Z.eqb_spec c semi) as [->|]; [right; by eexists|]. done.
Qed.

(** What a successful search returns, as a split of the text. *)
Lemma found_split t v n :
  find_secret_value t = Some (v, n) ->
  exists m k, secret_keys !! m = Some k /\ value_spec k t (Some (v, n)) /\ none_before secret_keys m t /\
    0 < v < length t /\ 0 < n /\ v + n <= length t /\ t !! v <> Some semi /\
    (drop (v + n) t = [] \/ exists r, drop (v + n) t = semi :: r).
Proof.
  intros Hf. pose proof (first_value_spec secret_keys t secret_keys_ok) as Hs. unfold find_secret_value in Hf.
  rewrite Hf in Hs. destruct Hs as (m & k & Hk & Hv & Hn). exists m, k.
  pose proof Hv as (i & -> & -> & (_ & _ & (c & Hc & Hcs)) & _). split_and!; [done..|lia| | | | |].
  - by apply lookup_lt_Some in Hc.
  - apply value_text_nonempty. exists c. split; [|done]. by rewrite lookup_drop, Nat.add_0_r.
  - assert (Hle : forall l, length (value_text l) <= length l).
    { clear. induction l as [|x l IH]; simpl; [lia|]. destruct (_ =? _)%Z; simpl; lia. }
    specialize (Hle (drop (S (i + length k)) t)). rewrite length_drop in Hle. apply lookup_lt_Some in Hc. lia.
  - congruence.
  - rewrite <- drop_drop. apply value_text_rest.
Qed.

(** Redaction changes characters to stars and nothing else. *)
Lemma redact_pointwise fuel t : Forall2 (fun a b => b = a \/ b = star) t (redact_loop fuel t).
Proof.
  revert t. induction fuel as [|fuel IH]; intros t; cbn [redact_loop]; [apply Forall2_same_length_lookup; naive_solver|].
  destruct (find_secret_value t) as [[v n]|] eqn:E; [|apply Forall2_same_length_lookup; naive_solver].
  apply found_split in E as (_ & _ & _ & _ & _ & Hv & Hn & Hl & _).
  rewrite <- (take_drop v t) at 1. apply Forall2_app; [apply Forall2_same_length_lookup; naive_solver|].
  rewrite <- (take_drop n (drop v t)) at 1. rewrite drop_drop. apply Forall2_app; [|apply IH].
  apply Forall2_same_length_lookup. rewrite length_take, length_drop, length_replicate. split; [lia|].
  intros i a b _ Hb. apply lookup_replicate in Hb as [-> _]. by right.
Qed.

Lemma redact_rest fuel r : (r = [] \/ exists r', r = semi :: r') -> value_text (redact_loop fuel r) = [].
Proof.
  intros Hr. pose proof (redact_pointwise fuel r) as Hp. destruct Hr as [->|[r' ->]].
  - by apply Forall2_nil_inv_l in Hp as ->.
  - destruct fuel as [|fuel]; cbn [redact_loop]; [done|]. destruct (find_secret_value _) as [[v n]|] eqn:E; [|done].
    apply found_split in E as (? & ? & _ & _ & _ & Hv & _). destruct v as [|v]; [lia|]. done.
Qed.

Lemma value_text_stars n r : value_text (replicate n star ++ r) = replicate n star ++ value_text r.
Proof. induction n as [|n IH]; [done|]. cbn [replicate app value_text]. by rewrite IH. Qed.

Lemma occurs_no_star k t i j :
  key_ok k -> occurs k t i -> t !! (i + length k) = Some equals -> i <= j <= i + length k -> t !! j <> Some star.
Proof.
  intros (a & k' & _ & _ & Hns) Ho He Hj Hs. destruct (decide (j = i + length k)) as [->|]; [rewrite He in Hs; vm_compute in Hs; congruence|].
  destruct (lookup_lt_is_Some_2 k (j - i)) as [x Hx]; [lia|]. destruct (Ho _ _ Hx) as (c & Hc & Ec).
  replace (i + (j - i)) with j in Hc by lia. rewrite Forall_lookup in Hns. apply (proj1 (Hns _ _ Hx)). rewrite <- Ec.
  rewrite Hs in Hc. injection Hc as Hc. subst c. vm_compute. reflexivity.
Qed.

(** The three parts of a text of which one value was starred. *)
Lemma starred_parts t v n rest :
  v <= length t -> let out := take v t ++ replicate n star ++ rest in
  (forall j, j < v -> out !! j = t !! j) /\ (forall j, v <= j < v + n -> out !! j = Some star) /\
  drop v out = replicate n star ++ rest /\ drop (v + n) out = rest.
Proof.
  intros Hv out. assert (Hl : length (take v t) = v) by (rewrite length_take; lia). split_and!.
  - intros j Hj. unfold out. rewrite lookup_app_l by lia. by apply lookup_take_lt.
  - intros j Hj. unfold out. rewrite lookup_app_r, Hl by lia.
    rewrite lookup_app_l by (rewrite length_replicate; lia). apply lookup_replicate. split; [done|lia].
  - unfold out. by rewrite drop_app_length'.
  - unfold out. rewrite <- drop_drop, drop_app_length' by done. apply drop_app_length'. by rewrite length_replicate.
Qed.

Lemma redact_stars fuel : forall t m k,
  length t < fuel -> secret_keys !! m = Some k -> none_before secret_keys m t ->
  forall i, occurs k (redact_loop fuel t) i -> redact_loop fuel t !! (i + length k) = Some equals ->
    Forall (eq star) (value_text (drop (S (i + length k)) (redact_loop fuel t))).
Proof.
  induction fuel as [|fuel IH]; intros t m k Hf Hm Hnb i Ho He; [lia|].
  assert (Hk : key_ok k) by (pose proof secret_keys_ok as Hok; rewrite Forall_lookup in Hok; by apply (Hok m)).
  cbn [redact_loop] in *. destruct (find_secret_value t) as [[v n]|] eqn:E.
  2:{ pose proof (first_value_spec secret_keys t secret_keys_ok) as Hs. unfold find_secret_value in E. rewrite E in Hs.
      destruct (value_text _) as [|c r] eqn:Ev; [constructor|]. exfalso.
      apply (Hs m k (lookup_lt_Some _ _ _ Hm) Hm i). split_and!; [done..|].
      destruct (proj1 (value_text_nonempty (drop (S (i + length k)) t))) as (x & Hx & ?); [rewrite Ev; simpl; lia|].
      exists x. by rewrite lookup_drop, Nat.add_0_r in Hx. }
  destruct (found_split _ _ _ E) as (m0 & k0 & Hm0 & Hv0 & Hnb0 & Hv & Hn & Hvn & Hvs & Hrest).
  set (rest := redact_loop fuel (drop (v + n) t)) in *. set (out := take v t ++ replicate n star ++ rest) in *.
  destruct (starred_parts t v n rest ltac:(lia)) as (Hpre & Hstar & Hval & Hdrop). fold out in Hpre, Hstar, Hval, Hdrop.
  destruct (decide (i + length k < v)) as [Hlt|Hge].
  - assert (Hot : occurs k t i).
    { intros j x Hx. pose proof (lookup_lt_Some _ _ _ Hx). rewrite <- Hpre by lia. by apply Ho. }
    rewrite Hpre in He by done. destruct (decide (S (i + length k) = v)) as [Hv1|Hv1].
    + rewrite Hv1, Hval, value_text_stars. unfold rest. rewrite redact_rest by done.
      rewrite app_nil_r. by apply Forall_replicate.
    + destruct (value_text _) as [|c r] eqn:Ev; [constructor|]. exfalso.
      destruct (proj1 (value_text_nonempty (drop (S (i + length k)) out))) as (x & Hx & Hxs); [rewrite Ev; simpl; lia|].
      rewrite lookup_drop, Nat.add_0_r, Hpre in Hx by lia.
      assert (Hhit : hit k t i) by (split_and!; [done..|by exists x]).
      destruct (Nat.lt_trichotomy m m0) as [?|[<-|?]]; [by apply (Hnb0 m k ltac:(done) Hm i)| |].
      * rewrite Hm in Hm0. injection Hm0 as <-. destruct Hv0 as (i0 & -> & _ & _ & Hmin). specialize (Hmin i Hhit). lia.
      * destruct Hv0 as (i0 & _ & _ & Hi0 & _). by apply (Hnb m0 k0 ltac:(done) Hm0 i0).
  - assert (Hi : v + n <= i).
    { destruct (decide (v + n <= i)) as [?|Hni]; [done|exfalso].
      apply (occurs_no_star k out i (max i v)); [done..|lia|]. apply Hstar. lia. }
    replace (S (i + length k)) with (v + n + S (i - (v + n) + length k)) by lia. rewrite <- drop_drop, Hdrop.
    apply (IH (drop (v + n) t) m k); [rewrite length_drop; lia|done|by apply none_before_drop| |]; fold rest; rewrite <- Hdrop.
    + apply occurs_drop. by replace (v + n + (i - (v + n))) with i by lia.
    + rewrite lookup_drop. by replace (v + n + (i - (v + n) + length k)) with (i + length k) by lia.
Qed.

(** [C26]: redaction keeps the length of the text and changes characters only
    to stars; and in the result every value of a secret key (any spelling in
    upper or lower case, up to the next semicolon) consists of stars, for each
    key no earlier key of the list has a value for.  For PWD, the first key,
    this holds of every text. *)
Theorem redact_hides_values t m k out :
  secret_keys !! m = Some k -> none_before secret_keys m t -> vms_redact true (Some t) = Some out ->
  Forall2 (fun a b => b = a \/ b = star) t out /\
  forall i, occurs k out i -> out !! (i + length k) = Some equals ->
    Forall (eq star) (value_text (drop (S (i + length k)) out)).
Proof.
  intros Hm Hn Hr. assert (out = redact_loop (S (length t)) t) as ->.
  { unfold vms_redact in Hr. cbn [mbind option_bind] in Hr. congruence. }
  split; [apply redact_pointwise|]. apply (redact_stars _ t m k); [lia|done|done].
Qed.

Lemma redact_hides_values_witness :
  Forall (eq star) (value_text (drop 16 (str "UID=sa;pwd  pwd=*****;Pwd=**"))) /\
  Forall (eq star) (value_text (drop 26 (str "UID=sa;pwd  pwd=*****;Pwd=**"))).
Proof.
  destruct (redact_hides_values (str "UID=sa;pwd  pwd=hello;Pwd=12") 0 (str "PWD") (str "UID=sa;pwd  pwd=*****;Pwd=**")) as [_ H].
  - reflexivity.
  - intros m' k' Hm. lia.
  - vm_compute. reflexivity.
  - split; [apply (H 12)|apply (H 22)]; try (vm_compute; reflexivity); apply occurs_at; vm_compute; reflexivity.
Defined.

(** A secret of a later key that stands before the value of an earlier key
    stays in the text, and so does the login name. *)
Example token_before_password_leaks :
  vms_redact true (Some (str "TOKEN=abc;UID=sa;PWD=xyz")) = Some (str "TOKEN=abc;UID=sa;PWD=***").
Proof. vm_compute. reflexivity. Qed.

(** When the copy cannot be allocated the raw line is logged. *)
Example log_without_memory_leaks :
  vms_log false (mkLog true 2) 0 (str "PWD=xyz") = Some (str "PWD=xyz").
Proof. vm_compute. reflexivity. Qed.
