(* ===== verification/Schema.v ===== *)
(** * Schema inspection functions (src/src/vms_schema.c)

    Four eponymous table functions that list the tables, columns and indexes
    of a server.  Their arguments are hidden columns, which the planner of the
    host turns into constraints; [si_best_index] routes them to [si_filter]. *)

From S2P Require Import Prelude Foundation Client Identity Meta Plan Scan QuerySource Config.

Inductive SiKind : Type := SI_TABLES | SI_TABLE_INFO | SI_INDEX_LIST | SI_INDEX_INFO.

Definition k_si_hidden (k : SiKind) : Z :=
  match k with SI_TABLES => 2 | SI_TABLE_INFO => 3 | SI_INDEX_LIST => 3 | SI_INDEX_INFO => 4 end.

Definition VMS_SI_MAX_HIDDEN : nat := 4.

(** ** Catalog statements *)

(** [swprintf_s] aborts on a text that does not fit. *)
Definition swprintf_s (cap : Z) (text : list Z) : cres (option (list Z)) :=
  if zlen text >=? cap then Fault InvalidParam else Ret (Some text).

Definition tables_sql (schema : list Z) : list Z :=
  str "SELECT s.name, o.name, CASE o.type WHEN N'U' THEN N'table' WHEN N'V' THEN N'view' END FROM sys.objects o JOIN sys.schemas s ON s.schema_id = o.schema_id WHERE o.type IN (N'U', N'V') AND s.name = N'" ++
  schema ++ str "' ORDER BY s.name, o.name".

Definition table_info_sql (schema table : list Z) : list Z :=
  str "SELECT c.column_id - 1, c.name, t.name, c.is_nullable, OBJECT_DEFINITION(c.default_object_id), COALESCE(pkic.key_ordinal, 0), CASE WHEN c.is_computed = 1 THEN 2 ELSE 0 END, c.column_id, c.max_length, c.precision, c.scale, c.is_nullable, c.is_identity, c.is_computed FROM sys.columns c JOIN sys.types t ON t.user_type_id = c.user_type_id JOIN sys.objects o ON o.object_id = c.object_id JOIN sys.schemas s ON s.schema_id = o.schema_id LEFT JOIN sys.index_columns pkic   ON pkic.object_id = c.object_id AND pkic.column_id = c.column_id LEFT JOIN sys.indexes pi   ON pi.object_id = pkic.object_id AND pi.index_id = pkic.index_id  AND pi.is_primary_key = 1 WHERE s.name = N'" ++
  schema ++ str "' AND o.name = N'" ++ table ++ str "' ORDER BY c.column_id".

Definition index_list_sql (schema table : list Z) : list Z :=
  str "SELECT ROW_NUMBER() OVER (ORDER BY i.index_id), i.name, i.is_unique, CASE WHEN i.is_primary_key = 1 THEN N'pk'  WHEN i.is_unique = 1 THEN N'u' ELSE N'c' END, CASE WHEN i.has_filter = 1 THEN 1 ELSE 0 END, i.is_disabled, (SELECT COUNT(*) FROM sys.index_columns x  WHERE x.object_id = i.object_id AND x.index_id = i.index_id) FROM sys.indexes i JOIN sys.objects o ON o.object_id = i.object_id JOIN sys.schemas s ON s.schema_id = o.schema_id WHERE s.name = N'" ++
  schema ++ str "' AND o.name = N'" ++ table ++ str "' AND i.index_id > 0 ORDER BY i.index_id".

Definition index_info_sql (schema table index : list Z) : list Z :=
  str "SELECT ic.key_ordinal, ic.index_column_id, c.name, ic.is_descending_key, N'B', CASE WHEN ic.is_included_column = 1 THEN 0 ELSE 1 END, i.is_primary_key, i.is_unique, i.is_disabled, ic.key_ordinal, c.is_nullable FROM sys.index_columns ic JOIN sys.columns c ON c.object_id = ic.object_id  AND c.column_id = ic.column_id JOIN sys.indexes i ON i.object_id = ic.object_id  AND i.index_id = ic.index_id JOIN sys.objects o ON o.object_id = i.object_id JOIN sys.schemas s ON s.schema_id = o.schema_id WHERE s.name = N'" ++
  schema ++ str "' AND o.name = N'" ++ table ++ str "' AND i.name = N'" ++ index ++ str "' ORDER BY ic.key_ordinal".

Definition nonempty (s : list Z) : bool := negb (bool_decide (s = [])).

Definition si_build_sql (k : SiKind) (schema table index : list Z) (cap : Z) : cres (option (list Z)) :=
  match k with
  | SI_TABLES => if nonempty schema then swprintf_s cap (tables_sql schema) else Ret None
  | SI_TABLE_INFO =>
      if nonempty schema && nonempty table then swprintf_s cap (table_info_sql schema table) else Ret None
  | SI_INDEX_LIST =>
      if nonempty schema && nonempty table then swprintf_s cap (index_list_sql schema table) else Ret None
  | SI_INDEX_INFO =>
      if nonempty schema && nonempty table && nonempty index then swprintf_s cap (index_info_sql schema table index)
      else Ret None
  end.

(** ** xBestIndex *)

Record bstate := mkBS { border : list Z; bnext : Z; buse : list usage }.

Definition si_best_step (nh : Z) (s : bstate) (i : nat) (c : constraint) : bstate :=
  if negb (usable c) || negb (bool_decide (cop c = IC_EQ)) then s
  else if (iColumn c <? 0) || (iColumn c >=? nh) then s
  else if negb (nth (Z.to_nat (iColumn c)) (border s) 0 =? 0) then s
  else mkBS (<[Z.to_nat (iColumn c) := bnext s]> (border s)) (bnext s + 1) (<[i := mkUse (bnext s) true]> (buse s)).

Fixpoint si_best_loop (nh : Z) (i : nat) (cs : list constraint) (s : bstate) : bstate :=
  match cs with [] => s | c :: cs' => si_best_loop nh (S i) cs' (si_best_step nh s i c) end.

(** The index number, the index string and the usage of the constraints;
    [None] when the index string cannot be allocated. *)
Definition si_best_index (alloc_ok : bool) (k : SiKind) (cs : list constraint) : option (Z * list Z * list usage) :=
  let s := si_best_loop (k_si_hidden k) 0 cs (mkBS (replicate VMS_SI_MAX_HIDDEN 0) 1 (replicate (length cs) unused)) in
  if alloc_ok then Some (if nth 0 (border s) 0 =? 0 then 0 else 1, border s, buse s) else None.

(** ** xFilter *)

(** The bytes of a wide string read through a [char] pointer, up to the first
    zero byte: UTF-16 code units, low byte first. *)
Fixpoint as_cstring (w : list Z) : list Z :=
  match w with
  | [] => []
  | u :: w' =>
      if u mod 256 =? 0 then []
      else (u mod 256) :: (if u / 256 =? 0 then [] else (u / 256) :: as_cstring w')
  end.

(** [vms_meta_ident_valid] applied to a [wchar_t] buffer. *)
Definition wide_ident_valid (w : list Z) : bool := vms_meta_ident_valid (Some (as_cstring w)) 128.

Definition si_arg_w `{WideConv} (v : VmsValue) (cap : Z) : option (list Z) :=
  match v with
  | VAL_TEXT (c :: t) => to_wide cap (c :: t)
  | _ => None
  end.

(** [argv[order[h] - 1]] when the position is in range. *)
Definition si_arg (order : list Z) (argv : list VmsValue) (h : nat) : option VmsValue :=
  let o := nth h order 0 in
  if (0 <? o) && (o <=? zlen argv) then argv !! Z.to_nat (o - 1) else None.

Inductive si_event : Type := SiConnect (connstr : list Z) | SiOpen (sql : list Z) | SiDisconnect.

(** The cursor: results still to come, current row, end flag. *)
Record VmsSiCursor := mkSi { si_cur : option (list fetch_result); si_row : list VmsValue; si_eof_flag : bool }.

Definition si_closed : VmsSiCursor := mkSi None [] true.

(** The text of a failed call. *)
Definition si_set_error (e : VmsError) : option (list Z) :=
  if bool_decide (cls e = VMS_OK) then None
  else Some (str "virtualmssql: " ++ message e ++ str " (" ++ sqlstate e ++ str ")").

Section Filter.
Context `{Platform} `{WideConv} `{StrictConv}.
(** The environment: conversion of the specification to UTF-8 (2048 bytes),
    allocations, the credential provider, connections and cursors. *)
Variable to_utf8 : list Z -> option (list Z).
Variable dup_ok : bool.
Variable alloc : Z -> bool.
Variable provider : option VmsCredProviderV1.
Variable open_conn : list Z -> option VmsError.
Variable open_cursor : list Z -> VmsError + list fetch_result.

Definition si_fail (m : string) : list si_event * (option (list Z) + VmsSiCursor) :=
  ([], inl (Some (str "virtualmssql: " ++ str m))).

(** The optional argument [h], empty when absent. *)
Definition si_opt (arg : nat -> option VmsValue) (h : nat) (cap : Z) : option (list Z) :=
  match arg h with None => Some [] | Some v => si_arg_w v cap end.

(** Opening the rows on a connection of their own. *)
Definition si_open_rows (connstr sql : list Z) : list si_event * (option (list Z) + VmsSiCursor) :=
  match open_conn connstr with
  | Some e => ([], inl (si_set_error e))
  | None =>
      let evs := [SiConnect connstr; SiOpen sql; SiDisconnect] in
      match open_cursor sql with
      | inl e => (evs, inl (si_set_error e))
      | inr [] => (evs, inr (mkSi (Some []) [] true))
      | inr (FErr e :: _) => (evs, inl (Some (str "virtualmssql: " ++ message e)))
      | inr (FRow r :: todo) => (evs, inr (mkSi (Some todo) r false))
      end
  end.

(** The body of the function for the arguments read through [arg]. *)
Definition si_filter_args (k : SiKind) (arg : nat -> option VmsValue) (buf : SecretBuf) :
    cres (list si_event * (option (list Z) + VmsSiCursor)) :=
  match si_opt arg 0 1024 with
  | None => Ret (si_fail "connection specification must be non-empty text")
  | Some conn_spec =>
  if bool_decide (conn_spec = []) then Ret (si_fail "connection specification is required") else
  match si_opt arg 1 300 with
  | None => Ret (si_fail "schema must be a non-empty text value")
  | Some schema =>
  match (match k with SI_TABLES => Some [] | _ => si_opt arg 2 300 end) with
  | None => Ret (si_fail "table must be a non-empty text value")
  | Some table =>
  match (match k with SI_INDEX_INFO => si_opt arg 3 300 | _ => Some [] end) with
  | None => Ret (si_fail "index must be a non-empty text value")
  | Some index =>
  if negb (wide_ident_valid schema) ||
     (match k with SI_TABLES => false | _ => negb (wide_ident_valid table) end) ||
     (match k with SI_INDEX_INFO => negb (wide_ident_valid index) | _ => false end) then
    Ret (si_fail "invalid identifier in schema inspection arguments")
  else
    built ← si_build_sql k schema table index 4096;
    match built with
    | None => Ret (si_fail "schema inspection query build failed")
    | Some sql =>
        match to_utf8 conn_spec with
        | None => Ret ([], inl (Some (str "virtualmssql: bad connection specification: ")))
        | Some spec =>
            match vms_profile_parse dup_ok (Some spec) with
            | inl e => Ret ([], inl (Some (str "virtualmssql: bad connection specification: " ++ message e)))
            | inr p =>
                '(r, _) ← vms_connstr_build alloc provider p buf;
                Ret (match r with
                     | inl e => ([], inl (si_set_error e))
                     | inr connstr => si_open_rows connstr sql
                     end)
            end
        end
    end
  end end end end.

Definition si_filter (k : SiKind) (idxNum : Z) (order : list Z) (argv : list VmsValue) (buf : SecretBuf) :
    cres (list si_event * (option (list Z) + VmsSiCursor)) :=
  if (idxNum =? 0) || (zlen argv <? 1) then Ret (si_fail "connection specification is required")
  else si_filter_args k (si_arg order argv) buf.

End Filter.

(** ** Rows *)

Definition si_step (c : VmsSiCursor) : VmsSiCursor * sqlite_rc * option (list Z) :=
  match si_cur c with
  | Some (FRow r :: todo) => (mkSi (Some todo) r false, RC_OK, None)
  | Some (FErr e :: todo) => (mkSi (Some todo) (si_row c) true, RC_ERROR, Some (str "virtualmssql: " ++ message e))
  | Some [] => (mkSi (Some []) (si_row c) true, RC_OK, None)
  | None => (mkSi None (si_row c) true, RC_ERROR, Some (str "virtualmssql: "))
  end.

Definition si_eof (c : VmsSiCursor) : bool := si_eof_flag c.

Definition si_column (k : SiKind) (c : VmsSiCursor) (col : Z) : VmsValue :=
  let remote := col - k_si_hidden k in
  if remote <? 0 then VAL_NULL
  else match si_row c !! Z.to_nat remote with
       | Some (VAL_BIGTEXT _) | None => VAL_NULL
       | Some v => v
       end.

(** ** Routing of the arguments *)

(** The host passes the right-hand side of a used constraint at its index. *)
Definition host_passes (us : list usage) (vals argv : list VmsValue) : Prop :=
  forall i u v, us !! i = Some u -> vals !! i = Some v -> 0 < argvIndex u ->
    argv !! Z.to_nat (argvIndex u - 1) = Some v.

Definition is_arg (h : Z) (c : constraint) : bool := usable c && bool_decide (cop c = IC_EQ) && (iColumn c =? h).

(** The value the statement gives for hidden column [h]: that of the first
    usable equality on it. *)
Fixpoint first_eq (h : Z) (cs : list constraint) (vals : list VmsValue) : option VmsValue :=
  match cs, vals with
  | c :: cs', v :: vals' => if is_arg h c then Some v else first_eq h cs' vals'
  | _, _ => None
  end.

Definition stated_arg (k : SiKind) (cs : list constraint) (vals : list VmsValue) (h : nat) : option VmsValue :=
  if Z.of_nat h <? k_si_hidden k then first_eq (Z.of_nat h) cs vals else None.

Lemma first_eq_lookup h cs vals i c v :
  cs !! i = Some c -> vals !! i = Some v -> is_arg h c = true ->
  (forall j d, (j < i)%nat -> cs !! j = Some d -> is_arg h d = false) -> first_eq h cs vals = Some v.
Proof.
  revert cs vals. induction i as [|i IH]; intros [|c0 cs] [|v0 vals]; simpl; try done.
  - intros [= ->] [= ->] -> _. done.
  - intros Hc Hv Ha Hb. rewrite (Hb 0%nat c0 ltac:(lia) eq_refl). apply (IH cs vals); [done..|].
    intros j d Hj. apply (Hb (S j)). lia.
Qed.

Lemma first_eq_none h cs vals : Forall (fun c => is_arg h c = false) cs -> first_eq h cs vals = None.
Proof. intros Hf. revert vals. induction Hf as [|c cs Hc _ IH]; intros [|v vals]; simpl; [done..|]. by rewrite Hc. Qed.

(** The state of the loop after the first [i] constraints. *)
Record best_inv (nh : Z) (cs : list constraint) (i : nat) (s : bstate) : Prop := {
  bi_order : length (border s) = VMS_SI_MAX_HIDDEN;
  bi_next : 1 <= bnext s;
  bi_len : length (buse s) = length cs;
  bi_later : forall j, (i <= j < length cs)%nat -> buse s !! j = Some unused;
  bi_pos : positives (buse s) ≡ₚ seqZ 1 (bnext s - 1);
  bi_omit : forall j u, buse s !! j = Some u -> omit u = true ->
    exists c, cs !! j = Some c /\ 0 <= iColumn c < nh /\ is_arg (iColumn c) c = true;
  bi_arg : forall h, 0 <= h < nh ->
    (nth (Z.to_nat h) (border s) 0 = 0 /\ forall j c, (j < i)%nat -> cs !! j = Some c -> is_arg h c = false) \/
    (exists j c, cs !! j = Some c /\ is_arg h c = true /\
       (forall j' d, (j' < j)%nat -> cs !! j' = Some d -> is_arg h d = false) /\
       1 <= nth (Z.to_nat h) (border s) 0 /\
       buse s !! j = Some (mkUse (nth (Z.to_nat h) (border s) 0) true));
  bi_high : forall h, (Z.to_nat nh <= h)%nat -> nth h (border s) 0 = 0
}.

Lemma best_skip nh cs i s c :
  best_inv nh cs i s -> cs !! i = Some c ->
  (forall h, 0 <= h < nh -> is_arg h c = true -> nth (Z.to_nat h) (border s) 0 <> 0) -> best_inv nh cs (S i) s.
Proof.
  intros [Ho Hn Hl Hla Hp Hom Ha Hh] Hc Hskip. split; try done.
  - intros j Hj. apply Hla. lia.
  - intros h Hr. destruct (Ha h Hr) as [[H0 Hb]|Hx]; [|by right]. left. split; [done|].
    intros j d Hj Hd. destruct (decide (j = i)) as [->|]; [|apply (Hb j d); [lia|done]].
    rewrite Hc in Hd. injection Hd as <-. destruct (is_arg h c) eqn:E; [|done]. by apply Hskip in E.
Qed.

Lemma nth_insert_ne (l : list Z) i j x : i <> j -> nth j (<[i := x]> l) 0 = nth j l 0.
Proof. intros Hij. rewrite !nth_lookup. by rewrite list_lookup_insert_ne. Qed.

Lemma nth_insert_eq (l : list Z) i x : (i < length l)%nat -> nth i (<[i := x]> l) 0 = x.
Proof. intros Hi. by rewrite nth_lookup, list_lookup_insert_eq. Qed.

Lemma best_take nh cs i s c :
  nh <= 4 -> best_inv nh cs i s -> cs !! i = Some c -> 0 <= iColumn c < nh -> is_arg (iColumn c) c = true ->
  nth (Z.to_nat (iColumn c)) (border s) 0 = 0 ->
  best_inv nh cs (S i) (mkBS (<[Z.to_nat (iColumn c) := bnext s]> (border s)) (bnext s + 1) (<[i := mkUse (bnext s) true]> (buse s))).
Proof.
  intros Hnh [Ho Hn Hl Hla Hp Hom Ha Hh] Hc Hcol Harg H0. pose proof (lookup_lt_Some _ _ _ Hc) as Hi.
  assert (Hu : buse s !! i = Some unused) by (apply Hla; lia). unfold VMS_SI_MAX_HIDDEN in Ho.
  split; cbn [border bnext buse].
  - by rewrite length_insert.
  - lia.
  - by rewrite length_insert.
  - intros j Hj. rewrite list_lookup_insert_ne by lia. apply Hla. lia.
  - rewrite positives_insert by (done || (simpl; lia)). cbn [argvIndex].
    replace (bnext s + 1 - 1) with (bnext s - 1 + 1) by lia. rewrite seqZ_snoc, Hp by lia.
    by replace (bnext s - 1 + 1) with (bnext s) by lia.
  - intros j u Hj Hu'. destruct (decide (i = j)) as [<-|Hij]; [by exists c|].
    rewrite list_lookup_insert_ne in Hj by done. by apply (Hom j u).
  - intros h Hr. destruct (decide (h = iColumn c)) as [->|Hne].
    + right. exists i, c. rewrite nth_insert_eq by lia. split_and!; [done..| |lia|by rewrite list_lookup_insert_eq by lia].
      destruct (Ha _ Hr) as [[_ Hb]|(j & d & _ & _ & _ & H1 & _)]; [done|lia].
    + rewrite nth_insert_ne by lia.
      destruct (Ha h Hr) as [[Hz Hb]|(j & d & Hd & Hd1 & Hd2 & Hd3 & Hd4)].
      * left. split; [done|]. intros j d Hj Hd. destruct (decide (j = i)) as [->|]; [|apply (Hb j d); [lia|done]].
        rewrite Hc in Hd. injection Hd as <-. unfold is_arg. replace (iColumn c =? h) with false by (symmetry; apply Z.eqb_neq; congruence).
        by rewrite andb_false_r.
      * right. exists j, d. split_and!; [done..|]. rewrite list_lookup_insert_ne; [done|]. intros ->. rewrite Hu in Hd4. done.
  - intros h Hr. rewrite nth_insert_ne by lia. by apply Hh.
Qed.

Lemma best_step nh cs i s c :
  nh <= 4 -> best_inv nh cs i s -> cs !! i = Some c -> best_inv nh cs (S i) (si_best_step nh s i c).
Proof.
  intros Hnh Hinv Hc. unfold si_best_step.
  assert (Hskip : (forall h, 0 <= h < nh -> is_arg h c = true -> nth (Z.to_nat h) (border s) 0 <> 0) -> best_inv nh cs (S i) s)
    by (by apply best_skip).
  destruct (usable c) eqn:Eu; cbn [negb orb].
  2:{ apply Hskip. unfold is_arg. by rewrite Eu. }
  destruct (bool_decide (cop c = IC_EQ)) eqn:Eo; cbn [negb].
  2:{ apply Hskip. unfold is_arg. by rewrite Eu, Eo. }
  assert (Hcol : forall h, is_arg h c = true -> iColumn c = h) by (intros h; unfold is_arg; rewrite Eu, Eo; apply Z.eqb_eq).
  destruct (_ || _) eqn:Er.
  { apply Hskip. intros h Hh Ha%Hcol. b2p. lia. }
  b2p. destruct (nth _ _ 0 =? 0) eqn:E0; cbn [negb]; b2p.
  - apply best_take; [done..|lia| |done]. unfold is_arg. by rewrite Eu, Eo, Z.eqb_refl.
  - apply Hskip. intros h Hh <-%Hcol. done.
Qed.

Lemma best_loop nh cs : nh <= 4 -> forall rest i s,
  best_inv nh cs i s -> drop i cs = rest -> best_inv nh cs (length cs) (si_best_loop nh i rest s).
Proof.
  intros Hnh. induction rest as [|c rest IH]; intros i s Hinv Hd.
  - apply (f_equal length) in Hd. rewrite length_drop in Hd. simpl in Hd. destruct (decide (i = length cs)) as [->|]; [done|].
    destruct Hinv as [Ho Hn Hl Hla Hp Hom Ha Hh]. split; try done; [intros j Hj; lia|].
    intros h Hr. destruct (Ha h Hr) as [[H0 Hb]|]; [left|by right]. split; [done|]. intros j c _ Hc.
    apply (Hb j c); [|done]. apply lookup_lt_Some in Hc. lia.
  - assert (Hc : cs !! i = Some c) by (rewrite <- (Nat.add_0_r i), <- lookup_drop, Hd; done).
    cbn [si_best_loop]. apply IH; [by apply best_step|]. by rewrite <- Nat.add_1_r, <- drop_drop, Hd.
Qed.

Lemma best_initial nh cs : best_inv nh cs 0 (mkBS (replicate VMS_SI_MAX_HIDDEN 0) 1 (replicate (length cs) unused)).
Proof.
  assert (Hz : forall h, nth h (replicate VMS_SI_MAX_HIDDEN 0) 0 = 0) by (intros h; by do 5 (destruct h as [|h]; [done|])).
  split; cbn [border bnext buse].
  - done.
  - lia.
  - apply length_replicate.
  - intros j Hj. apply lookup_replicate. split; [done|lia].
  - by rewrite positives_fresh.
  - intros j u Hj. by apply lookup_replicate in Hj as [-> _].
  - intros h _. left. split; [apply Hz|]. lia.
  - intros h _. apply Hz.
Qed.

Lemma si_best_index_inv k cs idx order us :
  si_best_index true k cs = Some (idx, order, us) ->
  exists s, best_inv (k_si_hidden k) cs (length cs) s /\ order = border s /\ us = buse s /\
    idx = if nth 0 (border s) 0 =? 0 then 0 else 1.
Proof.
  unfold si_best_index. intros [= <- <- <-]. eexists. split; [|done].
  apply best_loop; [by destruct k|apply best_initial|done].
Qed.

(** What [si_filter] reads for a hidden column is what the statement says. *)
Lemma si_arg_stated k cs vals argv s h :
  best_inv (k_si_hidden k) cs (length cs) s -> length vals = length cs -> host_passes (buse s) vals argv ->
  si_arg (border s) argv h = stated_arg k cs vals h.
Proof.
  intros Hinv Hl Hp. unfold si_arg, stated_arg. destruct (Z.of_nat h <? k_si_hidden k) eqn:Eh; b2p.
  - destruct (bi_arg _ _ _ _ Hinv (Z.of_nat h)) as [[H0 Hn]|(j & c & Hc & Ha & Hb & H1 & Hu)]; [lia| |];
      rewrite Nat2Z.id in *.
    + rewrite H0. simpl. symmetry. apply first_eq_none, Forall_lookup. intros j c Hc. apply (Hn j c); [|done].
      by apply lookup_lt_Some in Hc.
    + destruct (lookup_lt_is_Some_2 vals j) as [v Hv]; [rewrite Hl; by apply lookup_lt_Some in Hc|].
      pose proof (Hp j _ v Hu Hv ltac:(simpl; lia)) as Hx. cbn [argvIndex] in Hx.
      rewrite (first_eq_lookup _ _ _ j c v) by done. pose proof (lookup_lt_Some _ _ _ Hx) as Hlt.
      replace (_ && _) with true; [done|]. symmetry. apply andb_true_iff.
      split; [apply Z.ltb_lt|apply Z.leb_le]; unfold zlen; lia.
  - by rewrite (bi_high _ _ _ _ Hinv h) by lia.
Qed.

Section Filtered.
Context `{Platform} `{WideConv} `{StrictConv}.
Variable to_utf8 : list Z -> option (list Z).
Variable dup_ok : bool.
Variable alloc : Z -> bool.
Variable provider : option VmsCredProviderV1.
Variable open_conn : list Z -> option VmsError.
Variable open_cursor : list Z -> VmsError + list fetch_result.

Let filter_args := si_filter_args to_utf8 dup_ok alloc provider open_conn open_cursor.

Lemma si_filter_args_ext k arg arg' buf :
  (forall h, (h < 4)%nat -> arg h = arg' h) -> filter_args k arg buf = filter_args k arg' buf.
Proof.
  intros He. assert (Ho : forall h cap, (h < 4)%nat -> si_opt arg h cap = si_opt arg' h cap)
    by (intros h cap Hh; unfold si_opt; by rewrite He).
  unfold filter_args, si_filter_args. rewrite !Ho by lia. done.
Qed.

(** [C27]: the arguments of a schema inspection function reach it by name.
    For any constraints of the host, in any order and with duplicates: the
    used constraints get the argument positions 1 to [n], each once; only
    usable equalities on argument columns are omitted from the host's own
    checks; and the filter behaves as the function applied to the value of
    the first usable equality on each argument column. *)
Theorem schema_arguments_routed k cs vals argv idx order us buf :
  si_best_index true k cs = Some (idx, order, us) -> length vals = length cs -> host_passes us vals argv ->
  (exists n, positives us ≡ₚ seqZ 1 n) /\
  (forall j u, us !! j = Some u -> omit u = true ->
     exists c, cs !! j = Some c /\ 0 <= iColumn c < k_si_hidden k /\ is_arg (iColumn c) c = true) /\
  si_filter to_utf8 dup_ok alloc provider open_conn open_cursor k idx order argv buf =
  si_filter_args to_utf8 dup_ok alloc provider open_conn open_cursor k (stated_arg k cs vals) buf.
Proof.
  intros (s & Hinv & -> & -> & ->)%si_best_index_inv Hl Hp. split_and!.
  - eexists. apply (bi_pos _ _ _ _ Hinv).
  - apply (bi_omit _ _ _ _ Hinv).
  - fold filter_args.
    rewrite <- (si_filter_args_ext k (si_arg (border s) argv)) by (intros h _; by apply si_arg_stated).
    unfold si_filter. fold filter_args. destruct (nth 0 (border s) 0 =? 0) eqn:E0; cbn [orb Z.eqb].
    + unfold filter_args, si_filter_args, si_opt, si_arg. apply Z.eqb_eq in E0. by rewrite E0.
    + destruct (zlen argv <? 1) eqn:En; [|done]. b2p. exfalso.
      destruct (bi_arg _ _ _ _ Hinv 0) as [[Hz _]|(j & c & Hc & _ & _ & Hge & Hu)]; [by destruct k|done|].
      destruct (lookup_lt_is_Some_2 vals j) as [v Hv]; [rewrite Hl; by apply lookup_lt_Some in Hc|].
      pose proof (Hp j _ v Hu Hv ltac:(simpl in *; lia)) as Hx. apply lookup_lt_Some in Hx. unfold zlen in En. lia.
Qed.

End Filtered.

(** ** The statement that is sent *)

(** When a catalog statement is opened, it is the one of the function for the
    given arguments, and the connection made for it is closed again. *)
Lemma si_filter_sends `{Platform} `{WideConv} `{StrictConv} to_utf8 dup_ok alloc provider open_conn open_cursor k arg buf evs c :
  si_filter_args to_utf8 dup_ok alloc provider open_conn open_cursor k arg buf = Ret (evs, inr c) ->
  exists connstr schema table index sql,
    evs = [SiConnect connstr; SiOpen sql; SiDisconnect] /\
    si_build_sql k schema table index 4096 = Ret (Some sql) /\
    si_opt arg 1 300 = Some schema /\ wide_ident_valid schema = true /\
    (k <> SI_TABLES -> si_opt arg 2 300 = Some table /\ wide_ident_valid table = true) /\
    (k = SI_INDEX_INFO -> si_opt arg 3 300 = Some index /\ wide_ident_valid index = true).
Proof.
  unfold si_filter_args, si_fail. destruct (si_opt arg 0 1024) as [spec|]; [|done]. destruct (bool_decide _); [done|].
  destruct (si_opt arg 1 300) as [schema|]; [|done].
  destruct (match k with SI_TABLES => Some [] | _ => si_opt arg 2 300 end) as [table|] eqn:Et; [|done].
  destruct (match k with SI_INDEX_INFO => si_opt arg 3 300 | _ => Some [] end) as [index|] eqn:Ei; [|done].
  destruct (_ || _) eqn:Ev; [done|]. apply orb_false_iff in Ev as [Ev Evi]. apply orb_false_iff in Ev as [Evs Evt].
  destruct (si_build_sql k schema table index 4096) as [[sql|]|] eqn:Eb; [|done..]. cbn [mbind cres_bind].
  destruct (to_utf8 spec); [|done]. destruct (vms_profile_parse _ _) as [|p]; [done|].
  destruct (vms_connstr_build _ _ _ _) as [[[|connstr] ?]|]; [done| |done]. cbn [mbind cres_bind]. intros Hr.
  exists connstr, schema, table, index, sql. split_and!; try done.
  - revert Hr. unfold si_open_rows. destruct (open_conn connstr); [done|].
    destruct (open_cursor sql) as [|[|[r|e] todo]]; [done| | |done]; by intros [= <- _].
  - by apply negb_false_iff.
  - destruct k; [done|..]; intros _; (split; [done|]); by apply negb_false_iff.
  - intros ->. split; [done|]. by apply negb_false_iff.
Qed.

(** ** Rows *)

Fixpoint si_scan {A} (fuel : nat) (emit : VmsSiCursor -> A) (c : VmsSiCursor) : option (list A * sqlite_rc) :=
  match fuel with
  | O => None
  | S fuel' =>
      if si_eof c then Some ([], RC_OK)
      else match si_step c with
           | (_, RC_ERROR, _) => Some ([emit c], RC_ERROR)
           | (c', RC_OK, _) => '(rs, rc) ← si_scan fuel' emit c'; Some (emit c :: rs, rc)
           end
  end.

(** A scan shows every row of the catalog statement once, in order. *)
Lemma si_scan_rows rows : forall r fuel,
  (length rows + 1 < fuel)%nat -> si_scan fuel si_row (mkSi (Some (map FRow rows)) r false) = Some (r :: rows, RC_OK).
Proof.
  induction rows as [|r1 rows IH]; intros r fuel Hf; (destruct fuel as [|fuel]; [simpl in Hf; lia|]).
  - destruct fuel as [|fuel]; [simpl in Hf; lia|]. done.
  - cbn [si_scan si_eof si_eof_flag si_step si_cur map]. rewrite IH by (simpl in Hf; lia). done.
Qed.

(** ** Concrete calls *)

Definition demo_rows (sql : list Z) : VmsError + list fetch_result :=
  inr [FRow [VAL_TEXT (str "dbo"); VAL_TEXT (str "t"); VAL_TEXT (str "table")]].

Definition demo_filter (k : SiKind) (idx : Z) (order : list Z) (argv : list VmsValue) :=
  @si_filter Win64 IdWideConv IdStrictConv Some true (fun _ => true) (Some demo_provider) (fun _ => None) demo_rows
    k idx order argv [].

Definition demo_spec : list Z := str "server=db1;auth=windows".

Definition demo_connstr : list Z :=
  str "Driver={ODBC Driver 18 for SQL Server};Server=db1;Trusted_Connection=Yes;Encrypt=Yes;TrustServerCertificate=No;ConnectRetryCount=0;ConnectRetryInterval=1;MARS_Connection=No;APP=VirtualMSSQL;LoginTimeout=10;".

Lemma schema_arguments_routed_witness :
  demo_filter SI_TABLES 1 [2; 1; 0; 0] [VAL_TEXT (str "dbo"); VAL_TEXT demo_spec] =
  Ret ([SiConnect demo_connstr; SiOpen (tables_sql (str "dbo")); SiDisconnect],
       inr (mkSi (Some []) [VAL_TEXT (str "dbo"); VAL_TEXT (str "t"); VAL_TEXT (str "table")] false)).
Proof.
  pose proof (@schema_arguments_routed Win64 IdWideConv IdStrictConv Some true (fun _ => true) (Some demo_provider)
    (fun _ => None) demo_rows SI_TABLES
    [mkCons 1 IC_EQ true; mkCons 3 IC_EQ true; mkCons 0 IC_EQ true] [VAL_TEXT (str "dbo"); VAL_NULL; VAL_TEXT demo_spec]
    [VAL_TEXT (str "dbo"); VAL_TEXT demo_spec] 1 [2; 1; 0; 0] [mkUse 1 true; unused; mkUse 2 true] []) as (_ & _ & Hf).
  - vm_compute. reflexivity.
  - reflexivity.
  - intros [|[|[|i]]] u v; simpl; intros [= <-] [= <-]; simpl; intros; try lia; reflexivity.
  - unfold demo_filter. rewrite Hf. vm_compute. reflexivity.
Defined.

(** The identifier check reads a wide string through a byte pointer and sees
    its first character only: a schema with a quote passes, and its text
    becomes part of the statement. *)
Example schema_argument_injects :
  let schema := str "d' OR 1=1 --" in
  wide_ident_valid schema = true /\
  exists evs c, demo_filter SI_TABLES 1 [1; 2; 0; 0] [VAL_TEXT demo_spec; VAL_TEXT schema] = Ret (evs, inr c) /\
    evs = [SiConnect demo_connstr; SiOpen (tables_sql schema); SiDisconnect].
Proof. split; [vm_compute; reflexivity|]. eexists _, _. split; [vm_compute; reflexivity|]. vm_compute. reflexivity. Qed.

(** ** Declarations and results *)

(** The declared columns: name, type, hidden. *)
Definition quoted (s : string) : list Z := [34] ++ str s ++ [34].

Definition si_decl_col : Type := list Z * string * bool.

Definition si_columns (k : SiKind) : list si_decl_col :=
  let hid n := (str n, "TEXT", true) in
  let txt n := (str n, "TEXT", false) in
  let int n := (str n, "INTEGER", false) in
  let qint n := (quoted n, "INTEGER", false) in
  [hid "connection"; hid "schema_name"] ++
  match k with
  | SI_TABLES => [txt "table_schema"; txt "table_name"; txt "table_type"]
  | SI_TABLE_INFO =>
      [hid "table_name"; int "cid"; txt "name"; txt "type"; qint "notnull"; txt "dflt_value"; int "pk"; int "ordinal";
       int "max_length"; int "precision"; int "scale"; int "is_nullable"; int "is_identity"; int "is_computed";
       int "hidden_flags"]
  | SI_INDEX_LIST =>
      [hid "table_name"; int "seq"; txt "name"; qint "unique"; txt "origin"; int "partial"; int "is_disabled";
       int "column_count"]
  | SI_INDEX_INFO =>
      [hid "table_name"; hid "index_name"; int "seqno"; int "cid"; txt "name"; qint "desc"; txt "collation"; int "key";
       int "is_primary_key"; int "is_unique"; int "is_disabled"; int "key_ordinal"; int "is_nullable"]
  end.

Definition decl_text (c : si_decl_col) : list Z :=
  let '(n, t, h) := c in str " " ++ n ++ str " " ++ str t ++ (if h : bool then str " HIDDEN" else []).

Fixpoint join_with (sep : list Z) (l : list (list Z)) : list Z :=
  match l with [] => [] | [x] => x | x :: l' => x ++ sep ++ join_with sep l' end.

Definition k_si_decl (k : SiKind) : list Z :=
  str "CREATE TABLE x(" ++ join_with (str ",") (decl_text <$> si_columns k) ++ str ")".

Definition decl_hidden (c : si_decl_col) : bool := snd c.
Definition si_visible (k : SiKind) : list si_decl_col := drop (Z.to_nat (k_si_hidden k)) (si_columns k).

(** The items the statement of each function selects. *)
Definition select_items (k : SiKind) : list (list Z) :=
  str <$> match k with
  | SI_TABLES => ["s.name"; "o.name"; "CASE o.type WHEN N'U' THEN N'table' WHEN N'V' THEN N'view' END"]
  | SI_TABLE_INFO =>
      ["c.column_id - 1"; "c.name"; "t.name"; "c.is_nullable"; "OBJECT_DEFINITION(c.default_object_id)";
       "COALESCE(pkic.key_ordinal, 0)"; "CASE WHEN c.is_computed = 1 THEN 2 ELSE 0 END"; "c.column_id"; "c.max_length";
       "c.precision"; "c.scale"; "c.is_nullable"; "c.is_identity"; "c.is_computed"]
  | SI_INDEX_LIST =>
      ["ROW_NUMBER() OVER (ORDER BY i.index_id)"; "i.name"; "i.is_unique";
       "CASE WHEN i.is_primary_key = 1 THEN N'pk'  WHEN i.is_unique = 1 THEN N'u' ELSE N'c' END";
       "CASE WHEN i.has_filter = 1 THEN 1 ELSE 0 END"; "i.is_disabled";
       "(SELECT COUNT(*) FROM sys.index_columns x  WHERE x.object_id = i.object_id AND x.index_id = i.index_id)"]
  | SI_INDEX_INFO =>
      ["ic.key_ordinal"; "ic.index_column_id"; "c.name"; "ic.is_descending_key"; "N'B'";
       "CASE WHEN ic.is_included_column = 1 THEN 0 ELSE 1 END"; "i.is_primary_key"; "i.is_unique"; "i.is_disabled";
       "ic.key_ordinal"; "c.is_nullable"]
  end%string.

Definition si_text (k : SiKind) (schema table index : list Z) : list Z :=
  match k with
  | SI_TABLES => tables_sql schema
  | SI_TABLE_INFO => table_info_sql schema table
  | SI_INDEX_LIST => index_list_sql schema table
  | SI_INDEX_INFO => index_info_sql schema table index
  end.

(** A constant text at the head of a statement is found by evaluation. *)
Lemma strip_prefix_app_eq pre c r rest : strip_prefix pre c = Some r -> strip_prefix pre (c ++ rest) = Some (r ++ rest).
Proof. intros ->%strip_prefix_Some. rewrite <- app_assoc. apply strip_prefix_app. Qed.

(** The result of every inspection function has the shape its declaration
    promises: the hidden columns come first and are as many as the planner and
    [xColumn] assume, the statement that is sent selects one item for each
    visible column, whatever the arguments are. *)
Theorem schema_result_shape k schema table index :
  (exists r, si_text k schema table index =
     str "SELECT " ++ join_with (str ", ") (select_items k) ++ str " FROM " ++ r) /\
  length (select_items k) = length (si_visible k) /\
  decl_hidden <$> si_columns k =
    replicate (Z.to_nat (k_si_hidden k)) true ++ replicate (length (si_visible k)) false.
Proof.
  split; [|by destruct k].
  assert (H : exists r, strip_prefix (str "SELECT " ++ join_with (str ", ") (select_items k) ++ str " FROM ")
                          (si_text k schema table index) = Some r).
  { destruct k; eexists; (eapply strip_prefix_app_eq; vm_compute; reflexivity). }
  destruct H as [r Hr]. exists r. apply strip_prefix_Some in Hr. rewrite Hr. by rewrite <- !app_assoc.
Qed.

(** The column of the declaration and the selected item, by position. *)
Definition si_pair (k : SiKind) (i : nat) : option (list Z * list Z) :=
  c ← si_visible k !! i; s ← select_items k !! i; Some (fst (fst c), s).

(** In [virtualmssql_table_info] the items do not follow the declaration:
    [notnull] shows whether the column is nullable, and from [ordinal] on the
    columns are shifted by one. *)
Lemma table_info_misaligned :
  si_pair SI_TABLE_INFO 3 = Some (quoted "notnull", str "c.is_nullable") /\
  si_pair SI_TABLE_INFO 6 = Some (str "ordinal", str "CASE WHEN c.is_computed = 1 THEN 2 ELSE 0 END") /\
  si_pair SI_TABLE_INFO 7 = Some (str "max_length", str "c.column_id") /\
  si_pair SI_TABLE_INFO 13 = Some (str "hidden_flags", str "c.is_computed").
Proof. by repeat split. Qed.

(** ** The objects of the inspection functions *)

(** Result codes other than success. *)
Inductive si_code : Type := SI_ERROR | SI_NOMEM | SI_READONLY.

(** [si_connect]: the kind comes from the registration; [declare] is the
    host's answer to the declaration. *)
Definition si_connect (alloc declare : bool) (k : SiKind) : si_code + SiKind * list Z :=
  if negb alloc then inl SI_NOMEM
  else if negb declare then inl SI_ERROR
  else inr (k, k_si_decl k).

(** A new cursor is not at its end and has no rows: reading it before
    [xFilter] has run is up to the host. *)
Definition si_open (alloc : bool) : option VmsSiCursor := if alloc then Some (mkSi None [] false) else None.

(** Whether the remote cursor is closed. *)
Definition si_close (c : VmsSiCursor) : bool := bool_decide (is_Some (si_cur c)).

Definition si_update : si_code * list Z :=
  (SI_READONLY, str "virtualmssql: schema inspection functions are read-only").

(** The counter is shared by all cursors of the process and moves with every
    call. *)
Definition si_rowid (counter : Z) : Z * Z := let c := wrap_i64 (counter + 1) in (c, c).

(** Asking twice for the rowid of the same row gives two answers. *)
Lemma si_rowid_unstable counter :
  let '(r1, c1) := si_rowid counter in let '(r2, _) := si_rowid c1 in r1 <> r2.
Proof.
  cbn. intros H. pose proof (wrap_i64_mod (wrap_i64 (counter + 1) + 1)) as E. rewrite <- H in E.
  set (w := wrap_i64 (counter + 1)) in *. clearbody w.
  pose proof (Z.div_mod w (2 ^ 64) ltac:(lia)). pose proof (Z.div_mod (w + 1) (2 ^ 64) ltac:(lia)). lia.
Qed.

(** The process-wide client: the published pointer and the mark that its
    creation has begun. *)
Record SiClient := mkSiClient { sc_client : bool; sc_done : bool }.

(** One call, [made] being the outcome of [vms_client_init]. *)
Definition si_client (made : bool) (s : SiClient) : bool * SiClient :=
  if sc_client s then (true, s)
  else if sc_done s then (false, s)
  else (made, mkSiClient made true).

(** After one failed creation no later call ever has a client. *)
Lemma si_client_failure_final s :
  fst (si_client false s) = false -> sc_client s = false -> sc_done s = false ->
  forall made, fst (si_client made (snd (si_client false s))) = false.
Proof. intros _ Hc Hd made. unfold si_client at 2. rewrite Hc, Hd. by unfold si_client. Qed.

(** The first occurrence of the marker, and what is around it. *)
Fixpoint find_sub (marker s : list Z) : option (list Z * list Z) :=
  match strip_prefix marker s with
  | Some r => Some ([], r)
  | None => match s with [] => None | c :: s' => '(a, b) ← find_sub marker s'; Some (c :: a, b) end
  end.

Definition si_splice (cap : Z) (marker replacement sql : list Z) : list Z :=
  match find_sub marker sql with
  | None => sql
  | Some (before, after) =>
      if zlen before + zlen replacement + zlen after + 1 >? cap then sql else before ++ replacement ++ after
  end.

(** The result fits where the text fitted. *)
Lemma si_splice_fits cap marker replacement sql :
  zlen sql < cap -> zlen (si_splice cap marker replacement sql) < cap.
Proof.
  intros Hs. unfold si_splice. destruct (find_sub marker sql) as [[a b]|]; [|done].
  destruct (_ >? cap) eqn:E; [done|]. rewrite !zlen_app. blia.
Qed.

(** *** Registration *)

Definition si_module_names : list (list Z * SiKind) :=
  [(str "virtualmssql_tables", SI_TABLES); (str "virtualmssql_table_info", SI_TABLE_INFO);
   (str "virtualmssql_index_list", SI_INDEX_LIST); (str "virtualmssql_index_info", SI_INDEX_INFO)].

(** The modules registered so far, and whether all of them were; [create] is
    the host's answer for a name. *)
Fixpoint register_names (create : list Z -> bool) (names : list (list Z)) : list (list Z) * bool :=
  match names with
  | [] => ([], true)
  | n :: names' => if create n then let '(done, ok) := register_names create names' in (n :: done, ok) else ([], false)
  end.

Definition vms_schema_register_all (create : list Z -> bool) : list (list Z) * bool :=
  register_names create (fst <$> si_module_names).

Lemma register_names_ok create names done ok :
  register_names create names = (done, ok) -> (ok = true <-> done = names) /\ exists rest, names = done ++ rest.
Proof.
  revert done ok. induction names as [|n names IH]; intros dn ok; cbn [register_names].
  - intros [= <- <-]. split; [done|]. by exists [].
  - destruct (create n).
    + destruct (register_names create names) as [d o]. destruct (IH d o eq_refl) as [H1 [r H2]]. intros [= <- <-]. split.
      * rewrite H1. split; [by intros ->|by intros [= ->]].
      * exists r. by rewrite H2 at 1.
    + intros [= <- <-]. split; [done|]. by exists (n :: names).
Qed.
