(* ===== verification/Adapter.v ===== *)
(** * Cursors of the ODBC adapter (src/src/vms_odbc_adapter.c)

    Decoding of the driver's column data, the fetch jobs of statements and
    cursors, the resources an open cursor holds, and the statement of a full
    scan.  The driver's answers are arguments; the results of a cursor refine
    the sequences of rows the scans are modelled with. *)

From S2P Require Import Prelude Foundation Client Identity Meta Plan Scan Txn.

Definition VMS_GETDATA_CHUNK : Z := 65536.

(** ** Column data *)

(** An answer of [SQLGetData]: [more] is SQL_SUCCESS_WITH_INFO instead of
    SQL_SUCCESS, [got] the length indicator (negative for SQL_NO_TOTAL), [buf]
    the contents of the buffer. *)
Inductive getdata : Type :=
| GdNoData
| GdError (d : Diag)
| GdNull
| GdData (more : bool) (got : Z) (buf : list Z).

(** What the loop over the chunks of a column ends with. *)
Inductive collected : Type :=
| CErr (e : VmsError)
| CNull
| CAll (bytes : list Z) (wchars : Z).

Record acc := mkAccum { ac_bytes : list Z; ac_cap : Z }.

Definition failure (c : VmsErrClass) (m : string) : VmsError :=
  default err_zero (vms_error_set (Some err_zero) c None 0 (fun _ => str m)).

(** The diagnostic error of a failed call. *)
Definition diag_error (d : Diag) (what : list Z) : VmsError := snd (diag_capture d what).

(** It always names a failure. *)
Lemma diag_error_cls d what : cls (diag_error d what) <> VMS_OK.
Proof.
  unfold diag_error, diag_capture, classify_state. destruct (trunc_copy 6 (dg_state d)); [done|].
  repeat match goal with |- context [if ?b then _ else _] => destruct b end; done.
Qed.

Lemma diag_capture_cls d what cl q e : diag_capture d what = (cl, q, e) -> cls e <> VMS_OK.
Proof. intros H. replace e with (diag_error d what); [apply diag_error_cls|unfold diag_error; by rewrite H]. Qed.

(** UTF-16 code units of little-endian bytes. *)
Fixpoint le_units (b : list Z) : list Z :=
  match b with
  | lo :: hi :: r => (lo + 256 * hi) :: le_units r
  | _ => []
  end.

Section GetData.
Context `{Platform} `{Win32Text}.
(** Outcome of an allocation of the given size. *)
Variable alloc : Z -> bool.

(** Appending a chunk to the accumulator; [None] when it cannot grow. *)
Definition acc_add (a : acc) (chunk : list Z) : cres (option acc) :=
  let len := zlen (ac_bytes a) in
  let need := wrap_sz (len + zlen chunk + 1) in
  let ncap :=
    if need >? ac_cap a then Z.max (if ac_cap a =? 0 then 65536 else wrap_sz (ac_cap a * 2)) need else ac_cap a in
  if (need >? ac_cap a) && negb (alloc ncap) then Ret None
  else if len + zlen chunk + 1 >? ncap then Fault OobWrite
  else Ret (Some (mkAccum (ac_bytes a ++ chunk) ncap)).

(** The chunk loop shared by the text and blob readers; after its last answer
    the driver has no more data. *)
Fixpoint getdata_loop (what : list Z) (steps : list getdata) (a : acc) (wchars : Z) : cres collected :=
  match steps with
  | [] | GdNoData :: _ => Ret (CAll (ac_bytes a) wchars)
  | GdError d :: _ => Ret (CErr (diag_error d what))
  | GdNull :: _ => Ret CNull
  | GdData more got buf :: steps' =>
      if got >? 0 then
        let n := Z.min got VMS_GETDATA_CHUNK in
        r ← acc_add a (take (Z.to_nat n) buf);
        match r with
        | None => Ret (CErr (failure VMS_ERR_NO_MEMORY "OOM row buffer"))
        | Some a => if more then getdata_loop what steps' a (wchars + n / 2) else Ret (CAll (ac_bytes a) (wchars + n / 2))
        end
      else if more then getdata_loop what steps' a wchars
      else Ret (CAll (ac_bytes a) wchars)
  end.

Definition getdata_blob (steps : list getdata) : cres (VmsError + VmsValue) :=
  r ← getdata_loop (str "SQLGetData(blob)") steps (mkAccum [] 0) 0;
  Ret (match r with CErr e => inl e | CNull => inr VAL_NULL | CAll b _ => inr (VAL_BLOB b) end).

(** The conversion of the collected bytes; the terminator is written after
    the converted text. *)
Definition text_value (b : list Z) (wchars : Z) : cres (VmsError + VmsValue) :=
  if wchars =? 0 then Ret (if alloc 1 then inr (VAL_TEXT []) else inl err_zero)
  else if negb (zlen b mod 2 =? 0) then Ret (inl (failure VMS_ERR_INTERNAL "odd utf16 byte count"))
  else
    let bytes8 := wrap_sz (wchars * 3 + 1) in
    if negb (alloc bytes8) then Ret (inl (failure VMS_ERR_NO_MEMORY "OOM convert out"))
    else match vms_utf16_to_utf8 (take (Z.to_nat wchars) (le_units b)) (Some bytes8) with
         | (0, out, _) => if zlen out >=? bytes8 then Fault OobWrite else Ret (inr (VAL_TEXT out))
         | _ => Ret (inl (failure VMS_ERR_INTERNAL "invalid utf16 in column"))
         end.

Definition getdata_text (steps : list getdata) : cres (VmsError + VmsValue) :=
  r ← getdata_loop (str "SQLGetData(text)") steps (mkAccum [] 0) 0;
  match r with
  | CErr e => Ret (inl e)
  | CNull => Ret (inr VAL_NULL)
  | CAll b w => text_value b w
  end.

(** Decimals, dates and GUIDs: one call into a buffer of 256 units. *)
Definition getdata_scalar_text (g : getdata) : cres (VmsError + VmsValue) :=
  let empty := if alloc 1 then inr (VAL_TEXT []) else inl err_zero in
  match g with
  | GdNoData => Ret empty
  | GdError d => Ret (inl (diag_error d (str "SQLGetData(scalar text)")))
  | GdNull => Ret (inr VAL_NULL)
  | GdData more got buf =>
      if negb more && (got =? 0) then Ret empty
      else
        let n := if got <? 0 then 255 else got / 2 in
        if n >? 256 then Fault OobRead
        else
          let w := take (Z.to_nat n) buf in
          match vms_utf16_to_utf8 w None with
          | (0, _, Some bytes8) =>
              if negb (alloc (bytes8 + 1)) then Ret (inl (failure VMS_ERR_NO_MEMORY "OOM scalar text"))
              else match vms_utf16_to_utf8 w (Some (bytes8 + 1)) with (_, out, _) => Ret (inr (VAL_TEXT out)) end
          | _ => Ret (inl (failure VMS_ERR_INTERNAL "invalid utf16 scalar"))
          end
  end.

(** ** Rows *)

(** The driver's answers for one column of the current row, by the type the
    column is read as. *)
Record Cell := mkCell {
  as_bigint : Diag + option Z;
  as_double : Diag + option Z;
  as_wchar : getdata;
  as_binary : list getdata
}.

Record VmsColumnMeta := mkMeta { m_name : list Z; m_type : VmsColType }.

(** The type a result column is decoded as, from its ODBC type code: the
    integer types and BIT; REAL, FLOAT, DOUBLE; DECIMAL, NUMERIC; the date and
    time types; GUID; the binary types; long wide text and XML; and text,
    which is unlimited when its size is 0. *)
Definition map_col_type (sql_type col_size : Z) : VmsColType :=
  let among (codes : list Z) := existsb (Z.eqb sql_type) codes in
  if among [4; 5; -6; -5; -7] then CT_INT64
  else if among [7; 6; 8] then CT_FLOAT64
  else if among [3; 2] then CT_DECIMAL
  else if among [91; 92; -154; 93; -155] then CT_DATETIME
  else if among [-11] then CT_GUID
  else if among [-2; -3; -4] then CT_BLOB
  else if among [-10; -152] then CT_BIGTEXT
  else if among [1; 12; -8; -9] then (if col_size =? 0 then CT_BIGTEXT else CT_TEXT)
  else CT_TEXT.

(** Neither the spatial nor the unsupported case of the decoder is reached:
    the driver's types map to neither. *)
Lemma map_col_type_supported t n : map_col_type t n <> CT_SPATIAL /\ map_col_type t n <> CT_UNSUPPORTED.
Proof.
  unfold map_col_type. repeat match goal with |- context [if ?b then _ else _] => destruct b end; done.
Qed.

Definition unsupported_column (nm : list Z) : VmsError :=
  default err_zero (vms_error_set (Some err_zero) VMS_ERR_EXEC (Some (str "IM001")) 0
    (fun _ => str "UNSUPPORTED_TYPE: column '" ++ nm ++ str "' has a type with no lossless mapping")).

(** One column of the switch; [pre] is the prefix of the diagnostics. *)
Definition decode_cell (pre : list Z) (m : VmsColumnMeta) (c : Cell) : cres (VmsError + VmsValue) :=
  match m_type m with
  | CT_INT64 =>
      Ret (match as_bigint c with
           | inl d => inl (diag_error d (pre ++ str "SQLGetData(int)"))
           | inr None => inr VAL_NULL
           | inr (Some v) => inr (VAL_INT64 v)
           end)
  | CT_FLOAT64 =>
      Ret (match as_double c with
           | inl d => inl (diag_error d (pre ++ str "SQLGetData(float)"))
           | inr None => inr VAL_NULL
           | inr (Some v) => inr (VAL_FLOAT64 v)
           end)
  | CT_TEXT | CT_BIGTEXT => getdata_text (as_binary c)
  | CT_DECIMAL | CT_DATETIME | CT_GUID => getdata_scalar_text (as_wchar c)
  | CT_SPATIAL | CT_BLOB => getdata_blob (as_binary c)
  | CT_UNSUPPORTED => Ret (inl (unsupported_column (m_name m)))
  end.

(** The row after decoding, with the error that stopped it: the columns from
    the failed one on keep the cleared value. *)
Fixpoint decode_row (pre : list Z) (ms : list VmsColumnMeta) (i : nat) (cell : nat -> Cell) :
    cres (list VmsValue * option VmsError) :=
  match ms with
  | [] => Ret ([], None)
  | m :: ms' =>
      r ← decode_cell pre m (cell i);
      match r with
      | inl e => Ret (replicate (S (length ms')) VAL_NULL, Some e)
      | inr v => '(vs, e) ← decode_row pre ms' (S i) cell; Ret (v :: vs, e)
      end
  end.

(** An answer of [SQLFetch]. *)
Inductive fetched : Type :=
| FdNoData
| FdError (d : Diag)
| FdRow (cell : nat -> Cell).

Record VmsCursor := mkCursor {
  cu_meta : list VmsColumnMeta;
  cu_todo : list fetched;
  cu_row : option (list VmsValue);
  cu_ready : bool;
  cu_closed : bool
}.

(** [row_alloc] is the outcome of allocating the row on the first fetch. *)
Definition job_cursor_fetch (row_alloc : bool) (cur : VmsCursor) : cres (VmsCursor * Z * VmsError) :=
  let '(mkCursor ms todo row ready closed) := cur in
  let nulls := replicate (length ms) VAL_NULL in
  if closed then Ret (cur, -1, failure VMS_ERR_QUARANTINED "cursor closed")
  else
    let ready := match row with Some _ => false | None => ready end in
    let row := match row with Some _ => Some nulls | None => None end in
    match todo with
    | [] | FdNoData :: _ => Ret (mkCursor ms todo row ready closed, 0, err_zero)
    | FdError d :: todo' => Ret (mkCursor ms todo' row ready closed, -1, diag_error d (str "cursor SQLFetch"))
    | FdRow cell :: todo' =>
        if bool_decide (row = None) && negb (bool_decide (ms = [])) && negb row_alloc then
          Ret (mkCursor ms todo' row ready closed, -1, failure VMS_ERR_NO_MEMORY "OOM cursor row")
        else
          '(vs, e) ← decode_row (str "cursor ") ms 0 cell;
          let row := match ms with [] => row | _ => Some vs end in
          match e with
          | Some e => Ret (mkCursor ms todo' row ready closed, -1, e)
          | None => Ret (mkCursor ms todo' row true closed, 1, err_zero)
          end
    end.

Definition vms_cursor_value (cur : VmsCursor) (col : Z) : option VmsValue :=
  if negb (cu_ready cur) || (col <? 0) || (col >=? zlen (cu_meta cur)) then None
  else r ← cu_row cur; r !! Z.to_nat col.

(** The same job on a statement, whose connection may be quarantined. *)
Record VmsStatement := mkStatement {
  st_meta : list VmsColumnMeta;
  st_todo : list fetched;
  st_row : option (list VmsValue);
  st_ready : bool;
  st_quarantined : bool
}.

Definition job_fetch (row_alloc : bool) (st : VmsStatement) : cres (VmsStatement * Z * VmsError) :=
  let '(mkStatement ms todo row ready quar) := st in
  let nulls := replicate (length ms) VAL_NULL in
  let ready := match row with Some _ => false | None => ready end in
  let row := match row with Some _ => Some nulls | None => None end in
  match todo with
  | [] | FdNoData :: _ => Ret (mkStatement ms todo row ready quar, 0, err_zero)
  | FdError d :: todo' =>
      let '(_, q, e) := diag_capture d (str "SQLFetch") in Ret (mkStatement ms todo' row ready (quar || q), -1, e)
  | FdRow cell :: todo' =>
      if bool_decide (row = None) && negb (bool_decide (ms = [])) && negb row_alloc then
        Ret (mkStatement ms todo' row ready quar, -1, failure VMS_ERR_NO_MEMORY "OOM row")
      else
        '(vs, e) ← decode_row [] ms 0 cell;
        let row := match ms with [] => row | _ => Some vs end in
        match e with
        | Some e => Ret (mkStatement ms todo' row ready quar, -1, e)
        | None => Ret (mkStatement ms todo' row true quar, 1, err_zero)
        end
  end.

Definition vms_stmt_fetch (row_alloc : bool) (st : VmsStatement) : cres (VmsStatement * Z * VmsError) :=
  if st_quarantined st then Ret (st, -1, failure VMS_ERR_QUARANTINED "connection quarantined")
  else job_fetch row_alloc st.

Definition vms_stmt_value (st : VmsStatement) (col : Z) : option VmsValue :=
  if negb (st_ready st) || (col <? 0) || (col >=? zlen (st_meta st)) then None
  else r ← st_row st; r !! Z.to_nat col.

End GetData.

(** ** Values are assembled from their chunks *)

(** How a driver delivers the bytes [b] of a column: full chunks, announced
    with the length that remains, and a last chunk. *)
Inductive streams : list Z -> list getdata -> Prop :=
| streams_last b rest : zlen b <= VMS_GETDATA_CHUNK -> streams b (GdData false (zlen b) b :: rest)
| streams_more c b rest :
    zlen c = VMS_GETDATA_CHUNK -> streams b rest -> streams (c ++ b) (GdData true (zlen (c ++ b)) c :: rest).

Definition le_bytes (w : list Z) : list Z := flat_map (fun u => [u mod 256; u / 256]) w.

Lemma take_zlen (l : list Z) : take (Z.to_nat (zlen l)) l = l.
Proof. unfold zlen. by rewrite Nat2Z.id, firstn_all. Qed.

Lemma le_units_bytes w : le_units (le_bytes w) = w.
Proof. induction w as [|u w IH]; [done|]. cbn [le_bytes flat_map app le_units]. fold (le_bytes w). rewrite IH. f_equal. pose proof (Z.div_mod u 256). lia. Qed.

Lemma zlen_le_bytes w : zlen (le_bytes w) = 2 * zlen w.
Proof. induction w as [|u w IH]; [done|]. cbn [le_bytes flat_map app]. fold (le_bytes w). autorewrite with vms_len. lia. Qed.

Section Assemble.
Context `{Platform} `{Win32Text}.
Variable alloc : Z -> bool.
Hypothesis alloc_ok : forall n, alloc n = true.

Lemma acc_add_ok a chunk :
  in_sz (zlen (ac_bytes a) + zlen chunk + 1) ->
  exists cap, acc_add alloc a chunk = Ret (Some (mkAccum (ac_bytes a ++ chunk) cap)).
Proof.
  intros Hs. unfold acc_add. rewrite wrap_sz_small by done. rewrite alloc_ok, andb_false_r.
  destruct (_ + 1 >? ac_cap a) eqn:E; b2p; eexists.
  - replace (_ >? Z.max _ _) with false; [done|]. symmetry. rewrite Z.gtb_ltb. apply Z.ltb_ge. lia.
  - rewrite Z.gtb_ltb. replace (_ <? _) with false; [done|]. symmetry. apply Z.ltb_ge. lia.
Qed.

Lemma loop_streams what b steps : streams b steps -> forall a w,
  in_sz (zlen (ac_bytes a) + zlen b + 1) ->
  getdata_loop alloc what steps a w = Ret (CAll (ac_bytes a ++ b) (w + zlen b / 2)).
Proof.
  induction 1 as [b rest Hb|c b rest Hc Hst IH]; intros a w Hs.
  - cbn [getdata_loop]. pose proof (zlen_nonneg b). destruct (zlen b >? 0) eqn:E; b2p.
    + rewrite Z.min_l by done. rewrite take_zlen.
      destruct (acc_add_ok a b) as [cap ->]; [done|]. done.
    + assert (b = []) as -> by (destruct b; [done|autorewrite with vms_len in *; pose proof (zlen_nonneg b); lia]).
      rewrite app_nil_r. change (zlen [] / 2) with 0. by rewrite Z.add_0_r.
  - pose proof (zlen_nonneg b). pose proof (zlen_nonneg c). pose proof (zlen_nonneg (ac_bytes a)). unfold in_sz in *. rewrite zlen_app in Hs.
    cbn [getdata_loop]. rewrite zlen_app.
    replace (_ >? 0) with true by (symmetry; rewrite Z.gtb_ltb; apply Z.ltb_lt; unfold VMS_GETDATA_CHUNK in Hc; lia).
    rewrite Z.min_r by lia. rewrite <- Hc. rewrite take_zlen.
    destruct (acc_add_ok a c) as [cap ->]; [unfold in_sz; lia|]. cbn [mbind cres_bind].
    rewrite IH by (cbn [ac_bytes]; rewrite zlen_app; lia). cbn [ac_bytes]. rewrite <- app_assoc, Hc.
    unfold VMS_GETDATA_CHUNK in *. do 2 f_equal. replace (65536 + zlen b) with (32768 * 2 + zlen b) by lia.
    rewrite Z.div_add_l by lia. change (65536 / 2) with 32768. lia.
Qed.

(** [C30]: a value of any length arrives complete.  When the driver delivers
    the bytes of a column in chunks, a blob is those bytes, and a text is the
    conversion of the whole sequence of UTF-16 units, even where a chunk ends
    inside a surrogate pair; the text buffer is large enough for every
    conversion of at most three bytes per unit. *)
Theorem getdata_assembles b steps :
  streams b steps -> in_sz (zlen b + 1) ->
  getdata_blob alloc steps = Ret (inr (VAL_BLOB b)) /\
  (b = [] -> getdata_text alloc steps = Ret (inr (VAL_TEXT []))) /\
  (forall w out, b = le_bytes w -> wc2mb w = Some out -> 0 < zlen w <= INT_MAX -> 0 < zlen out <= 3 * zlen w ->
     in_sz (zlen w * 3 + 1) -> getdata_text alloc steps = Ret (inr (VAL_TEXT out))).
Proof.
  intros Hst Hs. unfold getdata_blob, getdata_text.
  rewrite !(loop_streams _ b) by (done || done). cbn [mbind cres_bind ac_bytes app].
  split_and!; [done| |].
  - intros ->. unfold text_value. cbn. by rewrite alloc_ok.
  - intros w out -> Hw Hl Ho Hs3. unfold text_value. rewrite zlen_le_bytes, Z.mul_comm, Z.div_mul, Z.add_0_l by lia.
    replace (zlen w =? 0) with false by (symmetry; apply Z.eqb_neq; lia). rewrite Z.mod_mul by lia. cbn [Z.eqb negb].
    rewrite wrap_sz_small, alloc_ok by done. cbn [negb].
    rewrite le_units_bytes. rewrite take_zlen.
    unfold vms_utf16_to_utf8, vms_utf16_to_utf8_flags.
    replace (zlen w >? INT_MAX) with false by (symmetry; rewrite Z.gtb_ltb; apply Z.ltb_ge; lia). rewrite Hw.
    replace (zlen out <=? 0) with false by (symmetry; apply Z.leb_gt; lia).
    replace (zlen out >? _) with false by (symmetry; rewrite Z.gtb_ltb; apply Z.ltb_ge; lia). cbn [default from_option id].
    replace (zlen out >=? _) with false by (symmetry; rewrite Z.geb_leb; apply Z.leb_gt; lia). done.
Qed.

End Assemble.

(** ** Cursors refine sequences of rows *)

Section Refine.
Context `{Platform} `{Win32Text}.
Variable alloc : Z -> bool.

(** The results the scans see, as a function of the driver's answers. *)
Fixpoint cursor_rows (ms : list VmsColumnMeta) (todo : list fetched) : cres (list fetch_result) :=
  match todo with
  | [] | FdNoData :: _ => Ret []
  | FdError d :: _ => Ret [FErr (diag_error d (str "cursor SQLFetch"))]
  | FdRow cell :: todo' =>
      '(vs, e) ← decode_row alloc (str "cursor ") ms 0 cell;
      match e with
      | Some e => Ret [FErr e]
      | None => rs ← cursor_rows ms todo'; Ret (FRow vs :: rs)
      end
  end.

Definition cursor_ok (cur : VmsCursor) : Prop :=
  cu_closed cur = false /\
  match cu_row cur with
  | None => cu_ready cur = false \/ cu_meta cur = []
  | Some r => length r = length (cu_meta cur)
  end.

Definition hidden (cur : VmsCursor) : Prop := forall col, vms_cursor_value cur col = None.

Lemma decode_row_length pre ms : forall i cell vs e,
  decode_row alloc pre ms i cell = Ret (vs, e) -> length vs = length ms.
Proof.
  induction ms as [|m ms IH]; intros i cell vs e; simpl; [by intros [= <- _]|].
  destruct (decode_cell _ _ _ _) as [[x|v]|]; [| |done]; cbn [mbind cres_bind].
  - intros [= <- _]. simpl. by rewrite length_replicate.
  - destruct (decode_row alloc pre ms (S i) cell) as [[vs' e']|] eqn:E; [|done]. intros [= <- <-]. simpl. f_equal. by eapply IH.
Qed.

(** The row of the previous fetch is cleared first. *)
Definition cleared (cur : VmsCursor) : VmsCursor :=
  mkCursor (cu_meta cur) (cu_todo cur)
    (match cu_row cur with Some _ => Some (replicate (length (cu_meta cur)) VAL_NULL) | None => None end)
    (match cu_row cur with Some _ => false | None => cu_ready cur end) false.

Lemma cleared_hidden cur todo : cursor_ok cur ->
  let c := cleared cur in
  cursor_ok (mkCursor (cu_meta c) todo (cu_row c) (cu_ready c) false) /\
  hidden (mkCursor (cu_meta c) todo (cu_row c) (cu_ready c) false).
Proof.
  destruct cur as [ms td row ready closed]. intros [_ Hr]. unfold cursor_ok, hidden, cleared, vms_cursor_value.
  cbn [cu_meta cu_row cu_ready cu_closed cu_todo] in *. destruct row as [r|].
  - split; [split; [done|apply length_replicate]|]. done.
  - split; [by split|]. intros col. cbn. by destruct (negb _ || _ || _).
Qed.

(** A decoded row replaces the current one; what a failed decoding leaves is
    not visible. *)
Lemma decoded_visible ms todo vs (row : option (list VmsValue)) :
  length vs = length ms ->
  let cur := mkCursor ms todo (match ms with [] => row | _ => Some vs end) true false in
  forall col, vms_cursor_value cur col = if col <? 0 then None else vs !! Z.to_nat col.
Proof.
  intros Hl cur col. unfold vms_cursor_value, cur. cbn [cu_ready cu_meta cu_row negb orb].
  destruct (col <? 0) eqn:E0; [done|]. b2p. destruct (col >=? zlen ms) eqn:E1; b2p; cbn [orb].
  - symmetry. apply lookup_ge_None. unfold zlen in E1. lia.
  - destruct ms as [|m ms]; [rewrite zlen_nil in E1; lia|done].
Qed.

Lemma undecoded_hidden ms todo vs (c : VmsCursor) :
  length vs = length ms -> cu_meta c = ms -> cursor_ok c ->
  (cu_row c <> None -> cu_ready c = false) ->
  let cur := mkCursor ms todo (match ms with [] => cu_row c | _ => Some vs end) (cu_ready c) false in
  cursor_ok cur /\ hidden cur.
Proof.
  intros Hl Hm [Hc Hr] Hrd cur. subst ms. unfold cursor_ok, hidden, cur, vms_cursor_value. cbn [cu_closed cu_row cu_meta cu_ready].
  destruct (cu_meta c) as [|m ms] eqn:Em.
  - split; [split; [done|]; destruct (cu_row c); [by destruct l|by right]|].
    intros col. change (zlen (@nil VmsColumnMeta)) with 0. destruct (negb (cu_ready c)); [done|]. destruct (col <? 0) eqn:E; [done|]. b2p.
    by replace (col >=? 0) with true by (symmetry; rewrite Z.geb_leb; by apply Z.leb_le).
  - split; [split; [done|exact Hl]|]. intros col.
    assert (cu_ready c = false) as -> by (destruct (cu_row c) eqn:Er; [by apply Hrd|by destruct Hr]). done.
Qed.

(** [C4]: the cursor of the adapter implements the sequence of results the
    scans are modelled with.  Each fetch delivers the next result: a row is
    shown exactly with its decoded values, and only when all of its columns
    were decoded; the end and an error are reported as such, and then no value
    of an earlier or half-decoded row can be read. *)
Theorem cursor_refines_rows cur rs :
  cursor_ok cur -> cursor_rows (cu_meta cur) (cu_todo cur) = Ret rs ->
  exists cur', cursor_ok cur' /\ cu_meta cur' = cu_meta cur /\
    match rs with
    | [] => job_cursor_fetch alloc true cur = Ret (cur', 0, err_zero) /\ hidden cur' /\
            cursor_rows (cu_meta cur) (cu_todo cur') = Ret []
    | FErr e :: _ => job_cursor_fetch alloc true cur = Ret (cur', -1, e) /\ hidden cur'
    | FRow vs :: rs' => job_cursor_fetch alloc true cur = Ret (cur', 1, err_zero) /\
            (forall col, vms_cursor_value cur' col = if col <? 0 then None else vs !! Z.to_nat col) /\
            cursor_rows (cu_meta cur) (cu_todo cur') = Ret rs'
    end.
Proof.
  intros Hok Hrs. pose proof (cleared_hidden cur (cu_todo cur) Hok) as Hclr. pose proof (cleared_hidden cur) as Hclr'.
  destruct cur as [ms todo row ready closed]. pose proof Hok as [Hc Hr]. cbn [cu_closed cu_meta cu_todo cu_row cu_ready cleared] in *. subst closed.
  unfold job_cursor_fetch. cbn [negb]. rewrite andb_false_r.
  destruct todo as [|[|d|cell] todo']; cbn [cursor_rows] in Hrs.
  - injection Hrs as <-. eexists. split_and!; [apply Hclr|done|reflexivity|apply Hclr|done].
  - injection Hrs as <-. eexists. split_and!; [apply Hclr|done|reflexivity|apply Hclr|done].
  - injection Hrs as <-. destruct (Hclr' todo' Hok) as [Ho1 Hh1]. eexists. split_and!; [apply Ho1|done|reflexivity|apply Hh1].
  - destruct (decode_row alloc (str "cursor ") ms 0 cell) as [[vs e]|] eqn:Ed; [|done]. cbn [mbind cres_bind] in *.
    pose proof (decode_row_length _ _ _ _ _ _ Ed) as Hl. destruct e as [e|].
    + injection Hrs as <-.
      destruct (undecoded_hidden ms todo' vs (cleared (mkCursor ms (FdRow cell :: todo') row ready false))) as [Ho1 Hh1];
        [done|done|apply Hclr|by destruct row; [|intros []]|].
      eexists. split_and!; [apply Ho1|done|reflexivity|apply Hh1].
    + destruct (cursor_rows ms todo') as [rs'|] eqn:Er; [|done]. injection Hrs as <-.
      eexists. split_and!; [| |reflexivity| |exact Er].
      * split; [done|]. cbn [cu_row cu_meta cu_ready]. destruct ms; [|done]. destruct row; [done|by right].
      * done.
      * by apply decoded_visible.
Qed.

End Refine.

(** ** The resources of a cursor *)

(** What a cursor owns; a shared cursor borrows connection and worker. *)
Inductive resource : Type := RCursor | RHdbc | RWorker | RLogin | RStmt | RVals | RInds | RMeta | RRow.

#[global] Instance resource_eq_dec : EqDecision resource.
Proof. solve_decision. Defined.

(** The pointers of the structure that are not NULL. *)
Record CursorPtrs := mkPtrs {
  p_own : bool;
  p_stmt : bool;
  p_vals : bool;
  p_inds : bool;
  p_meta : bool;
  p_row : bool
}.

Fixpoint remove_one (r : resource) (live : list resource) : option (list resource) :=
  match live with
  | [] => None
  | x :: live' => if decide (x = r) then Some live' else cons x <$> remove_one r live'
  end.

(** Releasing what is not held is the fault. *)
Definition release (r : resource) (live : list resource) : cres (list resource) :=
  match remove_one r live with Some live' => Ret live' | None => Fault DoubleFree end.

Definition release_if (b : bool) (r : resource) (live : list resource) : cres (list resource) :=
  if b then release r live else Ret live.

Fixpoint release_all (rs : list resource) (live : list resource) : cres (list resource) :=
  match rs with [] => Ret live | r :: rs' => live ← release r live; release_all rs' live end.

Definition cursor_open_cleanup (p : CursorPtrs) (owns_row : bool) (live : list resource) : cres (list resource) :=
  live ← release_if (owns_row && p_row p) RRow live;
  live ← release_if (p_stmt p) RStmt live;
  live ← (if p_own p then release_all [RLogin; RHdbc; RWorker] live else Ret live);
  live ← release_if (p_meta p) RMeta live;
  live ← release_if (p_vals p) RVals live;
  live ← release_if (p_inds p) RInds live;
  release RCursor live.

(** The outcomes of the calls made while opening. *)
Record OpenEnv := mkOpenEnv {
  oe_cursor : bool;
  oe_hdbc : bool;
  oe_worker : bool;
  oe_connstr : bool;
  oe_connect : option Diag;
  oe_stmt : bool;
  oe_vals : bool;
  oe_inds : bool;
  oe_bind : option Diag;
  oe_exec : option Diag;
  oe_numcols : Diag + Z;
  oe_meta : bool;
  oe_describe : option Diag
}.

(** The lease of an independent cursor: connection handle, worker, login. *)
Definition open_lease (oe : OpenEnv) : (VmsError * list resource) + list resource :=
  if negb (oe_hdbc oe) then inl (failure VMS_ERR_NO_MEMORY "OOM cursor lease hdbc", [RCursor])
  else if negb (oe_worker oe) then inl (failure VMS_ERR_NO_MEMORY "OOM cursor worker", [RHdbc; RCursor])
  else if negb (oe_connstr oe) then
    inl (failure VMS_ERR_INTERNAL "parent connection has no stored connstr for leases", [RWorker; RHdbc; RCursor])
  else match oe_connect oe with
       | Some d => inl (diag_error d (str "cursor lease connect"), [RWorker; RHdbc; RCursor])
       | None => inr [RCursor; RHdbc; RWorker; RLogin]
       end.

(** [job_cursor_meta]: the allocated column data and the error. *)
Definition job_cursor_meta (oe : OpenEnv) : bool * option VmsError :=
  match oe_numcols oe with
  | inl d => (false, Some (diag_error d (str "cursor SQLNumResultCols")))
  | inr n =>
      if (n >? 0) && negb (oe_meta oe) then (false, Some (failure VMS_ERR_NO_MEMORY "OOM cursor meta"))
      else ((n >? 0),
            if n >? 0 then option_map (fun d => diag_error d (str "cursor SQLDescribeColW")) (oe_describe oe) else None)
  end.

(** The result is the cursor's pointers or the error, with what is still
    held. *)
Definition cursor_open_impl (oe : OpenEnv) (shared : bool) (nparams : Z) :
    cres ((VmsError + CursorPtrs) * list resource) :=
  if negb (oe_cursor oe) then Ret (inl (failure VMS_ERR_NO_MEMORY "OOM cursor"), [])
  else
    match (if shared then inr [RCursor] else open_lease oe) with
    | inl (e, held) => live ← release_all held (rev held); Ret (inl e, live)
    | inr live =>
        let p := mkPtrs (negb shared) true false false false false in
        if negb (oe_stmt oe) then
          live ← (if shared then Ret live else release_all [RLogin; RHdbc; RWorker] live);
          live ← release RCursor live;
          Ret (inl (failure VMS_ERR_NO_MEMORY "OOM cursor stmt"), live)
        else
          let live := live ++ [RStmt] in
          let fail_params (e : VmsError) (live : list resource) :=
            live ← cursor_open_cleanup p false live; Ret (inl e, live) in
          let run (p : CursorPtrs) (live : list resource) : cres ((VmsError + CursorPtrs) * list resource) :=
            match oe_exec oe with
            | Some d =>
                live ← release_if (p_vals p) RVals live;
                live ← release_if (p_inds p) RInds live;
                live ← cursor_open_cleanup p true live;
                Ret (inl (diag_error d (str "cursor open")), live)
            | None =>
                let '(has_meta, err) := job_cursor_meta oe in
                let p := mkPtrs (p_own p) true (p_vals p) (p_inds p) has_meta false in
                let live := if has_meta then live ++ [RMeta] else live in
                match err with
                | Some e => live ← cursor_open_cleanup p false live; Ret (inl e, live)
                | None => Ret (inr p, live)
                end
            end in
          if nparams >? 0 then
            if negb (oe_vals oe) || negb (oe_inds oe) then
              fail_params (failure VMS_ERR_NO_MEMORY "OOM param storage") live
            else
              match oe_bind oe with
              | Some d =>
                  live ← release_all [RVals; RInds] (live ++ [RVals; RInds]);
                  fail_params (diag_error d (str "SQLBindParameter")) live
              | None => run (mkPtrs (p_own p) true true true false false) (live ++ [RVals; RInds])
              end
          else run p live
    end.

(** A fetch allocates the row buffer. *)
Definition first_fetch (p : CursorPtrs) (live : list resource) : CursorPtrs * list resource :=
  if p_row p then (p, live) else (mkPtrs (p_own p) (p_stmt p) (p_vals p) (p_inds p) (p_meta p) true, live ++ [RRow]).

Definition vms_cursor_close (p : CursorPtrs) (live : list resource) : cres (list resource) :=
  live ← release_if (p_stmt p) RStmt live;
  live ← release_if (p_row p) RRow live;
  live ← release_if (p_vals p) RVals live;
  live ← release_if (p_inds p) RInds live;
  live ← release_if (p_meta p) RMeta live;
  live ← (if p_own p then release_all [RLogin; RHdbc; RWorker] live else Ret live);
  release RCursor live.

(** [C31]: opening and closing a cursor is balanced.  A failed open returns
    everything it took, and closing an open cursor, fetched from or not,
    returns everything too; nothing is released twice, and a shared cursor
    never releases the connection and the worker of its parent.  The one
    exception is the code's: when the execution of a statement with
    parameters fails, the parameter blocks are freed twice. *)
Theorem cursor_lifecycle oe shared nparams :
  match cursor_open_impl oe shared nparams with
  | Ret (inl _, live) => live = []
  | Ret (inr p, live) =>
      p_own p = negb shared /\ (shared = true -> RHdbc ∉ live /\ RWorker ∉ live /\ RLogin ∉ live) /\
      vms_cursor_close p live = Ret [] /\
      (let '(p, live) := first_fetch p live in vms_cursor_close p live = Ret [])
  | Fault f => f = DoubleFree /\ 0 < nparams /\ exists d, oe_exec oe = Some d
  end.
Proof.
  destruct oe as [c h w cs con st va ind bd ex nc me ds]. unfold cursor_open_impl, open_lease, job_cursor_meta.
  cbn [oe_cursor oe_hdbc oe_worker oe_connstr oe_connect oe_stmt oe_vals oe_inds oe_bind oe_exec oe_numcols oe_meta oe_describe].
  destruct c; [|done]. destruct (nparams >? 0) eqn:En; b2p;
    (destruct shared; [|destruct h; [|done]; destruct w; [|done]; destruct cs; [|done]; destruct con as [|]; [done|]]);
    (destruct st; [|done]); try (destruct va; [|by destruct ind]; destruct ind; [|done]; destruct bd as [|]; [done|]);
    (destruct ex as [d|]; [try done; (split_and!; [done|lia|by exists d])|]);
    (destruct nc as [|n]; [done|]); destruct (n >? 0); (destruct me; cbn [andb negb]; try done); destruct ds; try done;
    split_and!; try done; intros _; split_and!; vm_compute; intros Hin; repeat (apply elem_of_cons in Hin as [?|Hin]; [done|]); by apply not_elem_of_nil in Hin.
Qed.

(** ** The statement of a full scan *)

Definition ansi_text (c : VmsMetaColumn) : bool :=
  match vtype c with CT_TEXT | CT_BIGTEXT => is_ansi c | _ => false end.

Definition cast_text (c : VmsMetaColumn) : list Z :=
  if bool_decide (vtype c = CT_BIGTEXT) then str " AS nvarchar(max))" else str " AS nvarchar(4000))".

Section FullScan.
Context `{WideConv}.

(** The projection loop; [inl None] returns NULL without an error. *)
Fixpoint scan_cols (i : nat) (cols : list VmsMetaColumn) (sql : list Z) : option VmsError + list Z :=
  match cols with
  | [] => inr sql
  | c :: cols' =>
      if negb (vms_meta_ident_valid (Some (name c)) 128) then
        inl (vms_error_set (Some err_zero) VMS_ERR_INVALID_ARG None 0
               (fun _ => str "invalid column name '" ++ name c ++ str "'"))
      else if ansi_text c && (zlen sql + 6 >=? 2048) then inl None
      else
        let sql := if ansi_text c then sql ++ str "CAST(" else sql in
        match to_wide 254 (name c) with
        | None => inl (Some (failure VMS_ERR_INVALID_ARG "projection too wide"))
        | Some w =>
            if zlen sql + (zlen w + 1) + 4 >=? 2048 then inl (Some (failure VMS_ERR_INVALID_ARG "projection too wide"))
            else
              let sql := sql ++ (match i with O => [] | S _ => str "," end) ++ bracketed w in
              if ansi_text c && (zlen sql + (zlen (cast_text c) + 1) >=? 2048) then inl None
              else
                let sql := if ansi_text c then sql ++ cast_text c else sql in
                let sql := if bool_decide (vtype c = CT_SPATIAL) && (zlen sql + 14 <? 2048)
                           then sql ++ str ".STAsBinary()" else sql in
                scan_cols (S i) cols' sql
        end
  end.

(** The statement [vms_cursor_open] runs. *)
Definition full_scan_sql (schema table : list Z) (cols : list VmsMetaColumn) : option VmsError + list Z :=
  if bool_decide (cols = []) then inl (Some (failure VMS_ERR_INVALID_ARG "cursor open: bad args"))
  else if negb (vms_meta_ident_valid (Some schema) 128) || negb (vms_meta_ident_valid (Some table) 128) then
    inl (Some (failure VMS_ERR_INVALID_ARG "invalid identifier"))
  else match scan_cols 0 cols (str "SELECT ") with
       | inl e => inl e
       | inr sql => inr (sql ++ trunc_copy (2048 - zlen sql) (str " FROM [" ++ schema ++ str "].[" ++ table ++ str "]"))
       end.

(** The text of one column: the separator follows the opening of a cast. *)
Definition scan_col_text (i : nat) (c : VmsMetaColumn) : list Z :=
  (if ansi_text c then str "CAST(" else []) ++ (match i with O => [] | S _ => str "," end) ++ bracketed (name c) ++
  (if ansi_text c then cast_text c else []) ++ (if bool_decide (vtype c = CT_SPATIAL) then str ".STAsBinary()" else []).

Fixpoint scan_text (i : nat) (cols : list VmsMetaColumn) : list Z :=
  match cols with [] => [] | c :: cols' => scan_col_text i c ++ scan_text (S i) cols' end.

Lemma ident_char_ascii c : ident_char c = true -> 0 < c < 128.
Proof.
  unfold ident_char, isalnum, isalpha, isupper, islower, isdigit.
  change (chr "_") with 95. change (chr "#") with 35. change (chr "@") with 64. change (chr "$") with 36. intros Hc.
  repeat match goal with Hx : (_ || _)%bool = true |- _ => apply orb_prop in Hx as [Hx|Hx] end; b2p; lia.
Qed.

Lemma ident_valid_wide nm : vms_meta_ident_valid (Some nm) 128 = true -> widen nm = nm /\ zlen nm <= 128.
Proof.
  intros (Hl & Hl2 & Hc)%ident_valid_spec. split; [|lia]. apply widen_ascii. eapply Forall_impl; [exact Hc|].
  intros c. apply ident_char_ascii.
Qed.

Lemma cast_text_len c : 0 <= zlen (cast_text c) <= 19.
Proof. unfold cast_text. case_bool_decide; vm_compute; split; congruence. Qed.

Lemma scan_cols_text cols : forall i sql rest,
  Forall (fun c => vms_meta_ident_valid (Some (name c)) 128 = true) cols ->
  zlen (sql ++ scan_text i cols) + rest < 2048 -> 13 <= rest ->
  scan_cols i cols sql = inr (sql ++ scan_text i cols).
Proof.
  induction cols as [|c cols IH]; intros i sql rest Hv Hl Hr; cbn [scan_cols scan_text]; [by rewrite app_nil_r|].
  inversion Hv as [|?? Hc Hcs]; subst. rewrite Hc. cbn [negb]. destruct (ident_valid_wide _ Hc) as [Hw Hn].
  cbn [scan_text] in Hl. revert Hl. unfold scan_col_text at 1. unfold bracketed. autorewrite with vms_len.
  change (zlen (str "[")) with 1. change (zlen (str "]")) with 1. intros Hl.
  pose proof (zlen_nonneg sql). pose proof (zlen_nonneg (scan_text (S i) cols)). pose proof (zlen_nonneg (name c)).
  set (sep := match i with O => [] | S _ => str "," end) in *. pose proof (zlen_nonneg sep).
  pose proof (cast_text_len c) as Hcast.
  unfold to_wide. rewrite Hw.
  replace (zlen (name c) + 1 >? 254) with false by (symmetry; rewrite Z.gtb_ltb; apply Z.ltb_ge; lia).
  destruct (ansi_text c) eqn:Ea; destruct (bool_decide (vtype c = CT_SPATIAL)) eqn:Es; cbn [andb];
    try (apply bool_decide_eq_true in Es; unfold ansi_text in Ea; by rewrite Es in Ea);
    change (zlen (str "CAST(")) with 5 in Hl; change (zlen (str ".STAsBinary()")) with 13 in Hl;
    change (zlen (@nil Z)) with 0 in Hl; unfold bracketed; autorewrite with vms_len;
    change (zlen (str "CAST(")) with 5; change (zlen (str "[")) with 1; change (zlen (str "]")) with 1.
  - replace (zlen sql + 6 >=? 2048) with false by (symmetry; rewrite Z.geb_leb; apply Z.leb_gt; lia).
    replace (_ + 4 >=? 2048) with false by (symmetry; rewrite Z.geb_leb; apply Z.leb_gt; lia).
    replace (_ >=? 2048) with false by (symmetry; rewrite Z.geb_leb; apply Z.leb_gt; lia).
    rewrite (IH (S i) _ rest) by (done || (autorewrite with vms_len; change (zlen (str "CAST(")) with 5; change (zlen (str "[")) with 1; change (zlen (str "]")) with 1; lia)).
    f_equal. unfold scan_col_text, bracketed. rewrite Ea, Es. fold sep. rewrite <- !app_assoc. by rewrite app_nil_l.
  - replace (_ + 4 >=? 2048) with false by (symmetry; rewrite Z.geb_leb; apply Z.leb_gt; lia).
    replace (_ <? 2048) with true by (symmetry; apply Z.ltb_lt; lia).
    rewrite (IH (S i) _ rest) by (done || (autorewrite with vms_len; change (zlen (str ".STAsBinary()")) with 13; change (zlen (str "[")) with 1; change (zlen (str "]")) with 1; lia)).
    f_equal. unfold scan_col_text, bracketed. rewrite Ea, Es. fold sep. rewrite <- !app_assoc. by rewrite !app_nil_l.
  - replace (_ + 4 >=? 2048) with false by (symmetry; rewrite Z.geb_leb; apply Z.leb_gt; lia).
    rewrite (IH (S i) _ rest) by (done || (autorewrite with vms_len; change (zlen (str "[")) with 1; change (zlen (str "]")) with 1; lia)).
    f_equal. unfold scan_col_text, bracketed. rewrite Ea, Es. fold sep. rewrite <- !app_assoc. by rewrite !app_nil_l.
Qed.

(** The statement, when it fits its buffer. *)
Lemma full_scan_text schema table cols :
  cols <> [] -> vms_meta_ident_valid (Some schema) 128 = true -> vms_meta_ident_valid (Some table) 128 = true ->
  Forall (fun c => vms_meta_ident_valid (Some (name c)) 128 = true) cols ->
  let text := str "SELECT " ++ scan_text 0 cols ++ str " FROM [" ++ schema ++ str "].[" ++ table ++ str "]" in
  zlen text < 2048 -> full_scan_sql schema table cols = inr text.
Proof.
  intros Hc Hs Ht Hv text Hl. unfold full_scan_sql. rewrite bool_decide_false, Hs, Ht by done. cbn [negb orb].
  assert (Hst : forall nm, vms_meta_ident_valid (Some nm) 128 = true -> 1 <= zlen nm).
  { intros nm (Hne & _ & _)%ident_valid_spec. destruct nm; [done|]. autorewrite with vms_len. pose proof (zlen_nonneg nm). lia. }
  pose proof (Hst _ Hs). pose proof (Hst _ Ht). unfold text in Hl. autorewrite with vms_len in Hl.
  change (zlen (str " FROM [")) with 7 in Hl. change (zlen (str "].[")) with 3 in Hl. change (zlen (str "]")) with 1 in Hl.
  rewrite (scan_cols_text cols 0 (str "SELECT ") 13) by (done || (autorewrite with vms_len; lia)).
  unfold text. f_equal. rewrite trunc_copy_fits, <- !app_assoc; [done|]. autorewrite with vms_len.
  change (zlen (str " FROM [")) with 7. change (zlen (str "].[")) with 3. change (zlen (str "]")) with 1. lia.
Qed.

End FullScan.

(** An ANSI text column after the first gets its comma inside the cast. *)
Example ansi_column_malformed :
  @full_scan_sql IdWideConv (str "dbo") (str "t")
    [mkCol (str "id") (str "int") CT_INT64 0 0 0 4 10 0; mkCol (str "s") (str "varchar") CT_TEXT 1 0 0 10 0 0] =
  inr (str "SELECT [id]CAST(,[s] AS nvarchar(4000)) FROM [dbo].[t]").
Proof. vm_compute. reflexivity. Qed.

(** ** Concrete columns and cursors *)

Definition same_text : Win32Text := {| mb2wc := Some; wc2mb := Some |}.

Definition full_chunk : list Z := replicate (Z.to_nat VMS_GETDATA_CHUNK) 7.

Lemma zlen_full_chunk : zlen full_chunk = VMS_GETDATA_CHUNK.
Proof. unfold zlen, full_chunk. rewrite length_replicate. apply Z2Nat.id. vm_compute. congruence. Qed.

Lemma full_chunk_streams : streams (full_chunk ++ [1; 2]) [GdData true (zlen (full_chunk ++ [1; 2])) full_chunk; GdData false 2 [1; 2]].
Proof. apply streams_more; [apply zlen_full_chunk|]. apply (streams_last [1; 2]). vm_compute. congruence. Qed.

Lemma getdata_assembles_witness :
  @getdata_blob Win64 (fun _ => true) [GdData true (zlen (full_chunk ++ [1; 2])) full_chunk; GdData false 2 [1; 2]] =
    Ret (inr (VAL_BLOB (full_chunk ++ [1; 2]))) /\
  @getdata_text Win64 same_text (fun _ => true) [GdData false 4 [104; 0; 105; 0]] = Ret (inr (VAL_TEXT (str "hi"))).
Proof.
  split.
  - refine (proj1 (@getdata_assembles Win64 same_text (fun _ => true) (fun _ => eq_refl) _ _ full_chunk_streams _)).
    rewrite zlen_app, zlen_full_chunk. vm_compute. split; congruence.
  - refine (proj2 (proj2 (@getdata_assembles Win64 same_text (fun _ => true) (fun _ => eq_refl) (le_bytes (str "hi"))
             [GdData false 4 [104; 0; 105; 0]] _ _)) (str "hi") (str "hi") eq_refl eq_refl _ _ _);
      try (vm_compute; split; congruence).
    apply (streams_last (le_bytes (str "hi"))). vm_compute. congruence.
Defined.

Definition int_cell (v : Z) : Cell := mkCell (inr (Some v)) (inr None) GdNull [GdNull].

Definition demo_cursor : VmsCursor :=
  mkCursor [mkMeta (str "id") CT_INT64; mkMeta (str "s") CT_TEXT]
    [FdRow (fun _ => int_cell 5); FdError (mkDiag (str "08S01") 0 (str "gone"))] None false false.

Lemma cursor_refines_rows_witness :
  exists cur', @job_cursor_fetch Win64 same_text (fun _ => true) true demo_cursor = Ret (cur', 1, err_zero) /\
    vms_cursor_value cur' 0 = Some (VAL_INT64 5) /\ vms_cursor_value cur' 1 = Some VAL_NULL.
Proof.
  destruct (@cursor_refines_rows Win64 same_text (fun _ => true) demo_cursor
    [FRow [VAL_INT64 5; VAL_NULL]; FErr (diag_error (mkDiag (str "08S01") 0 (str "gone")) (str "cursor SQLFetch"))])
    as (cur' & _ & _ & Hf & Hv & _).
  - split; [reflexivity|]. left. reflexivity.
  - vm_compute. reflexivity.
  - exists cur'. rewrite !Hv. split; [exact Hf|]. split; reflexivity.
Defined.

(** A chunk whose length the driver does not announce (SQL_NO_TOTAL) is
    dropped without an error. *)
Example no_total_chunk_lost :
  @getdata_blob Win64 (fun _ => true) [GdData true (-4) full_chunk; GdData false 2 [1; 2]] = Ret (inr (VAL_BLOB [1; 2])).
Proof. vm_compute. reflexivity. Qed.

(** A statement with parameters that fails to execute is freed twice. *)
Example failed_execution_double_free d :
  cursor_open_impl (mkOpenEnv true true true true None true true true None (Some d) (inr 1) true None) false 1 = Fault DoubleFree.
Proof. vm_compute. reflexivity. Qed.
