(* ===== verification/Conn.v ===== *)
(** * Connections and statements of the ODBC adapter
      (src/src/vms_odbc_adapter.c)

    The life of a connection and of its statements: opening and closing, the
    process-wide registry behind the cancellation of all connections, the
    published statement that a cancellation targets, deadlines, quarantine,
    verification before reuse, and the execution of a statement with its
    column descriptions.  The answers of the driver and of the allocator are
    arguments.  The world holds the live objects; reading an object that is
    not there is the fault [UseAfterFree]. *)

From stdpp Require Import relations gmap.
From S2P Require Import Prelude Foundation Client Txn Adapter.

#[local] Arguments str : simpl never.

(** Addresses of connections and of statement handles. *)
Notation cid := nat (only parsing).
Notation hid := nat (only parsing).

(** ** The objects *)

(** [struct VmsConnection] with its worker's published statement; the flags
    of transactions are modelled with the transactions. *)
Record ConnObj := mkConnObj {
  co_connstr : option (list Z);       (* last_connstr *)
  co_quarantined : bool;
  co_timeout : Z;                     (* query_timeout_sec *)
  co_fired : bool;                    (* deadline_fired *)
  co_watchers : Z;                    (* deadline_watchers *)
  co_active : option hid;             (* active_stmt of the worker *)
  co_closing : bool                   (* vms_conn_close has begun *)
}.

(** A described column. *)
Record ColInfo := mkColInfo {
  ci_meta : VmsColumnMeta;
  ci_nullable : bool;
  ci_size : Z;                        (* unsigned long *)
  ci_digits : Z                       (* unsigned short *)
}.

(** [struct VmsStatement]; [None] for a NULL pointer. *)
Record StmtObj := mkStmtObj {
  so_conn : cid;
  so_cols : Z;                        (* col_count *)
  so_meta : option (list ColInfo);
  so_row : bool;
  so_ready : bool
}.

(** A statement text that reaches the server. *)
Inductive event : Type :=
| EvConnect (c : cid)
| EvExec (h : hid) (sql : list Z)
| EvCancel (h : hid)
| EvAutocommitOff (c : cid)
| EvEndTran (c : cid) (rollback : bool).

Record World := mkWorld {
  conns : gmap cid ConnObj;
  stmts : gmap hid StmtObj;
  registry : list cid;                (* g_connreg_head *)
  metas_lost : nat;                   (* column blocks nothing points to *)
  rows_lost : nat;                    (* row blocks nothing points to *)
  events : list event
}.

Definition with_conns (w : World) (m : gmap cid ConnObj) : World :=
  mkWorld m (stmts w) (registry w) (metas_lost w) (rows_lost w) (events w).
Definition with_stmts (w : World) (m : gmap hid StmtObj) : World :=
  mkWorld (conns w) m (registry w) (metas_lost w) (rows_lost w) (events w).
Definition with_registry (w : World) (r : list cid) : World :=
  mkWorld (conns w) (stmts w) r (metas_lost w) (rows_lost w) (events w).
Definition emit (w : World) (e : event) : World :=
  mkWorld (conns w) (stmts w) (registry w) (metas_lost w) (rows_lost w) (events w ++ [e]).

Definition set_active_stmt (o : ConnObj) (h : option hid) : ConnObj :=
  mkConnObj (co_connstr o) (co_quarantined o) (co_timeout o) (co_fired o) (co_watchers o) h (co_closing o).
Definition set_quarantined (o : ConnObj) : ConnObj :=
  mkConnObj (co_connstr o) true (co_timeout o) (co_fired o) (co_watchers o) (co_active o) (co_closing o).

(** Reading the connection [c]. *)
Definition conn_at (w : World) (c : cid) : cres ConnObj :=
  match conns w !! c with Some o => Ret o | None => Fault UseAfterFree end.
Definition stmt_at (w : World) (h : hid) : cres StmtObj :=
  match stmts w !! h with Some s => Ret s | None => Fault UseAfterFree end.
Definition put_conn (w : World) (c : cid) (o : ConnObj) : World := with_conns w (<[c := o]> (conns w)).
Definition put_stmt (w : World) (h : hid) (s : StmtObj) : World := with_stmts w (<[h := s]> (stmts w)).

(** [if (q) InterlockedExchange(&cn->quarantined, 1)] *)
Definition quarantine_if (q : bool) (w : World) (c : cid) : cres World :=
  if q then o ← conn_at w c; Ret (put_conn w c (set_quarantined o)) else Ret w.

(** ** Registry *)

(** Without memory for the node the connection is left out. *)
Definition connreg_add (alloc : bool) (c : cid) (w : World) : World :=
  if alloc then with_registry w (c :: registry w) else w.

(** The first node of the connection is unlinked. *)
Fixpoint unlink (c : cid) (l : list cid) : list cid :=
  match l with
  | [] => []
  | n :: l' => if decide (n = c) then l' else n :: unlink c l'
  end.

Definition connreg_remove (c : cid) (w : World) : World := with_registry w (unlink c (registry w)).

(** [vms_worker_cancel_active] first reads the published handle. *)
Definition vms_worker_cancel_active (w : World) (c : cid) : cres (option hid) :=
  o ← conn_at w c; Ret (co_active o).

(** The loop of [vms_client_cancel_all]: the handles it reads, and how many
    connections it counts. *)
Fixpoint cancel_nodes (w : World) (l : list cid) : cres (list hid * Z) :=
  match l with
  | [] => Ret ([], 0)
  | c :: l' =>
      h ← vms_worker_cancel_active w c;
      '(hs, n) ← cancel_nodes w l';
      Ret (option_list h ++ hs, n + 1)
  end.

Definition vms_client_cancel_all (w : World) : cres (World * Z) :=
  '(hs, n) ← cancel_nodes w (registry w);
  Ret (mkWorld (conns w) (stmts w) (registry w) (metas_lost w) (rows_lost w) (events w ++ (EvCancel <$> hs)), n).

(** ** Opening and closing *)

(** The outcomes of the calls of [vms_conn_open]; [None] is success. *)
Record OpenAnswers := mkOpenAnswers {
  oa_block : bool;
  oa_hdbc : bool;
  oa_worker : bool;
  oa_job : bool;                      (* memory for the job of the worker *)
  oa_connect : option Diag;
  oa_copy : bool;                     (* memory for the connection string *)
  oa_node : bool                      (* memory for the registry node *)
}.

(** The job: the error and whether the login succeeded.  The quarantine it
    may set is on a connection that is released right after. *)
Definition job_open (d : option Diag) : VmsError * bool :=
  match d with
  | None => (err_zero, true)
  | Some d => (diag_error d (str "connect"), false)
  end.

Definition new_conn (connstr : option (list Z)) : ConnObj := mkConnObj connstr false 0 false 0 None false.

(** [c] is the address of the new block.  On the failure paths everything
    taken so far is released, so the world is the one before. *)
Definition vms_conn_open (a : OpenAnswers) (client : bool) (connstr : option (list Z)) (c : cid) (w : World) :
    World * option cid * VmsError :=
  match client, connstr with
  | true, Some cs =>
      if negb (oa_block a) then (w, None, failure VMS_ERR_NO_MEMORY "OOM connection")
      else if negb (oa_hdbc a) then (w, None, failure VMS_ERR_NO_MEMORY "OOM hdbc")
      else if negb (oa_worker a) then (w, None, failure VMS_ERR_NO_MEMORY "OOM worker")
      else
        let '(err, ok) := if oa_job a then job_open (oa_connect a) else (err_zero, false) in
        if negb ok then (w, None, err)
        else
          let w := emit (put_conn w c (new_conn (if oa_copy a then Some cs else None))) (EvConnect c) in
          (connreg_add (oa_node a) c w, Some c, err)
  | _, _ => (w, None, failure VMS_ERR_INVALID_ARG "bad args")
  end.

(** [vms_conn_close] takes the connection from the registry, under the lock;
    then it stops the worker, disconnects and releases the blocks. *)
Definition conn_unregister (c : cid) (w : World) : cres World :=
  o ← conn_at w c;
  Ret (put_conn (connreg_remove c w) c
         (mkConnObj (co_connstr o) (co_quarantined o) (co_timeout o) (co_fired o) (co_watchers o) (co_active o) true)).

Definition conn_release (c : cid) (w : World) : cres World :=
  _ ← conn_at w c; Ret (with_conns w (delete c (conns w))).

Definition vms_conn_close (cn : option cid) (w : World) : cres World :=
  match cn with
  | None => Ret w
  | Some c => w ← conn_unregister c w; conn_release c w
  end.

(** ** Timeouts, deadlines, quarantine *)

(** [ok] is the driver's answer to the attribute, [job] the memory for the
    worker's job; the value is stored whatever they are. *)
Definition vms_conn_set_query_timeout (job ok : bool) (cn : option cid) (seconds : Z) (w : World) : cres (World * bool) :=
  match cn with
  | None => Ret (w, false)
  | Some c =>
      if seconds <? 0 then Ret (w, false)
      else
        o ← conn_at w c;
        Ret (put_conn w c (mkConnObj (co_connstr o) (co_quarantined o) seconds (co_fired o) (co_watchers o)
                             (co_active o) (co_closing o)), job && ok)
  end.

Definition vms_conn_quarantined (w : World) (cn : option cid) : cres bool :=
  match cn with None => Ret false | Some c => o ← conn_at w c; Ret (co_quarantined o) end.

(** The result tells whether a watcher was started. *)
Definition vms_conn_arm_deadline (alloc thread : bool) (cn : option cid) (ms : Z) (w : World) : cres (World * bool) :=
  match cn with
  | None => Ret (w, false)
  | Some c =>
      if ms =? 0 then Ret (w, false)
      else
        o ← conn_at w c;
        if co_watchers o >=? 4 then Ret (w, false)
        else if negb alloc then Ret (w, false)
        else
          let n := if thread then wrap_i32 (co_watchers o + 1) else co_watchers o in
          Ret (put_conn w c (mkConnObj (co_connstr o) (co_quarantined o) (co_timeout o) false n
                               (co_active o) (co_closing o)), thread)
  end.

(** What the watcher does when its time is over, with the pointer it was
    given. *)
Definition deadline_watch (c : cid) (w : World) : cres World :=
  h ← vms_worker_cancel_active w c;
  o ← conn_at w c;
  let w := match h with Some h => emit w (EvCancel h) | None => w end in
  Ret (put_conn w c (mkConnObj (co_connstr o) (co_quarantined o) (co_timeout o) true (wrap_i32 (co_watchers o - 1))
                       (co_active o) (co_closing o))).

Definition vms_conn_deadline_fired (w : World) (cn : option cid) : cres bool :=
  match cn with None => Ret false | Some c => o ← conn_at w c; Ret (co_fired o) end.

(** ** Statements *)

(** The worker publishes the handle of a blocking call. *)
Definition vms_worker_set_active (w : World) (c : cid) (h : option hid) : cres World :=
  o ← conn_at w c; Ret (put_conn w c (set_active_stmt o h)).

(** A blocking call on the statement [h] of the connection [c]: published
    before, unpublished after. *)
Definition exec_published (w : World) (c : cid) (h : hid) (sql : list Z) : cres World :=
  w ← vms_worker_set_active w c (Some h);
  vms_worker_set_active (emit w (EvExec h sql)) c None.

Definition stmt_alloc (block handle : bool) (c : cid) (h : hid) (w : World) : option World :=
  if block && handle then Some (put_stmt w h (mkStmtObj c 0 None false false)) else None.

(** Freeing the handle and the block of a statement; the column block and the
    row block, when they are still there, are lost. *)
Definition stmt_free (w : World) (h : hid) (free_meta : bool) : cres World :=
  s ← stmt_at w h;
  let lost_meta := if free_meta then 0%nat else length (option_list (so_meta s)) in
  let lost_row := if so_row s then 1%nat else 0%nat in
  Ret (mkWorld (conns w) (delete h (stmts w)) (registry w) (metas_lost w + lost_meta) (rows_lost w + lost_row) (events w)).

(** [job_exec]: [None] is one of the three codes it accepts. *)
Definition job_exec (d : option Diag) (c : cid) (h : hid) (sql : list Z) (w : World) : cres (World * VmsError * bool) :=
  o ← conn_at w c;
  if co_quarantined o then Ret (w, failure VMS_ERR_QUARANTINED "connection quarantined; ops rejected", false)
  else
    w ← exec_published w c h sql;
    match d with
    | None => Ret (w, err_zero, true)
    | Some d =>
        let '(_, q, e) := diag_capture d (str "execute") in
        w ← quarantine_if q w c; Ret (w, e, false)
    end.

(** An answer of [SQLDescribeColW]: the buffer, the length the driver reports
    and the attributes. *)
Record ColDesc := mkColDesc {
  cd_name : list Z;                   (* the buffer of 256 units *)
  cd_len : Z;
  cd_type : Z;
  cd_size : Z;
  cd_digits : Z;
  cd_nullable : Z
}.

Section Describe.
Context `{Win32Text}.

(** The wide name, terminated defensively. *)
Definition wide_name (d : ColDesc) : list Z :=
  let n := if (cd_len d <? 0) || (cd_len d >? 255) then 255 else cd_len d in
  fst (span (fun u => negb (u =? 0)) (take (Z.to_nat n) (cd_name d))).

(** The conversion into 256 bytes is not checked: when it fails the bytes are
    left without a terminator and the copy reads past them. *)
Definition describe_name (d : ColDesc) : cres (list Z) :=
  match wc2mb (wide_name d) with
  | Some u => if zlen u <? 256 then Ret (trunc_copy 128 u) else Fault OobRead
  | None => Fault OobRead
  end.

Definition describe_col (d : ColDesc) : cres ColInfo :=
  nm ← describe_name d;
  Ret (mkColInfo (mkMeta nm (map_col_type (cd_type d) (cd_size d))) (negb (cd_nullable d =? 0))
                 (wrap_u32 (cd_size d)) (cd_digits d mod 2 ^ 16)).

(** The loop over [n] columns from the column [i]: those described so far, and
    the error that stopped it. *)
Fixpoint describe_cols (n i : nat) (col : nat -> Diag + ColDesc) : cres (list ColInfo * option VmsError) :=
  match n with
  | O => Ret ([], None)
  | S n' =>
      match col i with
      | inl d => Ret ([], Some (diag_error d (str "SQLDescribeColW")))
      | inr d =>
          ci ← describe_col d;
          '(cs, e) ← describe_cols n' (S i) col;
          Ret (ci :: cs, e)
      end
  end.

Record MetaAnswers := mkMetaAnswers {
  ma_count : Diag + Z;                (* SQLNumResultCols *)
  ma_alloc : bool;
  ma_col : nat -> Diag + ColDesc      (* SQLDescribeColW, from column 1 *)
}.

Definition job_meta (a : MetaAnswers) (h : hid) (w : World) : cres (World * VmsError * bool) :=
  s ← stmt_at w h;
  match ma_count a with
  | inl d => Ret (w, diag_error d (str "SQLNumResultCols"), false)
  | inr n =>
      let s := mkStmtObj (so_conn s) n (so_meta s) (so_row s) (so_ready s) in
      if n >? 0 then
        if negb (ma_alloc a) then
          Ret (put_stmt w h (mkStmtObj (so_conn s) n None (so_row s) (so_ready s)),
               failure VMS_ERR_NO_MEMORY "OOM meta", false)
        else
          '(cs, e) ← describe_cols (Z.to_nat n) 1 (ma_col a);
          let w := put_stmt w h (mkStmtObj (so_conn s) n (Some cs) (so_row s) (so_ready s)) in
          match e with
          | Some e => Ret (w, e, false)
          | None => Ret (w, err_zero, true)
          end
      else Ret (put_stmt w h s, err_zero, true)
  end.

(** The outcomes of the calls of [vms_stmt_exec_direct].  The results of the
    two jobs are not initialised: [ea_junk1] and [ea_junk2] are what is read
    when the worker had no memory to run them. *)
Record ExecAnswers := mkExecAnswers {
  ea_block : bool;
  ea_handle : bool;
  ea_job1 : bool;
  ea_junk1 : bool;
  ea_exec : option Diag;
  ea_job2 : bool;
  ea_junk2 : bool;
  ea_meta : MetaAnswers
}.

Definition vms_stmt_exec_direct (a : ExecAnswers) (cn : option cid) (sql : option (list Z)) (h : hid) (w : World) :
    cres (World * option hid * VmsError) :=
  match cn, sql with
  | Some c, Some sql =>
      match stmt_alloc (ea_block a) (ea_handle a) c h w with
      | None => Ret (w, None, failure VMS_ERR_NO_MEMORY "OOM statement")
      | Some w =>
          '(w, err, ok) ← (if ea_job1 a then job_exec (ea_exec a) c h sql w else Ret (w, err_zero, ea_junk1 a));
          if negb ok then w ← stmt_free w h false; Ret (w, None, err)
          else
            '(w, err, ok) ← (if ea_job2 a then job_meta (ea_meta a) h w else Ret (w, err, ea_junk2 a));
            if negb ok then w ← stmt_free w h false; Ret (w, None, err)
            else Ret (w, Some h, err)
      end
  | _, _ => Ret (w, None, failure VMS_ERR_INVALID_ARG "bad args")
  end.

Definition vms_stmt_destroy (st : option hid) (w : World) : cres World :=
  match st with None => Ret w | Some h => stmt_free w h true end.

End Describe.

(** [SQLMoreResults]: an error, the end, or another result. *)
Inductive more_answer : Type := MoreError (d : Diag) | MoreNone | MoreNext.

(** [row_clear] of a statement that has a row. *)
Definition row_clear (s : StmtObj) : StmtObj :=
  mkStmtObj (so_conn s) (so_cols s) (so_meta s) (so_row s) (if so_row s then false else so_ready s).

(** The column descriptions of the new result are not read. *)
Definition job_more (a : more_answer) (h : hid) (w : World) : cres (World * VmsError * Z) :=
  s ← stmt_at w h;
  let w := put_stmt w h (row_clear s) in
  match a with
  | MoreNone => Ret (w, err_zero, 0)
  | MoreNext => Ret (w, err_zero, 1)
  | MoreError d =>
      let '(_, q, e) := diag_capture d (str "SQLMoreResults") in
      w ← quarantine_if q w (so_conn s); Ret (w, e, -1)
  end.

(** ** Verification before reuse *)

(** The answers to the two probes: the count of open transactions, and the
    trivial query. *)
Record VerifyAnswers := mkVerifyAnswers {
  va_handle : bool;
  va_trancount : option Z;            (* None: one of the three calls failed *)
  va_select : bool
}.

Definition job_verify (a : VerifyAnswers) (c : cid) (h : hid) (w : World) : cres (World * bool) :=
  o ← conn_at w c;
  if co_quarantined o then Ret (w, false)
  else if negb (va_handle a) then Ret (w, false)
  else
    let w := emit w (EvExec h (str "SELECT @@TRANCOUNT")) in
    match va_trancount a with
    | Some 0 => Ret (emit w (EvExec h (str "SELECT 1")), va_select a)
    | _ => Ret (w, false)
    end.

Definition vms_conn_verify (job : bool) (a : VerifyAnswers) (cn : option cid) (h : hid) (w : World) : cres (World * bool) :=
  match cn with
  | None => Ret (w, false)
  | Some c => if job then job_verify a c h w else Ret (w, false)
  end.

(** ** Transactions driven by the caller *)

(** The error is [None] when it is left as it was: the worker had no memory
    for the job. *)
Definition vms_tran_begin (job : bool) (d : option Diag) (cn : option cid) (w : World) : World * option VmsError * Z :=
  match cn with
  | None => (w, None, -1)
  | Some c =>
      if negb job then (w, None, -1)
      else match d with
           | None => (emit w (EvAutocommitOff c), Some err_zero, 0)
           | Some d => (w, Some (diag_error d (str "autocommit off")), -1)
           end
  end.

(** [vms_tran_commit] and [vms_tran_rollback]: only a failed commit can
    quarantine the connection. *)
Definition vms_tran_end (job : bool) (rollback : bool) (d : option Diag) (cn : option cid) (w : World) :
    cres (World * option VmsError * Z) :=
  match cn with
  | None => Ret (w, None, -1)
  | Some c =>
      if negb job then Ret (w, None, -1)
      else
        let w := emit w (EvEndTran c rollback) in
        match d with
        | None => Ret (w, Some err_zero, 0)
        | Some d =>
            let '(_, q, e) := diag_capture d (if rollback then str "rollback" else str "commit") in
            w ← quarantine_if (q && negb rollback) w c; Ret (w, Some e, -1)
        end
  end.

(** ** The client *)

(** [vms_client_init]: the environment handle, its version, the block.  The
    result is the error, or the client with its environment. *)
Definition vms_client_init (env attr block : bool) : VmsError + unit :=
  if negb env then inl (failure VMS_ERR_INTERNAL "cannot allocate ODBC environment")
  else if negb attr then inl (failure VMS_ERR_INTERNAL "cannot set ODBC 3.8")
  else if negb block then inl (failure VMS_ERR_NO_MEMORY "OOM client")
  else inr tt.

(** Typed parameters are refused. *)
Definition vms_stmt_exec_params : VmsError :=
  failure VMS_ERR_INVALID_ARG
    "typed parameter binding arrives with the pushdown planner (R7); use exec_direct or build literals server-side".

Definition vms_stmt_col_count (w : World) (st : option hid) : cres Z :=
  match st with None => Ret 0 | Some h => s ← stmt_at w h; Ret (so_cols s) end.

(** The description of a column; reading it where no description block was
    allocated for the counted columns is the fault. *)
Definition vms_stmt_meta (w : World) (st : option hid) (col : Z) : cres (option ColInfo) :=
  match st with
  | None => Ret None
  | Some h =>
      s ← stmt_at w h;
      if (col <? 0) || (col >=? so_cols s) then Ret None
      else match so_meta s ≫= (.!! Z.to_nat col) with Some c => Ret (Some c) | None => Fault OobRead end
  end.

(** [vms_conn_cancel] and [vms_stmt_cancel]: the statement that is cancelled
    is the published one, whichever it is. *)
Definition vms_conn_cancel (w : World) (cn : option cid) : cres (World * bool) :=
  match cn with
  | None => Ret (w, false)
  | Some c => h ← vms_worker_cancel_active w c; Ret (match h with Some h => emit w (EvCancel h) | None => w end, true)
  end.

Definition vms_stmt_cancel (w : World) (st : option hid) : cres (World * bool) :=
  match st with
  | None => Ret (w, false)
  | Some h => s ← stmt_at w h; vms_conn_cancel w (Some (so_conn s))
  end.

(** ** The calls of the transaction jobs *)

(** Each runs its job on the worker; [job] is the memory for it.  Without it
    the results are those set beforehand. *)
Definition run_txn_job (job : bool) (f : VmsConnection -> VmsConnection * bool * VmsError) (cn : option VmsConnection) :
    option VmsConnection * Z :=
  match cn with
  | None => (None, -1)
  | Some c => if job then let '(c', ok, _) := f c in (Some c', if ok : bool then 0 else -1) else (Some c, -1)
  end.

Definition vms_txn_pin (job : bool) (o : Odbc) := run_txn_job job (job_txn_pin o).
Definition vms_txn_begin_lazy (job : bool) (o : Odbc) := run_txn_job job (job_txn_begin_lazy o).
Definition vms_txn_active (cn : option VmsConnection) : bool := match cn with Some c => txn_active c | None => false end.
Definition vms_txn_doomed (job : bool) (o : Odbc) (cn : option VmsConnection) : bool :=
  match cn with Some c => job && job_txn_doomed o c | None => false end.

(** [vms_txn_commit] and [vms_txn_rollback]. *)
Definition vms_txn_end (job : bool) (o : Odbc) (rollback : bool) (cn : option VmsConnection) :
    option VmsConnection * VmsTxnResult :=
  match cn with
  | None => (None, TXN_UNKNOWN)
  | Some c => if job then let '(c', r, _) := job_txn_finalize o rollback c in (Some c', r) else (Some c, TXN_UNKNOWN)
  end.

(** Without memory for the job a commit reports an unknown outcome although
    nothing was sent and the transaction is still open on the connection. *)
Lemma commit_without_memory o c :
  vms_txn_end false o false (Some c) = (Some c, TXN_UNKNOWN).
Proof. done. Qed.

(** A transaction is reported as valid by mistake when the question whether it
    is doomed could not be asked. *)
Lemma doomed_without_memory o c : vms_txn_doomed false o (Some c) = false.
Proof. done. Qed.

(** The one-shot statement of the transaction jobs: the text that is sent, or
    nothing when it does not convert into 512 units or there is no handle. *)
Definition txn_exec_utf8 `{Win32Text} (handle : bool) (sql : list Z) : option (list Z) :=
  w ← mb2wc sql; if (zlen w <? 512) && handle then Some w else None.

(** ** A connection is opened and closed as a whole *)

Lemma with_world_eta w : mkWorld (conns w) (stmts w) (registry w) (metas_lost w) (rows_lost w) (events w) = w.
Proof. by destruct w. Qed.

Lemma unlink_head c l : unlink c (c :: l) = l.
Proof. simpl. by rewrite decide_True. Qed.

Lemma unlink_absent c l : c ∉ l -> unlink c l = l.
Proof.
  induction l as [|n l IH]; [done|]. intros [Hn Hl]%not_elem_of_cons. simpl. rewrite decide_False by done. by rewrite IH.
Qed.

Lemma close_new_conn c w o :
  conns w !! c = None -> c ∉ registry w ->
  forall node, vms_conn_close (Some c) (connreg_add node c (emit (put_conn w c o) (EvConnect c))) = Ret (emit w (EvConnect c)).
Proof.
  intros Hc Hr node. unfold vms_conn_close, conn_unregister, conn_release, connreg_remove, conn_at.
  destruct node; cbn -[unlink]; rewrite ?lookup_insert_eq; cbn -[unlink]; rewrite ?lookup_insert_eq; cbn -[unlink];
    rewrite ?unlink_head, ?unlink_absent by done; unfold with_conns, put_conn, emit; cbn;
    rewrite insert_insert_eq, delete_insert_id; done.
Qed.


(** ** A statement is executed and destroyed as a whole *)

Section ExecSpec.
Context `{Win32Text}.

(** The names of all described columns convert into the buffer. *)
Definition names_fit (col : nat -> Diag + ColDesc) : Prop :=
  forall i d, col i = inr d -> no_fault (describe_name d).

Lemma describe_cols_fit col n i :
  names_fit col -> exists cs e, describe_cols n i col = Ret (cs, e) /\
    (e = None -> length cs = n) /\ (forall e', e = Some e' -> cls e' <> VMS_OK /\ exists j d, col j = inl d).
Proof.
  intros Hf. revert i. induction n as [|n IH]; intros i; cbn [describe_cols]; [by exists [], None|].
  destruct (col i) as [d|d] eqn:Ec.
  - exists [], (Some (diag_error d (str "SQLDescribeColW"))). split_and!; [done|done|].
    intros e' [= <-]. split; [apply diag_error_cls|by exists i, d].
  - destruct (Hf i d Ec) as [nm Hn]. unfold describe_col. rewrite Hn. cbn.
    destruct (IH (S i)) as (cs & e & -> & Hl & He). cbn.
    eexists (_ :: cs), e. split_and!; [done| |done]. intros E. simpl. by rewrite (Hl E).
Qed.

Lemma set_active_twice w c o h sql :
  conns w !! c = Some o -> exec_published w c h sql =
    Ret (emit (put_conn w c (set_active_stmt o None)) (EvExec h sql)).
Proof.
  intros Hc. unfold exec_published, vms_worker_set_active, conn_at. rewrite Hc. cbn. rewrite lookup_insert_eq. cbn.
  unfold put_conn, with_conns, emit. cbn. by rewrite insert_insert_eq.
Qed.

(** What a run of the execution job leaves: the statement was sent at most
    once, the connection may have been quarantined, nothing else moved. *)
Lemma job_exec_spec d c h sql w o :
  conns w !! c = Some o ->
  exists w' e ok, job_exec d c h sql w = Ret (w', e, ok) /\ stmts w' = stmts w /\ registry w' = registry w /\
    metas_lost w' = metas_lost w /\ rows_lost w' = rows_lost w /\ is_Some (conns w' !! c) /\
    (ok = true <-> co_quarantined o = false /\ d = None) /\ (ok = false -> cls e <> VMS_OK) /\
    events w' = events w ++ (if co_quarantined o then [] else [EvExec h sql]).
Proof.
  intros Hc. unfold job_exec, conn_at. rewrite Hc. cbn. destruct (co_quarantined o) eqn:Eq.
  { eexists _, _, false. split_and!; [reflexivity|done..|by rewrite Hc|by split; [|intros [??]]|done|by rewrite app_nil_r]. }
  rewrite (set_active_twice _ _ o) by done. cbn. destruct d as [d|].
  - destruct (diag_capture d (str "execute")) as [[cl q] e] eqn:Ed. unfold quarantine_if, conn_at.
    destruct q; cbn; rewrite ?lookup_insert_eq; cbn; eexists _, _, false;
      (split_and!; [reflexivity|done|done|done|done|cbn; by rewrite lookup_insert_eq|by split; [|intros [??]]|
        intros _; by eapply diag_capture_cls|done]).
  - eexists _, _, true. split_and!; [reflexivity|done|done|done|done|cbn; by rewrite lookup_insert_eq|done|done|done].
Qed.

Lemma job_meta_spec a h w s :
  stmts w !! h = Some s -> so_meta s = None -> so_row s = false -> names_fit (ma_col a) ->
  exists w' e ok s', job_meta a h w = Ret (w', e, ok) /\ w' = put_stmt w h s' /\
    so_conn s' = so_conn s /\ so_row s' = false /\ (ok = true -> e = err_zero /\ forall n, ma_count a = inr n ->
        so_cols s' = n /\ (0 < n -> exists cs, so_meta s' = Some cs /\ zlen cs = n)) /\
    (ok = false -> cls e <> VMS_OK) /\
    (ok = false -> so_meta s' <> None -> exists i d, ma_col a i = inl d).
Proof.
  intros Hs Hm Hr Hf. unfold job_meta, stmt_at. rewrite Hs. cbn.
  destruct (ma_count a) as [d|n].
  { exists w, (diag_error d (str "SQLNumResultCols")), false, s. split_and!; try done; [|intros _; apply diag_error_cls].
    unfold put_stmt, with_stmts. rewrite insert_id by done. by rewrite with_world_eta. }
  destruct (n >? 0) eqn:En; [|eexists _, _, true, _; split_and!; try done; intros _; split; [done|]; intros m [= <-]; split; [done|blia]].
  destruct (ma_alloc a); cbn [negb]; [|eexists _, _, false, _; by split_and!].
  destruct (describe_cols_fit (ma_col a) (Z.to_nat n) 1 Hf) as (cs & e & Hd & Hl & He). rewrite Hd. cbn.
  destruct e as [e|].
  - destruct (He e eq_refl). eexists _, _, false, _. by split_and!.
  - eexists _, _, true, _. split_and!; try done. intros _. split; [done|]. intros m [= <-]. split; [done|].
    intros Hn. exists cs. split; [done|]. unfold zlen. rewrite (Hl eq_refl). lia.
Qed.

Lemma stmt_free_spec w h s b :
  stmts w !! h = Some s ->
  stmt_free w h b = Ret (mkWorld (conns w) (delete h (stmts w)) (registry w)
    (metas_lost w + (if b then 0 else length (option_list (so_meta s)))) (rows_lost w + if so_row s then 1 else 0) (events w)).
Proof. intros Hs. unfold stmt_free, stmt_at. rewrite Hs. done. Qed.

(** [C13]: executing a statement on a live connection, when the worker has
    memory to run its jobs and the column names fit, always returns.  Either
    it reports an error and the statement is gone, or it hands out the
    statement: then the connection was not quarantined, the text was sent
    exactly once, the columns are those the driver counted, and destroying
    the statement leaves no statement, no column block and no row block
    behind.  A failed call loses the block of column descriptions when the
    driver refused to describe a column, and nothing otherwise. *)
Theorem stmt_exec_destroy a c sql h w o :
  conns w !! c = Some o -> stmts w !! h = None -> ea_job1 a = true -> ea_job2 a = true ->
  names_fit (ma_col (ea_meta a)) ->
  exists w' r e, vms_stmt_exec_direct a (Some c) (Some sql) h w = Ret (w', r, e) /\
    match r with
    | None => cls e <> VMS_OK /\ stmts w' = stmts w /\ rows_lost w' = rows_lost w /\
        (metas_lost w' = metas_lost w \/
         metas_lost w' = S (metas_lost w) /\ exists i d, ma_col (ea_meta a) i = inl d)
    | Some h' => h' = h /\ e = err_zero /\ co_quarantined o = false /\ events w' = events w ++ [EvExec h sql] /\
        (forall n, ma_count (ea_meta a) = inr n -> 0 < n ->
           exists s cs, stmts w' !! h = Some s /\ so_cols s = n /\ so_meta s = Some cs /\ zlen cs = n) /\
        exists w'', vms_stmt_destroy (Some h) w' = Ret w'' /\ stmts w'' = stmts w /\
          metas_lost w'' = metas_lost w /\ rows_lost w'' = rows_lost w
    end.
Proof.
  intros Hc Hh Hj1 Hj2 Hf. unfold vms_stmt_exec_direct, stmt_alloc. rewrite Hj1, Hj2.
  destruct (ea_block a && ea_handle a); [|eexists _, None, _; split; [done|]; split_and!; by try left].
  set (w1 := put_stmt w h (mkStmtObj c 0 None false false)).
  assert (Hs1 : stmts w1 !! h = Some (mkStmtObj c 0 None false false)) by (cbn; by rewrite lookup_insert_eq).
  destruct (job_exec_spec (ea_exec a) c h sql w1 o Hc) as (w2 & e & ok & -> & Hs & _ & Hm & Hr & _ & Hok & He & Hev).
  cbn [mbind cres_bind]. destruct ok; cbn [negb].
  - destruct (proj1 Hok eq_refl) as [Hq _]. rewrite Hq in Hev.
    destruct (job_meta_spec (ea_meta a) h w2 (mkStmtObj c 0 None false false)) as
      (w3 & e2 & ok2 & s' & -> & -> & Hsc & Hsr & Hk & He2 & Hl); [by rewrite Hs|done|done|done|].
    cbn [mbind cres_bind]. destruct ok2; cbn [negb].
    + destruct (Hk eq_refl) as [-> Hn]. eexists _, (Some h), err_zero. split; [done|]. split_and!; [done..|exact Hev| |].
      * intros n En Hpos. destruct (Hn n En) as [Hcol Hcs]. destruct (Hcs Hpos) as (cs & Hcs' & Hlen).
        exists s', cs. cbn. by rewrite lookup_insert_eq.
      * cbn [vms_stmt_destroy]. rewrite (stmt_free_spec _ h s' true) by (cbn; by rewrite lookup_insert_eq).
        eexists. split; [done|]. cbn. rewrite Hsr, Hs. cbn. rewrite insert_insert_eq, delete_insert_id by done.
        split_and!; [done|rewrite Hm|rewrite Hr]; cbn; lia.
    + rewrite (stmt_free_spec _ h s' false) by (cbn; by rewrite lookup_insert_eq). cbn [mbind cres_bind].
      eexists _, None, e2. split; [done|]. cbn. rewrite Hsr, Hs, Hm, Hr. cbn. rewrite insert_insert_eq, delete_insert_id by done.
      split_and!; [by apply He2|done|lia|]. destruct (so_meta s') eqn:Em; cbn; [right; split; [lia|by apply Hl]|left; lia].
  - rewrite (stmt_free_spec _ h (mkStmtObj c 0 None false false) false) by (by rewrite Hs).
    cbn [mbind cres_bind]. eexists _, None, e. split; [done|]. cbn. rewrite Hs, Hm, Hr. cbn.
    rewrite delete_insert_id by done. split_and!; [by apply He|done|lia|left; lia].
Qed.
End ExecSpec.

(** Without memory for the worker's first job the result that is read is
    whatever the stack held: a statement that was never sent can be handed out
    as a success. *)
Lemma exec_without_memory `{Win32Text} c sql h w e d m :
  exists w', vms_stmt_exec_direct (mkExecAnswers true true false true e false true (mkMetaAnswers d m (fun _ => inl (mkDiag [] 0 []))))
               (Some c) (Some sql) h w = Ret (w', Some h, err_zero) /\ events w' = events w.
Proof. eexists. by split. Qed.

(** A statement that has been fetched from loses its row block. *)
Lemma destroy_loses_row w h s :
  stmts w !! h = Some s -> so_row s = true ->
  exists w', vms_stmt_destroy (Some h) w = Ret w' /\ rows_lost w' = S (rows_lost w).
Proof. intros Hs Hr. eexists. cbn. split; [by apply stmt_free_spec|]. cbn. rewrite Hr. lia. Qed.

(** ** Quarantine *)

(** The operations a caller makes on a connection, other than opening and
    closing, each with the answers it meets. *)
Inductive conn_op : Type :=
| OpExec (a : ExecAnswers) (sql : list Z) (h : hid)
| OpMore (a : more_answer) (h : hid)
| OpDestroy (h : hid)
| OpVerify (job : bool) (a : VerifyAnswers) (h : hid)
| OpTranBegin (job : bool) (d : option Diag)
| OpTranEnd (job rollback : bool) (d : option Diag)
| OpTimeout (job ok : bool) (seconds : Z)
| OpArm (alloc thread : bool) (ms : Z)
| OpDeadline.

Definition run_op `{Win32Text} (op : conn_op) (c : cid) (w : World) : cres World :=
  match op with
  | OpExec a sql h => '(w, _, _) ← vms_stmt_exec_direct a (Some c) (Some sql) h w; Ret w
  | OpMore a h => '(w, _, _) ← job_more a h w; Ret w
  | OpDestroy h => vms_stmt_destroy (Some h) w
  | OpVerify job a h => '(w, _) ← vms_conn_verify job a (Some c) h w; Ret w
  | OpTranBegin job d => let '(w, _, _) := vms_tran_begin job d (Some c) w in Ret w
  | OpTranEnd job rollback d => '(w, _, _) ← vms_tran_end job rollback d (Some c) w; Ret w
  | OpTimeout job ok seconds => '(w, _) ← vms_conn_set_query_timeout job ok (Some c) seconds w; Ret w
  | OpArm alloc thread ms => '(w, _) ← vms_conn_arm_deadline alloc thread (Some c) ms w; Ret w
  | OpDeadline => deadline_watch c w
  end.

Definition is_quarantined (w : World) (c : cid) : Prop :=
  exists o, conns w !! c = Some o /\ co_quarantined o = true.

(** A world in which every quarantined connection of [w] still is one. *)
Definition keeps (w w' : World) : Prop := forall c, is_quarantined w c -> is_quarantined w' c.

#[global] Instance keeps_preorder : PreOrder keeps.
Proof. split; [by intros w c|]. intros w1 w2 w3 H1 H2 c Hc. by apply H2, H1. Qed.

Lemma keeps_same w w' : conns w' = conns w -> keeps w w'.
Proof. intros E c. unfold is_quarantined. by rewrite E. Qed.

(** Storing an object that is at least as quarantined. *)
Lemma keeps_put w c o o' :
  conns w !! c = Some o -> (co_quarantined o = true -> co_quarantined o' = true) -> keeps w (put_conn w c o').
Proof.
  intros Hc Hq k (ok & Hk & Hkq). unfold is_quarantined. cbn. destruct (decide (k = c)) as [->|Hn].
  - rewrite lookup_insert_eq. exists o'. split; [done|]. apply Hq. congruence.
  - rewrite lookup_insert_ne by done. by exists ok.
Qed.

#[export] Hint Resolve keeps_same keeps_put : vms_conn.

Lemma conn_at_ret w c o : conn_at w c = Ret o -> conns w !! c = Some o.
Proof. unfold conn_at. destruct (conns w !! c); [|done]. by intros [= ->]. Qed.

Lemma stmt_at_ret w h s : stmt_at w h = Ret s -> stmts w !! h = Some s.
Proof. unfold stmt_at. destruct (stmts w !! h); [|done]. by intros [= ->]. Qed.

#[export] Hint Resolve conn_at_ret stmt_at_ret : vms_conn.

Lemma quarantine_if_keeps q w c w' : quarantine_if q w c = Ret w' -> keeps w w'.
Proof. unfold quarantine_if. intros H. inv_ret; [|reflexivity]. eapply keeps_put; [eauto with vms_conn|done]. Qed.

Lemma set_active_keeps w c h w' : vms_worker_set_active w c h = Ret w' -> keeps w w'.
Proof. unfold vms_worker_set_active. intros H. inv_ret. eapply keeps_put; [eauto with vms_conn|done]. Qed.

Lemma exec_published_keeps w c h sql w' : exec_published w c h sql = Ret w' -> keeps w w'.
Proof.
  unfold exec_published. intros H. inv_ret. apply set_active_keeps in H, H0. etransitivity; [exact H0|].
  etransitivity; [|exact H]. by apply keeps_same.
Qed.

Lemma job_exec_keeps d c h sql w w' e ok : job_exec d c h sql w = Ret (w', e, ok) -> keeps w w'.
Proof.
  unfold job_exec. intros H. inv_ret; try reflexivity;
    repeat match goal with H : exec_published _ _ _ _ = _ |- _ => apply exec_published_keeps in H
                         | H : quarantine_if _ _ _ = _ |- _ => apply quarantine_if_keeps in H end;
    [by etransitivity|done].
Qed.

Lemma stmt_free_keeps w h b w' : stmt_free w h b = Ret w' -> keeps w w'.
Proof. unfold stmt_free. intros H. inv_ret. by apply keeps_same. Qed.

Lemma job_meta_keeps `{Win32Text} a h w w' e ok : job_meta a h w = Ret (w', e, ok) -> keeps w w'.
Proof. unfold job_meta. intros H1. inv_ret; try (by apply keeps_same); by destruct_and?; simplify_eq. Qed.

Lemma exec_direct_keeps `{Win32Text} a c sql h w w' r e :
  vms_stmt_exec_direct a (Some c) (Some sql) h w = Ret (w', r, e) -> keeps w w'.
Proof.
  unfold vms_stmt_exec_direct. destruct (stmt_alloc _ _ c h w) as [w1|] eqn:Ea; [|intros [= <- _ _]; reflexivity].
  intros H1. trans w1; [unfold stmt_alloc in Ea; destruct (_ && _); [injection Ea as <-; by apply keeps_same|done]|]. clear Ea.
  apply bind_ret_inv in H1 as ([[w2 e2] ok] & Hx & H1). trans w2.
  { destruct (ea_job1 a); [by eapply job_exec_keeps|]. injection Hx as <- _ _. reflexivity. }
  destruct ok; cbn [negb] in H1; [|inv_ret; by eapply stmt_free_keeps].
  apply bind_ret_inv in H1 as ([[w3 e3] ok] & Hy & H1). trans w3.
  { destruct (ea_job2 a); [by eapply job_meta_keeps|]. injection Hy as <- _ _. reflexivity. }
  destruct ok; cbn [negb] in H1; [injection H1 as <- _ _; reflexivity|]. inv_ret; by eapply stmt_free_keeps.
Qed.

(** Close a goal of [keeps] for an operation that stores one object. *)
Ltac keeps_one := inv_ret; first [reflexivity | by apply keeps_same | (eapply keeps_put; [eauto with vms_conn|done])].

Lemma run_op_keeps `{Win32Text} op c w w' : run_op op c w = Ret w' -> keeps w w'.
Proof.
  intros H1. destruct op; cbn [run_op] in H1.
  - apply bind_ret_inv in H1 as ([[w1 r] e] & Hx & [= <-]). by eapply exec_direct_keeps.
  - unfold job_more in H1. inv_ret; try (by apply keeps_same).
    match goal with Hq : quarantine_if _ _ _ = _ |- _ => apply quarantine_if_keeps in Hq; etransitivity; [|exact Hq] end.
    by apply keeps_same.
  - by eapply stmt_free_keeps.
  - unfold vms_conn_verify, job_verify in H1. keeps_one.
  - unfold vms_tran_begin in H1. repeat case_match; simplify_eq/=; first [reflexivity|by apply keeps_same].
  - unfold vms_tran_end in H1. inv_ret; try (by apply keeps_same); try reflexivity.
    match goal with Hq : quarantine_if _ _ _ = _ |- _ => apply quarantine_if_keeps in Hq; etransitivity; [|exact Hq] end.
    by apply keeps_same.
  - unfold vms_conn_set_query_timeout in H1. keeps_one.
  - unfold vms_conn_arm_deadline in H1. keeps_one.
  - unfold deadline_watch, vms_worker_cancel_active in H1. inv_ret.
    match goal with |- keeps _ (put_conn ?w1 _ _) => trans w1; [by case_match; apply keeps_same|] end.
    eapply keeps_put; [case_match; cbn; eauto with vms_conn|done].
Qed.


(** Verification accepts exactly the connections that are not quarantined,
    have no open transaction and answer the trivial query. *)
Lemma verify_exact a c h w o :
  conns w !! c = Some o ->
  (exists w', vms_conn_verify true a (Some c) h w = Ret (w', true)) <->
  co_quarantined o = false /\ va_handle a = true /\ va_trancount a = Some 0 /\ va_select a = true.
Proof.
  intros Hc. unfold vms_conn_verify, job_verify, conn_at. rewrite Hc. cbn.
  destruct (co_quarantined o); [split; [by intros [? ?]|by intros [? _]]|].
  destruct (va_handle a); cbn; [|split; [by intros [? ?]|by intros (_ & ? & _)]].
  destruct (va_trancount a) as [[|p|p]|]; [|split; [by intros [? ?]|by intros (_ & _ & ? & _)]..].
  split; [intros [w' [= _ ->]]; done|]. intros (_ & _ & _ & ->). by eexists.
Qed.

(** ** Cancellation from other threads *)

(** The world, the handles that cancelling threads have read and not yet used,
    and the connections that started watchers hold a pointer to. *)
Record Sys := mkSys { sys : World; pending : list hid; watchers : list cid }.

(** The steps that other threads can interleave with.  A new connection is
    not visible before it is registered, and a connection in use belongs to
    one thread, which closes it; a statement is freed when its connection's
    worker is idle. *)
Inductive conn_step : Sys -> Sys -> Prop :=
| cs_open s a client connstr c w' r e :
    conns (sys s) !! c = None -> vms_conn_open a client connstr c (sys s) = (w', r, e) ->
    conn_step s (mkSys w' (pending s) (watchers s))
| cs_unregister s c o w' :
    conns (sys s) !! c = Some o -> co_closing o = false -> conn_unregister c (sys s) = Ret w' ->
    conn_step s (mkSys w' (pending s) (watchers s))
| cs_release s c o w' :
    conns (sys s) !! c = Some o -> co_closing o = true -> conn_release c (sys s) = Ret w' ->
    conn_step s (mkSys w' (pending s) (watchers s))
| cs_alloc s c h w' :
    stmts (sys s) !! h = None -> stmt_alloc true true c h (sys s) = Some w' ->
    conn_step s (mkSys w' (pending s) (watchers s))
| cs_publish s c h st w' :
    stmts (sys s) !! h = Some st -> so_conn st = c -> vms_worker_set_active (sys s) c (Some h) = Ret w' ->
    conn_step s (mkSys w' (pending s) (watchers s))
| cs_unpublish s c w' :
    vms_worker_set_active (sys s) c None = Ret w' -> conn_step s (mkSys w' (pending s) (watchers s))
| cs_free s h st w' b :
    stmts (sys s) !! h = Some st -> (forall o, conns (sys s) !! so_conn st = Some o -> co_active o = None) ->
    stmt_free (sys s) h b = Ret w' -> conn_step s (mkSys w' (pending s) (watchers s))
| cs_arm s c ms w' :
    vms_conn_arm_deadline true true (Some c) ms (sys s) = Ret (w', true) ->
    conn_step s (mkSys w' (pending s) (c :: watchers s))
| cs_fire s c ws w' :
    watchers s ≡ₚ c :: ws -> deadline_watch c (sys s) = Ret w' -> conn_step s (mkSys w' (pending s) ws)
| cs_cancel_read s hs n :
    cancel_nodes (sys s) (registry (sys s)) = Ret (hs, n) -> conn_step s (mkSys (sys s) (hs ++ pending s) (watchers s))
| cs_cancel_call s h hs :
    pending s ≡ₚ h :: hs -> is_Some (stmts (sys s) !! h) -> conn_step s (mkSys (emit (sys s) (EvCancel h)) hs (watchers s)).

Definition sys_start : Sys := mkSys (mkWorld ∅ ∅ [] 0 0 []) [] [].

Record reg_inv (w : World) : Prop := mkRegInv {
  ri_nodup : NoDup (registry w);
  ri_live : forall c, c ∈ registry w -> exists o, conns w !! c = Some o /\ co_closing o = false;
  ri_active : forall c o h, conns w !! c = Some o -> co_active o = Some h ->
    exists st, stmts w !! h = Some st /\ so_conn st = c
}.

(** Events are not part of the invariant. *)
Lemma reg_inv_events w e : reg_inv w -> reg_inv (emit w e).
Proof. by intros []. Qed.

(** Storing an object for a live connection: its mark of closing does not
    change, and what it publishes is a statement of its own. *)
Lemma reg_inv_put w c o o' :
  reg_inv w -> conns w !! c = Some o -> co_closing o' = co_closing o ->
  (forall h, co_active o' = Some h -> exists st, stmts w !! h = Some st /\ so_conn st = c) ->
  reg_inv (put_conn w c o').
Proof.
  intros [Hn Hl Ha] Hc Hcl Hact. constructor; cbn; [done| |].
  - intros k Hk. destruct (Hl k Hk) as (ok & Hok & Hcok). destruct (decide (k = c)) as [->|Hne].
    + exists o'. rewrite lookup_insert_eq. split; [done|]. congruence.
    + exists ok. by rewrite lookup_insert_ne.
  - intros k ok h. destruct (decide (k = c)) as [->|Hne].
    + rewrite lookup_insert_eq. intros [= <-]. apply Hact.
    + rewrite lookup_insert_ne by done. apply Ha.
Qed.

Lemma reg_inv_put_same w c o o' :
  reg_inv w -> conns w !! c = Some o -> co_closing o' = co_closing o -> co_active o' = co_active o ->
  reg_inv (put_conn w c o').
Proof. intros Hi Hc Hcl Ha. eapply reg_inv_put; [done..|]. rewrite Ha. intros h Hh. by eapply ri_active. Qed.

Lemma elem_of_unlink c k l : NoDup l -> k ∈ unlink c l <-> k ∈ l /\ k <> c.
Proof.
  induction 1 as [|n l Hn Hd IH]; cbn; [set_solver|]. case_decide; [subst; set_solver|]. rewrite !elem_of_cons, IH. set_solver.
Qed.

Lemma unlink_nodup c l : NoDup l -> NoDup (unlink c l).
Proof.
  induction 1 as [|n l Hn Hd IH]; cbn; [constructor|]. case_decide; [done|]. constructor; [|done].
  by intros [? _]%elem_of_unlink.
Qed.

Lemma reg_inv_open w a client connstr c w' r e :
  reg_inv w -> conns w !! c = None -> vms_conn_open a client connstr c w = (w', r, e) -> reg_inv w'.
Proof.
  intros Hw Hc H. pose proof Hw as [Hn Hl Ha]. assert (Hr : c ∉ registry w).
  { intros Hin. destruct (Hl c Hin) as (o & Ho & _). congruence. }
  assert (Hput : forall o, co_closing o = false -> co_active o = None -> reg_inv (put_conn w c o)).
  { intros o Ho1 Ho2. constructor; cbn; [done| |].
    - intros k Hk. destruct (Hl k Hk) as (ok & Hok & ?). exists ok.
      rewrite lookup_insert_ne by (intros ->; congruence). done.
    - intros k ok h. destruct (decide (k = c)) as [->|Hne]; [rewrite lookup_insert_eq; intros [= <-]; by rewrite Ho2|].
      rewrite lookup_insert_ne by done. apply Ha. }
  assert (Hadd : forall o ev, co_closing o = false -> co_active o = None ->
                 reg_inv (connreg_add (oa_node a) c (emit (put_conn w c o) ev))).
  { intros o ev Ho1 Ho2. pose proof (Hput o Ho1 Ho2) as Hi. unfold connreg_add.
    destruct (oa_node a); [|by apply reg_inv_events]. destruct Hi as [Hn' Hl' Ha']. constructor; cbn in *; [by constructor| |done].
    intros k [->|Hk]%elem_of_cons; [|by apply Hl']. exists o. by rewrite lookup_insert_eq. }
  unfold vms_conn_open in H. repeat case_match; simplify_eq; first [assumption|by apply Hadd].
Qed.

Lemma reg_inv_unregister w c w' : reg_inv w -> conn_unregister c w = Ret w' -> reg_inv w'.
Proof.
  intros [Hn Hl Ha] H. unfold conn_unregister in H. inv_ret. apply conn_at_ret in H0. constructor; cbn.
  - by apply unlink_nodup.
  - intros k [Hk Hne]%elem_of_unlink; [|done]. destruct (Hl k Hk) as (o & Ho & ?). exists o.
    by rewrite lookup_insert_ne.
  - intros k o h. destruct (decide (k = c)) as [->|Hne].
    + rewrite lookup_insert_eq. intros [= <-]. cbn. by apply Ha.
    + rewrite lookup_insert_ne by done. apply Ha.
Qed.

Lemma reg_inv_release w c o w' :
  reg_inv w -> conns w !! c = Some o -> co_closing o = true -> conn_release c w = Ret w' -> reg_inv w'.
Proof.
  intros [Hn Hl Ha] Hc Hcl H. unfold conn_release in H. inv_ret. constructor; cbn; [done| |].
  - intros k Hk. destruct (Hl k Hk) as (ok & Hok & ?). exists ok. rewrite lookup_delete_ne; [done|]. intros ->. congruence.
  - intros k ok h [Hne Hk]%lookup_delete_Some. by apply Ha.
Qed.

Lemma reg_inv_stmts w c h : reg_inv w -> stmts w !! h = None -> reg_inv (put_stmt w h (mkStmtObj c 0 None false false)).
Proof.
  intros [Hn Hl Ha] Hh. constructor; cbn; [done..|]. intros k o h' Hk Hact.
  destruct (Ha k o h' Hk Hact) as (st & Hst & ?). exists st. rewrite lookup_insert_ne by congruence. done.
Qed.

Lemma reg_inv_free w h st b w' :
  reg_inv w -> stmts w !! h = Some st -> (forall o, conns w !! so_conn st = Some o -> co_active o = None) ->
  stmt_free w h b = Ret w' -> reg_inv w'.
Proof.
  intros [Hn Hl Ha] Hh Hidle H. rewrite (stmt_free_spec w h st) in H by done. injection H as <-.
  constructor; cbn; [done..|]. intros k o h' Hk Hact. destruct (Ha k o h' Hk Hact) as (st' & Hst & <-).
  exists st'. rewrite lookup_delete_ne; [done|]. intros ->. assert (st' = st) as -> by congruence.
  rewrite (Hidle o Hk) in Hact. done.
Qed.

Lemma conn_step_inv s s' : reg_inv (sys s) -> conn_step s s' -> reg_inv (sys s').
Proof.
  intros Hi Hst. destruct Hst as [s a cl cs c w' r e Hc H|s c o w' Hc Ho H|s c o w' Hc Ho H|s c h w' Hh H|
    s c h st w' Hh Hcn H|s c w' H|s h st w' b Hh Hid H|s c ms w' H|s c ws w' Hw H|s hs n H|s h hs Hp Hh]; cbn.
  - by eapply reg_inv_open.
  - by eapply reg_inv_unregister.
  - by eapply reg_inv_release.
  - injection H as <-. by apply reg_inv_stmts.
  - unfold vms_worker_set_active in H. inv_ret. eapply reg_inv_put; [done|eauto with vms_conn|done|].
    cbn. intros h' [= <-]. by exists st.
  - unfold vms_worker_set_active in H. inv_ret. by eapply reg_inv_put; [|eauto with vms_conn| |].
  - by eapply reg_inv_free.
  - unfold vms_conn_arm_deadline in H. inv_ret; try done. by eapply reg_inv_put_same; [|eauto with vms_conn| |].
  - unfold deadline_watch, vms_worker_cancel_active in H. inv_ret.
    eapply reg_inv_put_same; [by case_match; [apply reg_inv_events|]|case_match; cbn; eauto with vms_conn|done|done].
  - done.
  - by apply reg_inv_events.
Qed.

Lemma conn_reach_inv s : rtc conn_step sys_start s -> reg_inv (sys s).
Proof.
  apply (rtc_ind_r (fun s => reg_inv (sys s))); [|intros; by eapply conn_step_inv].
  constructor; cbn; [constructor| |]; [by intros c Hc%not_elem_of_nil|]. intros c o h Hc. by rewrite lookup_empty in Hc.
Qed.

Lemma cancel_nodes_spec w l :
  (forall c, c ∈ l -> is_Some (conns w !! c)) ->
  exists hs, cancel_nodes w l = Ret (hs, zlen l) /\
    (forall h, h ∈ hs <-> exists c o, c ∈ l /\ conns w !! c = Some o /\ co_active o = Some h).
Proof.
  induction l as [|c l IH]; intros Hl; cbn [cancel_nodes].
  { exists []. split; [done|]. intros h. split; [by intros ?%not_elem_of_nil|]. by intros (c & _ & ?%not_elem_of_nil & _). }
  destruct (Hl c) as [o Ho]; [by left|]. unfold vms_worker_cancel_active, conn_at. rewrite Ho. cbn.
  destruct IH as (hs & -> & Hhs); [intros k Hk; apply Hl; by right|]. cbn.
  exists (option_list (co_active o) ++ hs). rewrite zlen_cons. split; [done|]. intros h. rewrite elem_of_app, Hhs. split.
  - intros [Hin|(k & ok & Hk & ?)]; [|exists k, ok; split; [by right|done]].
    exists c, o. split_and!; [by left|done|]. destruct (co_active o); cbn in Hin; [|by apply not_elem_of_nil in Hin].
    by apply list_elem_of_singleton in Hin as ->.
  - intros (k & ok & [->|Hk]%elem_of_cons & Hok & Hact); [left|right; by exists k, ok].
    simplify_eq. rewrite Hact. by left.
Qed.

(** [C12]: cancelling all connections is safe against the threads that open
    and close them.  In every reachable state the walk over the registry
    meets only connections that exist and are not being closed, counts each
    registered connection once, and reads exactly the statements those
    connections have published, each of which is still allocated. *)
Theorem cancel_all_safe s :
  rtc conn_step sys_start s ->
  NoDup (registry (sys s)) /\
  exists hs, vms_client_cancel_all (sys s) =
      Ret (mkWorld (conns (sys s)) (stmts (sys s)) (registry (sys s)) (metas_lost (sys s)) (rows_lost (sys s))
             (events (sys s) ++ (EvCancel <$> hs)), zlen (registry (sys s))) /\
    (forall h, h ∈ hs <-> exists c o, c ∈ registry (sys s) /\ conns (sys s) !! c = Some o /\ co_active o = Some h) /\
    (forall h, h ∈ hs -> is_Some (stmts (sys s) !! h)).
Proof.
  intros Hr. destruct (conn_reach_inv s Hr) as [Hn Hl Ha]. split; [done|].
  destruct (cancel_nodes_spec (sys s) (registry (sys s))) as (hs & Hc & Hhs).
  { intros c Hc. destruct (Hl c Hc) as (o & Ho & _). by exists o. }
  exists hs. unfold vms_client_cancel_all. rewrite Hc. cbn. split_and!; [done|done|].
  intros h (c & o & _ & Ho & Hact)%Hhs. destruct (Ha c o h Ho Hact) as (st & Hst & _). by exists st.
Qed.

(** ** Examples *)

Definition all_ok : OpenAnswers := mkOpenAnswers true true true true None true true.

Definition opened : World := fst (fst (vms_conn_open all_ok true (Some (str "DSN=x")) 1%nat (sys sys_start))).

(** One step of a concrete run. *)
Ltac crun := eapply rtc_l; [|cbn].

Lemma opened_reached : rtc conn_step sys_start (mkSys opened [] []).
Proof. crun; [by eapply (cs_open _ all_ok true (Some (str "DSN=x")) 1%nat)|]. apply rtc_refl. Qed.

(** A watcher holds a pointer to its connection and nothing waits for it: when
    the connection is closed before the deadline, the watcher reads released
    memory. *)
Lemma deadline_use_after_free :
  exists s c, rtc conn_step sys_start s /\ c ∈ watchers s /\ deadline_watch c (sys s) = Fault UseAfterFree.
Proof.
  eexists (mkSys _ [] [1%nat]), 1%nat. split; [|split; [by left|]].
  - etransitivity; [apply opened_reached|].
    crun; [by apply (cs_arm _ 1%nat 5)|]. crun; [by eapply (cs_unregister _ 1%nat)|].
    crun; [by eapply (cs_release _ 1%nat)|]. apply rtc_refl.
  - reflexivity.
Qed.

(** Between reading the published handle and cancelling it, the statement can
    be freed. *)
Lemma cancel_reads_stale :
  exists s h, rtc conn_step sys_start s /\ h ∈ pending s /\ stmts (sys s) !! h = None.
Proof.
  eexists (mkSys _ [9%nat] []), 9%nat. split; [|split; [by left|]].
  - etransitivity; [apply opened_reached|].
    crun; [by apply (cs_alloc _ 1%nat 9%nat)|]. crun; [by eapply (cs_publish _ 1%nat 9%nat)|].
    crun; [by eapply cs_cancel_read|]. crun; [by eapply (cs_unpublish _ 1%nat)|].
    crun; [eapply (cs_free _ 9%nat _ _ true); [done| |done]; by intros o [= <-]|]. apply rtc_refl.
  - reflexivity.
Qed.


Definition one_column : MetaAnswers :=
  mkMetaAnswers (inr 1) true (fun _ => inr (mkColDesc (str "id") 2 4 10 0 0)).

Definition exec_ok : ExecAnswers := mkExecAnswers true true true false None true false one_column.

Lemma stmt_exec_destroy_witness :
  exists w' r e, @vms_stmt_exec_direct same_text exec_ok (Some 1%nat) (Some (str "SELECT id FROM t")) 9%nat opened = Ret (w', r, e).
Proof.
  destruct (@stmt_exec_destroy same_text exec_ok 1%nat (str "SELECT id FROM t") 9%nat opened (new_conn (Some (str "DSN=x"))))
    as (w' & r & e & H & _); [reflexivity|reflexivity|reflexivity|reflexivity| |exists w', r, e; exact H].
  intros i d [= <-]. exists (str "id"). vm_compute. reflexivity.
Defined.

Lemma cancel_all_safe_witness : NoDup (registry opened).
Proof. apply (cancel_all_safe (mkSys opened [] []) opened_reached). Defined.

(** A connection that a transport error has marked. *)
Definition marked : World := put_conn opened 1%nat (set_quarantined (new_conn None)).

