(* ===== verification/DmlExec.v ===== *)
(** * Execution of a statement with parameters (src/src/vms_odbc_adapter.c,
      [job_dml] and [vms_conn_exec_dml])

    The holders of the parameter values, the deferred binding in statement
    order, the execution and the clean-up on every path.  The driver keeps
    the addresses of the holders and reads them when the statement runs, so
    the bindings are addresses and the values are read at the execution. *)

From S2P Require Import Prelude Client Txn Adapter.

(** ** Arguments and answers *)

(** [tlengths] is NULL when [None]; a text parameter is the memory the caller
    points to. *)
Record OpDml := mkOpDml {
  iparams : list Z;
  tparams : list (list Z);
  tlengths : option (list Z);
  torder : list Z
}.

Definition nint (op : OpDml) : Z := zlen (iparams op).
Definition ntext (op : OpDml) : Z := zlen (tparams op).
Definition ntotal (op : OpDml) : Z := zlen (torder op).

Record DmlAnswers := mkDmlAnswers {
  da_handle : bool;
  da_ival : bool;
  da_inds : bool;
  da_tarr : bool;
  da_text : nat -> bool;              (* memory for the text holder [i] *)
  da_bind : nat -> option Diag;       (* SQLBindParameter for the parameter [i] *)
  da_exec : option Diag;
  da_rows : option Z                  (* SQLRowCount *)
}.

(** A slot of the array of text holders, which is not zeroed. *)
Inductive tslot : Type :=
| TUninit
| TNull
| THeld (t : list Z).                 (* with the terminator *)

(** What the driver remembers of a bound parameter. *)
Inductive binding : Type :=
| PInt (t : nat)                      (* &ival_holders[t] *)
| PEmpty                              (* an empty literal, bound as NULL *)
| PText (ti : nat).                   (* tval_holders[ti] *)

(** The value the server receives. *)
Inductive bound : Type :=
| BInt (v : Z)
| BNull
| BText (t : list Z)
| BLength (ind : Z).                  (* another length indicator *)

Definition SQL_NULL_DATA : Z := -1.

(** Reading the element [i] of an array. *)
Definition array_read {A} (l : list A) (i : Z) : cres A :=
  if i <? 0 then Fault OobRead else match l !! Z.to_nat i with Some x => Ret x | None => Fault OobRead end.

Definition array_write {A} (l : list A) (i : Z) (x : A) : cres (list A) :=
  if (i <? 0) || (i >=? zlen l) then Fault OobWrite else Ret (<[Z.to_nat i := x]> l).

(** ** The holders *)

(** The characters of the text parameter [i], clamped at 0. *)
Definition text_chars (op : OpDml) (i : Z) : cres Z :=
  match tlengths op with
  | None => Ret 0
  | Some ls => n ← array_read ls i; Ret (Z.max n 0)
  end.

(** [memcpy] of [n] units and the terminator. *)
Definition copy_text (t : list Z) (n : Z) : cres (list Z) :=
  if n <=? zlen t then Ret (take (Z.to_nat n) t ++ [0]) else Fault OobRead.

(** The loop that fills the holders from the parameter [i]: the array, and
    whether every allocation succeeded.  The slots behind the failed one were
    never written. *)
Fixpoint fill_texts (a : DmlAnswers) (op : OpDml) (i : nat) (ts : list (list Z)) : cres (list tslot * bool) :=
  match ts with
  | [] => Ret ([], true)
  | t :: ts' =>
      n ← text_chars op (Z.of_nat i);
      if negb (da_text a i) then Ret (TNull :: replicate (length ts') TUninit, false)
      else
        h ← copy_text t n;
        '(hs, ok) ← fill_texts a op (S i) ts';
        Ret (THeld h :: hs, ok)
  end.

(** The three blocks; [None] for a NULL pointer. *)
Record Holders := mkHolders {
  h_ival : option (list Z);
  h_inds : option (list Z);
  h_text : option (list tslot)
}.

(** Allocation: the holders, and whether it went through.  The block for the
    integers is not zeroed; a value read there before it is written is not
    modelled, the binding loop writes each slot before its address is used. *)
Definition alloc_holders (a : DmlAnswers) (op : OpDml) : cres (Holders * bool) :=
  let some_param := (nint op >? 0) || (ntext op >? 0) in
  let h := mkHolders None None None in
  if some_param && (nint op >? 0) && negb (da_ival a) then Ret (h, false)
  else
    let h := mkHolders (if nint op >? 0 then Some (replicate (Z.to_nat (nint op)) 0) else None) None None in
    if some_param && negb (da_inds a) then Ret (h, false)
    else
      let h := mkHolders (h_ival h) (if some_param then Some (replicate (Z.to_nat (ntotal op)) 0) else None) None in
      if ntext op >? 0 then
        if negb (da_tarr a) then Ret (h, false)
        else
          '(hs, ok) ← fill_texts a op 0 (tparams op);
          Ret (mkHolders (h_ival h) (h_inds h) (Some hs), ok)
      else Ret (h, true).

(** The clean-up frees every slot that is not NULL. *)
Fixpoint free_texts (hs : list tslot) : cres unit :=
  match hs with
  | [] => Ret tt
  | TUninit :: _ => Fault WildFree
  | _ :: hs' => free_texts hs'
  end.

Definition free_holders (h : Holders) : cres unit :=
  match h_text h with None => Ret tt | Some hs => free_texts hs end.

(** ** Binding *)

Inductive bind_result : Type :=
| BoundOk (h : Holders) (bs : list binding)
| BoundOom (h : Holders)
| BoundErr (h : Holders) (d : Diag).

(** The indicator of a text of [n] characters: twice the length, in the width
    of a pointer. *)
Definition text_ind (n : Z) : Z := 2 * n.

(** One parameter of the loop: [i] is its position, [t] its entry of
    [torder]. *)
Definition bind_one (op : OpDml) (h : Holders) (i : nat) (t : Z) : cres (option (Holders * binding)) :=
  if t >=? 0 then
    v ← array_read (iparams op) t;
    match h_ival h, h_inds h with
    | Some iv, Some inds =>
        iv ← array_write iv t v;
        inds ← array_write inds (Z.of_nat i) 8;
        Ret (Some (mkHolders (Some iv) (Some inds) (h_text h), PInt (Z.to_nat t)))
    | _, _ => Ret None
    end
  else
    let ti := - t - 1 in
    match h_text h, h_inds h with
    | Some hs, Some inds =>
        s ← array_read hs ti;
        n ← match tlengths op, s with
            | Some ls, _ => array_read ls ti
            | None, THeld w => Ret (zlen (fst (span (fun u => negb (u =? 0)) w)))
            | None, _ => Fault OobRead
            end;
        if n =? 0 then
          inds ← array_write inds (Z.of_nat i) SQL_NULL_DATA;
          Ret (Some (mkHolders (h_ival h) (Some inds) (h_text h), PEmpty))
        else
          inds ← array_write inds (Z.of_nat i) (text_ind n);
          Ret (Some (mkHolders (h_ival h) (Some inds) (h_text h), PText (Z.to_nat ti)))
    | _, _ => Ret None
    end.

Fixpoint bind_params (a : DmlAnswers) (op : OpDml) (h : Holders) (i : nat) (order : list Z) : cres bind_result :=
  match order with
  | [] => Ret (BoundOk h [])
  | t :: order' =>
      r ← bind_one op h i t;
      match r with
      | None => Ret (BoundOom h)
      | Some (h, b) =>
          match da_bind a i with
          | Some d => Ret (BoundErr h d)
          | None =>
              r ← bind_params a op h (S i) order';
              Ret (match r with BoundOk h bs => BoundOk h (b :: bs) | other => other end)
          end
      end
  end.

(** ** Execution *)

(** The driver reads the value of the parameter [i] through its binding. *)
Definition read_bound (h : Holders) (i : nat) (b : binding) : cres bound :=
  ind ← array_read (default [] (h_inds h)) (Z.of_nat i);
  if ind =? SQL_NULL_DATA then Ret BNull
  else
    match b with
    | PInt t => v ← array_read (default [] (h_ival h)) (Z.of_nat t); Ret (BInt v)
    | PEmpty => Ret BNull
    | PText ti =>
        s ← array_read (default [] (h_text h)) (Z.of_nat ti);
        match s with
        | THeld w => if ind <? 0 then Ret (BLength ind) else
                     if ind / 2 <=? zlen w then Ret (BText (take (Z.to_nat (ind / 2)) w)) else Fault OobRead
        | _ => Fault OobRead
        end
    end.

Fixpoint read_all (h : Holders) (i : nat) (bs : list binding) : cres (list bound) :=
  match bs with
  | [] => Ret []
  | b :: bs' => v ← read_bound h i b; vs ← read_all h (S i) bs'; Ret (v :: vs)
  end.

(** What the caller learns, and the values the server received when the
    statement was executed. *)
Record DmlResult := mkDmlResult {
  r_conn : VmsConnection;
  r_ok : bool;
  r_rows : Z;
  r_err : VmsError;
  r_sent : option (list bound)
}.

Definition job_dml (a : DmlAnswers) (op : OpDml) (c : VmsConnection) : cres DmlResult :=
  let fail c e sent := Ret (mkDmlResult c false (-1) e sent) in
  if quarantined c then fail c (failure VMS_ERR_QUARANTINED "connection quarantined") None
  else if negb (da_handle a) then fail c (failure VMS_ERR_NO_MEMORY "OOM dml stmt") None
  else
    let oom h := _ ← free_holders h; fail c (failure VMS_ERR_NO_MEMORY "OOM dml holders") None in
    '(h, ok) ← alloc_holders a op;
    if negb ok then oom h
    else
      r ← bind_params a op h 0 (torder op);
      match r with
      | BoundOom h => oom h
      | BoundErr h d => _ ← free_holders h; fail c (diag_error d (str "SQLBindParameter")) None
      | BoundOk h bs =>
          vs ← read_all h 0 bs;
          let c := send c WStmt in
          _ ← free_holders h;
          match da_exec a with
          | Some d => fail c (diag_error d (str "DML execute")) (Some vs)
          | None => Ret (mkDmlResult c true (default (-1) (da_rows a)) err_zero (Some vs))
          end
      end.

(** [vms_conn_exec_dml]: the result code, and the row count when it is
    stored.  [job] is the memory for the worker's job. *)
Definition vms_conn_exec_dml (job : bool) (a : DmlAnswers) (op : OpDml) (cn : option VmsConnection) (sql : bool)
    (want_rows : bool) : cres (option VmsConnection * Z * option Z * VmsError) :=
  match cn with
  | Some c =>
      if negb sql then Ret (cn, -1, None, failure VMS_ERR_INVALID_ARG "exec_dml: bad args")
      else if negb job then Ret (cn, -1, None, err_zero)
      else
        r ← job_dml a op c;
        if r_ok r then Ret (Some (r_conn r), 0, if want_rows then Some (r_rows r) else None, r_err r)
        else Ret (Some (r_conn r), -1, None, r_err r)
  | None => Ret (cn, -1, None, failure VMS_ERR_INVALID_ARG "exec_dml: bad args")
  end.

(** ** The server receives the parameters in statement order *)

(** The arguments are consistent: every text has its length, and every entry
    of the order names a parameter. *)
Definition well_formed (op : OpDml) (ls : list Z) : Prop :=
  tlengths op = Some ls /\ Forall2 (fun t n => 0 <= n <= zlen t) (tparams op) ls /\
  Forall (fun t => - ntext op <= t < nint op) (torder op).

(** The parameter an entry of the order names: non-negative for an integer,
    [-1 - ti] for the text [ti]; an empty text is sent as NULL. *)
Definition param_value (op : OpDml) (ls : list Z) (t : Z) : bound :=
  if t >=? 0 then BInt (iparams op !!! Z.to_nat t)
  else let ti := Z.to_nat (- t - 1) in
       if ls !!! ti =? 0 then BNull else BText (take (Z.to_nat (ls !!! ti)) (tparams op !!! ti)).

Definition binding_of (ls : list Z) (t : Z) : binding :=
  if t >=? 0 then PInt (Z.to_nat t)
  else if ls !!! Z.to_nat (- t - 1) =? 0 then PEmpty else PText (Z.to_nat (- t - 1)).

Definition ind_of (ls : list Z) (t : Z) : Z :=
  if t >=? 0 then 8
  else if ls !!! Z.to_nat (- t - 1) =? 0 then SQL_NULL_DATA else text_ind (ls !!! Z.to_nat (- t - 1)).

Definition slot_of (t : list Z) (n : Z) : tslot := THeld (take (Z.to_nat n) t ++ [0]).

(** The holders have their sizes, and the texts their contents. *)
Record holders_ok (op : OpDml) (ls : list Z) (h : Holders) : Prop := mkHoldersOk {
  ho_ival : 0 < nint op -> exists iv, h_ival h = Some iv /\ zlen iv = nint op;
  ho_inds : 0 < nint op \/ 0 < ntext op -> exists inds, h_inds h = Some inds /\ zlen inds = ntotal op;
  ho_text : 0 < ntext op -> h_text h = Some (zip_with slot_of (tparams op) ls);
  ho_free : free_holders h = Ret tt
}.

Lemma free_slots ts ls : free_texts (zip_with slot_of ts ls) = Ret tt.
Proof. revert ls. induction ts as [|t ts IH]; intros [|n ls]; cbn; [done..|apply IH]. Qed.

Lemma array_read_ok {A} `{Inhabited A} (l : list A) i : 0 <= i < zlen l -> array_read l i = Ret (l !!! Z.to_nat i).
Proof.
  intros Hi. unfold array_read. destruct (i <? 0) eqn:E; [blia|]. unfold zlen in Hi.
  destruct (lookup_lt_is_Some_2 l (Z.to_nat i)) as [x Hx]; [lia|]. rewrite Hx.
  by rewrite (list_lookup_total_correct _ _ _ Hx).
Qed.

Lemma array_read_lookup {A} (l : list A) i x : l !! i = Some x -> array_read l (Z.of_nat i) = Ret x.
Proof. intros Hx. unfold array_read. rewrite (proj2 (Z.ltb_ge _ 0)) by lia. by rewrite Nat2Z.id, Hx. Qed.

Lemma array_write_ok {A} (l : list A) i x : 0 <= i < zlen l -> array_write l i x = Ret (<[Z.to_nat i := x]> l).
Proof. intros Hi. unfold array_write. destruct (_ || _) eqn:E; [|done]. b2p. destruct E; blia. Qed.

Section Binding.
Context (op : OpDml) (ls : list Z) (Hwf : well_formed op ls).

Lemma wf_lengths : zlen ls = ntext op.
Proof. destruct Hwf as (_ & H & _). apply Forall2_length in H. unfold ntext, zlen. lia. Qed.

Lemma wf_text ti : (ti < length (tparams op))%nat ->
  exists t n, tparams op !! ti = Some t /\ ls !! ti = Some n /\ 0 <= n <= zlen t.
Proof.
  intros Hti. destruct (lookup_lt_is_Some_2 (tparams op) ti Hti) as [t Ht]. destruct Hwf as (_ & H & _).
  destruct (Forall2_lookup_l _ _ _ _ _ H Ht) as (n & Hn & ?). by exists t, n.
Qed.

(** One turn of the loop. *)
Lemma bind_one_ok h i t :
  holders_ok op ls h -> - ntext op <= t < nint op -> Z.of_nat i < ntotal op ->
  exists inds, h_inds h = Some inds /\ zlen inds = ntotal op /\
    bind_one op h i t = Ret (Some (
      mkHolders (if t >=? 0 then (fun iv => <[Z.to_nat t := iparams op !!! Z.to_nat t]> iv) <$> h_ival h else h_ival h)
                (Some (<[i := ind_of ls t]> inds)) (h_text h), binding_of ls t)).
Proof.
  intros [Hiv Hin Htx Hfr] Ht Hi. unfold bind_one, binding_of, ind_of. destruct (t >=? 0) eqn:Et; b2p.
  - destruct Hiv as (iv & -> & Hl); [lia|]. destruct Hin as (inds & -> & Hl2); [lia|]. exists inds. split_and!; [done..|].
    rewrite array_read_ok by (unfold nint in *; lia). cbn [mbind cres_bind].
    rewrite array_write_ok by lia. cbn [mbind cres_bind]. rewrite array_write_ok by lia. cbn [mbind cres_bind].
    by rewrite Nat2Z.id.
  - destruct Hin as (inds & -> & Hl2); [lia|]. exists inds. split_and!; [done..|]. rewrite (Htx ltac:(lia)).
    rewrite (proj1 Hwf). pose proof wf_lengths as Hl.
    assert (Hz : zlen (zip_with slot_of (tparams op) ls) = ntext op).
    { unfold zlen, ntext in *. rewrite length_zip_with. unfold zlen in *. lia. }
    rewrite (array_read_ok (H := populate TUninit)) by lia. cbn [mbind cres_bind].
    rewrite array_read_ok by lia. cbn [mbind cres_bind].
    destruct (ls !!! Z.to_nat (- t - 1) =? 0); rewrite array_write_ok by lia; cbn [mbind cres_bind]; by rewrite Nat2Z.id.
Qed.

Lemma holders_ok_bind h t i inds :
  holders_ok op ls h -> h_inds h = Some inds -> zlen inds = ntotal op ->
  holders_ok op ls (mkHolders
    (if t >=? 0 then (fun iv => <[Z.to_nat t := iparams op !!! Z.to_nat t]> iv) <$> h_ival h else h_ival h)
    (Some (<[i := ind_of ls t]> inds)) (h_text h)).
Proof.
  intros [Hiv Hin Htx Hfr] Hi Hl. constructor; cbn; [| |done|done].
  - intros Hn. destruct (Hiv Hn) as (iv & -> & Hz). destruct (t >=? 0); cbn; [|by exists iv].
    eexists. split; [done|]. unfold zlen in *. by rewrite length_insert.
  - intros _. eexists. split; [done|]. unfold zlen in *. by rewrite length_insert.
Qed.

(** The whole loop: the indicators of the parameters bound so far stay, those
    of the new ones are set, and every integer slot that is used holds its
    parameter. *)
Lemma bind_params_ok a order h i :
  holders_ok op ls h -> Forall (fun t => - ntext op <= t < nint op) order ->
  Z.of_nat (i + length order) = ntotal op -> (forall j, da_bind a j = None) ->
  exists h', bind_params a op h i order = Ret (BoundOk h' (binding_of ls <$> order)) /\ holders_ok op ls h' /\
    h_text h' = h_text h /\
    (forall j, (j < i)%nat -> default [] (h_inds h') !! j = default [] (h_inds h) !! j) /\
    (forall k t, order !! k = Some t -> default [] (h_inds h') !! (i + k)%nat = Some (ind_of ls t)) /\
    (forall t, t ∈ order \/ default [] (h_ival h) !! Z.to_nat t = Some (iparams op !!! Z.to_nat t) ->
       0 <= t < nint op -> default [] (h_ival h') !! Z.to_nat t = Some (iparams op !!! Z.to_nat t)).
Proof.
  intros Hh Ho Hlen Hb. revert h i Hh Hlen. induction order as [|t order IH]; intros h i Hh Hlen; cbn [bind_params].
  { exists h. split_and!; try done. by intros t [?%not_elem_of_nil|]. }
  apply Forall_cons in Ho as [Ht Ho]. simpl in Hlen.
  destruct (bind_one_ok h i t Hh Ht) as (inds & Hi & Hz & Hone); [lia|]. rewrite Hone. cbn [mbind cres_bind]. rewrite Hb.
  pose proof (holders_ok_bind h t i inds Hh Hi Hz) as Hh1.
  destruct (IH Ho _ (S i) Hh1) as (h' & Hr & Hh' & Htx & Hj & Hk & Hv); [lia|]. rewrite Hr. cbn [mbind cres_bind].
  exists h'. split_and!; [done..| | |].
  - intros j Hlt. rewrite Hj by lia. cbn. rewrite Hi. cbn. by rewrite list_lookup_insert_ne by lia.
  - intros [|k] t' Hlk; cbn in Hlk.
    + injection Hlk as <-. rewrite Nat.add_0_r, Hj by lia. cbn. apply list_lookup_insert_eq. unfold zlen in Hz. lia.
    + replace (i + S k)%nat with (S i + k)%nat by lia. by apply Hk.
  - intros u Hu Hrange. apply Hv; [|done]. destruct (ho_ival _ _ _ Hh ltac:(lia)) as (iv & Hiv & Hziv).
    destruct (decide (u = t)) as [->|Hne].
    + right. cbn. rewrite Hiv. destruct (t >=? 0) eqn:E; b2p; [|lia]. cbn.
      apply list_lookup_insert_eq. unfold zlen, nint in *. lia.
    + destruct Hu as [[->|Hu]%elem_of_cons|Hu]; [done|by left|]. right. cbn. rewrite Hiv in *. cbn in *.
      destruct (t >=? 0) eqn:E; b2p; [|done]. cbn. rewrite list_lookup_insert_ne by lia. done.
Qed.

(** Reading a parameter through its binding gives the parameter. *)
Lemma read_bound_ok h i t :
  holders_ok op ls h -> - ntext op <= t < nint op -> default [] (h_inds h) !! i = Some (ind_of ls t) ->
  (0 <= t -> default [] (h_ival h) !! Z.to_nat t = Some (iparams op !!! Z.to_nat t)) ->
  read_bound h i (binding_of ls t) = Ret (param_value op ls t).
Proof.
  intros [Hiv Hin Htx Hfr] Ht Hind Hval. unfold read_bound.
  rewrite (array_read_lookup _ i _ Hind). cbn [mbind cres_bind].
  unfold ind_of, binding_of, param_value. destruct (t >=? 0) eqn:Et; b2p.
  - cbn -[array_read]. by rewrite (array_read_lookup _ _ _ (Hval ltac:(lia))).
  - destruct (wf_text (Z.to_nat (- t - 1))) as (w & n & Hw & Hn & Hr); [unfold ntext, zlen in *; lia|].
    rewrite (list_lookup_total_correct _ _ _ Hn), (list_lookup_total_correct _ _ _ Hw).
    destruct (n =? 0) eqn:En; b2p; [done|]. unfold text_ind.
    destruct (2 * n =? SQL_NULL_DATA) eqn:E1; [unfold SQL_NULL_DATA in *; b2p; lia|].
    rewrite (Htx ltac:(lia)). cbn [default].
    rewrite (array_read_lookup _ _ (slot_of w n)) by (cbn; rewrite lookup_zip_with, Hw; cbn; by rewrite Hn).
    cbn [mbind cres_bind slot_of]. rewrite (proj2 (Z.ltb_ge (2 * n) 0)) by lia.
    replace (2 * n / 2) with n by (rewrite Z.mul_comm, Z.div_mul; lia).
    assert (Hlen : zlen (take (Z.to_nat n) w ++ [0]) = n + 1).
    { rewrite zlen_app. unfold zlen in *. rewrite length_take. simpl. lia. }
    rewrite (proj2 (Z.leb_le _ _)) by lia. f_equal. f_equal.
    rewrite take_app_le by (rewrite length_take; unfold zlen in *; lia). by rewrite take_take, Nat.min_id.
Qed.

(** Whatever the driver answers, the loop ends with holders that can be
    freed, and is never out of memory. *)
Lemma bind_params_any a order h i :
  holders_ok op ls h -> Forall (fun t => - ntext op <= t < nint op) order -> Z.of_nat (i + length order) = ntotal op ->
  (exists h' d, bind_params a op h i order = Ret (BoundErr h' d) /\ free_holders h' = Ret tt /\
     exists j, da_bind a j <> None) \/
  (forall j, (i <= j < i + length order)%nat -> da_bind a j = None).
Proof.
  intros Hh Ho. revert h i Hh. induction order as [|t order IH]; intros h i Hh Hlen; cbn [bind_params]; [right; simpl; lia|].
  apply Forall_cons in Ho as [Ht Ho]. simpl in Hlen.
  destruct (bind_one_ok h i t Hh Ht) as (inds & Hi & Hz & Hone); [lia|]. rewrite Hone. cbn [mbind cres_bind].
  destruct (da_bind a i) as [d|] eqn:Eb; [left; eexists _, d; split_and!; [done|apply Hh|exists i; by rewrite Eb]|].
  destruct (IH Ho _ (S i) (holders_ok_bind h t i inds Hh Hi Hz)) as [(h' & d & -> & Hf)|Hn]; [lia|left; by exists h', d|].
  right. intros j Hj. destruct (decide (j = i)) as [->|]; [done|]. apply Hn. simpl in Hj. lia.
Qed.

(** The answers to the binding calls beyond the last parameter do not
    matter. *)
Lemma bind_params_ext a a' order h i :
  (forall j, (i <= j < i + length order)%nat -> da_bind a j = da_bind a' j) ->
  bind_params a op h i order = bind_params a' op h i order.
Proof.
  revert h i. induction order as [|t order IH]; intros h i Hj; cbn [bind_params]; [done|].
  destruct (bind_one op h i t) as [[[h1 b]|]|]; [|done|done]. cbn [mbind cres_bind].
  rewrite (Hj i) by (simpl; lia). destruct (da_bind a' i); [done|]. rewrite IH; [done|].
  intros j ?. apply Hj. simpl. lia.
Qed.

Lemma read_all_ok h i order :
  holders_ok op ls h -> Forall (fun t => - ntext op <= t < nint op) order ->
  (forall k t, order !! k = Some t -> default [] (h_inds h) !! (i + k)%nat = Some (ind_of ls t)) ->
  (forall t, t ∈ order -> 0 <= t < nint op -> default [] (h_ival h) !! Z.to_nat t = Some (iparams op !!! Z.to_nat t)) ->
  read_all h i (binding_of ls <$> order) = Ret (param_value op ls <$> order).
Proof.
  intros Hh Ho. revert i. induction order as [|t order IH]; intros i Hk Hv; cbn [fmap list_fmap read_all]; [done|].
  apply Forall_cons in Ho as [Ht Ho].
  rewrite (read_bound_ok h i t Hh Ht); [|rewrite <- (Nat.add_0_r i); by apply Hk|intros; apply Hv; [by left|lia]].
  cbn [mbind cres_bind]. rewrite (IH Ho (S i)); [done| |].
  - intros k u Hu. replace (S i + k)%nat with (i + S k)%nat by lia. by apply Hk.
  - intros u Hu. apply Hv. by right.
Qed.

(** Allocation fails cleanly unless a text holder other than the last one
    fails. *)
Lemma fill_texts_any a i ts k :
  tparams op = k ++ ts -> i = length k ->
  (fill_texts a op i ts = Ret (zip_with slot_of ts (drop i ls), true) /\
   forall j, (i <= j < i + length ts)%nat -> da_text a j = true) \/
  exists hs j, fill_texts a op i ts = Ret (hs, false) /\ da_text a j = false /\
    (free_texts hs = Ret tt \/ free_texts hs = Fault WildFree /\ (S j < length (tparams op))%nat).
Proof.
  revert i k. induction ts as [|t ts IH]; intros i k Hk ->; cbn [fill_texts]; [left; split; [done|simpl; lia]|].
  destruct (wf_text (length k)) as (t' & n & Ht & Hn & Hr); [rewrite Hk, length_app; simpl; lia|].
  rewrite Hk, list_lookup_middle in Ht by done. injection Ht as <-.
  unfold text_chars. rewrite (proj1 Hwf), (array_read_lookup _ _ _ Hn). cbn [mbind cres_bind].
  destruct (da_text a (length k)) eqn:Ea; cbn [negb].
  2: { right. exists (TNull :: replicate (length ts) TUninit), (length k). split_and!; [done..|].
       destruct ts as [|u ts]; [by left|right]. split; [done|]. rewrite Hk, length_app. simpl. lia. }
  unfold copy_text. rewrite Z.max_l by lia. rewrite (proj2 (Z.leb_le n (zlen t))) by lia. cbn [mbind cres_bind].
  destruct (IH (S (length k)) (k ++ [t])) as [[-> Hj]|(hs & j & -> & Hj & Hf)];
    [by rewrite <- app_assoc|rewrite length_app; simpl; lia| |]; cbn [mbind cres_bind].
  - left. rewrite (drop_S ls n (length k) Hn). split; [done|]. intros j Hlt.
    destruct (decide (j = length k)) as [->|]; [done|]. apply Hj. simpl in Hlt. lia.
  - right. by exists (THeld (take (Z.to_nat n) t ++ [0]) :: hs), j.
Qed.

(** The blocks as a successful allocation leaves them. *)
Lemma holders_made texts :
  (0 < ntext op -> texts = Some (zip_with slot_of (tparams op) ls)) -> (ntext op <= 0 -> texts = None) ->
  holders_ok op ls (mkHolders (if nint op >? 0 then Some (replicate (Z.to_nat (nint op)) 0) else None)
    (if (nint op >? 0) || (ntext op >? 0) then Some (replicate (Z.to_nat (ntotal op)) 0) else None) texts).
Proof.
  intros Ht Hn. assert (Hrep : forall x, 0 <= x -> zlen (replicate (Z.to_nat x) 0) = x).
  { intros x. unfold zlen. rewrite length_replicate. lia. }
  constructor; cbn; [| |done|].
  - intros Hp. rewrite (proj2 (Z.gtb_lt _ _)) by lia. eexists. split; [done|]. apply Hrep. lia.
  - intros Hp. assert ((nint op >? 0) || (ntext op >? 0) = true) as ->.
    { apply orb_true_iff. rewrite !Z.gtb_lt. lia. }
    eexists. split; [done|]. apply Hrep, zlen_nonneg.
  - unfold free_holders. cbn. destruct (Z.lt_ge_cases 0 (ntext op)) as [H|H]; [rewrite (Ht H); apply free_slots|by rewrite (Hn H)].
Qed.

(** Allocation succeeds, or an allocation failed and the clean-up goes wrong
    only if it was a text holder other than the last. *)
Lemma alloc_holders_any a :
  (exists h, alloc_holders a op = Ret (h, true) /\ holders_ok op ls h) \/
  (exists h, alloc_holders a op = Ret (h, false) /\
     (da_ival a = false \/ da_inds a = false \/ da_tarr a = false \/ exists j, da_text a j = false) /\
     (free_holders h = Ret tt \/
      free_holders h = Fault WildFree /\ exists j, (S j < length (tparams op))%nat /\ da_text a j = false)).
Proof.
  unfold alloc_holders. cbn [h_ival h_inds].
  destruct ((_ && _) && negb (da_ival a)) eqn:E1; [right; eexists; split; [done|]; b2p; split; by left|].
  destruct (_ && negb (da_inds a)) eqn:E2; [right; eexists; split; [done|]; b2p; split; [by right; left|by left]|].
  destruct (ntext op >? 0) eqn:Et.
  2: { left. eexists. split; [done|]. rewrite <- Et. apply holders_made; b2p; [lia|done]. }
  destruct (da_tarr a); cbn [negb]; [|right; eexists; split; [done|]; split; [by do 2 right; left|by left]].
  destruct (fill_texts_any a 0 (tparams op) []) as [[-> _]|(hs & j & -> & Hj & Hf)]; [done..| |]; cbn [mbind cres_bind].
  - left. eexists. split; [done|]. rewrite drop_0, <- Et. apply holders_made; b2p; [done|lia].
  - right. eexists. split; [done|]. split; [do 3 right; by exists j|]. unfold free_holders. cbn.
    destruct Hf as [->|[-> Hl]]; [by left|right]. split; [done|]. by exists j.
Qed.
End Binding.

(** Every allocation and every binding goes through. *)
Definition answers_good (a : DmlAnswers) : Prop :=
  da_handle a = true /\ da_ival a = true /\ da_inds a = true /\ da_tarr a = true /\
  (forall j, da_text a j = true) /\ (forall j, da_bind a j = None).

(** What holds of the result of the job. *)
Definition dml_result_ok (a : DmlAnswers) (op : OpDml) (ls : list Z) (c : VmsConnection) (r : DmlResult) : Prop :=
  (r_ok r = true <-> is_Some (r_sent r) /\ da_exec a = None) /\ (r_ok r = false -> cls (r_err r) <> VMS_OK) /\
  match r_sent r with
  | None => r_conn r = c
  | Some vs => vs = param_value op ls <$> torder op /\ r_conn r = send c WStmt /\ quarantined c = false
  end /\
  (quarantined c = false -> answers_good a -> is_Some (r_sent r)).

Lemma dml_not_sent a op ls c e :
  cls e <> VMS_OK -> (quarantined c = false -> ~ answers_good a) -> dml_result_ok a op ls c (mkDmlResult c false (-1) e None).
Proof.
  intros He Hg. split_and!; cbn; [split; [done|by intros [[] _]]|done|done|]. intros Hq Ha. by apply Hg in Ha.
Qed.

(** [C9]: the server receives the parameters of a statement in statement
    order.  For consistent arguments, whatever the allocator and the driver
    answer, either nothing is executed, the connection is untouched and an
    error is reported, or the statement runs exactly once, on a connection
    that is not quarantined, with the value that each entry of the order
    names, although the driver reads the values only then, from holders that
    later parameters share; success is reported exactly when the execution
    succeeded.  When the answers are good the statement is executed.  The
    only fault is the release of a holder that was never stored, after the
    allocation of a text holder other than the last has failed. *)
Theorem dml_params_in_order a op ls c :
  well_formed op ls ->
  match job_dml a op c with
  | Fault f => f = WildFree /\ exists j, (S j < length (tparams op))%nat /\ da_text a j = false
  | Ret r => dml_result_ok a op ls c r
  end.
Proof.
  intros Hwf. unfold job_dml. destruct (quarantined c) eqn:Eq; [apply dml_not_sent; [done|congruence]|].
  destruct (da_handle a) eqn:Ed; cbn [negb]; [|apply dml_not_sent; [done|intros _ [? _]; congruence]].
  destruct (alloc_holders_any op ls Hwf a) as [(h & -> & Hh)|(h & -> & Hbad & Hf)]; cbn [mbind cres_bind negb]; last first.
  { destruct Hf as [->|[-> Hj]]; [|done]. cbn [mbind cres_bind]. apply dml_not_sent; [done|].
    intros _ (_ & H1 & H2 & H3 & H4 & _). destruct Hbad as [?|[?|[?|[j ?]]]]; [congruence..|]. by rewrite H4 in *. }
  pose proof (proj2 (proj2 Hwf)) as Ho.
  destruct (bind_params_any op ls Hwf a (torder op) h 0 Hh Ho) as [(h' & d & -> & Hf & [j Hj])|Hb]; [done| |]; cbn [mbind cres_bind].
  { rewrite Hf. cbn [mbind cres_bind]. apply dml_not_sent; [apply diag_error_cls|]. intros _ (_ & _ & _ & _ & _ & H). by rewrite H in Hj. }
  set (a' := mkDmlAnswers true true true true (fun _ => true) (fun _ => None) None None).
  rewrite (bind_params_ext op a a') by done.
  destruct (bind_params_ok op ls Hwf a' (torder op) h 0 Hh Ho) as (h' & -> & Hh' & _ & _ & Hk & Hv); [done..|]. cbn [mbind cres_bind].
  rewrite (read_all_ok op ls Hwf h' 0 (torder op) Hh' Ho Hk) by (intros t Ht; apply Hv; by left). cbn [mbind cres_bind].
  rewrite (ho_free _ _ _ Hh'). cbn [mbind cres_bind].
  destruct (da_exec a) as [d|] eqn:Ee.
  - split_and!; cbn; try done; [split; [done|]; rewrite Ee; by intros [_ ?]|intros _; apply diag_error_cls].
  - by split_and!.
Qed.

(** A call without parameters is the statement of the transaction model. *)
Theorem dml_no_params_refines a c o :
  o_stmt_alloc o = da_handle a -> o_stmt o = da_exec a ->
  exists r, job_dml a (mkOpDml [] [] None []) c = Ret r /\ Txn.job_dml o c = (r_conn r, r_ok r, r_err r).
Proof.
  intros Ha He. unfold job_dml, Txn.job_dml. rewrite Ha, He. destruct (quarantined c); [by eexists|].
  destruct (da_handle a); cbn; [|by eexists]. destruct (da_exec a); by eexists.
Qed.

(** With no length array every text is sent as NULL. *)
Lemma dml_no_lengths_null :
  exists r, job_dml (mkDmlAnswers true true true true (fun _ => true) (fun _ => None) None (Some 1))
              (mkOpDml [] [str "abc"] None [-1]) (conn_new 1) = Ret r /\ r_sent r = Some [BNull].
Proof. eexists. split; [vm_compute; reflexivity|]. reflexivity. Qed.

(** UPDATE t SET a = ?, b = ? WHERE id = ?: two texts, of which one is empty,
    and an integer used twice. *)
Definition demo_op : OpDml := mkOpDml [7; 9] [str "x y"; str "z"] (Some [3; 0]) [-1; 1; -2; 1].

Definition demo_answers : DmlAnswers :=
  mkDmlAnswers true true true true (fun _ => true) (fun _ => None) None (Some 1).

Lemma dml_params_in_order_witness :
  exists r, job_dml demo_answers demo_op (conn_new 1) = Ret r /\ dml_result_ok demo_answers demo_op [3; 0] (conn_new 1) r.
Proof.
  pose proof (dml_params_in_order demo_answers demo_op [3; 0] (conn_new 1)) as H.
  destruct (job_dml demo_answers demo_op (conn_new 1)) as [r|f] eqn:E.
  - exists r. split; [reflexivity|]. apply H. split; [reflexivity|]. split.
    + repeat constructor; unfold zlen; simpl; lia.
    + unfold ntext, nint, zlen. repeat constructor; simpl; lia.
  - vm_compute in E. discriminate E.
Defined.
