(* ===== verification/Typing.v ===== *)
(** * Types of the delivered values (src/src/vms_odbc_adapter.c,
      vms_vtab.c, vms_mat.c)

    Which kind of value a column of each type yields, from the decoder of the
    adapter to the result the host sees and to the rows of a snapshot. *)

From S2P Require Import Prelude Foundation Client Identity Meta Plan Scan Txn Adapter Mat Connect.

(** The kinds of values a column of a type can have; NULL is of every type
    that has values. *)
Definition has_type (t : VmsColType) (v : VmsValue) : bool :=
  match t, v with
  | CT_UNSUPPORTED, _ => false
  | _, VAL_NULL => true
  | CT_INT64, VAL_INT64 _ => true
  | CT_FLOAT64, VAL_FLOAT64 _ => true
  | (CT_TEXT | CT_BIGTEXT | CT_DECIMAL | CT_DATETIME | CT_GUID), VAL_TEXT _ => true
  | (CT_BLOB | CT_SPATIAL), VAL_BLOB _ => true
  | _, _ => false
  end.

(** The storage class the host gives a result value, as the type name that
    has it as its affinity. *)
Definition storage_class (v : VmsValue) : option (list Z) :=
  match v with
  | VAL_NULL => None
  | VAL_INT64 _ => Some (str "INTEGER")
  | VAL_FLOAT64 _ => Some (str "REAL")
  | VAL_TEXT _ | VAL_BIGTEXT _ => Some (str "TEXT")
  | VAL_BLOB _ => Some (str "BLOB")
  end.

(** A typed value has the storage class its column is declared with. *)
Lemma typed_storage t v :
  has_type t v = true -> v = VAL_NULL \/ storage_class v = Some (decl_affinity false t).
Proof. by destruct t, v; cbn; auto. Qed.

(** A typed value is never of the kind the consumers refuse. *)
Lemma typed_not_bigtext t v : has_type t v = true -> forall s, v <> VAL_BIGTEXT s.
Proof. intros H s ->. by destruct t. Qed.

Section Decode.
Context `{Platform} `{Win32Text}.
Variable alloc : Z -> bool.

Lemma text_value_typed b w v : text_value alloc b w = Ret (inr v) -> exists t, v = VAL_TEXT t.
Proof.
  unfold text_value. intros E. destruct (w =? 0); [destruct (alloc 1); [injection E as <-; by eexists|done]|].
  destruct (negb (zlen b mod 2 =? 0)); [done|]. destruct (negb (alloc _)); [done|].
  destruct (vms_utf16_to_utf8 _ _) as [[[|p|p] out] sz]; [|done..]. destruct (_ >=? _); [done|]. injection E as <-. by eexists.
Qed.

Lemma getdata_text_typed steps v : getdata_text alloc steps = Ret (inr v) -> v = VAL_NULL \/ exists t, v = VAL_TEXT t.
Proof.
  unfold getdata_text. intros (r & _ & E)%bind_ret_inv. destruct r; [done|injection E as <-; by left|].
  right. by eapply text_value_typed.
Qed.

Lemma getdata_blob_typed steps v : getdata_blob alloc steps = Ret (inr v) -> v = VAL_NULL \/ exists b, v = VAL_BLOB b.
Proof.
  unfold getdata_blob. intros (r & _ & E)%bind_ret_inv. destruct r; [done|injection E as <-; by left|].
  injection E as <-. right. by eexists.
Qed.

Lemma scalar_typed g v : getdata_scalar_text alloc g = Ret (inr v) -> v = VAL_NULL \/ exists t, v = VAL_TEXT t.
Proof.
  unfold getdata_scalar_text. intros E.
  assert (Hempty : Ret (if alloc 1 then inr (VAL_TEXT []) else inl err_zero) = Ret (inr v) :> cres (VmsError + VmsValue) ->
            v = VAL_NULL \/ exists t, v = VAL_TEXT t).
  { destruct (alloc 1); [intros [= <-]; right; by eexists|done]. }
  destruct g as [|d| |more got buf]; [by apply Hempty|done|injection E as <-; by left|].
  destruct (negb more && (got =? 0)); [by apply Hempty|]. destruct (_ >? 256); [done|].
  destruct (vms_utf16_to_utf8 _ None) as [[[|p|p] o1] [sz|]]; try done. destruct (negb (alloc _)); [done|].
  destruct (vms_utf16_to_utf8 _ _) as [[r out] o2]. injection E as <-. right. by eexists.
Qed.

Lemma decode_cell_typed pre m c v : decode_cell alloc pre m c = Ret (inr v) -> has_type (m_type m) v = true.
Proof.
  unfold decode_cell. intros E.
  destruct (m_type m);
    try (apply getdata_text_typed in E as [->|[? ->]]; done);
    try (apply getdata_blob_typed in E as [->|[? ->]]; done);
    try (apply scalar_typed in E as [->|[? ->]]; done); try done.
  - destruct (as_bigint c) as [|[|]]; [done|injection E as <-; done..].
  - destruct (as_double c) as [|[|]]; [done|injection E as <-; done..].
Qed.

Lemma decode_row_typed pre ms : forall i cell vs,
  decode_row alloc pre ms i cell = Ret (vs, None) -> Forall2 (fun m v => has_type (m_type m) v = true) ms vs.
Proof.
  induction ms as [|m ms IH]; intros i cell vs; cbn [decode_row]; [intros [= <-]; constructor|].
  intros (r & Hc & E)%bind_ret_inv. destruct r as [e|v]; [done|].
  apply bind_ret_inv in E as ([vs' e'] & Hr & E). injection E as <- ->. constructor; [by eapply decode_cell_typed|by eapply IH].
Qed.

(** A row that can be read column by column: each column has a value of its
    type, stored by the host the way a column of that type is declared, and a
    snapshot binds it instead of refusing it. *)
Definition reads_typed (ms : list VmsColumnMeta) (value : Z -> option VmsValue) : Prop :=
  forall i m, ms !! i = Some m -> exists v, value (Z.of_nat i) = Some v /\ has_type (m_type m) v = true /\
    (v = VAL_NULL \/ storage_class v = Some (decl_affinity false (m_type m))) /\
    (forall S : SnapshotStore, bind_value v = s_bind v).

Lemma typed_reads ms vs value :
  Forall2 (fun m v => has_type (m_type m) v = true) ms vs ->
  (forall i, (i < length ms)%nat -> value (Z.of_nat i) = vs !! i) -> reads_typed ms value.
Proof.
  intros Ht Hv i m Hm. destruct (Forall2_lookup_l _ _ _ _ _ Ht Hm) as (v & Hi & Htv). exists v.
  rewrite Hv by (by eapply lookup_lt_Some). split_and!; [done|done|by apply typed_storage|].
  intros S. destruct v; try done. by eapply typed_not_bigtext in Htv.
Qed.

Lemma decoded_reads ms todo vs row :
  Forall2 (fun m v => has_type (m_type m) v = true) ms vs ->
  reads_typed ms (vms_cursor_value (mkCursor ms todo (match ms with [] => row | _ => Some vs end) true false)).
Proof.
  intros Ht. eapply typed_reads; [done|]. intros i _. rewrite decoded_visible; [|symmetry; by eapply Forall2_length].
  rewrite (proj2 (Z.ltb_ge _ 0)) by lia. by rewrite Nat2Z.id.
Qed.

Lemma cursor_fetch_typed ra cur cur' e :
  job_cursor_fetch alloc ra cur = Ret (cur', 1, e) -> reads_typed (cu_meta cur') (vms_cursor_value cur').
Proof.
  unfold job_cursor_fetch. destruct cur as [ms todo row ready closed]. destruct closed; [done|].
  destruct todo as [|[|d|cell] todo']; [done..|]. destruct (_ && _); [done|].
  intros ([vs er] & Hd & E)%bind_ret_inv. destruct er as [er|]; [done|]. injection E as <- _.
  apply decode_row_typed in Hd. cbn [cu_meta]. by apply decoded_reads.
Qed.

Lemma stmt_fetch_typed ra st st' e :
  vms_stmt_fetch alloc ra st = Ret (st', 1, e) -> reads_typed (st_meta st') (vms_stmt_value st').
Proof.
  unfold vms_stmt_fetch, job_fetch. destruct st as [ms todo row ready quar]. destruct (st_quarantined _); [done|].
  destruct todo as [|[|d|cell] todo']; [done..|destruct (diag_capture _ _) as [[? ?] ?]; done|]. destruct (_ && _); [done|].
  intros ([vs er] & Hd & E)%bind_ret_inv. destruct er as [er|]; [done|]. injection E as <- _.
  apply decode_row_typed in Hd. cbn [st_meta]. exact (decoded_reads ms todo' vs _ Hd).
Qed.
End Decode.


