(* ===== verification/Support.v ===== *)
(** * Host checks and the fault-injecting allocator
      (src/src/vms_capabilities.c, vms_odbc_probe.c, vms_faultalloc.c)

    The version gate of the extension with its diagnostic, the search for the
    ODBC driver among the installed ones, and the allocator the tests use to
    make the n-th allocation fail. *)

From S2P Require Import Prelude Foundation.

(** ** Capabilities *)

Definition VMS_SQLITE_BASELINE : Z := 3044000.

Inductive vms_cap : Type := VMS_CAP_OK | VMS_CAP_SQLITE_TOO_OLD.

Definition vms_check_host_capabilities (sqlite_version_number : Z) : vms_cap :=
  if sqlite_version_number <? VMS_SQLITE_BASELINE then VMS_CAP_SQLITE_TOO_OLD else VMS_CAP_OK.

(** [code] is [None] for a code that is not one of the two; the division of C
    truncates. *)
Definition vms_capability_diagnostic (code : option vms_cap) (v : Z) : list Z :=
  match code with
  | Some VMS_CAP_OK => str "ok"
  | Some VMS_CAP_SQLITE_TOO_OLD =>
      trunc_copy 160
        (str "virtualmssql: host SQLite version " ++ print_i (Z.quot v 1000000) ++ str "." ++
         print_i (Z.rem (Z.quot v 1000) 1000) ++ str "." ++ print_i (Z.rem v 1000) ++
         str " is below the required baseline 3.44.0; refusing to load (no silent downgrade)")
  | None => str "virtualmssql: unknown capability-check failure"
  end.

(** ** The driver *)

(** [strstr] *)
Fixpoint contains (pat s : list Z) : bool :=
  match strip_prefix pat s with
  | Some _ => true
  | None => match s with [] => false | _ :: s' => contains pat s' end
  end.

Lemma contains_spec pat s : contains pat s = true <-> exists a b, s = a ++ pat ++ b.
Proof.
  induction s as [|c s IH]; cbn [contains].
  - destruct (strip_prefix pat []) as [r|] eqn:E.
    + split; [|done]. intros _. apply strip_prefix_Some in E. by exists [], r.
    + split; [done|]. intros (a & b & H). symmetry in H. apply app_eq_nil in H as [_ H].
      apply app_eq_nil in H as [-> ->]. by cbn in E.
  - destruct (strip_prefix pat (c :: s)) as [r|] eqn:E.
    + split; [|done]. intros _. apply strip_prefix_Some in E. by exists [], r.
    + rewrite IH. split; [intros (a & b & ->); by exists (c :: a), b|].
      intros ([|x a] & b & H); [|injection H as -> ->; by exists a, b].
      cbn in H. by rewrite H, strip_prefix_app in E.
Qed.

Definition driver_name : list Z := str "ODBC Driver 18 for SQL Server".

Section Probe.
Context `{Win32Text}.

(** The loop over the enumerated drivers: it stops at the first match, having
    asked for one more.  A name that does not convert into the 512 bytes is
    not noticed: the bytes are read as they are. *)
Fixpoint drivers_loop (drivers : list (list Z)) : cres bool :=
  match drivers with
  | [] => Ret false
  | name :: rest =>
      match wc2mb name with
      | Some u => if zlen u <? 512 then (if contains driver_name u then Ret true else drivers_loop rest) else Fault OobRead
      | None => Fault OobRead
      end
  end.

(** [env] is the allocation of the environment handle. *)
Definition vms_driver18_present (env : bool) (drivers : list (list Z)) : cres bool :=
  if negb env then Ret false else drivers_loop drivers.

Definition vms_error_class_driver_probe (found : bool) : list Z :=
  if found then str "OK" else str "DRIVER_NOT_FOUND".

(** The probe always ends; when the names convert, it answers whether the name
    of the driver occurs in one of them. *)
Lemma driver_probe_spec drivers :
  (forall n, n ∈ drivers -> exists u, wc2mb n = Some u /\ zlen u < 512) ->
  exists found, vms_driver18_present true drivers = Ret found /\
    (found = true <-> exists n u, n ∈ drivers /\ wc2mb n = Some u /\ contains driver_name u = true).
Proof.
  unfold vms_driver18_present. cbn [negb]. induction drivers as [|n l IH]; intros Hc; cbn [drivers_loop].
  { exists false. split; [done|]. split; [done|]. by intros (m & _ & ?%not_elem_of_nil & _). }
  destruct (Hc n) as (u & Hu & Hlen); [by left|]. rewrite Hu, (proj2 (Z.ltb_lt _ _) Hlen).
  destruct (contains driver_name u) eqn:E.
  - exists true. split; [done|]. split; [|done]. intros _. exists n, u. by split; [left|].
  - destruct IH as (f & -> & Hf); [intros m Hm; apply Hc; by right|]. exists f. split; [done|]. rewrite Hf. split.
    + intros (m & v & Hm & ?). exists m, v. by split; [right|].
    + intros (m & v & [->|Hm]%elem_of_cons & Hv & Hcv); [congruence|]. by exists m, v.
Qed.
End Probe.

(** ** The fault-injecting allocator *)

Record FaultAlloc := mkFault { g_armed : bool; g_countdown : Z (* LONG *) }.

Definition vms_fault_alloc_arm (countdown : Z) (_ : FaultAlloc) : FaultAlloc := mkFault true (wrap_i32 countdown).
Definition vms_fault_alloc_disarm (s : FaultAlloc) : FaultAlloc := mkFault false (g_countdown s).

(** Whether the allocation goes through; [heap] is the answer of the process
    heap, which is only asked when the counter has not run out. *)
Definition vms_fault_malloc (heap : bool) (s : FaultAlloc) : bool * FaultAlloc :=
  if g_armed s then
    let left := wrap_i32 (g_countdown s - 1) in
    (if left <? 0 then false else heap, mkFault true left)
  else (heap, s).

Fixpoint fault_mallocs (n : nat) (s : FaultAlloc) : list bool * FaultAlloc :=
  match n with
  | O => ([], s)
  | S n' => let '(r, s) := vms_fault_malloc true s in let '(rs, s) := fault_mallocs n' s in (r :: rs, s)
  end.

Lemma wrap_i32_small z : - 2 ^ 31 <= z < 2 ^ 31 -> wrap_i32 z = z.
Proof. intros H. unfold wrap_i32. rewrite Z.mod_small; lia. Qed.

Lemma fault_mallocs_count m n s :
  g_armed s = true -> g_countdown s = n -> n < 2 ^ 31 -> - 2 ^ 31 <= n - Z.of_nat m ->
  fst (fault_mallocs m s) = (fun k => Z.of_nat k <? n) <$> seq 0 m /\
  snd (fault_mallocs m s) = mkFault true (n - Z.of_nat m).
Proof.
  revert n s. induction m as [|m IH]; intros n [a c] Ha Hc Hn Hm; cbn in Ha, Hc; subst; cbn [fault_mallocs].
  { split; [done|]. cbn. by rewrite Z.sub_0_r. }
  unfold vms_fault_malloc. cbn [g_armed g_countdown]. rewrite wrap_i32_small by lia.
  destruct (IH (n - 1) (mkFault true (n - 1))) as [H1 H2]; [done|done|lia|lia|].
  destruct (fault_mallocs m (mkFault true (n - 1))) as [rs s'] eqn:E. cbn [fst snd] in *. split.
  - cbn [seq fmap list_fmap]. f_equal; [destruct (n - 1 <? 0) eqn:E1; symmetry; [apply Z.ltb_ge|apply Z.ltb_lt]; blia|].
    rewrite H1, <- fmap_S_seq, <- list_fmap_compose. apply list_fmap_ext. intros i x _. cbn.
    destruct (Z.of_nat x <? n - 1) eqn:E1; symmetry; [apply Z.ltb_lt|apply Z.ltb_ge]; blia.
  - rewrite H2. f_equal. lia.
Qed.

(** Armed with [n], exactly the first [n] allocations succeed and all later
    ones fail, as long as the counter does not wrap around: for [n + 2^31]
    allocations. *)
Theorem fault_schedule n m s :
  0 <= n < 2 ^ 31 -> Z.of_nat m <= n + 2 ^ 31 ->
  fst (fault_mallocs m (vms_fault_alloc_arm n s)) = (fun k => Z.of_nat k <? n) <$> seq 0 m.
Proof.
  intros Hn Hm. unfold vms_fault_alloc_arm. rewrite wrap_i32_small by lia.
  apply (fault_mallocs_count m n (mkFault true n)); [done|done|lia|lia].
Qed.

(** One allocation later the counter has wrapped and allocations succeed
    again. *)
Lemma fault_wraps : vms_fault_malloc true (mkFault true (- 2 ^ 31)) = (true, mkFault true (2 ^ 31 - 1)).
Proof. reflexivity. Qed.
