(* ===== verification/Extension.v ===== *)
(** * Entry point of the extension (src/src/vms_extension.c, the environment
      and the registration of src/src/vms_vtab.c)

    The process-wide state of the extension (the profile text, the database
    that still waits for its module, the credential and profile providers, the
    environment the tables use), the SQL functions that change it, the load of
    the extension into a database, and the objects of the module.  Databases
    and environments are named by their addresses; the answers of the host and
    of the allocator are arguments. *)

From stdpp Require Import relations gmap.
From S2P Require Import Prelude Foundation Client Identity Lexer Meta QuerySource Config Schema Support.

#[local] Arguments str : simpl never.

Notation dbid := nat (only parsing).
Notation eid := nat (only parsing).

(** ** State *)

(** [struct VmsVtabEnv]: the profile, the metadata cache when it could be
    opened, the connection of an open transaction. *)
Record EnvObj := mkEnvObj {
  eo_profile : VmsProfile;
  eo_cache : bool;
  eo_txn : option nat
}.

(** The installed credential provider. *)
Inductive provider_ptr : Type :=
| PNull
| PMemory
| PWincred
| PHost (p : VmsCredProviderV1).

(** [VmsQueryProfileProviderV1]; NULL members are [None]. *)
Record QProfile := mkQProfile {
  qp_abi : Z;
  qp_name : option (list Z);
  qp_get : option (list Z -> option (list Z))   (* None: the key is unknown *)
}.

Record Ext := mkExt {
  g_env : option eid;
  envs : gmap eid EnvObj;                       (* the live environments *)
  g_profile_spec : list Z;                      (* char[1024] *)
  g_profile_db : option dbid;
  modules : list (dbid * list Z);
  functions : list (dbid * list Z);
  g_provider : provider_ptr;
  g_qprofile : option QProfile;
  mem_entries : MemEntries;
  conns_lost : list nat                         (* connections nothing closes *)
}.

Definition ext_start : Ext := mkExt None ∅ [] None [] [] PNull None [] [].

Definition with_env (s : Ext) (g : option eid) (m : gmap eid EnvObj) : Ext :=
  mkExt g m (g_profile_spec s) (g_profile_db s) (modules s) (functions s) (g_provider s) (g_qprofile s)
        (mem_entries s) (conns_lost s).
Definition with_profile_db (s : Ext) (db : option dbid) : Ext :=
  mkExt (g_env s) (envs s) (g_profile_spec s) db (modules s) (functions s) (g_provider s) (g_qprofile s)
        (mem_entries s) (conns_lost s).
Definition with_spec (s : Ext) (spec : list Z) : Ext :=
  mkExt (g_env s) (envs s) spec (g_profile_db s) (modules s) (functions s) (g_provider s) (g_qprofile s)
        (mem_entries s) (conns_lost s).
Definition with_provider (s : Ext) (p : provider_ptr) : Ext :=
  mkExt (g_env s) (envs s) (g_profile_spec s) (g_profile_db s) (modules s) (functions s) p (g_qprofile s)
        (mem_entries s) (conns_lost s).
Definition add_modules (s : Ext) (db : dbid) (ns : list (list Z)) : Ext :=
  mkExt (g_env s) (envs s) (g_profile_spec s) (g_profile_db s) (modules s ++ ((fun n => (db, n)) <$> ns)) (functions s)
        (g_provider s) (g_qprofile s) (mem_entries s) (conns_lost s).
Definition add_functions (s : Ext) (db : dbid) (ns : list (list Z)) : Ext :=
  mkExt (g_env s) (envs s) (g_profile_spec s) (g_profile_db s) (modules s) (functions s ++ ((fun n => (db, n)) <$> ns))
        (g_provider s) (g_qprofile s) (mem_entries s) (conns_lost s).

(** [vms_cred_set_provider] *)
Definition vms_cred_set_provider (p : provider_ptr) (s : Ext) : Ext := with_provider s p.

(** What the host and the allocator answer during one call. *)
Record ExtAnswers := mkExtAnswers {
  xa_create : list Z -> bool;                   (* registration of a name *)
  xa_getenv : option (list Z);                  (* VMS_TEST_PROFILE *)
  xa_dup : bool;                                (* memory of the profile parser *)
  xa_block : bool;
  xa_cache : bool;                              (* vms_meta_cache_open *)
  xa_pool : bool
}.

(** ** The environment *)

Definition vms_vtab_env_create (a : ExtAnswers) (p : VmsProfile) : VmsError + EnvObj :=
  let oom m := inl (default err_zero (vms_error_set (Some err_zero) VMS_ERR_NO_MEMORY None 0 (fun _ => str m))) in
  if negb (xa_block a) then oom "OOM vtab env"
  else if negb (xa_pool a) then oom "OOM vtab pool"
  else inr (mkEnvObj p (xa_cache a) None).

(** The connection of an open transaction is rolled back and forgotten, not
    closed. *)
Definition vms_vtab_env_destroy (e : option eid) (s : Ext) : cres Ext :=
  match e with
  | None => Ret s
  | Some e =>
      match envs s !! e with
      | None => Fault UseAfterFree
      | Some o =>
          Ret (mkExt (g_env s) (delete e (envs s)) (g_profile_spec s) (g_profile_db s) (modules s) (functions s)
                     (g_provider s) (g_qprofile s) (mem_entries s) (conns_lost s ++ option_list (eo_txn o)))
      end
  end.

Definition module_name : list Z := str "virtualmssql".

(** The pointer is stored before the host is asked. *)
Definition vms_vtab_register (a : ExtAnswers) (db : dbid) (e : eid) (s : Ext) : Ext * bool :=
  let s := with_env s (Some e) (envs s) in
  if xa_create a module_name then (add_modules s db [module_name], true) else (s, false).

Section Init.
Context `{StrictConv}.

(** [e] is the address of the new environment; the error text is [None] on
    success, the inner [None] when no text was stored. *)
Definition vms_vtab_env_init (a : ExtAnswers) (db : dbid) (e : eid) (s : Ext) : cres (Ext * option (option (list Z))) :=
  let spec := match g_profile_spec s with [] => xa_getenv a | sp => Some sp end in
  match spec with
  | None | Some [] =>
      Ret (s, Some (Some (str "virtualmssql: no connection profile; call virtualmssql_profile('server=...;auth=...;cred=...') first")))
  | Some sp =>
      match vms_profile_parse (xa_dup a) (Some sp) with
      | inl err => Ret (s, Some (Some (str "virtualmssql: bad profile: " ++ message err)))
      | inr p =>
          match vms_vtab_env_create a p with
          | inl err => Ret (s, Some (Some (str "virtualmssql: env init failed: " ++ message err)))
          | inr o =>
              let s := with_env s (g_env s) (<[e := o]> (envs s)) in
              let '(s, ok) := vms_vtab_register a db e s in
              if ok then Ret (s, None)
              else s ← vms_vtab_env_destroy (Some e) s; Ret (s, Some None)
          end
      end
  end.

(** ** The SQL functions *)

(** The result of a function: an error text, or a value ([None] is NULL). *)
Definition sql_result : Type := list Z + option Z.

(** The argument is [None] when it is not a text. *)
Definition profile_set_func (a : ExtAnswers) (e : eid) (arg : option (list Z)) (s : Ext) : cres (Ext * sql_result) :=
  match arg with
  | None => Ret (s, inl (str "virtualmssql_profile expects a text profile"))
  | Some t =>
      let s := with_spec s (trunc_copy 1024 t) in
      match g_profile_db s with
      | None => Ret (s, inr None)
      | Some db =>
          '(s, err) ← vms_vtab_env_init a db e s;
          match err with
          | Some m => Ret (s, inl (default (str "virtualmssql: env init failed") m))
          | None => Ret (with_profile_db s None, inr None)
          end
      end
  end.
End Init.

(** [mem] is the memory of the credential entry. *)
Definition cred_set_func `{Win32Text} (mem : bool) (args : list (option (list Z))) (s : Ext) : cres (Ext * sql_result) :=
  match args with
  | [Some k; Some sec] =>
      match mb2wc k, mb2wc sec with
      | Some wk, Some ws =>
          if (zlen wk <? 256) && (zlen ws <? 512) then
            '(ok, es) ← vms_cred_memory_set mem wk ws (mem_entries s);
            let s := mkExt (g_env s) (envs s) (g_profile_spec s) (g_profile_db s) (modules s) (functions s)
                           (g_provider s) (g_qprofile s) es (conns_lost s) in
            Ret (s, if ok : bool then inr None else inl (str "virtualmssql_cred: registration failed"))
          else Ret (s, inl (str "virtualmssql_cred: conversion failed"))
      | _, _ => Ret (s, inl (str "virtualmssql_cred: conversion failed"))
      end
  | _ => Ret (s, inl (str "virtualmssql_cred(key, secret) expects two texts"))
  end.

(** Any text installs the Windows provider. *)
Definition register_cred_provider_func (arg : option (list Z)) (s : Ext) : Ext * sql_result :=
  match arg with
  | None => (s, inl (str "virtualmssql_register_credential_provider expects a text value"))
  | Some _ => (vms_cred_set_provider PWincred s, inr (Some 0))
  end.

Definition register_qprofile_provider_func : sql_result :=
  inl (str "virtualmssql_register_query_profile_provider requires the C ABI (SQL-level registration is not supported)").

Definition VIRTUALMSSQL_API_VERSION : Z := 1.
Definition VMS_QPROFILE_PROVIDER_ABI_VERSION : Z := 1.
Definition virtualmssql_api_version : Z := VIRTUALMSSQL_API_VERSION.

(** ** The C interface *)

Definition virtualmssql_register_credential_provider (p : option VmsCredProviderV1) (s : Ext) : Ext * Z :=
  match p with
  | Some q => if vms_cred_provider_valid p then (vms_cred_set_provider (PHost q) s, 0) else (s, 1)
  | None => (s, 1)
  end.

Definition qprofile_valid (p : option QProfile) : bool :=
  match p with
  | Some q => (qp_abi q =? VMS_QPROFILE_PROVIDER_ABI_VERSION) && bool_decide (is_Some (qp_name q)) &&
              match qp_get q with Some _ => true | None => false end
  | None => false
  end.

Definition virtualmssql_register_query_profile_provider (p : option QProfile) (s : Ext) : Ext * Z :=
  if qprofile_valid p then
    (mkExt (g_env s) (envs s) (g_profile_spec s) (g_profile_db s) (modules s) (functions s) (g_provider s) p
           (mem_entries s) (conns_lost s), 0)
  else (s, 1).

(** 0 and the resolved text, 1 for an unknown key, 2 without a provider. *)
Definition vms_ext_resolve_qprofile (key : list Z) (s : Ext) : Z * option (list Z) :=
  match g_qprofile s with
  | None => (2, None)
  | Some q => match (f ← qp_get q; f key) with Some r => (0, Some r) | None => (1, None) end
  end.

(** ** Loading *)

Definition function_names : list (list Z) :=
  str <$> ["virtualmssql_version"; "virtualmssql_profile"; "virtualmssql_cred"; "virtualmssql_cancel";
           "virtualmssql_api_version"; "virtualmssql_wincred_provider"; "virtualmssql_register_credential_provider";
           "virtualmssql_register_query_profile_provider"]%string.

Definition stub_name : list Z := str "virtualmssql_stub".

(** [true] is SQLITE_OK. *)
Definition sqlite3_virtualmssql_init_impl `{StrictConv} (a : ExtAnswers) (version : Z) (db : dbid) (e : eid) (s : Ext) :
    cres (Ext * bool) :=
  let s := vms_cred_set_provider PMemory s in
  match vms_check_host_capabilities version with
  | VMS_CAP_SQLITE_TOO_OLD => Ret (s, false)
  | VMS_CAP_OK =>
      if negb (xa_create a stub_name) then Ret (s, false)
      else
        let s := add_modules s db [stub_name] in
        let '(fs, ok) := register_names (xa_create a) function_names in
        let s := add_functions s db fs in
        if negb ok then Ret (s, false)
        else
          s ← (if bool_decide (g_profile_spec s <> []) || bool_decide (is_Some (xa_getenv a)) then
                 '(s, err) ← vms_vtab_env_init a db e s;
                 Ret (match err with Some _ => with_profile_db s (Some db) | None => s end)
               else Ret (with_profile_db s (Some db)));
          let '(ms, ok) := vms_schema_register_all (xa_create a) in
          Ret (add_modules s db ms, ok)
  end.

(** ** Registration and the environment *)

Section Contract.
Context `{StrictConv}.

(** The three outcomes of preparing the environment: nothing changed and an
    error; the module is registered and uses a new environment with the parsed
    profile; the host refused the module. *)
Lemma env_init_spec a db e s :
  envs s !! e = None ->
  (exists m, vms_vtab_env_init a db e s = Ret (s, Some (Some m))) \/
  (exists sp p, vms_profile_parse (xa_dup a) (Some sp) = inr p /\
     sp = match g_profile_spec s with [] => default [] (xa_getenv a) | t => t end /\
     let o := mkEnvObj p (xa_cache a) None in
     vms_vtab_env_init a db e s =
       if xa_create a module_name then
         Ret (add_modules (with_env s (Some e) (<[e := o]> (envs s))) db [module_name], None)
       else Ret (with_env s (Some e) (envs s), Some None)).
Proof.
  intros He. unfold vms_vtab_env_init.
  destruct (match g_profile_spec s with [] => xa_getenv a | _ => _ end) as [[|c sp]|] eqn:Es; [left; by eexists| |left; by eexists].
  destruct (vms_profile_parse (xa_dup a) (Some (c :: sp))) as [err|p] eqn:Ep; [left; by eexists|].
  unfold vms_vtab_env_create. destruct (xa_block a); cbn [negb]; [|left; by eexists].
  destruct (xa_pool a); cbn [negb]; [|left; by eexists]. right. exists (c :: sp), p. split_and!; [done| |].
  { destruct (g_profile_spec s); [by rewrite Es|congruence]. }
  cbn. unfold vms_vtab_register. cbn. destruct (xa_create a module_name); [done|].
  cbn. rewrite lookup_insert_eq. unfold with_env. cbn. by rewrite delete_insert_id, app_nil_r by done.
Qed.

(** Calls of the SQL functions and of the C interface, and loads into any
    database; [P] restricts the answers. *)
Inductive ext_step `{Win32Text} (P : ExtAnswers -> Prop) : Ext -> Ext -> Prop :=
| xs_load a v db e s s' ok :
    P a -> envs s !! e = None -> sqlite3_virtualmssql_init_impl a v db e s = Ret (s', ok) -> ext_step P s s'
| xs_profile a e arg s s' r :
    P a -> envs s !! e = None -> profile_set_func a e arg s = Ret (s', r) -> ext_step P s s'
| xs_cred mem args s s' r : cred_set_func mem args s = Ret (s', r) -> ext_step P s s'
| xs_sql_provider arg s s' r : register_cred_provider_func arg s = (s', r) -> ext_step P s s'
| xs_provider p s s' r : virtualmssql_register_credential_provider p s = (s', r) -> ext_step P s s'
| xs_qprofile p s s' r : virtualmssql_register_query_profile_provider p s = (s', r) -> ext_step P s s'.

(** Tables of a registered module find a live environment, whose profile came
    out of the parser. *)
Record ext_inv (s : Ext) : Prop := mkExtInv {
  xi_env : forall db, (db, module_name) ∈ modules s -> exists e o, g_env s = Some e /\ envs s !! e = Some o;
  xi_profile : forall e o, envs s !! e = Some o -> exists d sp, vms_profile_parse d (Some sp) = inr (eo_profile o)
}.

(** The invariant looks at the modules and the environments only; further
    modules must not be the module itself. *)
Lemma ext_inv_frame s s' :
  ext_inv s -> g_env s' = g_env s -> envs s' = envs s ->
  (forall db, (db, module_name) ∈ modules s' -> exists db', (db', module_name) ∈ modules s) -> ext_inv s'.
Proof.
  intros [He Hp] Eg Ee Em. constructor; rewrite ?Eg, ?Ee; [|done]. intros db [db' Hdb]%Em. by eapply He.
Qed.

Lemma other_modules s db ns :
  module_name ∉ ns ->
  forall db0, (db0, module_name) ∈ modules s ++ ((fun n => (db, n)) <$> ns) -> exists db', (db', module_name) ∈ modules s.
Proof.
  intros Hn db0 [Hin|(n & [= -> <-] & Hin)%list_elem_of_fmap]%elem_of_app; [by exists db0|done].
Qed.

Lemma env_init_inv a db e s s' r :
  xa_create a module_name = true -> envs s !! e = None -> ext_inv s ->
  vms_vtab_env_init a db e s = Ret (s', r) -> ext_inv s'.
Proof.
  intros Hc He [Hi Hp] H1. destruct (env_init_spec a db e s He) as [[m Hm]|(sp & p & Hparse & _ & Hm)]; rewrite Hm in H1.
  - by injection H1 as <- _.
  - rewrite Hc in H1. injection H1 as <- _. constructor; cbn.
    + intros _ _. exists e. eexists. by rewrite lookup_insert_eq.
    + intros e' o. destruct (decide (e' = e)) as [->|Hne].
      * rewrite lookup_insert_eq. intros [= <-]. by exists (xa_dup a), sp.
      * rewrite lookup_insert_ne by done. apply Hp.
Qed.

Lemma names_not_module : module_name ∉ [stub_name] /\ module_name ∉ (fst <$> si_module_names).
Proof. split; vm_compute; intros Hin; repeat (apply elem_of_cons in Hin as [?|Hin]; [done|]); by apply not_elem_of_nil in Hin. Qed.

Lemma register_names_sub create names done ok x :
  register_names create names = (done, ok) -> x ∈ done -> x ∈ names.
Proof. intros [_ [r ->]]%register_names_ok Hx. apply elem_of_app. by left. Qed.

(** The state before the environment is prepared: providers, the stub module
    and the functions. *)
Definition loaded_functions (s : Ext) (db : dbid) (fs : list (list Z)) : Ext :=
  add_functions (add_modules (vms_cred_set_provider PMemory s) db [stub_name]) db fs.

Lemma loaded_functions_inv s db fs : ext_inv s -> ext_inv (loaded_functions s db fs).
Proof. intros Hi. eapply ext_inv_frame; [done..|]. exact (other_modules s db [stub_name] (proj1 names_not_module)). Qed.

Lemma load_inv a v db e s s' ok :
  xa_create a module_name = true -> envs s !! e = None -> ext_inv s ->
  sqlite3_virtualmssql_init_impl a v db e s = Ret (s', ok) -> ext_inv s'.
Proof.
  intros Hc He Hi H1. unfold sqlite3_virtualmssql_init_impl in H1.
  assert (Hm : ext_inv (vms_cred_set_provider PMemory s)) by (by eapply ext_inv_frame; [..|intros ? ?; eexists]).
  destruct (vms_check_host_capabilities v); [|by injection H1 as <- _].
  destruct (xa_create a stub_name); cbn [negb] in H1; [|by injection H1 as <- _].
  destruct (register_names (xa_create a) function_names) as [fs okf].
  pose proof (loaded_functions_inv s db fs Hi) as Hf. fold (loaded_functions s db fs) in H1.
  destruct okf; cbn [negb] in H1; [|by injection H1 as <- _].
  apply bind_ret_inv in H1 as (s2 & Hx & H1).
  assert (Hi2 : ext_inv s2).
  { destruct (_ || _).
    - apply bind_ret_inv in Hx as ([s1 r] & Hx & H2). injection H2 as <-.
      pose proof (env_init_inv a db e (loaded_functions s db fs) s1 r Hc He Hf Hx) as H1'.
      destruct r; [|done]. by eapply ext_inv_frame; [..|intros ? ?; eexists].
    - injection Hx as <-. by eapply ext_inv_frame; [..|intros ? ?; eexists]. }
  destruct (vms_schema_register_all (xa_create a)) as [ms okm] eqn:Er. injection H1 as <- _.
  eapply ext_inv_frame; [done..|]. refine (other_modules s2 db ms _). intros Hin.
  apply (register_names_sub _ _ _ _ _ Er) in Hin. by apply names_not_module.
Qed.

Lemma ext_step_inv `{Win32Text} s s' :
  ext_inv s -> ext_step (fun a => xa_create a module_name = true) s s' -> ext_inv s'.
Proof.
  intros Hi Hst. destruct Hst as [a v db e s s' ok Hc He H1|a e arg s s' r Hc He H1|mem args s s' r H1|arg s s' r H1|p s s' r H1|p s s' r H1].
  - by eapply load_inv.
  - unfold profile_set_func in H1. destruct arg as [t|]; [|by injection H1 as <- _].
    assert (Hs : ext_inv (with_spec s (trunc_copy 1024 t))) by (by eapply ext_inv_frame; [..|intros ? ?; eexists]).
    destruct (g_profile_db (with_spec s (trunc_copy 1024 t))) as [db|]; [|by injection H1 as <- _].
    apply bind_ret_inv in H1 as ([s1 err] & Hx & H1).
    pose proof (env_init_inv a db e (with_spec s (trunc_copy 1024 t)) s1 err Hc He Hs Hx) as H1'. destruct err; injection H1 as <- _; [done|].
    by eapply ext_inv_frame; [..|intros ? ?; eexists].
  - unfold cred_set_func in H1. inv_ret; try done; by eapply ext_inv_frame; [..|intros ? ?; eexists].
  - unfold register_cred_provider_func in H1. destruct arg; injection H1 as <- _; [|done].
    by eapply ext_inv_frame; [..|intros ? ?; eexists].
  - unfold virtualmssql_register_credential_provider in H1. repeat case_match; injection H1 as <- _; try done.
    by eapply ext_inv_frame; [..|intros ? ?; eexists].
  - unfold virtualmssql_register_query_profile_provider in H1. case_match; injection H1 as <- _; [|done].
    by eapply ext_inv_frame; [..|intros ? ?; eexists].
Qed.

(** [C15]: whatever databases load the extension and whatever functions are
    called, in any order, the tables of the module find their environment:
    as long as the host accepts the module, the environment that connected
    tables use exists whenever the module is registered somewhere, and its
    profile is one the profile parser accepted. *)
Theorem ext_env_live `{Win32Text} s :
  rtc (ext_step (fun a => xa_create a module_name = true)) ext_start s ->
  (forall db, (db, module_name) ∈ modules s -> exists e o, g_env s = Some e /\ envs s !! e = Some o) /\
  (forall e o, envs s !! e = Some o -> exists d sp, vms_profile_parse d (Some sp) = inr (eo_profile o)).
Proof.
  intros Hr. assert (Hi : ext_inv s); [|by destruct Hi]. revert Hr.
  apply (rtc_ind_r ext_inv); [|intros; by eapply ext_step_inv].
  constructor; cbn; [by intros db Hin%not_elem_of_nil|]. intros e o Ho. by rewrite lookup_empty in Ho.
Qed.

(** What a load leaves behind when every registration before the environment
    succeeds. *)
Lemma load_decompose a v db e s :
  VMS_SQLITE_BASELINE <= v -> xa_create a stub_name = true ->
  forall fs, register_names (xa_create a) function_names = (fs, true) -> envs s !! e = None ->
  exists s2 ms okm, vms_schema_register_all (xa_create a) = (ms, okm) /\
    sqlite3_virtualmssql_init_impl a v db e s = Ret (add_modules s2 db ms, okm) /\
    functions s2 = functions s ++ ((fun n => (db, n)) <$> fs) /\ (db, stub_name) ∈ modules s2 /\
    ((db, module_name) ∈ modules s2 \/ g_profile_db s2 = Some db).
Proof.
  intros Hv Hst fs Hfs He. unfold sqlite3_virtualmssql_init_impl, vms_check_host_capabilities.
  rewrite (proj2 (Z.ltb_ge _ _) Hv), Hst, Hfs. cbn [negb]. fold (loaded_functions s db fs).
  destruct (vms_schema_register_all (xa_create a)) as [ms okm].
  assert (Hstub : (db, stub_name) ∈ modules (loaded_functions s db fs)).
  { cbn. apply elem_of_app. right. by left. }
  assert (Hlazy : exists s2, Ret (with_profile_db (loaded_functions s db fs) (Some db)) = Ret s2 /\
    functions s2 = functions s ++ ((fun n => (db, n)) <$> fs) /\ (db, stub_name) ∈ modules s2 /\
    ((db, module_name) ∈ modules s2 \/ g_profile_db s2 = Some db)).
  { eexists. split_and!; [done|done|done|]. by right. }
  destruct (_ || _).
  2: { destruct Hlazy as (s2 & [= <-] & ? & ? & ?). eexists _, ms, okm. cbn [mbind cres_bind]. by split_and!. }
  destruct (env_init_spec a db e (loaded_functions s db fs) He) as [[m ->]|(sp & p & _ & _ & ->)].
  { destruct Hlazy as (s2 & [= <-] & ? & ? & ?). eexists _, ms, okm. cbn [mbind cres_bind]. by split_and!. }
  destruct (xa_create a module_name); cbn [mbind cres_bind]; eexists _, ms, okm; (split_and!; [done|done|done| |]).
  - cbn. apply elem_of_app. left. apply elem_of_app. right. by left.
  - left. cbn. apply elem_of_app. right. by left.
  - cbn. apply elem_of_app. right. by left.
  - by right.
Qed.

Lemma register_names_all create names :
  snd (register_names create names) = true <-> forall n, n ∈ names -> create n = true.
Proof.
  induction names as [|n names IH]; cbn [register_names].
  { split; [by intros _ n ?%not_elem_of_nil|done]. }
  destruct (create n) eqn:E.
  - destruct (register_names create names) as [d o]. cbn in *. rewrite IH. split.
    + intros Hn m [->|Hm]%elem_of_cons; [done|by apply Hn].
    + intros Hn m Hm. apply Hn. by right.
  - split; [done|]. intros Hn. rewrite Hn in E by (by left). done.
Qed.

(** Everything the load registers besides the module. *)
Definition fixed_names : list (list Z) := stub_name :: function_names ++ (fst <$> si_module_names).

(** A load that stops before the environment. *)
Lemma load_stops a v db e s :
  (v < VMS_SQLITE_BASELINE \/ xa_create a stub_name = false \/ snd (register_names (xa_create a) function_names) = false) ->
  exists s', sqlite3_virtualmssql_init_impl a v db e s = Ret (s', false) /\
    (v < VMS_SQLITE_BASELINE -> modules s' = modules s /\ functions s' = functions s) /\
    ~ (VMS_SQLITE_BASELINE <= v /\ forall n, n ∈ fixed_names -> xa_create a n = true).
Proof.
  intros Hcase. unfold sqlite3_virtualmssql_init_impl, vms_check_host_capabilities.
  destruct (v <? VMS_SQLITE_BASELINE) eqn:Hv; b2p; [eexists; split_and!; [done|done|lia]|].
  destruct (xa_create a stub_name) eqn:Est; cbn [negb].
  2: { eexists. split_and!; [done|lia|]. intros [_ Hn]. by rewrite Hn in Est by left. }
  pose proof (register_names_all (xa_create a) function_names) as Hall.
  destruct (register_names (xa_create a) function_names) as [fs okf]. cbn [snd] in *.
  destruct okf; [destruct Hcase as [?|[?|?]]; [lia|done|done]|]. cbn [negb].
  eexists. split_and!; [done|lia|]. intros [_ Hn]. enough (false = true) by done. apply Hall. intros n Hin. apply Hn.
  right. apply elem_of_app. by left.
Qed.

Lemma load_completes a v db e s fs :
  VMS_SQLITE_BASELINE <= v -> xa_create a stub_name = true -> envs s !! e = None ->
  register_names (xa_create a) function_names = (fs, true) ->
  exists s' ok, sqlite3_virtualmssql_init_impl a v db e s = Ret (s', ok) /\
    (ok = true <-> VMS_SQLITE_BASELINE <= v /\ forall n, n ∈ fixed_names -> xa_create a n = true) /\
    (ok = true ->
      (forall n, n ∈ function_names -> (db, n) ∈ functions s') /\
      (forall n, n ∈ stub_name :: (fst <$> si_module_names) -> (db, n) ∈ modules s') /\
      ((db, module_name) ∈ modules s' \/ g_profile_db s' = Some db)).
Proof.
  intros Hv Est He Ef. pose proof (register_names_all (xa_create a) function_names) as Hall. rewrite Ef in Hall. cbn [snd] in Hall.
  destruct (load_decompose a v db e s Hv Est fs Ef He) as (s2 & ms & okm & Hms & -> & Hf2 & Hst & Hm).
  exists (add_modules s2 db ms), okm. split_and!; [done| |].
  - pose proof (register_names_all (xa_create a) (fst <$> si_module_names)) as Hall2.
    unfold vms_schema_register_all in Hms. rewrite Hms in Hall2. cbn [snd] in Hall2. rewrite Hall2. unfold fixed_names. split.
    + intros Hn. split; [done|]. intros n [->|[Hin|Hin]%elem_of_app]%elem_of_cons; [done|by apply Hall|by apply Hn].
    + intros [_ Hn] n Hin. apply Hn. right. apply elem_of_app. by right.
  - intros ->. apply register_names_ok in Hms as [[Hms _] _]. specialize (Hms eq_refl) as ->.
    apply register_names_ok in Ef as [[Ef _] _]. specialize (Ef eq_refl) as ->. cbn [functions modules add_modules g_profile_db].
    rewrite Hf2. split_and!.
    + intros n Hn. apply elem_of_app. right. by apply list_elem_of_fmap_2.
    + intros n [->|Hn]%elem_of_cons; apply elem_of_app; [by left|right]. by apply (list_elem_of_fmap_2 (fun n => (db, n))).
    + destruct Hm as [Hm|Hm]; [left; apply elem_of_app; by left|by right].
Qed.

Lemma profile_registers a db e s t p :
  envs s !! e = None -> g_profile_db s = Some db -> t <> [] ->
  vms_profile_parse (xa_dup a) (Some (trunc_copy 1024 t)) = inr p ->
  xa_block a = true -> xa_pool a = true -> xa_create a module_name = true ->
  exists s', profile_set_func a e (Some t) s = Ret (s', inr None) /\ (db, module_name) ∈ modules s' /\
    g_env s' = Some e /\ envs s' !! e = Some (mkEnvObj p (xa_cache a) None) /\ g_profile_db s' = None.
Proof.
  intros He Hdb Ht Hp Hb Hpl Hc. unfold profile_set_func. cbn [g_profile_db with_spec]. rewrite Hdb.
  unfold vms_vtab_env_init, vms_vtab_env_create. cbn [g_profile_spec with_spec].
  destruct (trunc_copy 1024 t) as [|c sp] eqn:Et; [destruct t; [done|]; unfold trunc_copy in Et; by cbn in Et|].
  rewrite Hp, Hb, Hpl. cbn [negb]. unfold vms_vtab_register. rewrite Hc. cbn [mbind cres_bind].
  eexists. split; [done|]. cbn. rewrite lookup_insert_eq. split_and!; try done. apply elem_of_app. right. by left.
Qed.

(** [C14]: loading is all or nothing towards old hosts and complete towards new
    ones.  The load never faults; below the required version it registers
    nothing; it reports success exactly when the version suffices and the host
    accepted every function and module; then all of them are registered and
    either the module itself is, or the database is remembered so that the
    next valid profile registers it.  That profile call, with a host that
    accepts the module, registers it for the remembered database with a new
    environment holding the parsed profile. *)
Theorem ext_load_contract a v db e s :
  envs s !! e = None ->
  (exists s' ok, sqlite3_virtualmssql_init_impl a v db e s = Ret (s', ok) /\
    (v < VMS_SQLITE_BASELINE -> ok = false /\ modules s' = modules s /\ functions s' = functions s) /\
    (ok = true <-> VMS_SQLITE_BASELINE <= v /\ forall n, n ∈ fixed_names -> xa_create a n = true) /\
    (ok = true ->
      (forall n, n ∈ function_names -> (db, n) ∈ functions s') /\
      (forall n, n ∈ stub_name :: (fst <$> si_module_names) -> (db, n) ∈ modules s') /\
      ((db, module_name) ∈ modules s' \/ g_profile_db s' = Some db))) /\
  (forall t p, g_profile_db s = Some db -> t <> [] ->
     vms_profile_parse (xa_dup a) (Some (trunc_copy 1024 t)) = inr p ->
     xa_block a = true -> xa_pool a = true -> xa_create a module_name = true ->
     exists s', profile_set_func a e (Some t) s = Ret (s', inr None) /\ (db, module_name) ∈ modules s' /\
       g_env s' = Some e /\ envs s' !! e = Some (mkEnvObj p (xa_cache a) None) /\ g_profile_db s' = None).
Proof.
  intros He. split; [|intros t p Hdb Ht Hp Hb Hpl Hc; by apply profile_registers].
  assert (Hd : (v < VMS_SQLITE_BASELINE \/ xa_create a stub_name = false \/
                snd (register_names (xa_create a) function_names) = false) \/
               (VMS_SQLITE_BASELINE <= v /\ xa_create a stub_name = true /\
                exists fs, register_names (xa_create a) function_names = (fs, true))).
  { destruct (Z.lt_ge_cases v VMS_SQLITE_BASELINE); [by do 2 left|]. destruct (xa_create a stub_name); [|left; right; by left].
    destruct (register_names _ _) as [fs [|]]; [right|left; do 2 right; done]. split_and!; [done..|by exists fs]. }
  destruct Hd as [Hd|(Hv & Est & fs & Ef)].
  - destruct (load_stops a v db e s Hd) as (s' & -> & Hs & Hn). exists s', false. split_and!; [done|by intros ?%Hs| |done].
    split; [done|by intros ?%Hn].
  - destruct (load_completes a v db e s fs Hv Est He Ef) as (s' & ok & -> & Hk & Hok). exists s', ok. split_and!; [done|lia|done|done].
Qed.
End Contract.

(** ** The objects of the module *)

(** What a connected table owns: a query source, a snapshot, the write
    context with its lease, the write context of transactions, the columns. *)
Inductive vtab_part : Type := VpQuerySource | VpMat | VpDmlConn | VpDml | VpDmlTxn | VpCols | VpTab.

#[global] Instance vtab_part_eq_dec : EqDecision vtab_part.
Proof. solve_decision. Defined.

Record TabPtrs := mkTabPtrs {
  tp_query_source : bool;
  tp_mat : bool;
  tp_dml : option bool;                         (* with a connection? *)
  tp_dml_txn : bool;
  tp_cols : bool
}.

(** The parts in the order [vms_vtab_disconnect] releases them; the
    connection of the transaction context is not among them. *)
Definition vms_vtab_disconnect (t : TabPtrs) : list vtab_part :=
  (if tp_query_source t then [VpQuerySource] else []) ++
  (if tp_mat t then [VpMat] else []) ++
  (match tp_dml t with Some true => [VpDmlConn; VpDml] | Some false => [VpDml] | None => [] end) ++
  (if tp_dml_txn t then [VpDmlTxn] else []) ++ (if tp_cols t then [VpCols] else []) ++ [VpTab].

(** Each part a table owns is released exactly once, the connection of the
    write context before the context, the table last. *)
Lemma disconnect_releases t :
  NoDup (vms_vtab_disconnect t) /\ last (vms_vtab_disconnect t) = Some VpTab /\
  (VpQuerySource ∈ vms_vtab_disconnect t <-> tp_query_source t = true) /\
  (VpMat ∈ vms_vtab_disconnect t <-> tp_mat t = true) /\
  (VpDml ∈ vms_vtab_disconnect t <-> is_Some (tp_dml t)) /\
  (VpDmlConn ∈ vms_vtab_disconnect t <-> tp_dml t = Some true) /\
  (VpDmlTxn ∈ vms_vtab_disconnect t <-> tp_dml_txn t = true) /\ (VpCols ∈ vms_vtab_disconnect t <-> tp_cols t = true).
Proof.
  destruct t as [[] [] [[]|] [] []]; unfold vms_vtab_disconnect; cbn [tp_query_source tp_mat tp_dml tp_dml_txn tp_cols app];
    (split; [apply (bool_decide_unpack _); vm_compute; exact I|]); (split; [done|]);
    repeat split; intros Hx; try done;
    try (apply (bool_decide_unpack _); vm_compute; exact I);
    try (by apply (bool_decide_pack _) in Hx; vm_compute in Hx); try (by destruct Hx).
Qed.

(** A cursor of the module: the remote cursor and the snapshot statement. *)
Record CursorObj := mkCursorObj { cu_remote : bool; cu_snapshot : bool }.

Definition vms_vtab_open (alloc : bool) : option CursorObj := if alloc then Some (mkCursorObj false false) else None.

Inductive cursor_part : Type := CpRemote | CpSnapshot | CpCursor.

Definition vms_vtab_close (c : CursorObj) : list cursor_part :=
  (if cu_remote c then [CpRemote] else []) ++ (if cu_snapshot c then [CpSnapshot] else []) ++ [CpCursor].

(** ** The stub module *)

(** The cursor of the stub is its end mark. *)
Definition stub_connect (alloc declare : bool) : bool + list Z :=
  if negb alloc then inl false else if negb declare then inl true else inr (str "CREATE TABLE x(msg TEXT)").
Definition stub_open (alloc : bool) : option bool := if alloc then Some true else None.
Definition stub_filter (_ : bool) : bool := true.
Definition stub_next (_ : bool) : bool := true.
Definition stub_eof (c : bool) : bool := c.
Definition stub_rowid (_ : bool) : Z := 0.
Definition stub_column (col : Z) : option (list Z) := if col =? 0 then Some (str "vms-stub") else None.
Definition stub_best_index : Z * Z := (1000000, 25).

Definition version_func : list Z := str "VirtualMSSQL 0.1.0-r1".

(** ** Examples *)

Definition accept_all : ExtAnswers := mkExtAnswers (fun _ => true) None true true true true.
Definition demo_spec : list Z := str "server=db1,1433;db=sales;cred=k1;login_timeout=5;app=app".

(** A first database loads the extension and sets its profile; a second one
    loads it and the host refuses the module there. *)
Definition refuse_module : ExtAnswers :=
  mkExtAnswers (fun n => negb (str_eqb n module_name)) None true true true true.

Definition first_loaded : cres (Ext * bool) :=
  @sqlite3_virtualmssql_init_impl IdStrictConv accept_all 3045000 1%nat 10%nat ext_start.

Definition get {A} (d : A) (m : cres A) : A := match m with Ret a => a | Fault _ => d end.

Definition profiled : Ext :=
  fst (get (ext_start, inr None) (@profile_set_func IdStrictConv accept_all 10%nat (Some demo_spec) (fst (get (ext_start, false) first_loaded)))).

Definition second_refused : Ext :=
  fst (get (ext_start, false) (@sqlite3_virtualmssql_init_impl IdStrictConv refuse_module 3045000 2%nat 20%nat profiled)).

(** The pointer to the environment dangles: the tables of the first database
    use it. *)
Lemma refused_module_dangles :
  (1%nat, module_name) ∈ modules second_refused /\ g_env second_refused = Some 20%nat /\
  envs second_refused !! 20%nat = None.
Proof.
  split_and!; [|vm_compute; reflexivity..]. apply (bool_decide_unpack _). vm_compute. exact I.
Qed.

(** A profile that is set after the module was registered is stored and not
    used. *)
Lemma later_profile_ignored :
  exists s, @profile_set_func IdStrictConv accept_all 30%nat (Some (str "server=other;auth=windows")) profiled = Ret (s, inr None) /\
    g_env s = g_env profiled /\ envs s = envs profiled.
Proof. eexists. split; [vm_compute; reflexivity|]. by split; vm_compute. Qed.

(** The refusal of an old host has already replaced the credential
    provider. *)
Lemma old_host_resets_provider `{StrictConv} a v db e s :
  v < VMS_SQLITE_BASELINE -> exists s', sqlite3_virtualmssql_init_impl a v db e s = Ret (s', false) /\ g_provider s' = PMemory.
Proof.
  intros Hv. unfold sqlite3_virtualmssql_init_impl, vms_check_host_capabilities.
  rewrite (proj2 (Z.ltb_lt _ _) Hv). by eexists.
Qed.

Definition plain_text : Win32Text := {| mb2wc := Some; wc2mb := Some |}.

Lemma profiled_reached :
  rtc (@ext_step IdStrictConv plain_text (fun a => xa_create a module_name = true)) ext_start profiled.
Proof.
  eapply rtc_l.
  { eapply (@xs_load IdStrictConv plain_text _ accept_all 3045000 1%nat 10%nat ext_start (fst (get (ext_start, false) first_loaded)));
      [done|done|vm_compute; reflexivity]. }
  eapply rtc_l; [|apply rtc_refl].
  eapply (@xs_profile IdStrictConv plain_text _ accept_all 10%nat (Some demo_spec)); [done|done|vm_compute; reflexivity].
Qed.

Lemma ext_env_live_witness :
  exists e o, g_env profiled = Some e /\ envs profiled !! e = Some o.
Proof.
  apply (proj1 (@ext_env_live IdStrictConv plain_text profiled profiled_reached) 1%nat).
  apply (bool_decide_unpack _). vm_compute. exact I.
Defined.

Lemma ext_load_contract_witness :
  exists s', @profile_set_func IdStrictConv accept_all 10%nat (Some demo_spec) (fst (get (ext_start, false) first_loaded)) =
    Ret (s', inr None).
Proof.
  destruct (proj2 (@ext_load_contract IdStrictConv accept_all 3045000 1%nat 10%nat (fst (get (ext_start, false) first_loaded)) eq_refl)
    demo_spec demo_profile) as (s' & H & _); try (vm_compute; reflexivity); [discriminate|by exists s'].
Defined.
