(* ===== verification/Probe.v ===== *)
(** * The feasibility probe: results, report, options, connection string
      (src/tools/vms-odbc-probe/src: util.c, report.c, diag.c, env.c, main.c)

    The probe runs groups of experiments against a server and records one case
    per experiment.  This file models the table of cases and what is reported
    of it, the command line, the search for the driver, the diagnostics of a
    failed call and the connection string; [ProbeCases] models the groups. *)

From S2P Require Import Prelude Foundation Config Support.

#[local] Arguments str : simpl never.

(** ** The table of cases *)

Inductive ProbeStatus : Type := PROBE_PASS | PROBE_FAIL | PROBE_SKIP.

#[global] Instance ProbeStatus_eq_dec : EqDecision ProbeStatus.
Proof. solve_decision. Defined.

Record ProbeDiag := mkPDiag {
  pd_sqlstate : list Z;
  pd_native : Z;
  pd_message : list Z;
  pd_present : bool
}.

(** The field [seconds] is never assigned. *)
Record ProbeCase := mkCase {
  pc_group : list Z;
  pc_name : list Z;
  pc_status : ProbeStatus;
  pc_detail : list Z;
  pc_diag : ProbeDiag
}.

Definition PROBE_MAX_CASES : Z := 512.

Definition status_name (s : ProbeStatus) : list Z :=
  match s with PROBE_PASS => str "PASS" | PROBE_FAIL => str "FAIL" | PROBE_SKIP => str "SKIP" end.

Definition diag_reset : ProbeDiag := mkPDiag (str "00000") 0 [] false.

(** The cases up to [case_count], and the lines of the log. *)
Record Table := mkTable { t_cases : list ProbeCase; t_log : list (list Z) }.

Definition case_count (t : Table) : Z := zlen (t_cases t).

Definition logf_ctx (line : list Z) (t : Table) : Table := mkTable (t_cases t) (t_log t ++ [line]).

Definition case_line (c : ProbeCase) : list Z :=
  str "[" ++ status_name (pc_status c) ++ str "] " ++ pc_group c ++ str "/" ++ pc_name c ++
  match pc_detail c with [] => [] | d => str ": " ++ d end.

(** [detail] is the formatted text, [None] for a NULL format. *)
Definition case_add (group name : list Z) (st : ProbeStatus) (detail : option (list Z)) (t : Table) : Table :=
  if case_count t >=? PROBE_MAX_CASES then t
  else
    let c := mkCase group name st (match detail with Some d => trunc_copy 2048 d | None => [] end) diag_reset in
    logf_ctx (case_line c) (mkTable (t_cases t ++ [c]) (t_log t)).

Definition set_case (index : Z) (f : ProbeCase -> ProbeCase) (t : Table) : Table :=
  mkTable (alter f (Z.to_nat index) (t_cases t)) (t_log t).

Definition case_set_status (index : Z) (st : ProbeStatus) (detail : option (list Z)) (t : Table) : Table :=
  if (index <? 0) || (index >=? case_count t) then t
  else
    match t_cases t !! Z.to_nat index with
    | Some c =>
        let c' := mkCase (pc_group c) (pc_name c) st
                    (match detail with Some d => trunc_copy 2048 d | None => pc_detail c end) (pc_diag c) in
        logf_ctx (case_line c') (set_case index (fun _ => c') t)
    | None => t
    end.

(** [ctx->cases[idx].diag = diag], as every group writes it: the index is not
    checked against the array.  A slot past the count holds nothing yet. *)
Definition case_set_diag (index : Z) (d : ProbeDiag) (t : Table) : cres Table :=
  if (index <? 0) || (index >=? PROBE_MAX_CASES) then Fault OobWrite
  else Ret (set_case index (fun c => mkCase (pc_group c) (pc_name c) (pc_status c) (pc_detail c) d) t).

(** ** The report *)

Definition hexdigit (d : Z) : Z := if d <? 10 then 48 + d else 87 + d.

Definition quote : Z := 34.
Definition backslash : Z := 92.

(** The bytes that one byte is written as. *)
Definition json_escape_char (ch : Z) : list Z :=
  if (ch =? quote) || (ch =? backslash) then [backslash; ch]
  else if ch <? 32 then str "\u" ++ [48; 48; hexdigit (ch / 16); hexdigit (ch mod 16)]
  else [ch].

(** [out] is what has been written; six bytes and the terminator always fit
    when the test of the loop succeeds, so the bounded print is never cut. *)
Fixpoint json_escape_loop (input out : list Z) (outsz : Z) : list Z :=
  match input with
  | [] => out
  | ch :: r => if zlen out + 6 <? outsz then json_escape_loop r (out ++ json_escape_char ch) outsz else out
  end.

Definition json_escape (input : list Z) (outsz : Z) : list Z := json_escape_loop input [] outsz.

Definition count_status (s : ProbeStatus) (cs : list ProbeCase) : Z :=
  zlen (filter (fun c => pc_status c = s) cs).

Definition json_quoted (s : list Z) : list Z := quote :: s ++ [quote].
Definition json_key (k : list Z) : list Z := json_quoted k ++ str ": ".
Definition nl : list Z := [10].

Definition ESC_SIZE : Z := 4096.

Definition case_json (c : ProbeCase) : list Z :=
  str "    {" ++ json_key (str "group") ++ json_quoted (json_escape (pc_group c) ESC_SIZE) ++ str ", " ++
  json_key (str "name") ++ json_quoted (json_escape (pc_name c) ESC_SIZE) ++ str ", " ++
  json_key (str "status") ++ json_quoted (status_name (pc_status c)) ++ str ", " ++
  json_key (str "detail") ++ json_quoted (json_escape (pc_detail c) ESC_SIZE) ++
  (if pd_present (pc_diag c) then
     str ", " ++ json_key (str "sqlstate") ++ json_quoted (json_escape (pd_sqlstate (pc_diag c)) ESC_SIZE) ++
     str ", " ++ json_key (str "native") ++ print_i (pd_native (pc_diag c)) ++
     str ", " ++ json_key (str "message") ++ json_quoted (json_escape (pd_message (pc_diag c)) ESC_SIZE)
   else []) ++ str "}".

Fixpoint cases_json (cs : list ProbeCase) : list Z :=
  match cs with
  | [] => []
  | [c] => case_json c ++ nl
  | c :: r => case_json c ++ str "," ++ nl ++ cases_json r
  end.

(** [opened] is the opening of the file; [None] when nothing is written. *)
Definition report_json (opened driver_present : bool) (t : Table) : option (list Z) * Table :=
  if negb opened then (None, logf_ctx (str "report: cannot open JSON output") t)
  else
    (Some (str "{" ++ nl ++ str "  " ++ json_key (str "driver18_present") ++
           (if driver_present then str "true" else str "false") ++ str "," ++ nl ++
           str "  " ++ json_key (str "summary") ++ str "{" ++
           json_key (str "pass") ++ print_i (count_status PROBE_PASS (t_cases t)) ++ str ", " ++
           json_key (str "fail") ++ print_i (count_status PROBE_FAIL (t_cases t)) ++ str ", " ++
           json_key (str "skip") ++ print_i (count_status PROBE_SKIP (t_cases t)) ++ str "}," ++ nl ++
           str "  " ++ json_key (str "cases") ++ str "[" ++ nl ++
           cases_json (t_cases t) ++ str "  ]" ++ nl ++ str "}" ++ nl),
     logf_ctx (str "report: JSON written") t).

Definition summary_lines (c : ProbeCase) : list (list Z) :=
  match pc_status c with
  | PROBE_FAIL =>
      (str "  FAIL " ++ pc_group c ++ str "/" ++ pc_name c ++ str ": " ++ pc_detail c) ::
      (if pd_present (pc_diag c) then
         [str "       " ++ pd_sqlstate (pc_diag c) ++ str " (" ++ print_i (pd_native (pc_diag c)) ++ str "): " ++ pd_message (pc_diag c)]
       else [])
  | _ => []
  end.

Definition report_summary (t : Table) : Table :=
  mkTable (t_cases t)
    (t_log t ++
     [str "==== SUMMARY ====";
      str "PASS=" ++ print_i (count_status PROBE_PASS (t_cases t)) ++ str " FAIL=" ++ print_i (count_status PROBE_FAIL (t_cases t)) ++
      str " SKIP=" ++ print_i (count_status PROBE_SKIP (t_cases t)) ++ str " TOTAL=" ++ print_i (case_count t)] ++
     flat_map summary_lines (t_cases t)).

(** The loop at the end of [main]. *)
Definition exit_code (t : Table) : Z :=
  if existsb (fun c => bool_decide (pc_status c = PROBE_FAIL)) (t_cases t) then 1 else 0.

(** ** The command line *)

(** [strtoll] in base 10: the saturated value and the rest of the text, which
    is all of it when there is no numeral. *)
Definition strtoll (s : list Z) : Z * list Z :=
  let s1 := snd (span isspace s) in
  let '(neg, s2) :=
    match s1 with
    | c :: r => if c =? chr "-" then (true, r) else if c =? chr "+" then (false, r) else (false, s1)
    | [] => (false, [])
    end in
  let '(ds, rest) := span isdigit s2 in
  match ds with
  | [] => (0, s)
  | _ =>
      let v := foldl digit_step 0 ds in
      (if neg then Z.max INT64_MIN (- v) else Z.min INT64_MAX v, rest)
  end.

(** The result, and what [*out] holds afterwards: a numeral with a tail is
    refused after its value has been stored. *)
Definition parse_ll (s : option (list Z)) (out : Z) : bool * Z :=
  match s with
  | None | Some [] => (false, out)
  | Some s => let '(v, rest) := strtoll s in (match rest with [] => true | _ => false end, v)
  end.

Record ProbeConfig := mkPCfg {
  cfg_server : option (list Z);
  cfg_database : option (list Z);
  cfg_sql_user : option (list Z);
  cfg_sql_password : option (list Z);
  cfg_login_timeout : Z;
  cfg_query_timeout : Z;
  cfg_extra_connstr : option (list Z);
  cfg_only_group : option (list Z);
  cfg_stream_rows : Z;
  cfg_param_ceiling_max : Z;
  cfg_json_path : option (list Z);
  cfg_log_path : option (list Z)
}.

Definition cfg_defaults : ProbeConfig :=
  mkPCfg None None None None 10 0 None None 1000000 0 (Some (str "probe-results.json")) (Some (str "probe.log")).

(** The options that take a value ([None] when the command line ends). *)
Inductive ValueOption : Type :=
| OServer | ODatabase | OSqlUser | OSqlPassword | OLoginTimeout | OQueryTimeout
| OExtra | OOnly | OStreamRows | OParamCeiling | OJson | OLog.

Definition set_option (o : ValueOption) (v : option (list Z)) (c : ProbeConfig) : ProbeConfig :=
  let '(mkPCfg sv db us pw lt qt ex og sr pc js lg) := c in
  match o with
  | OServer => mkPCfg v db us pw lt qt ex og sr pc js lg
  | ODatabase => mkPCfg sv v us pw lt qt ex og sr pc js lg
  | OSqlUser => mkPCfg sv db v pw lt qt ex og sr pc js lg
  | OSqlPassword => mkPCfg sv db us v lt qt ex og sr pc js lg
  | OLoginTimeout =>
      let '(ok, n) := parse_ll v 0 in mkPCfg sv db us pw (if ok then wrap_i32 n else lt) qt ex og sr pc js lg
  | OQueryTimeout =>
      let '(ok, n) := parse_ll v 0 in mkPCfg sv db us pw lt (if ok then wrap_i32 n else qt) ex og sr pc js lg
  | OExtra => mkPCfg sv db us pw lt qt v og sr pc js lg
  | OOnly => mkPCfg sv db us pw lt qt ex v sr pc js lg
  | OStreamRows => mkPCfg sv db us pw lt qt ex og (snd (parse_ll v 0)) pc js lg
  | OParamCeiling => mkPCfg sv db us pw lt qt ex og sr (snd (parse_ll v 0)) js lg
  | OJson => mkPCfg sv db us pw lt qt ex og sr pc v lg
  | OLog => mkPCfg sv db us pw lt qt ex og sr pc js v
  end.

Definition option_names : list (list Z * ValueOption) :=
  [(str "--server", OServer); (str "--database", ODatabase); (str "--sql-user", OSqlUser);
   (str "--sql-password", OSqlPassword); (str "--login-timeout", OLoginTimeout);
   (str "--query-timeout", OQueryTimeout); (str "--extra-connstr", OExtra); (str "--only", OOnly);
   (str "--stream-rows", OStreamRows); (str "--param-ceiling-max", OParamCeiling);
   (str "--json", OJson); (str "--log", OLog)].

Definition value_option (a : list Z) : option ValueOption :=
  snd <$> List.find (fun p => str_eqb a (fst p)) option_names.

(** [inl] is an immediate exit with its code. *)
Fixpoint probe_args (args : list (list Z)) (c : ProbeConfig) : Z + ProbeConfig :=
  match args with
  | [] => inr c
  | a :: r =>
      match value_option a with
      | Some o => match r with [] => inr (set_option o None c) | v :: r' => probe_args r' (set_option o (Some v) c) end
      | None =>
          if str_eqb a (str "--windows-auth") then probe_args r c
          else if str_eqb a (str "--help") || str_eqb a (str "-h") then inl 0
          else inl 2
      end
  end.

(** The options and the check that there is a server. *)
Definition probe_config (args : list (list Z)) : Z + ProbeConfig :=
  match probe_args args cfg_defaults with
  | inl code => inl code
  | inr c => match cfg_server c with None | Some [] => inl 2 | Some _ => inr c end
  end.

(** ** Driver, diagnostics and connection string *)

Section Env.
Context `{Win32Text}.
(** Outcome of an allocation of so many bytes. *)
Variable alloc : Z -> bool.

(** [WideCharToMultiByte] into an array of [cap] bytes whose content is then
    read up to a terminator, the result of the call being ignored. *)
Definition narrow (cap : Z) (w : list Z) : cres (list Z) :=
  match wc2mb w with
  | Some u => if zlen u <? cap then Ret u else Fault OobRead
  | None => Fault OobRead
  end.

(** Every driver is looked at, and named in the log. *)
Fixpoint driver_detect_loop (drivers : list (list Z)) (found : bool) (t : Table) : cres (bool * Table) :=
  match drivers with
  | [] => Ret (found, t)
  | name :: rest =>
      u ← narrow 512 name;
      if contains driver_name u then driver_detect_loop rest true (logf_ctx (str "driver: found '" ++ u ++ str "'") t)
      else driver_detect_loop rest found (logf_ctx (str "driver: available '" ++ u ++ str "'") t)
  end.

Definition driver_detect (drivers : list (list Z)) (t : Table) : cres (bool * Table) :=
  match driver_detect_loop drivers false t with
  | Ret (found, t) => Ret (found, if found then t else logf_ctx (str "driver: 'ODBC Driver 18 for SQL Server' NOT installed") t)
  | Fault f => Fault f
  end.

(** The first record of the driver for a handle: state, native code, text. *)
Definition DiagRec : Type := list Z * Z * list Z.

Definition blank_line_ends (m : list Z) : list Z := map (fun c => if (c =? 13) || (c =? 10) then 32 else c) m.

Definition probe_diag_capture (handle : bool) (rec : option DiagRec) : cres ProbeDiag :=
  if negb handle then Ret diag_reset
  else match rec with
       | None => Ret diag_reset
       | Some (state, native, msg) =>
           s ← narrow 6 state; m ← narrow 1024 msg;
           Ret (mkPDiag s native (blank_line_ends m) true)
       end.

(** The dynamic wide buffer; [None] after a failed allocation. *)
Record WBuf := mkWB { wb_s : option (list Z); wb_cap : Z }.

Definition wbuf_init : WBuf := mkWB (if alloc 512 then Some [] else None) 256.

(** Sixty-four doublings exceed every size. *)
Definition wbuf_add (add : list Z) (b : WBuf) : WBuf :=
  match wb_s b with
  | None => b
  | Some s =>
      let need := zlen s + zlen add + 1 in
      if need >? wb_cap b then
        let ncap := double_until 64 need (wb_cap b * 2) in
        if alloc (ncap * 2) then mkWB (Some (s ++ add)) ncap else mkWB None (wb_cap b)
      else mkWB (Some (s ++ add)) (wb_cap b)
  end.

(** The conversion block that precedes every variable part: the temporary
    buffer is not checked, and its address is read as a string. *)
Definition wbuf_add_utf8 (u : list Z) (b : WBuf) : cres WBuf :=
  match mb2wc u with
  | None => Ret b
  | Some w => if alloc ((zlen w + 1) * 2) then Ret (wbuf_add w b) else Fault OobRead
  end.

Definition host_char (c : Z) : bool := negb ((c =? chr ":") || (c =? chr "/")).

(** The text after the first colon. *)
Fixpoint after_colon (s : list Z) : option (list Z) :=
  match s with [] => None | c :: r => if c =? chr ":" then Some r else after_colon r end.

Definition server_host (server : list Z) : list Z := fst (span host_char (take 511 server)).

(** The second search of the source, for a colon behind a slash, finds nothing
    when the first found none. *)
Definition server_port (server : list Z) : list Z :=
  match after_colon server with
  | Some p => trunc_copy 16 (str "," ++ print_i (atoi p))
  | None => []
  end.

Definition wbuf_add_server (server : list Z) (b : WBuf) : cres WBuf :=
  b ← wbuf_add_utf8 (server_host server) (wbuf_add (str "Server=") b);
  let b := match after_colon server with Some _ => wbuf_add (server_port server) b | None => b end in
  Ret (wbuf_add (str ";") b).

Definition given (s : option (list Z)) : option (list Z) := match s with Some [] => None | _ => s end.

Definition tls_part (tls_mode : list Z) : option (list Z) :=
  if str_eqb tls_mode (str "verify") then Some (str "Encrypt=Yes;TrustServerCertificate=No;")
  else if str_eqb tls_mode (str "trust_server_certificate") then Some (str "Encrypt=Yes;TrustServerCertificate=Yes;")
  else if str_eqb tls_mode (str "optional") then Some (str "Encrypt=Optional;TrustServerCertificate=No;")
  else if str_eqb tls_mode (str "strict") then Some (str "Encrypt=Strict;TrustServerCertificate=No;")
  else None.

Definition add_opt (s : option (list Z)) (b : WBuf) : WBuf := match s with Some s => wbuf_add s b | None => b end.

(** The parameter [extra] is not used. *)
Definition connstr_build (c : ProbeConfig) (server auth_mode tls_mode : list Z) (extra : option (list Z)) : cres (list Z) :=
  let b := wbuf_add (str "Driver={ODBC Driver 18 for SQL Server};") wbuf_init in
  b ← wbuf_add_server server b;
  let b := wbuf_add (str ";") b in
  b ← match given (cfg_database c) with
      | Some d => b ← wbuf_add_utf8 d (wbuf_add (str "Database=") b); Ret (wbuf_add (str ";") b)
      | None => Ret b
      end;
  b ← (if str_eqb auth_mode (str "windows") then Ret (wbuf_add (str "Trusted_Connection=Yes;") b)
       else
         b ← wbuf_add_utf8 (default [] (cfg_sql_user c)) (wbuf_add (str "UID=") b);
         b ← wbuf_add_utf8 (default [] (cfg_sql_password c)) (wbuf_add (str ";PWD=") b);
         Ret (wbuf_add (str ";") b));
  let b := add_opt (tls_part tls_mode) b in
  let b := wbuf_add (str "ConnectRetryCount=0;ConnectRetryInterval=1;MARS_Connection=No;") b in
  b ← match given (cfg_extra_connstr c) with
      | Some e => b ← wbuf_add_utf8 e b; Ret (wbuf_add (str ";") b)
      | None => Ret b
      end;
  Ret (default [] (wb_s b)).

End Env.

(** ** Properties of the connection string *)

Section ConnectionString.
Context `{Win32Text}.
Variable alloc : Z -> bool.
Hypothesis alloc_ok : forall n, alloc n = true.
Variable wide : list Z -> list Z.
Hypothesis converts : forall u, mb2wc u = Some (wide u).

(** The text appended so far. *)
Definition holds (s : list Z) (b : WBuf) : Prop := wb_s b = Some s.

Lemma wbuf_add_holds s add b : holds s b -> holds (s ++ add) (wbuf_add alloc add b).
Proof. unfold holds, wbuf_add. intros ->. rewrite alloc_ok. by destruct (_ >? _). Qed.

Lemma wbuf_add_utf8_holds s u b :
  holds s b -> exists b', wbuf_add_utf8 alloc u b = Ret b' /\ holds (s ++ wide u) b'.
Proof.
  intros Hb. unfold wbuf_add_utf8. rewrite converts, alloc_ok. eexists. split; [done|]. by apply wbuf_add_holds.
Qed.

Lemma add_opt_holds s o b : holds s b -> holds (s ++ default [] o) (add_opt alloc o b).
Proof. destruct o; [apply wbuf_add_holds|]. cbn. by rewrite app_nil_r. Qed.

Lemma wbuf_add_server_holds s sv b :
  holds s b ->
  exists b', wbuf_add_server alloc sv b = Ret b' /\
    holds (s ++ str "Server=" ++ wide (server_host sv) ++ server_port sv ++ str ";") b'.
Proof.
  intros Hb. unfold wbuf_add_server.
  destruct (wbuf_add_utf8_holds (s ++ str "Server=") (server_host sv) (wbuf_add alloc (str "Server=") b)) as (b1 & -> & H1);
    [by apply wbuf_add_holds|]. cbn [mbind cres_bind].
  eexists. split; [done|]. rewrite !app_assoc. apply wbuf_add_holds. rewrite <- !app_assoc in *. unfold server_port.
  destruct (after_colon sv); [|by rewrite app_nil_r].
  rewrite !app_assoc in *. by apply wbuf_add_holds.
Qed.

(** What the probe sends: the parts of the configuration, converted, between
    the fixed keys. *)
Definition connstr_text (c : ProbeConfig) (server auth_mode tls_mode : list Z) : list Z :=
  str "Driver={ODBC Driver 18 for SQL Server};" ++
  str "Server=" ++ wide (server_host server) ++ server_port server ++ str ";" ++ str ";" ++
  match given (cfg_database c) with Some d => str "Database=" ++ wide d ++ str ";" | None => [] end ++
  (if str_eqb auth_mode (str "windows") then str "Trusted_Connection=Yes;"
   else str "UID=" ++ wide (default [] (cfg_sql_user c)) ++ str ";PWD=" ++ wide (default [] (cfg_sql_password c)) ++ str ";") ++
  default [] (tls_part tls_mode) ++
  str "ConnectRetryCount=0;ConnectRetryInterval=1;MARS_Connection=No;" ++
  match given (cfg_extra_connstr c) with Some e => wide e ++ str ";" | None => [] end.

Lemma database_holds s d b :
  holds s b ->
  exists b', match d with
      | Some d => b ← wbuf_add_utf8 alloc d (wbuf_add alloc (str "Database=") b); Ret (wbuf_add alloc (str ";") b)
      | None => Ret b
      end = Ret b' /\
    holds (s ++ match d with Some d => str "Database=" ++ wide d ++ str ";" | None => [] end) b'.
Proof.
  intros Hb. destruct d as [d|]; [|exists b; by rewrite app_nil_r].
  destruct (wbuf_add_utf8_holds (s ++ str "Database=") d (wbuf_add alloc (str "Database=") b)) as (b1 & -> & H1);
    [by apply wbuf_add_holds|]. cbn [mbind cres_bind]. eexists. split; [done|].
  rewrite !app_assoc. by apply wbuf_add_holds.
Qed.

Lemma login_holds s c auth b :
  holds s b ->
  exists b', (if str_eqb auth (str "windows") then Ret (wbuf_add alloc (str "Trusted_Connection=Yes;") b)
       else
         b ← wbuf_add_utf8 alloc (default [] (cfg_sql_user c)) (wbuf_add alloc (str "UID=") b);
         b ← wbuf_add_utf8 alloc (default [] (cfg_sql_password c)) (wbuf_add alloc (str ";PWD=") b);
         Ret (wbuf_add alloc (str ";") b)) = Ret b' /\
    holds (s ++ if str_eqb auth (str "windows") then str "Trusted_Connection=Yes;"
     else str "UID=" ++ wide (default [] (cfg_sql_user c)) ++ str ";PWD=" ++ wide (default [] (cfg_sql_password c)) ++ str ";") b'.
Proof.
  intros Hb. destruct (str_eqb auth _); [eexists; split; [done|]; by apply wbuf_add_holds|].
  destruct (wbuf_add_utf8_holds (s ++ str "UID=") (default [] (cfg_sql_user c)) (wbuf_add alloc (str "UID=") b))
    as (b1 & -> & H1); [by apply wbuf_add_holds|]. cbn [mbind cres_bind].
  destruct (wbuf_add_utf8_holds (((s ++ str "UID=") ++ wide (default [] (cfg_sql_user c))) ++ str ";PWD=")
    (default [] (cfg_sql_password c)) (wbuf_add alloc (str ";PWD=") b1)) as (b2 & -> & H2); [by apply wbuf_add_holds|].
  cbn [mbind cres_bind]. eexists. split; [done|]. rewrite !app_assoc in *. by apply wbuf_add_holds.
Qed.

Lemma extra_holds s e b :
  holds s b ->
  exists b', match e with
      | Some e => b ← wbuf_add_utf8 alloc e b; Ret (wbuf_add alloc (str ";") b)
      | None => Ret b
      end = Ret b' /\ holds (s ++ match e with Some e => wide e ++ str ";" | None => [] end) b'.
Proof.
  intros Hb. destruct e as [e|]; [|exists b; by rewrite app_nil_r].
  destruct (wbuf_add_utf8_holds s e b) as (b1 & -> & H1); [done|]. cbn [mbind cres_bind].
  eexists. split; [done|]. rewrite app_assoc. by apply wbuf_add_holds.
Qed.

(** With memory, the buffer grows as needed and the string is that text. *)
Lemma probe_connstr_exact c sv auth tls extra :
  connstr_build alloc c sv auth tls extra = Ret (connstr_text c sv auth tls).
Proof.
  unfold connstr_build.
  destruct (wbuf_add_server_holds (str "Driver={ODBC Driver 18 for SQL Server};") sv
    (wbuf_add alloc (str "Driver={ODBC Driver 18 for SQL Server};") (wbuf_init alloc))) as (b1 & -> & H1).
  { change (str "Driver={ODBC Driver 18 for SQL Server};") with ([] ++ str "Driver={ODBC Driver 18 for SQL Server};").
    apply wbuf_add_holds. unfold holds, wbuf_init. by rewrite alloc_ok. }
  cbn [mbind cres_bind]. apply (wbuf_add_holds _ (str ";")) in H1.
  destruct (database_holds _ (given (cfg_database c)) _ H1) as (b2 & -> & H2). cbn [mbind cres_bind].
  destruct (login_holds _ c auth _ H2) as (b3 & -> & H3). cbn [mbind cres_bind].
  apply (add_opt_holds _ (tls_part tls)) in H3.
  apply (wbuf_add_holds _ (str "ConnectRetryCount=0;ConnectRetryInterval=1;MARS_Connection=No;")) in H3.
  destruct (extra_holds _ (given (cfg_extra_connstr c)) _ H3) as (b4 & -> & H4). cbn [mbind cres_bind].
  rewrite H4. unfold connstr_text. cbn [default]. by rewrite <- !app_assoc.
Qed.

End ConnectionString.

(** ** The report is JSON

    The grammar of JSON texts, with the value each text denotes; a value of
    type [JStr] is the list of its bytes, and an escape for a code unit below
    128 denotes that byte. *)

Inductive json : Type :=
| JBool (b : bool)
| JInt (z : Z)
| JStr (s : list Z)
| JArr (l : list json)
| JObj (l : list (list Z * json)).

Definition hexval (c : Z) : option Z :=
  if isdigit c then Some (c - 48)
  else if (97 <=? c) && (c <=? 102) then Some (c - 87)
  else if (65 <=? c) && (c <=? 70) then Some (c - 55)
  else None.

Inductive json_chars : list Z -> list Z -> Prop :=
| jc_nil : json_chars [] []
| jc_plain c v t : 32 <= c -> c <> quote -> c <> backslash -> json_chars v t -> json_chars (c :: v) (c :: t)
| jc_escape c v t : c = quote \/ c = backslash -> json_chars v t -> json_chars (c :: v) (backslash :: c :: t)
| jc_unicode a b c d x y v t :
    a = 48 -> b = 48 -> hexval c = Some x -> hexval d = Some y -> x < 8 -> json_chars v t ->
    json_chars (16 * x + y :: v) (backslash :: 117 :: a :: b :: c :: d :: t).

Definition json_ws (t : list Z) : Prop := Forall (fun c => c = 32 \/ c = 10) t.

Inductive json_text : json -> list Z -> Prop :=
| jt_bool b : json_text (JBool b) (if b then str "true" else str "false")
| jt_int z : json_text (JInt z) (print_i z)
| jt_str v t : json_chars v t -> json_text (JStr v) (json_quoted t)
| jt_arr l t : json_items l t -> json_text (JArr l) (str "[" ++ t ++ str "]")
| jt_obj l t : json_fields l t -> json_text (JObj l) (str "{" ++ t ++ str "}")
| jt_space j a t b : json_ws a -> json_ws b -> json_text j t -> json_text j (a ++ t ++ b)
with json_items : list json -> list Z -> Prop :=
| ji_nil t : json_ws t -> json_items [] t
| ji_one j t : json_text j t -> json_items [j] t
| ji_cons j l t u : json_text j t -> json_items l u -> l <> [] -> json_items (j :: l) (t ++ str "," ++ u)
with json_fields : list (list Z * json) -> list Z -> Prop :=
| jf_one k j a kt b c t :
    json_ws a -> json_chars k kt -> json_ws b -> json_text j t -> json_ws c ->
    json_fields [(k, j)] (a ++ json_quoted kt ++ str ":" ++ b ++ t ++ c)
| jf_cons k j l a kt b t u :
    json_ws a -> json_chars k kt -> json_ws b -> json_text j t -> json_fields l u ->
    json_fields ((k, j) :: l) (a ++ json_quoted kt ++ str ":" ++ b ++ t ++ str "," ++ u).

(** A text denotes one string. *)
Lemma json_chars_fun v t : json_chars v t -> forall v', json_chars v' t -> v' = v.
Proof.
  induction 1; intros v' H'; inversion H'; subst; unfold quote, backslash in *;
    try congruence; try lia; f_equal; auto; congruence.
Qed.

(** How much of a string is kept: bytes are taken while six more fit. *)
Fixpoint json_kept (input : list Z) (o outsz : Z) : list Z :=
  match input with
  | [] => []
  | ch :: r => if o + 6 <? outsz then ch :: json_kept r (o + zlen (json_escape_char ch)) outsz else []
  end.

Lemma json_escape_loop_app input : forall out outsz,
  json_escape_loop input out outsz = out ++ flat_map json_escape_char (json_kept input (zlen out) outsz).
Proof.
  induction input as [|ch r IH]; intros out outsz; cbn [json_escape_loop json_kept flat_map]; [by rewrite app_nil_r|].
  destruct (_ <? _); [|by rewrite app_nil_r]. rewrite IH. cbn [flat_map]. by rewrite <- app_assoc, zlen_app.
Qed.

Lemma json_escape_kept input outsz : json_escape input outsz = flat_map json_escape_char (json_kept input 0 outsz).
Proof. unfold json_escape. by rewrite json_escape_loop_app. Qed.

Lemma json_kept_prefix input : forall o outsz, json_kept input o outsz `prefix_of` input.
Proof.
  induction input as [|ch r IH]; intros o outsz; cbn [json_kept]; [done|].
  destruct (_ <? _); [|apply prefix_nil]. apply prefix_cons, IH.
Qed.

Lemma json_escape_char_length ch : 1 <= zlen (json_escape_char ch) <= 6.
Proof. unfold json_escape_char. destruct (_ || _); [done|]. by destruct (ch <? 32). Qed.

(** The escaped text and its terminator fit the array. *)
Lemma json_kept_fits input : forall o outsz, 0 <= o < outsz ->
  o + zlen (flat_map json_escape_char (json_kept input o outsz)) < outsz.
Proof.
  induction input as [|ch r IH]; intros o outsz Ho; cbn [json_kept flat_map]; [rewrite zlen_nil; lia|].
  destruct (o + 6 <? outsz) eqn:E; b2p; cbn [flat_map]; [|rewrite zlen_nil; lia].
  pose proof (json_escape_char_length ch). rewrite zlen_app, Z.add_assoc. apply IH. lia.
Qed.

Lemma json_escape_fits input outsz : 0 < outsz -> zlen (json_escape input outsz) < outsz.
Proof. intros. rewrite json_escape_kept. apply (json_kept_fits input 0). lia. Qed.

(** A string is kept whole when its escaped text leaves room for one escape. *)
Lemma json_kept_whole input : forall o outsz,
  o + zlen (flat_map json_escape_char input) + 6 <= outsz -> json_kept input o outsz = input.
Proof.
  induction input as [|ch r IH]; intros o outsz Ho; cbn [json_kept]; [done|].
  cbn [flat_map] in Ho. rewrite zlen_app in Ho. pose proof (json_escape_char_length ch).
  pose proof (zlen_nonneg (flat_map json_escape_char r)).
  rewrite (proj2 (Z.ltb_lt _ _)) by lia. f_equal. apply IH. lia.
Qed.

Lemma hexdigit_value d : 0 <= d < 16 -> hexval (hexdigit d) = Some d.
Proof.
  intros Hd. assert (d ∈ [0;1;2;3;4;5;6;7;8;9;10;11;12;13;14;15]) as Hin by (rewrite !elem_of_cons; lia).
  rewrite !elem_of_cons in Hin. destruct_or! Hin; subst; try done. by apply not_elem_of_nil in Hin.
Qed.

Lemma json_escape_chars v : bytes v -> json_chars v (flat_map json_escape_char v).
Proof.
  induction 1 as [|c v Hc Hv IH]; [constructor|]. cbn [flat_map]. unfold json_escape_char.
  destruct ((c =? quote) || (c =? backslash)) eqn:E; b2p.
  - apply jc_escape; [|done]. destruct E as [E|E]; b2p; auto.
  - destruct (c <? 32) eqn:E2; b2p; [|by constructor].
    unfold in_u8 in Hc. replace c with (16 * (c / 16) + c mod 16) at 1 by (symmetry; apply Z.div_mod; lia).
    pose proof (Z.mod_pos_bound c 16). assert (0 <= c / 16 < 2) by (split; [apply Z.div_pos|apply Z.div_lt_upper_bound]; lia).
    change (str "\u") with [92; 117]. cbn [app]. apply jc_unicode; try done; try lia; apply hexdigit_value; lia.
Qed.

(** The string that the report holds of [s]. *)
Definition reported (s : list Z) : list Z := json_kept s 0 ESC_SIZE.

Definition case_value (c : ProbeCase) : json :=
  JObj ([(str "group", JStr (reported (pc_group c))); (str "name", JStr (reported (pc_name c)));
         (str "status", JStr (status_name (pc_status c))); (str "detail", JStr (reported (pc_detail c)))] ++
        if pd_present (pc_diag c) then
          [(str "sqlstate", JStr (reported (pd_sqlstate (pc_diag c)))); (str "native", JInt (pd_native (pc_diag c)));
           (str "message", JStr (reported (pd_message (pc_diag c))))]
        else []).

Definition report_value (driver_present : bool) (cs : list ProbeCase) : json :=
  JObj [(str "driver18_present", JBool driver_present);
        (str "summary", JObj [(str "pass", JInt (count_status PROBE_PASS cs));
                              (str "fail", JInt (count_status PROBE_FAIL cs));
                              (str "skip", JInt (count_status PROBE_SKIP cs))]);
        (str "cases", JArr (map case_value cs))].

Definition case_bytes (c : ProbeCase) : Prop :=
  bytes (pc_group c) /\ bytes (pc_name c) /\ bytes (pc_detail c) /\
  bytes (pd_sqlstate (pc_diag c)) /\ bytes (pd_message (pc_diag c)).

(** A literal without quotes, backslashes and control bytes is its own text. *)
Definition unescaped (s : list Z) : bool := forallb (fun c => (32 <=? c) && negb (c =? quote) && negb (c =? backslash)) s.

Lemma plain_chars s : unescaped s = true -> json_chars s s.
Proof.
  induction s as [|c s IH]; cbn [unescaped forallb]; [constructor|].
  intros [[[H1 H2]%andb_prop H3]%andb_prop Hs]%andb_prop. b2p. constructor; auto.
Qed.

Lemma reported_str s : bytes s -> json_text (JStr (reported s)) (json_quoted (json_escape s ESC_SIZE)).
Proof.
  intros Hs. rewrite json_escape_kept. apply jt_str, json_escape_chars.
  destruct (json_kept_prefix s 0 ESC_SIZE) as [r Hr]. unfold bytes in *. rewrite Hr in Hs. by apply Forall_app in Hs as [? _].
Qed.

Lemma ws_spaces s : forallb (fun c => (c =? 32) || (c =? 10)) s = true -> json_ws s.
Proof.
  intros H. apply Forall_forall. intros c Hc%list_elem_of_In. rewrite forallb_forall in H. specialize (H c Hc).
  apply orb_prop in H as [?%Z.eqb_eq|?%Z.eqb_eq]; auto.
Qed.

(** Members separated by a comma and a space, as the report writes them. *)
Fixpoint members (l : list (list Z * list Z)) : list Z :=
  match l with
  | [] => []
  | [(k, t)] => json_key k ++ t
  | (k, t) :: r => json_key k ++ t ++ str ", " ++ members r
  end.

Lemma key_text k t : json_key k ++ t = json_quoted k ++ str ":" ++ [32] ++ t.
Proof. unfold json_key. by rewrite <- !app_assoc. Qed.

Lemma field_one k j a t c :
  json_ws a -> unescaped k = true -> json_text j t -> json_ws c -> json_fields [(k, j)] (a ++ json_key k ++ t ++ c).
Proof.
  intros Ha Hk Ht Hc. rewrite key_text. apply (jf_one k j a k [32] c t); auto using plain_chars. by apply ws_spaces.
Qed.

Lemma field_cons k j l a t u :
  json_ws a -> unescaped k = true -> json_text j t -> json_fields l u ->
  json_fields ((k, j) :: l) (a ++ json_key k ++ t ++ str "," ++ u).
Proof.
  intros Ha Hk Ht Hc. rewrite key_text. apply (jf_cons k j l a k [32] t u); auto using plain_chars. by apply ws_spaces.
Qed.

Lemma members_fields js : forall ts a,
  js <> [] -> json_ws a ->
  Forall2 (fun kj kt => fst kj = fst kt /\ unescaped (fst kj) = true /\ json_text (snd kj) (snd kt)) js ts ->
  json_fields js (a ++ members ts).
Proof.
  induction js as [|[k j] js IH]; intros ts a Hn Ha Hf; [done|].
  apply Forall2_cons_inv_l in Hf as ([k' t] & ts' & (Hk & Hp & Ht) & Hf & ->). cbn [fst snd] in *. subst k'.
  destruct js as [|kj js].
  - apply Forall2_nil_inv_l in Hf as ->. cbn [members]. rewrite <- (app_nil_r t). apply field_one; try done. constructor.
  - destruct ts' as [|kt ts']; [by apply Forall2_nil_inv_r in Hf|].
    change (members ((k, t) :: kt :: ts')) with (json_key k ++ t ++ str "," ++ ([32] ++ members (kt :: ts'))).
    apply field_cons; try done. apply IH; [done|by apply ws_spaces|done].
Qed.

Definition case_members (c : ProbeCase) : list (list Z * list Z) :=
  [(str "group", json_quoted (json_escape (pc_group c) ESC_SIZE)); (str "name", json_quoted (json_escape (pc_name c) ESC_SIZE));
   (str "status", json_quoted (status_name (pc_status c))); (str "detail", json_quoted (json_escape (pc_detail c) ESC_SIZE))] ++
  if pd_present (pc_diag c) then
    [(str "sqlstate", json_quoted (json_escape (pd_sqlstate (pc_diag c)) ESC_SIZE)); (str "native", print_i (pd_native (pc_diag c)));
     (str "message", json_quoted (json_escape (pd_message (pc_diag c)) ESC_SIZE))]
  else [].

Lemma case_json_members c : case_json c = str "    " ++ (str "{" ++ members (case_members c) ++ str "}") ++ [].
Proof.
  unfold case_json, case_members. change (str "    {") with (str "    " ++ str "{"). rewrite app_nil_r.
  destruct (pd_present (pc_diag c)); cbn [app members]; by rewrite <- ?app_assoc.
Qed.

Lemma case_json_text c a b :
  case_bytes c -> json_ws a -> json_ws b -> json_text (case_value c) (a ++ case_json c ++ b).
Proof.
  intros (Hg & Hn & Hd & Hs & Hm) Ha Hb. rewrite case_json_members. apply jt_space; [done..|].
  apply jt_space; [by apply ws_spaces|constructor|]. apply jt_obj.
  rewrite <- (app_nil_l (members _)). apply members_fields; [done|constructor|]. unfold case_members.
  assert (json_text (JStr (status_name (pc_status c))) (json_quoted (status_name (pc_status c))))
    by (apply jt_str, plain_chars; by destruct (pc_status c)).
  apply Forall2_app; [|destruct (pd_present _)]; repeat (apply Forall2_cons; split; [split_and!|]);
    cbn [fst snd]; auto using reported_str, jt_int; constructor.
Qed.

Lemma cases_json_text cs a b :
  Forall case_bytes cs -> json_ws a -> json_ws b -> json_items (map case_value cs) (a ++ cases_json cs ++ b).
Proof.
  intros Hcs Ha Hb. revert a Ha. induction Hcs as [|c cs Hc Hcs IH]; intros a Ha.
  - apply ji_nil. cbn. by apply Forall_app.
  - destruct cs as [|c' cs].
    + cbn [cases_json map]. rewrite <- app_assoc. apply ji_one, case_json_text; [done..|].
      apply Forall_app. split; [by apply ws_spaces|done].
    + change (cases_json (c :: c' :: cs)) with (case_json c ++ str "," ++ nl ++ cases_json (c' :: cs)).
      rewrite <- (app_nil_r (case_json c)), <- !app_assoc, (app_assoc a), (app_assoc _ []), <- (app_assoc a).
      apply ji_cons; [apply case_json_text; [done..|constructor]| |done].
      apply IH. by apply ws_spaces.
Qed.

(** The counts of the report add up to the number of cases. *)
Lemma count_status_total cs :
  count_status PROBE_PASS cs + count_status PROBE_FAIL cs + count_status PROBE_SKIP cs = zlen cs.
Proof.
  unfold count_status. induction cs as [|c cs IH]; [done|].
  rewrite !filter_cons, zlen_cons. destruct (pc_status c) eqn:E; repeat case_decide; try done; rewrite ?zlen_cons; lia.
Qed.

Lemma summary_text p f s :
  json_text (JObj [(str "pass", JInt p); (str "fail", JInt f); (str "skip", JInt s)])
    (str "{" ++ members [(str "pass", print_i p); (str "fail", print_i f); (str "skip", print_i s)] ++ str "}").
Proof.
  apply jt_obj. rewrite <- (app_nil_l (members _)). apply members_fields; [done|constructor|].
  repeat constructor.
Qed.

Lemma array_text cs :
  Forall case_bytes cs ->
  json_text (JArr (map case_value cs)) (str "[" ++ (nl ++ cases_json cs ++ str "  ") ++ str "]").
Proof. intros Hcs. apply jt_arr, cases_json_text; [done|by apply ws_spaces..]. Qed.

(** Grouping of the text of the report along the grammar. *)
Lemma report_text_grouped d t :
  fst (report_json true d t) =
  Some ([] ++ (str "{" ++
    ((nl ++ str "  ") ++ json_key (str "driver18_present") ++ (if d then str "true" else str "false") ++ str "," ++
     ((nl ++ str "  ") ++ json_key (str "summary") ++
      (str "{" ++ members [(str "pass", print_i (count_status PROBE_PASS (t_cases t)));
                           (str "fail", print_i (count_status PROBE_FAIL (t_cases t)));
                           (str "skip", print_i (count_status PROBE_SKIP (t_cases t)))] ++ str "}") ++ str "," ++
      ((nl ++ str "  ") ++ json_key (str "cases") ++ (str "[" ++ (nl ++ cases_json (t_cases t) ++ str "  ") ++ str "]") ++ nl))) ++
    str "}") ++ nl).
Proof.
  unfold report_json. cbn [fst negb members]. f_equal. change (str "}," ) with (str "}" ++ str ",").
  change (str "  ]") with (str "  " ++ str "]"). by rewrite <- ?app_assoc, app_nil_l.
Qed.

(** The file that [report_json] writes is a JSON text, whatever the
    names, details and messages contain: it denotes the driver flag, the
    numbers of passed, failed and skipped cases, which add up to the number of
    cases, and one object per case in order.  A string of a case appears as the
    longest prefix the escape buffer takes, all of it when its escaped form has
    at most 4090 bytes, and the escaped text always fits the buffer. *)
Theorem probe_report_json d t :
  Forall case_bytes (t_cases t) ->
  (exists text, fst (report_json true d t) = Some text /\ json_text (report_value d (t_cases t)) text) /\
  count_status PROBE_PASS (t_cases t) + count_status PROBE_FAIL (t_cases t) + count_status PROBE_SKIP (t_cases t) = case_count t /\
  (forall s, reported s `prefix_of` s /\ zlen (json_escape s ESC_SIZE) < ESC_SIZE /\
     (zlen (flat_map json_escape_char s) <= 4090 -> reported s = s)).
Proof.
  intros Hcs. split; [|split; [apply count_status_total|]].
  - eexists. split; [apply report_text_grouped|]. apply jt_space; [constructor|by apply ws_spaces|]. apply jt_obj.
    apply field_cons; [by apply ws_spaces|done|apply jt_bool|].
    apply field_cons; [by apply ws_spaces|done|apply summary_text|].
    apply field_one; [by apply ws_spaces|done|by apply array_text|by apply ws_spaces].
  - intros s. split; [apply json_kept_prefix|]. split; [by apply json_escape_fits|].
    intros Hs. apply json_kept_whole. unfold ESC_SIZE. lia.
Qed.

(** A failed case whose detail needs escapes. *)
Definition sample_table : Table :=
  case_set_status 0 PROBE_FAIL (Some [quote; 9; backslash; 200]) (case_add (str "tx") (str "setup") PROBE_SKIP None (mkTable [] [])).

Lemma probe_report_json_witness :
  exists text, fst (report_json true true sample_table) = Some text /\ json_text (report_value true (t_cases sample_table)) text.
Proof.
  apply (probe_report_json true sample_table). apply Forall_cons. split; [|constructor].
  unfold case_bytes, bytes. split_and!; repeat (constructor; [vm_compute; split; congruence|]); constructor.
Defined.

Example sample_exit : exit_code sample_table = 1 /\ report_value true (t_cases sample_table) =
  JObj [(str "driver18_present", JBool true);
        (str "summary", JObj [(str "pass", JInt 0); (str "fail", JInt 1); (str "skip", JInt 0)]);
        (str "cases", JArr [JObj [(str "group", JStr (str "tx")); (str "name", JStr (str "setup")); (str "status", JStr (str "FAIL"));
                                  (str "detail", JStr [34; 9; 92; 200])]])].
Proof. by vm_compute. Qed.

(** A detail of control bytes is cut in the report. *)
Example report_cuts_controls : length (reported (replicate 1000 1)) = 682%nat.
Proof. by vm_compute. Qed.

(** ** Exit code, command line, driver *)

(** The exit code is 1 exactly when a case failed. *)
Lemma exit_code_spec t : (exit_code t = 1 <-> Exists (fun c => pc_status c = PROBE_FAIL) (t_cases t)) /\ (exit_code t = 0 \/ exit_code t = 1).
Proof.
  unfold exit_code. destruct (existsb _ _) eqn:E; split; auto.
  - split; [intros _|done]. apply existsb_exists in E as (c & Hc & Hs). apply Exists_exists. exists c.
    split; [by apply list_elem_of_In|]. by apply bool_decide_eq_true in Hs.
  - split; [done|]. intros (c & Hc & Hs)%Exists_exists. exfalso.
    assert (existsb (fun c => bool_decide (pc_status c = PROBE_FAIL)) (t_cases t) = true) as E'.
    { apply existsb_exists. exists c. split; [by apply list_elem_of_In|]. by apply bool_decide_eq_true. }
    congruence.
Qed.

(** A numeral written in decimal is read back; a tail is refused, with the
    value of the numeral left in the variable, which [--stream-rows] and
    [--param-ceiling-max] then use. *)
Lemma parse_ll_print n out : in_i64 n -> 0 <= n -> parse_ll (Some (print_i n)) out = (true, n).
Proof.
  intros Hn H0. unfold parse_ll, print_i. replace (n <? 0) with false by (symmetry; apply Z.ltb_ge; lia).
  pose proof (print_u_isdigit n H0) as Hd. destruct (print_u n) as [|c r] eqn:E; [by apply print_u_nonempty in E|].
  apply Forall_cons in Hd as [Hc Hr]. unfold strtoll.
  assert (isspace c = false /\ c =? chr "-" = false /\ c =? chr "+" = false) as (Hs & Hm & Hp).
  { unfold isdigit in Hc. b2p. unfold isspace. change (chr "-") with 45. change (chr "+") with 43. split_and!; [|lia..].
    apply orb_false_iff. split; [lia|]. apply andb_false_iff. right. lia. }
  cbn [span]. rewrite Hs. cbn [snd]. rewrite Hm, Hp.
  rewrite <- (app_nil_r (c :: r)), (span_all isdigit) by (done || by constructor).
  rewrite <- E, (print_u_value n H0). unfold in_i64 in Hn. f_equal. lia.
Qed.

Example parse_ll_tail : parse_ll (Some (str "12x")) 7 = (false, 12).
Proof. by vm_compute. Qed.

Example rows_of_tail :
  (cfg_stream_rows <$> match probe_config [str "--server"; str "h"; str "--stream-rows"; str "12x"] with inr c => Some c | _ => None end) = Some 12.
Proof. by vm_compute. Qed.

(** An option at the end of the line sets its value to NULL. *)
Example missing_value : probe_config [str "--server"] = inl 2 /\ probe_config [str "--frob"] = inl 2 /\ probe_config [str "-h"] = inl 0.
Proof. by vm_compute. Qed.

(** ** Connection strings of the probe *)

#[local] Instance same_bytes : Win32Text := {| mb2wc := Some; wc2mb := Some |}.

(** The endpoint is split at the colon. *)
Example endpoint_port :
  connstr_build (fun _ => true) (set_option OSqlUser (Some (str "u")) cfg_defaults) (str "host\inst:1433") (str "sql") (str "verify") None =
  Ret (str "Driver={ODBC Driver 18 for SQL Server};Server=host\inst,1433;;UID=u;PWD=;" ++
       str "Encrypt=Yes;TrustServerCertificate=No;ConnectRetryCount=0;ConnectRetryInterval=1;MARS_Connection=No;").
Proof. by vm_compute. Qed.

(** Values are not quoted: a password with a semicolon adds an attribute. *)
Example password_adds_attribute : exists a b,
  connstr_build (fun _ => true) (set_option OSqlPassword (Some (str "x;Encrypt=No")) cfg_defaults) (str "h") (str "sql") (str "verify") None =
  Ret (a ++ str ";PWD=x;Encrypt=No;" ++ b).
Proof.
  exists (str "Driver={ODBC Driver 18 for SQL Server};Server=h;;UID="),
    (str "Encrypt=Yes;TrustServerCertificate=No;ConnectRetryCount=0;ConnectRetryInterval=1;MARS_Connection=No;").
  by vm_compute.
Qed.

(** A message that needs more bytes than the array has is read past its end. *)
Example long_message_reads_on : probe_diag_capture true (Some (str "HY000", 1, replicate 1024 65)) = Fault OobRead.
Proof. by vm_compute. Qed.
