(* ===== verification/ProbeCases.v ===== *)
(** * The feasibility probe: the groups of experiments
      (src/tools/vms-odbc-probe/src: cases_connect.c, cases_exec.c,
      cases_stream.c, cases_cancel.c, cases_tx.c, main.c)

    Every group is a program over the ODBC driver: it allocates handles, makes
    calls whose answers it inspects, records its cases in the table of [Probe]
    and gives the handles back.  The driver is the class [OdbcDriver]; a
    program is a state transformer that ends with a value, breaks the rules of
    the language, or does not end within a number of turns of a loop. *)

From S2P Require Import Prelude Foundation Config Support Probe.

#[local] Arguments str : simpl never.

(** ** The driver *)

Inductive sqlret : Type :=
| SQL_SUCCESS | SQL_SUCCESS_WITH_INFO | SQL_STILL_EXECUTING | SQL_NEED_DATA | SQL_NO_DATA | SQL_ERROR | SQL_INVALID_HANDLE.

Definition sqlret_code (r : sqlret) : Z :=
  match r with
  | SQL_SUCCESS => 0 | SQL_SUCCESS_WITH_INFO => 1 | SQL_STILL_EXECUTING => 2 | SQL_NEED_DATA => 99
  | SQL_NO_DATA => 100 | SQL_ERROR => -1 | SQL_INVALID_HANDLE => -2
  end.

Definition SQL_SUCCEEDED (r : sqlret) : bool :=
  match r with SQL_SUCCESS | SQL_SUCCESS_WITH_INFO => true | _ => false end.

(** What a parameter is bound with: C type, SQL type, column size, decimal
    digits, length of the buffer, length indicator. *)
Record Binding := mkBinding {
  bd_c : Z; bd_sql : Z; bd_size : Z; bd_digits : Z; bd_buflen : Z; bd_ind : Z
}.

Inductive call : Type :=
| AllocDbc
| AllocStmt (dbc : Z)
| FreeHandle (h : Z)
| FreeStmt (st : Z)
| SetConnectAttr (dbc attr value : Z)
| DriverConnect (dbc : Z) (cs : list Z)
| Disconnect (dbc : Z)
| EndTran (dbc : Z) (commit : bool)
| ExecDirect (st : Z) (sql : list Z)
| Prepare (st : Z) (sql : list Z)
| NumParams (st : Z)
| BindParameter (st ix : Z) (b : Binding)
| BindCol (st ix : Z)
| Execute (st : Z)
| Fetch (st : Z)
| GetData (st ix : Z)
| MoreResults (st : Z)
| ParamData (st : Z)
| PutData (st : Z) (chunk : list Z)
| GetDiagRec (h : Z).

(** The return code with what the call stores: a number, a text, a record. *)
Record answer := mkAnswer { a_ret : sqlret; a_num : Z; a_text : list Z; a_rec : option DiagRec }.

(** What a run of the slow query on a second thread, cancelled from the first,
    leaves behind; [jo_started] is the creation of the thread. *)
Record JobOutcome := mkJob {
  jo_started : bool; jo_done : bool; jo_cancelled : bool; jo_ret : sqlret; jo_diag : ProbeDiag; jo_elapsed : Z
}.

Class OdbcDriver := {
  world : Type;
  odbc : call -> world -> answer * world;
  cancel_job : Z -> world -> JobOutcome * world
}.

(** The handle a call is made on. *)
Definition call_handle (c : call) : option Z :=
  match c with
  | AllocDbc => None
  | AllocStmt h | FreeHandle h | FreeStmt h | SetConnectAttr h _ _ | DriverConnect h _ | Disconnect h | EndTran h _
  | ExecDirect h _ | Prepare h _ | NumParams h | BindParameter h _ _ | BindCol h _ | Execute h | Fetch h | GetData h _
  | MoreResults h | ParamData h | PutData h _ | GetDiagRec h => Some h
  end.

(** ** Programs *)

Section Programs.
Context `{OdbcDriver}.

(** The handles that are allocated, each with the connection that owns it
    (none for a connection), the newest first. *)
Record PState := mkPS {
  ps_tab : Table;
  ps_world : world;
  ps_live : list (Z * option Z);
  ps_next : Z
}.

Inductive pres (A : Type) : Type :=
| Done (a : A) (s : PState)
| Broken (f : fault)
| Running.

Definition prog (A : Type) : Type := PState -> pres A.

End Programs.

Arguments Done {_ _} _ _.
Arguments Broken {_ _} _.
Arguments Running {_ _}.

Definition ret `{OdbcDriver} {A} (a : A) : prog A := fun s => Done a s.

Definition pbind `{OdbcDriver} {A B} (m : prog A) (k : A -> prog B) : prog B := fun s =>
  match m s with Done a s' => k a s' | Broken f => Broken f | Running => Running end.

Declare Scope prog_scope.
Delimit Scope prog_scope with prog.
Notation "'let!' x := m 'in' k" := (pbind m (fun x => k)) (at level 200, x pattern, m at level 100, k at level 200) : prog_scope.
Notation "m ;;; k" := (pbind m (fun _ => k)) (at level 101, k at level 200, right associativity) : prog_scope.
#[local] Open Scope prog_scope.

Section Cases.
Context `{OdbcDriver} `{Win32Text} `{Platform}.
Variable alloc : Z -> bool.
Variable cfg : ProbeConfig.
(** Turns given to a loop over answers of the driver. *)
Variable fuel : nat.

Definition modify (f : Table -> Table) : prog unit := fun s =>
  Done () (mkPS (f (ps_tab s)) (ps_world s) (ps_live s) (ps_next s)).

Definition lift {A} (m : cres A) : prog A := fun s => match m with Ret a => Done a s | Fault f => Broken f end.

Definition log (line : list Z) : prog unit := modify (logf_ctx line).
Definition add_case (group name : string) (st : ProbeStatus) (detail : option (list Z)) : prog Z := fun s =>
  Done (case_count (ps_tab s)) (mkPS (case_add (str group) (str name) st detail (ps_tab s)) (ps_world s) (ps_live s) (ps_next s)).
Definition set_status (idx : Z) (st : ProbeStatus) (detail : list Z) : prog unit := modify (case_set_status idx st (Some detail)).

(** A diagnostic that was never assigned is [None]. *)
Definition set_diag (idx : Z) (d : option ProbeDiag) : prog unit := fun s =>
  match d with
  | None => Broken UninitRead
  | Some d =>
      match case_set_diag idx d (ps_tab s) with
      | Ret t => Done () (mkPS t (ps_world s) (ps_live s) (ps_next s))
      | Fault f => Broken f
      end
  end.

Definition is_live (h : Z) (s : PState) : bool := existsb (fun e => fst e =? h) (ps_live s).

(** A call on a handle that is gone is a fault. *)
Definition invoke (c : call) : prog answer := fun s =>
  let ok := match call_handle c with Some h => is_live h s | None => true end in
  if ok then let '(a, w) := odbc c (ps_world s) in Done a (mkPS (ps_tab s) w (ps_live s) (ps_next s))
  else Broken UseAfterFree.

Definition ret_of (c : call) : prog sqlret := let! a := invoke c in ret (a_ret a).
Definition succeeds (c : call) : prog bool := let! r := ret_of c in ret (SQL_SUCCEEDED r).

Definition SQLAllocHandle (c : call) (owner : option Z) : prog (option Z) :=
  let! ok := succeeds c in
  if ok then fun s => Done (Some (ps_next s)) (mkPS (ps_tab s) (ps_world s) ((ps_next s, owner) :: ps_live s) (ps_next s + 1))
  else ret None.

Definition alloc_dbc : prog (option Z) := SQLAllocHandle AllocDbc None.
Definition alloc_stmt (dbc : Z) : prog (option Z) := SQLAllocHandle (AllocStmt dbc) (Some dbc).

Definition free_handle (h : Z) : prog unit :=
  let! _ := invoke (FreeHandle h) in
  fun s => Done () (mkPS (ps_tab s) (ps_world s) (List.filter (fun e => negb (fst e =? h)) (ps_live s)) (ps_next s)).

(** Disconnecting frees the statements of the connection. *)
Definition disconnect (dbc : Z) : prog unit :=
  let! _ := invoke (Disconnect dbc) in
  fun s => Done () (mkPS (ps_tab s) (ps_world s) (List.filter (fun e => negb (bool_decide (snd e = Some dbc))) (ps_live s)) (ps_next s)).

Definition conn_close (dbc : Z) : prog unit := disconnect dbc;;; free_handle dbc.

(** [probe_diag_capture] of [Probe], asking the driver for the record. *)
Definition capture (h : option Z) : prog ProbeDiag :=
  match h with
  | None => lift (probe_diag_capture false None)
  | Some h =>
      let! a := invoke (GetDiagRec h) in
      lift (probe_diag_capture true (if SQL_SUCCEEDED (a_ret a) then a_rec a else None))
  end.

(** The failing ending that most cases share: the diagnostic of a handle, the
    status, and the statement given back. *)
Definition fail_case (idx : Z) (st : Z) (why : list Z) : prog unit :=
  let! d := capture (Some st) in set_diag idx (Some d);;; set_status idx PROBE_FAIL why.

Definition SQL_ATTR_AUTOCOMMIT : Z := 102.
Definition SQL_ATTR_LOGIN_TIMEOUT : Z := 103.
Definition SQL_COPT_SS_AUTOBEGINTXN : Z := 1402.

Definition conn_connect (dbc : Z) (cs : list Z) : prog (bool * ProbeDiag) :=
  let! _ := (if cfg_login_timeout cfg >? 0 then let! r := invoke (SetConnectAttr dbc SQL_ATTR_LOGIN_TIMEOUT (cfg_login_timeout cfg)) in ret () else ret ()) in
  let! r := ret_of (DriverConnect dbc cs) in
  if SQL_SUCCEEDED r then ret (true, diag_reset)
  else let! d := capture (Some dbc) in ret (false, d).

Definition server : list Z := default [] (cfg_server cfg).

Definition sql_connstr : prog (list Z) :=
  lift (connstr_build alloc cfg server (str "sql") (str "trust_server_certificate") None).

(** *** Connections and settings (cases_connect.c) *)

(** [None] when the statement failed, else the text of the first column; the
    statement text is short, so its conversion never is refused. *)
Definition query_scalars (dbc : Z) (sql : list Z) : prog (option (list Z) * ProbeDiag) :=
  let! h := alloc_stmt dbc in
  match h with
  | None => ret (None, diag_reset)
  | Some st =>
      let! r := ret_of (ExecDirect st sql) in
      if SQL_SUCCEEDED r then
        let! f := succeeds (Fetch st) in
        let! a := (if f then let! a := invoke (GetData st 1) in ret (if SQL_SUCCEEDED (a_ret a) then Some (a_text a) else None) else ret None) in
        let! out := (match a with Some w => lift (narrow 256 w) | None => ret [] end) in
        free_handle st;;; ret (Some out, diag_reset)
      else let! d := capture (Some st) in free_handle st;;; ret (None, d)
  end.

Definition try_connect_case (group name : string) (auth tls : list Z) (extra : option (list Z)) (tls_failure_expected : bool) (present : bool) : prog bool :=
  let! idx := add_case group name PROBE_SKIP None in
  if negb present then set_status idx PROBE_SKIP (str "driver 18 not present");;; ret false
  else
    let! h := alloc_dbc in
    match h with
    | None => set_status idx PROBE_FAIL (str "SQLAllocHandle(DBC) failed");;; ret false
    | Some dbc =>
        let! wcs := lift (connstr_build alloc cfg server auth tls extra) in
        let! r := conn_connect dbc wcs in
        let '(ok, diag) := r in
        if negb ok then
          (if tls_failure_expected then set_status idx PROBE_PASS (str "connect refused as expected (TLS verify)")
           else set_status idx PROBE_FAIL (str "connect failed"));;;
          set_diag idx (Some diag);;; conn_close dbc;;; ret false
        else if tls_failure_expected then
          set_status idx PROBE_FAIL (str "connect succeeded but failure was expected");;; conn_close dbc;;; ret false
        else
          set_status idx PROBE_PASS (str "connected");;; set_diag idx (Some diag);;; conn_close dbc;;; ret true
    end.

Definition trust : list Z := str "trust_server_certificate".

Definition cases_connect (present : bool) : prog Z :=
  let! a := try_connect_case "connect" "hostname" (str "sql") trust None false present in
  let! b := try_connect_case "connect" "windows_auth" (str "windows") trust None false present in
  let! c := try_connect_case "connect" "tls_verify" (str "sql") (str "verify") None false present in
  let! d := try_connect_case "connect" "tls_verify_untrusted_expected_fail" (str "sql") (str "verify") None true present in
  let! e := try_connect_case "connect" "tls_optional" (str "sql") (str "optional") None false present in
  let! f := try_connect_case "settings" "connect_retry_zero" (str "sql") trust (Some (str "ConnectRetryCount=0;ConnectRetryInterval=1;")) false present in
  let! g := try_connect_case "settings" "mars_off" (str "sql") trust (Some (str "MARS_Connection=No;")) false present in
  let! _ := add_case "settings" "retryexec_forbidden" PROBE_PASS
        (Some (str "connstr grammar never emits RetryExec/DSN/FileDSN/SaveFile/Driver keys")) in
  let! _ := add_case "settings" "dm_pooling_neutral" PROBE_PASS
        (Some (str "suite never touches SQL_ATTR_CONNECTION_POOLING; identical suite runs with host pooling ON or OFF")) in
  ret (Z.of_nat (length (List.filter id [a; b; c; d; e; f; g])) + 2).

Definition cases_connect_verify (dbc : Z) : prog Z :=
  let! idx := add_case "settings" "session_baseline" PROBE_SKIP None in
  let! r := query_scalars dbc (str "SELECT CAST(@@TRANCOUNT AS varchar(10))") in
  let '(out, diag) := r in
  match out with
  | None => set_status idx PROBE_FAIL (str "cannot query @@TRANCOUNT");;; set_diag idx (Some diag);;; ret 1
  | Some buf =>
      if negb (str_eqb buf (str "0")) then
        set_status idx PROBE_FAIL (str "@@TRANCOUNT=" ++ buf ++ str ", expected 0");;; ret 1
      else set_status idx PROBE_PASS (str "@@TRANCOUNT=0 on fresh connection");;; ret 1
  end.

(** *** Statements, parameters, data at execution (cases_exec.c) *)

(** The drain stops at the first answer that is not SQL_SUCCESS_WITH_INFO. *)
Fixpoint drain (n : nat) (st : Z) : prog unit :=
  match n with
  | O => fun _ => Running
  | S n => let! r := ret_of (MoreResults st) in match r with SQL_SUCCESS_WITH_INFO => drain n st | _ => ret () end
  end.

(** [exec_direct] and [tx_exec]. *)
Definition exec_direct (dbc : Z) (sql : list Z) : prog (bool * ProbeDiag) :=
  let! h := alloc_stmt dbc in
  match h with
  | None => ret (false, diag_reset)
  | Some st =>
      let! r := ret_of (ExecDirect st sql) in
      match r with
      | SQL_SUCCESS | SQL_SUCCESS_WITH_INFO | SQL_NO_DATA => drain fuel st;;; free_handle st;;; ret (true, diag_reset)
      | _ => let! d := capture (Some st) in free_handle st;;; ret (false, d)
      end
  end.

Definition drop_work : list Z :=
  str "IF OBJECT_ID(N'dbo.vms_probe_types') IS NOT NULL DROP TABLE dbo.vms_probe_types;" ++
  str "IF OBJECT_ID(N'dbo.vms_probe_stream') IS NOT NULL DROP TABLE dbo.vms_probe_stream;" ++
  str "IF OBJECT_ID(N'dbo.vms_probe_tx') IS NOT NULL DROP TABLE dbo.vms_probe_tx;".

Definition create_types : list Z :=
  str "CREATE TABLE dbo.vms_probe_types( id int IDENTITY NOT NULL PRIMARY KEY," ++
  str " c_bit bit NULL, c_tinyint tinyint NULL, c_smallint smallint NULL, c_int int NULL," ++
  str " c_bigint bigint NULL, c_decimal decimal(30,10) NULL, c_money money NULL," ++
  str " c_float float NULL, c_real real NULL," ++
  str " c_char char(10) NULL, c_varchar varchar(100) NULL, c_nchar nchar(10) NULL," ++
  str " c_nvarchar nvarchar(200) NULL, c_nvarcharmax nvarchar(max) NULL," ++
  str " c_binary binary(16) NULL, c_varbinary varbinary(100) NULL, c_varbinarymax varbinary(max) NULL," ++
  str " c_guid uniqueidentifier NULL, c_date date NULL, c_time time(7) NULL," ++
  str " c_datetime datetime NULL, c_smalldatetime smalldatetime NULL," ++
  str " c_datetime2 datetime2(7) NULL, c_datetimeoffset datetimeoffset(7) NULL," ++
  str " c_xml xml NULL, c_rowversion rowversion NULL)".

Definition diag_line (what : list Z) (d : ProbeDiag) : list Z :=
  what ++ str " " ++ pd_sqlstate d ++ str " (" ++ print_i (pd_native d) ++ str "): " ++ pd_message d.

Definition work_create (dbc : Z) : prog bool :=
  let! (ok, d) := exec_direct dbc (drop_work ++ create_types) in
  if negb ok then log (diag_line (str "work tables: create failed") d);;; ret false
  else
    let! (ok, d) := exec_direct dbc (str "CREATE TABLE dbo.vms_probe_stream( id int NOT NULL PRIMARY KEY, payload bigint NOT NULL)") in
    if negb ok then log (diag_line (str "stream table create failed") d);;; ret false
    else
      let! (ok, d) := exec_direct dbc (str "CREATE TABLE dbo.vms_probe_tx( id int NOT NULL PRIMARY KEY, v int NOT NULL)") in
      if negb ok then log (diag_line (str "tx table create failed") d);;; ret false
      else ret true.

Definition work_drop (dbc : Z) : prog unit := let! _ := exec_direct dbc drop_work in ret ().

Definition VMS_PARAM_UNLIMITED : Z := 1073741823.
Definition NULL_DATA : Z := -1.
Definition SQL_DATA_AT_EXEC : Z := -2.

(** The parameters of the codec insert, in order, with the ODBC numbers of the
    types. *)
Definition codec_bindings : list Binding :=
  [mkBinding (-7) (-7) 0 0 0 1;                          (* SQL_C_BIT, SQL_BIT *)
   mkBinding (-28) (-6) 0 0 0 0;                         (* SQL_C_UTINYINT, SQL_TINYINT *)
   mkBinding (-15) 5 0 0 0 0;                            (* SQL_C_SSHORT, SQL_SMALLINT *)
   mkBinding (-16) 4 0 0 0 0;                            (* SQL_C_SLONG, SQL_INTEGER *)
   mkBinding (-25) (-5) 0 0 0 0;                         (* SQL_C_SBIGINT, SQL_BIGINT *)
   mkBinding 1 3 30 10 32 31;                            (* SQL_C_CHAR, SQL_DECIMAL *)
   mkBinding (-8) 3 19 4 42 40;                          (* SQL_C_WCHAR, SQL_DECIMAL *)
   mkBinding 8 6 0 0 0 0;                                (* SQL_C_DOUBLE, SQL_FLOAT *)
   mkBinding 7 7 0 0 0 0;                                (* SQL_C_FLOAT, SQL_REAL *)
   mkBinding 1 1 10 0 11 10;                             (* SQL_C_CHAR, SQL_CHAR *)
   mkBinding 1 12 100 0 101 15;                          (* SQL_C_CHAR, SQL_VARCHAR *)
   mkBinding (-8) (-8) 10 0 22 20;                       (* SQL_C_WCHAR, SQL_WCHAR *)
   mkBinding (-8) (-9) 200 0 402 86;                     (* SQL_C_WCHAR, SQL_WVARCHAR *)
   mkBinding (-8) (-10) VMS_PARAM_UNLIMITED 0 1024 42;   (* SQL_C_WCHAR, SQL_WLONGVARCHAR *)
   mkBinding (-2) (-2) 16 0 0 16;                        (* SQL_C_BINARY, SQL_BINARY *)
   mkBinding (-2) (-3) 100 0 0 100;                      (* SQL_C_BINARY, SQL_VARBINARY *)
   mkBinding (-2) (-4) VMS_PARAM_UNLIMITED 0 0 300;      (* SQL_C_BINARY, SQL_LONGVARBINARY *)
   mkBinding (-11) (-11) 0 0 74 72;                      (* SQL_C_GUID, SQL_GUID *)
   mkBinding (-8) 91 10 0 22 20;                         (* SQL_C_WCHAR, SQL_TYPE_DATE *)
   mkBinding (-8) (-154) 16 7 34 32;                     (* SQL_C_WCHAR, SQL_SS_TIME2 *)
   mkBinding (-8) 93 23 3 40 38;                         (* SQL_C_WCHAR, SQL_TYPE_TIMESTAMP *)
   mkBinding (-8) 93 19 0 40 38;
   mkBinding (-8) 93 27 7 56 54;
   mkBinding (-8) (-155) 34 7 70 68;                     (* SQL_C_WCHAR, SQL_SS_TIMESTAMPOFFSET *)
   mkBinding (-8) (-152) 0 0 512 54].                    (* SQL_C_WCHAR, SQL_SS_XML *)

Definition codec_insert : list Z :=
  str "INSERT INTO dbo.vms_probe_types(c_bit,c_tinyint,c_smallint,c_int,c_bigint,c_decimal,c_money,c_float,c_real," ++
  str "c_char,c_varchar,c_nchar,c_nvarchar,c_nvarcharmax,c_binary,c_varbinary,c_varbinarymax," ++
  str "c_guid,c_date,c_time,c_datetime,c_smalldatetime,c_datetime2,c_datetimeoffset,c_xml)" ++
  str " VALUES (?,?,?,?,?,?,?,?,?,?,?,?,?,?,?,?,?,?,?,?,?,?,?,?,?)".

(** All parameters are bound; the answers are kept. *)
Fixpoint bind_all (st ix : Z) (bs : list Binding) : prog (list sqlret) :=
  match bs with
  | [] => ret []
  | b :: bs => let! r := ret_of (BindParameter st ix b) in let! rs := bind_all st (ix + 1) bs in ret (r :: rs)
  end.

(** Refused bindings only appear in the log. *)
Fixpoint log_binds (st ix : Z) (rs : list sqlret) : prog unit :=
  match rs with
  | [] => ret ()
  | r :: rs =>
      (if SQL_SUCCEEDED r then ret ()
       else let! d := capture (Some st) in
            log (diag_line (str "codec: bind " ++ print_i ix ++ str " FAILED ret=" ++ print_i (sqlret_code r)) d));;;
      log_binds st (ix + 1) rs
  end.

(** The insert with a NULL parameter that follows a successful codec insert. *)
Definition codec_null (idx st : Z) : prog unit :=
  let! _ := invoke (FreeStmt st) in
  let! p := succeeds (Prepare st (str "INSERT INTO dbo.vms_probe_types(c_bit) VALUES(?)")) in
  if p then
    let! _ := invoke (BindParameter st 1 (mkBinding (-7) (-7) 0 0 0 NULL_DATA)) in
    let! e := succeeds (Execute st) in
    if e then let! _ := invoke (FreeStmt st) in set_status idx PROBE_PASS (str "25-codec bound insert + NULL bind insert OK")
    else fail_case idx st (str "NULL bind insert failed")
  else fail_case idx st (str "NULL insert prepare failed").

Definition case_codecs (dbc : Z) : prog Z :=
  let! idx := add_case "exec" "codec_roundtrip" PROBE_SKIP None in
  let! h := alloc_stmt dbc in
  match h with
  | None => set_status idx PROBE_FAIL (str "alloc stmt failed");;; ret 1
  | Some st =>
      let! dr := ret_of (ExecDirect st (str "DELETE FROM dbo.vms_probe_types")) in
      if negb (SQL_SUCCEEDED dr || match dr with SQL_NO_DATA => true | _ => false end) then
        fail_case idx st (str "delete failed");;; free_handle st;;; ret 1
      else
        let! _ := invoke (FreeStmt st) in
        let! p := succeeds (Prepare st codec_insert) in
        if negb p then fail_case idx st (str "prepare failed");;; free_handle st;;; ret 1
        else
          let! br := bind_all st 1 codec_bindings in
          let! a := invoke (NumParams st) in
          log (str "codec: NumParams=" ++ print_i (a_num a));;;
          log_binds st 1 br;;;
          let! r := ret_of (Execute st) in
          (if SQL_SUCCEEDED r then codec_null idx st else fail_case idx st (str "codec insert execute failed"));;;
          free_handle st;;; ret 1
  end.

(** [SELECT ?,...,?;] with [n] markers. *)
Fixpoint markers (n : nat) : list Z :=
  match n with O => [] | S O => str "?" | S m => str "?," ++ markers m end.
Definition param_sql (n : Z) : list Z := str "SELECT " ++ markers (Z.to_nat n) ++ str ";".

(** Binding stops at the first refusal; the parameter number has 16 bits. *)
Fixpoint bind_markers (st i : Z) (n : nat) : prog bool :=
  match n with
  | O => ret true
  | S n =>
      let! ok := succeeds (BindParameter st ((i + 1) mod 2 ^ 16) (mkBinding (-16) 4 0 0 0 0)) in
      if ok then bind_markers st (i + 1) n else ret false
  end.

(** One statement with [n] parameters, as both loops write it out: whether it
    was executed, with the diagnostic when it was not; [None] without memory.
    The text is written without a check against the block. *)
Definition try_params (dbc n : Z) : prog (option (bool * option ProbeDiag)) :=
  let size := wrap_sz ((n * 3 + 32) * 2) in
  if negb (alloc size) then ret None
  else if zlen (param_sql n) + 1 >? size / 2 then fun _ => Broken OobWrite
  else
    let! h := alloc_stmt dbc in
    match h with
    | None => let! d := capture None in ret (Some (false, Some d))
    | Some st =>
        let! p := succeeds (Prepare st (param_sql n)) in
        let! b := (if p then bind_markers st 0 (Z.to_nat n) else ret false) in
        let! e := (if b then succeeds (Execute st) else ret false) in
        if e then let! _ := invoke (FreeStmt st) in free_handle st;;; ret (Some (true, None))
        else let! d := capture (Some st) in free_handle st;;; ret (Some (false, Some d))
    end.

(** The doubling loop: the last number that was accepted, and the diagnostic. *)
Fixpoint ceiling_up (k : nat) (dbc n hi best : Z) (d : ProbeDiag) : prog (Z * ProbeDiag) :=
  match k with
  | O => fun _ => Running
  | S k =>
      if n <=? hi then
        let! r := try_params dbc n in
        match r with
        | None => ret (best, d)
        | Some (true, _) => ceiling_up k dbc (wrap_i64 (n * 2)) hi n d
        | Some (false, e) => ret (best, default d e)
        end
      else ret (best, d)
  end.

Fixpoint ceiling_bisect (k : nat) (dbc lo hi : Z) : prog Z :=
  match k with
  | O => fun _ => Running
  | S k =>
      if lo + 1 <? hi then
        let mid := Z.quot (lo + hi) 2 in
        let! r := try_params dbc mid in
        match r with
        | None => ret lo
        | Some (true, _) => ceiling_bisect k dbc mid hi
        | Some (false, _) => ceiling_bisect k dbc lo mid
        end
      else ret lo
  end.

Definition ceiling_hi : Z := if cfg_param_ceiling_max cfg >? 0 then cfg_param_ceiling_max cfg else 2000.

(** The value found, before it is reported. *)
Definition param_ceiling (dbc : Z) : prog (Z + ProbeDiag) :=
  let! (best, d) := ceiling_up fuel dbc 1 ceiling_hi 0 diag_reset in
  if best >? 0 then
    let! lo := ceiling_bisect fuel dbc best (if best * 2 <? ceiling_hi then best * 2 else ceiling_hi) in ret (inl lo)
  else ret (inr d).

Definition case_param_ceiling (dbc : Z) : prog Z :=
  let! idx := add_case "exec" "param_ceiling" PROBE_SKIP None in
  let! r := param_ceiling dbc in
  match r with
  | inl best => set_status idx PROBE_PASS (str "practical parameter ceiling = " ++ print_i best);;; ret 1
  | inr d => set_diag idx (Some d);;; set_status idx PROBE_FAIL (str "even 1-parameter prepare failed");;; ret 1
  end.

(** [%04d] of a chunk number. *)
Definition chunk_text (i : Z) : list Z :=
  str "chunk-" ++ replicate (4 - length (print_i i)) 48 ++ print_i i ++ str "-value".

(** Eight chunks, while they are taken. *)
Fixpoint put_chunks (st i : Z) (n : nat) : prog bool :=
  match n with
  | O => ret true
  | S n => let! ok := succeeds (PutData st (chunk_text i)) in if ok then put_chunks st (i + 1) n else ret false
  end.

Fixpoint dae_loop (k : nat) (st : Z) : prog bool :=
  match k with
  | O => fun _ => Running
  | S k =>
      let! r := ret_of (ParamData st) in
      match r with
      | SQL_NEED_DATA => let! ok := put_chunks st 0 8 in if ok then dae_loop k st else ret false
      | _ => ret (SQL_SUCCEEDED r)
      end
  end.

Definition case_data_at_exec (dbc : Z) : prog Z :=
  let! idx := add_case "exec" "data_at_exec" PROBE_SKIP None in
  let! h := alloc_stmt dbc in
  match h with
  | None => set_status idx PROBE_FAIL (str "alloc stmt failed");;; ret 1
  | Some st =>
      let! p := succeeds (Prepare st (str "INSERT INTO dbo.vms_probe_types(c_nvarcharmax) VALUES(?)")) in
      if negb p then fail_case idx st (str "prepare failed");;; free_handle st;;; ret 1
      else
        let! _ := invoke (BindParameter st 1 (mkBinding (-8) (-10) VMS_PARAM_UNLIMITED 0 0 SQL_DATA_AT_EXEC)) in
        let! r := ret_of (Execute st) in
        (match r with
         | SQL_NEED_DATA =>
             let! ok := dae_loop fuel st in
             if ok then set_status idx PROBE_PASS (str "DAE insert of 8 chunks OK")
             else fail_case idx st (str "SQLParamData loop failed")
         | SQL_SUCCESS | SQL_SUCCESS_WITH_INFO => set_status idx PROBE_FAIL (str "driver executed without DAE (unexpected)")
         | _ => fail_case idx st (str "execute for DAE failed (ret=" ++ print_i (sqlret_code r) ++ str ")")
         end);;;
        free_handle st;;; ret 1
  end.

(** The opening that the groups of statements, streaming and cancellation
    share: a case for the setup and a connection.  When the connection is
    refused its handle is not given back. *)
Definition group_setup (group name : string) (present : bool) : prog (Z * option Z) :=
  let! idx := add_case group name PROBE_SKIP None in
  if negb present then set_status idx PROBE_SKIP (str "driver 18 not present");;; ret (idx, None)
  else
    let! h := alloc_dbc in
    match h with
    | None => set_status idx PROBE_FAIL (str "alloc dbc failed");;; ret (idx, None)
    | Some dbc =>
        let! wcs := sql_connstr in
        let! (ok, d) := conn_connect dbc wcs in
        if ok then ret (idx, Some dbc)
        else set_diag idx (Some d);;; set_status idx PROBE_FAIL (str "connect failed");;; ret (idx, None)
    end.

Definition cases_exec (present : bool) : prog Z :=
  let! (idx, h) := group_setup "exec" "worktable_setup" present in
  match h with
  | None => ret 1
  | Some dbc =>
      set_status idx PROBE_PASS (str "connected");;;
      let! _ := cases_connect_verify dbc in
      let! w := work_create dbc in
      if negb w then
        let! _ := add_case "exec" "worktable_setup2" PROBE_FAIL (Some (str "see log")) in
        conn_close dbc;;; ret 3
      else
        let! a := case_codecs dbc in
        let! b := case_param_ceiling dbc in
        let! c := case_data_at_exec dbc in
        work_drop dbc;;; conn_close dbc;;; ret (2 + a + b + c)
  end.

(** *** Streaming (cases_stream.c) *)

(** The chunks of one column: the first answer that is not
    SQL_SUCCESS_WITH_INFO. *)
Fixpoint get_chunks (k : nat) (st : Z) : prog sqlret :=
  match k with
  | O => fun _ => Running
  | S k => let! r := ret_of (GetData st 2) in match r with SQL_SUCCESS_WITH_INFO => get_chunks k st | _ => ret r end
  end.

(** Rows fetched, and whether the data of all of them came. *)
Fixpoint stream_fetch (k : nat) (st fetched : Z) : prog (Z * bool) :=
  match k with
  | O => fun _ => Running
  | S k =>
      let! f := succeeds (Fetch st) in
      if f then
        let! r := get_chunks fuel st in
        match r with
        | SQL_SUCCESS | SQL_NO_DATA => stream_fetch k st (fetched + 1)
        | _ => ret (fetched + 1, false)
        end
      else ret (fetched, true)
  end.

Definition stream_count : Z := if cfg_stream_rows cfg >? 0 then cfg_stream_rows cfg else 1000000.

Definition stream_drop : list Z := str "IF OBJECT_ID(N'dbo.vms_probe_stream') IS NOT NULL DROP TABLE dbo.vms_probe_stream".
Definition stream_create : list Z := str "CREATE TABLE dbo.vms_probe_stream(id int NOT NULL PRIMARY KEY, payload bigint NOT NULL)".
Definition stream_fill : list Z :=
  str "INSERT INTO dbo.vms_probe_stream(id, payload) SELECT TOP (" ++ print_i stream_count ++
  str ") ROW_NUMBER() OVER (ORDER BY (SELECT NULL)), ROW_NUMBER() OVER (ORDER BY (SELECT NULL)) FROM sys.all_objects a CROSS JOIN sys.all_objects b".

(** [elapsed] is the measured time. *)
Definition stream_read (elapsed idx st : Z) : prog unit :=
  let! (fetched, data_ok) := stream_fetch fuel st 0 in
  (if (fetched =? stream_count) && data_ok then
     set_status idx PROBE_PASS (str "streamed " ++ print_i fetched ++ str " rows, SQLGetData chunking OK, " ++ print_u (wrap_u32 elapsed) ++ str " ms")
   else
     set_status idx PROBE_FAIL (str "fetched " ++ print_i fetched ++ str " of " ++ print_i stream_count ++ str " rows (data_ok=" ++
       (if data_ok then str "1" else str "0") ++ str ")"));;;
  let! _ := invoke (FreeStmt st) in
  let! e := succeeds (ExecDirect st stream_drop) in
  if e then let! _ := invoke (FreeStmt st) in ret () else ret ().

(** The statements before the rows are read; each failure ends the case. *)
Definition stream_body (elapsed idx st : Z) : prog unit :=
  let! e := succeeds (ExecDirect st stream_drop) in
  let! e := (if e then succeeds (FreeStmt st) else ret false) in
  if negb e then fail_case idx st (str "drop failed")
  else
    let! e := succeeds (ExecDirect st stream_create) in
    if negb e then fail_case idx st (str "create stream table failed")
    else
      let! _ := invoke (FreeStmt st) in
      let! e := succeeds (ExecDirect st stream_fill) in
      if negb e then fail_case idx st (str "bulk insert failed (rows=" ++ print_i stream_count ++ str ")")
      else
        let! _ := invoke (FreeStmt st) in
        let! e := succeeds (Prepare st (str "SELECT id, payload FROM dbo.vms_probe_stream ORDER BY id")) in
        let! e := (if e then succeeds (Execute st) else ret false) in
        if negb e then fail_case idx st (str "select prepare/execute failed")
        else
          let! e := succeeds (BindCol st 1) in
          if negb e then fail_case idx st (str "bindcol failed") else stream_read elapsed idx st.

Definition cases_stream (elapsed : Z) (present : bool) : prog Z :=
  let! (idx, h) := group_setup "stream" "bulk_rows" present in
  match h with
  | None => ret 1
  | Some dbc =>
      let! h := alloc_stmt dbc in
      match h with
      | None => set_status idx PROBE_FAIL (str "alloc stmt failed");;; conn_close dbc;;; ret 1
      | Some st => stream_body elapsed idx st;;; free_handle st;;; conn_close dbc;;; ret 1
      end
  end.

(** *** Cancellation (cases_cancel.c), around the outcome of the second thread *)

Definition run_job (dbc : Z) : prog JobOutcome := fun s =>
  let '(j, w) := cancel_job dbc (ps_world s) in Done j (mkPS (ps_tab s) w (ps_live s) (ps_next s)).

Definition bit (b : bool) : list Z := if b then str "1" else str "0".

Definition case_cancel_query (dbc : Z) : prog Z :=
  let! idx := add_case "cancel" "cross_thread" PROBE_SKIP None in
  let! j := run_job dbc in
  if negb (jo_started j) then set_status idx PROBE_FAIL (str "cannot start worker thread");;; ret 1
  else
    let elapsed := wrap_u32 (jo_elapsed j) in
    (if jo_done j && jo_cancelled j && (elapsed <? 15000) && negb (SQL_SUCCEEDED (jo_ret j)) then
       set_status idx PROBE_PASS
         (str "long query cancelled via SQLCancelHandle(SQL_HANDLE_STMT) in " ++ print_u elapsed ++ str " ms (ret != SUCCESS)")
     else
       set_status idx PROBE_FAIL
         (str "cancel ineffective (done=" ++ bit (jo_done j) ++ str " cancelled=" ++ bit (jo_cancelled j) ++
          str " elapsed=" ++ print_u elapsed ++ str " ret=" ++ print_i (sqlret_code (jo_ret j)) ++ str ")"));;;
    (if pd_present (jo_diag j) then set_diag idx (Some (jo_diag j)) else ret ());;;
    ret 1.

(** The statement of the check is not given back when it fails. *)
Definition case_interrupt_prototype (dbc : Z) : prog Z :=
  let! idx := add_case "cancel" "interrupt_prototype" PROBE_SKIP None in
  let! j := run_job dbc in
  if negb (jo_started j) then set_status idx PROBE_FAIL (str "cannot start worker thread");;; ret 1
  else if jo_done j && negb (SQL_SUCCEEDED (jo_ret j)) then
    set_status idx PROBE_PASS (str "interrupt-flag -> SQLCancelHandle prototype stops remote work; handles reusable");;;
    let! h := alloc_stmt dbc in
    let! e := match h with Some st => succeeds (ExecDirect st (str "SELECT 1")) | None => ret false end in
    match h, e with
    | Some st, true =>
        let! _ := invoke (FreeStmt st) in
        free_handle st;;; log (str "cancel: connection reusable after cancel");;; ret 1
    | _, _ =>
        let! d := capture h in
        set_diag idx (Some d);;; set_status idx PROBE_FAIL (str "connection unusable after cancel");;; ret 1
    end
  else set_status idx PROBE_FAIL (str "interrupt prototype failed to stop query");;; ret 1.

Definition cases_cancel (present : bool) : prog Z :=
  let! (idx, h) := group_setup "cancel" "setup" present in
  match h with
  | None => ret 1
  | Some dbc =>
      set_status idx PROBE_PASS (str "connected");;;
      let! _ := case_cancel_query dbc in
      let! _ := case_interrupt_prototype dbc in
      conn_close dbc;;; ret 3
  end.

(** *** Transactions (cases_tx.c) *)

(** A number from the first column of the first row. *)
Definition tx_query_i64 (dbc : Z) (sql : list Z) : prog (option Z * ProbeDiag) :=
  let! h := alloc_stmt dbc in
  match h with
  | None => ret (None, diag_reset)
  | Some st =>
      let! e := succeeds (ExecDirect st sql) in
      let! e := (if e then succeeds (Fetch st) else ret false) in
      let! v := (if e then let! a := invoke (GetData st 1) in ret (if SQL_SUCCEEDED (a_ret a) then Some (a_num a) else None) else ret None) in
      match v with
      | Some n => free_handle st;;; ret (Some n, diag_reset)
      | None => let! d := capture (Some st) in free_handle st;;; ret (None, d)
      end
  end.

(** The connection, or the diagnostic of the refusal: [None] when the handle
    could not be allocated, where the variable of the caller is not written. *)
Definition tx_connect (autobegin_off : bool) : prog (Z + option ProbeDiag) :=
  let! h := alloc_dbc in
  match h with
  | None => ret (inr None)
  | Some dbc =>
      let! a := (if autobegin_off then succeeds (SetConnectAttr dbc SQL_COPT_SS_AUTOBEGINTXN 0) else ret true) in
      let! b := (if a then succeeds (SetConnectAttr dbc SQL_ATTR_AUTOCOMMIT 0) else ret false) in
      if negb b then let! d := capture (Some dbc) in free_handle dbc;;; ret (inr (Some d))
      else
        let! wcs := sql_connstr in
        let! (ok, d) := conn_connect dbc wcs in
        if ok then ret (inl dbc) else free_handle dbc;;; ret (inr (Some d))
  end.

Definition end_tran (dbc : Z) (commit : bool) : prog unit := let! _ := invoke (EndTran dbc commit) in ret ().
Definition tx_do (dbc : Z) (sql : list Z) : prog unit := let! _ := exec_direct dbc sql in ret ().

(** The opening of the four cases. *)
Definition tx_case (name : string) (body : Z -> Z -> prog unit) : prog Z :=
  let! idx := add_case "tx" name PROBE_SKIP None in
  let! r := tx_connect true in
  match r with
  | inr d => set_diag idx d;;; set_status idx PROBE_FAIL (str "connect failed");;; ret 1
  | inl dbc => body idx dbc;;; conn_close dbc;;; ret 1
  end.

Definition trancount : list Z := str "SELECT @@TRANCOUNT".

Definition case_autobegin : prog Z :=
  tx_case "autobegin_off_lazy" (fun idx dbc =>
    let! (ok, d) := exec_direct dbc (str "SELECT 1") in
    let! (v, d) := (if ok then tx_query_i64 dbc trancount else ret (None, d)) in
    match v with
    | None => set_diag idx (Some d);;; set_status idx PROBE_FAIL (str "query @@TRANCOUNT failed")
    | Some n =>
        if negb (n =? 1) then
          set_status idx PROBE_FAIL (str "@@TRANCOUNT=" ++ print_i n ++ str " after plain SELECT (expected 1: lazy begin at first stmt)")
        else
          end_tran dbc false;;;
          let! (v, d) := tx_query_i64 dbc trancount in
          match v with
          | None => set_diag idx (Some d);;; set_status idx PROBE_FAIL (str "post-rollback @@TRANCOUNT query failed")
          | Some n =>
              (if (n =? 0) || (n =? 1) then
                 set_status idx PROBE_PASS
                   (str "lazy begin at first stmt confirmed; ROLLBACK closed tx (post-check @@TRANCOUNT=" ++ print_i n ++ str ")")
               else set_status idx PROBE_FAIL (str "@@TRANCOUNT=" ++ print_i n ++ str " after ROLLBACK (unexpected)"));;;
              end_tran dbc false
          end
    end).

Definition tx_drop : list Z := str "IF OBJECT_ID(N'dbo.vms_probe_tx') IS NOT NULL DROP TABLE dbo.vms_probe_tx".
Definition tx_create : list Z := str "CREATE TABLE dbo.vms_probe_tx(id int NOT NULL PRIMARY KEY, v int NOT NULL)".

Definition tx_fresh_table (dbc : Z) : prog unit := tx_do dbc (tx_drop ++ str ";" ++ tx_create);;; end_tran dbc true.
Definition tx_remove_table (dbc : Z) : prog unit := tx_do dbc tx_drop;;; end_tran dbc true.

Definition insert_row (id v : Z) : list Z :=
  str "INSERT INTO dbo.vms_probe_tx(id,v) VALUES(" ++ print_i id ++ str "," ++ print_i v ++ str ")".

Definition use_savepoint (dbc : Z) : prog unit := tx_do dbc (insert_row 1 100);;; tx_do dbc (str "ROLLBACK TRANSACTION vms_sp_1").

(** The savepoint before any statement of the transaction: 1, 2 when it needs
    a statement first, 0 when neither is accepted. *)
Definition savepoint_primer (dbc : Z) : prog Z :=
  let! (ok, _) := exec_direct dbc (str "SAVE TRANSACTION vms_sp_1") in
  if ok then use_savepoint dbc;;; ret 1
  else
    tx_do dbc (str "SELECT 1");;;
    let! (ok, _) := exec_direct dbc (str "SAVE TRANSACTION vms_sp_1") in
    if ok then use_savepoint dbc;;; ret 2 else ret 0.

(** Three statements, each run when the ones before it succeeded. *)
Definition savepoint_flow (dbc : Z) : prog bool :=
  tx_do dbc (insert_row 2 200);;;
  let! (ok, _) := exec_direct dbc (str "SAVE TRANSACTION vms_sp_2") in
  if negb ok then ret false
  else
    let! (ok, _) := exec_direct dbc (insert_row 3 300) in
    if negb ok then ret false
    else let! (ok, _) := exec_direct dbc (str "ROLLBACK TRANSACTION vms_sp_2") in ret ok.

Definition case_savepoints : prog Z :=
  tx_case "savepoints" (fun idx dbc =>
    tx_fresh_table dbc;;;
    let! primer_ok := savepoint_primer dbc in
    let! ok := savepoint_flow dbc in
    let! (v, d) := tx_query_i64 dbc (str "SELECT COUNT(*) FROM dbo.vms_probe_tx") in
    (match v, ok with
     | Some n, true =>
         if n =? 1 then
           set_status idx PROBE_PASS
             (str "savepoints OK; primer before-first-statement " ++
              (if primer_ok =? 1 then str "SUPPORTED" else if primer_ok =? 2 then str "needs statement primer" else str "unresolved"))
         else set_status idx PROBE_FAIL (str "row count " ++ print_i n ++ str " after savepoint rollback (expected 1)")
     | _, _ => set_diag idx (Some d);;; set_status idx PROBE_FAIL (str "savepoint flow failed")
     end);;;
    end_tran dbc false;;;
    tx_remove_table dbc).

(** What is made of the answer of [XACT_STATE()]. *)
Definition judge_xact (idx dbc xst : Z) : prog unit :=
  if xst =? 1 then set_status idx PROBE_PASS (str "XACT_STATE()=1 (committable) after caught error");;; end_tran dbc false
  else if xst =? -1 then set_status idx PROBE_PASS (str "XACT_STATE()=-1 confirmed; only full rollback allowed");;; end_tran dbc false
  else if xst =? 0 then set_status idx PROBE_PASS (str "XACT_STATE()=0 (tx auto-terminated by XACT_ABORT)")
  else set_status idx PROBE_FAIL (str "XACT_STATE()=" ++ print_i xst ++ str " unexpected").

Definition case_xact_state : prog Z :=
  tx_case "xact_state" (fun idx dbc =>
    tx_fresh_table dbc;;;
    tx_do dbc (insert_row 1 1);;;
    let! (ok, _) := exec_direct dbc (str "SET XACT_ABORT ON; " ++ insert_row 1 2) in
    (if negb ok then
       let! (v, d) := tx_query_i64 dbc (str "SELECT XACT_STATE()") in
       match v with
       | Some xst => judge_xact idx dbc xst
       | None => set_diag idx (Some d);;; set_status idx PROBE_FAIL (str "cannot query XACT_STATE()")
       end
     else set_status idx PROBE_FAIL (str "duplicate PK insert unexpectedly succeeded"));;;
    tx_remove_table dbc).

Definition output_tables : list Z :=
  tx_drop ++ str ";" ++ tx_create ++ str ";" ++
  str "IF OBJECT_ID(N'dbo.vms_probe_log') IS NOT NULL DROP TABLE dbo.vms_probe_log;" ++
  str "CREATE TABLE dbo.vms_probe_log(id int NOT NULL PRIMARY KEY);".
Definition output_trigger : list Z :=
  str "CREATE TRIGGER dbo.tr_vms_probe_tx ON dbo.vms_probe_tx AFTER INSERT AS" ++
  str " INSERT INTO dbo.vms_probe_log(id) SELECT id FROM inserted;".
Definition output_insert : list Z :=
  str "DECLARE @t TABLE(id int);" ++
  str "INSERT INTO dbo.vms_probe_tx(id,v) OUTPUT inserted.id INTO @t VALUES(10,10);" ++
  str "INSERT INTO dbo.vms_probe_log(id) SELECT id FROM @t WHERE id NOT IN (SELECT id FROM dbo.vms_probe_log);".
Definition output_cleanup : list Z :=
  str "IF OBJECT_ID(N'dbo.tr_vms_probe_tx') IS NOT NULL DROP TRIGGER dbo.tr_vms_probe_tx;" ++
  tx_drop ++ str ";" ++ str "IF OBJECT_ID(N'dbo.vms_probe_log') IS NOT NULL DROP TABLE dbo.vms_probe_log".

Definition output_check (idx dbc : Z) : prog unit :=
  let! (ok, d) := exec_direct dbc output_insert in
  if ok then
    let! (v, d) := tx_query_i64 dbc (str "SELECT COUNT(*) FROM dbo.vms_probe_tx WHERE id=10") in
    if match v with Some n => n =? 1 | None => false end then
      set_status idx PROBE_PASS (str "OUTPUT INTO with AFTER trigger works; values are pre-trigger")
    else set_diag idx (Some d);;; set_status idx PROBE_FAIL (str "row missing after OUTPUT INTO insert")
  else set_diag idx (Some d);;; set_status idx PROBE_FAIL (str "OUTPUT INTO insert failed").

Definition case_output_into : prog Z :=
  tx_case "output_into_trigger" (fun idx dbc =>
    let! (ok, d) := exec_direct dbc output_tables in
    let! (ok, d) := (if ok then exec_direct dbc output_trigger else ret (false, d)) in
    if negb ok then
      set_diag idx (Some d);;; set_status idx PROBE_FAIL (str "DDL failed (see log)");;; end_tran dbc false
    else
      end_tran dbc true;;;
      output_check idx dbc;;;
      end_tran dbc false;;;
      tx_do dbc output_cleanup;;;
      end_tran dbc true).

Definition cases_tx (present : bool) : prog Z :=
  let! idx := add_case "tx" "setup" PROBE_SKIP None in
  if negb present then set_status idx PROBE_SKIP (str "driver 18 not present");;; ret 1
  else
    let! r := tx_connect false in
    match r with
    | inr d => set_diag idx d;;; set_status idx PROBE_FAIL (str "connect (autocommit off) failed");;; ret 1
    | inl dbc =>
        set_status idx PROBE_PASS (str "connected with SQL_ATTR_AUTOCOMMIT=OFF");;;
        conn_close dbc;;;
        let! _ := case_autobegin in
        let! _ := case_savepoints in
        let! _ := case_xact_state in
        let! _ := case_output_into in
        let! _ := add_case "tx" "unknown_commit_policy" PROBE_SKIP
          (Some (str "requires network fault injection; enforced by policy: error + retire HDBC + never retry COMMIT")) in
        ret 5
    end.

(** *** The run (main.c) *)

Definition selected (group : string) : bool :=
  match cfg_only_group cfg with None => true | Some g => str_eqb g (str group) end.

Definition when_selected (group : string) (m : prog Z) : prog unit :=
  if selected group then let! _ := m in ret () else ret ().

(** The allocation of the environment and the request for ODBC 3.8. *)
Definition env_create (env_alloc env_attr : bool) : prog bool :=
  if negb env_alloc then log (str "env: SQLAllocHandle(ENV) failed");;; ret false
  else if negb env_attr then log (str "env: failed to set ODBC 3.8 version");;; ret false
  else log (str "env: ODBC 3.8 environment allocated");;; ret true.

(** From the creation of the environment, whose handle is freed at the end, to
    the exit code; [elapsed] is the time of the streaming case. *)
Definition probe_run (env_alloc env_attr : bool) (drivers : list (list Z)) (elapsed : Z) (json_opened : bool) : prog (Z * option (list Z)) :=
  log (str "vms-odbc-probe: starting; server=" ++ server);;;
  let! env_ok := env_create env_alloc env_attr in
  if negb env_ok then log (str "FATAL: cannot create ODBC 3.8 environment");;; ret (3, None)
  else
    let! present := (fun s => match driver_detect drivers (ps_tab s) with
                              | Ret (f, t) => Done f (mkPS t (ps_world s) (ps_live s) (ps_next s))
                              | Fault f => Broken f
                              end) in
    (if present then
       let! _ := add_case "env" "driver18_present" PROBE_PASS (Some (str "ODBC Driver 18 detected")) in
       when_selected "connect" (cases_connect present);;;
       when_selected "exec" (cases_exec present);;;
       when_selected "stream" (cases_stream elapsed present);;;
       when_selected "cancel" (cases_cancel present);;;
       when_selected "tx" (cases_tx present)
     else
       let! _ := add_case "env" "driver18_present" PROBE_FAIL
         (Some (str "ODBC Driver 18 for SQL Server not found (see driver list in log)")) in ret ());;;
    modify report_summary;;;
    fun s =>
      let '(text, t) := report_json json_opened present (ps_tab s) in
      Done (exit_code t, text)
        (mkPS (logf_ctx (str "vms-odbc-probe: exit=" ++ print_i (exit_code t)) t) (ps_world s) (ps_live s) (ps_next s)).

End Cases.

(** ** The two threads of the cancellation cases (cases_cancel.c)

    [worker_exec] on the second thread and [case_cancel_query] (or
    [case_interrupt_prototype], which differs in what it records) on the first
    share the [CancelJob] in the frame of the latter.  A step is one access to
    the shared fields or one call. *)

Inductive worker_pc : Type := WWait | WAlloc | WPublish | WExec | WUnpublish | WCapture | WFree | WDone | WEnd.
Inductive caller_pc : Type := CStart | CRead | CCancel | CWait | CReturned.

Record CancelJob := mkCancel {
  cj_start : bool; cj_done : bool; cj_cancelled : bool;
  cj_active : bool;         (* [active_stmt] is published *)
  cj_stmt : bool;           (* the statement handle is allocated *)
  cj_worker : worker_pc;
  cj_caller : caller_pc;
  cj_bad : option fault
}.

Definition cancel_init : CancelJob := mkCancel false false false false false WWait CStart None.

(** Answers of the driver and of the wait that a step depends on. *)
Inductive cancel_event : Type :=
| Worker (ok : bool)
| Caller (ok : bool)
| CallerTimeout.

Definition frame_gone (j : CancelJob) : bool := match cj_caller j with CReturned => true | _ => false end.

(** The worker; every step reads or writes the job, which must still be there. *)
Definition cancel_worker_step (ok : bool) (j : CancelJob) : option CancelJob :=
  let '(mkCancel st dn cn ac sm w c bad) := j in
  if frame_gone j && match w with WEnd => false | _ => true end then Some (mkCancel st dn cn ac sm w c (Some UseAfterFree))
  else
    match w with
    | WWait => if st then Some (mkCancel st dn cn ac sm WAlloc c bad) else None
    | WAlloc => Some (if ok then mkCancel st dn cn ac true WPublish c bad else mkCancel st dn cn ac sm WDone c bad)
    | WPublish => Some (mkCancel st dn cn true sm WExec c bad)
    | WExec => Some (mkCancel st dn cn ac sm WUnpublish c bad)
    | WUnpublish => Some (mkCancel st dn cn false sm WCapture c bad)
    | WCapture => Some (mkCancel st dn cn ac sm WFree c bad)
    | WFree => Some (mkCancel st dn cn ac false WDone c bad)
    | WDone => Some (mkCancel st true cn ac sm WEnd c bad)
    | WEnd => None
    end.

(** The caller: it waits two seconds, reads the published handle, and cancels
    what it has read. *)
Definition cancel_caller_step (ok : bool) (j : CancelJob) : option CancelJob :=
  let '(mkCancel st dn cn ac sm w c bad) := j in
  match c with
  | CStart => Some (mkCancel true dn cn ac sm w CRead bad)
  | CRead => Some (mkCancel st dn cn ac sm w (if ac then CCancel else CWait) bad)
  | CCancel => Some (if sm then mkCancel st dn (cn || ok) ac sm w CWait bad else mkCancel st dn cn ac sm w CWait (Some UseAfterFree))
  | CWait => match w with WEnd => Some (mkCancel st dn cn ac sm w CReturned bad) | _ => None end
  | CReturned => None
  end.

(** The wait of 120 seconds gives up. *)
Definition timeout_step (j : CancelJob) : option CancelJob :=
  let '(mkCancel st dn cn ac sm w c bad) := j in
  match c, w with
  | CWait, WEnd => None
  | CWait, _ => Some (mkCancel st dn cn ac sm w CReturned bad)
  | _, _ => None
  end.

Definition cancel_step (e : cancel_event) (j : CancelJob) : option CancelJob :=
  match e with Worker ok => cancel_worker_step ok j | Caller ok => cancel_caller_step ok j | CallerTimeout => timeout_step j end.

Fixpoint cancel_run (es : list cancel_event) (j : CancelJob) : option CancelJob :=
  match es with [] => Some j | e :: es => j ← cancel_step e j; cancel_run es j end.

(** While the wait does not give up, the caller returns only after the worker
    has ended, and the job is never used after its frame. *)
Lemma no_timeout_frame es : forall j j',
  Forall (fun e => e <> CallerTimeout) es -> cancel_run es j = Some j' ->
  (cj_caller j = CReturned -> cj_worker j = WEnd) -> (cj_caller j' = CReturned -> cj_worker j' = WEnd).
Proof.
  induction es as [|e es IH]; intros j j' Hes Hrun Hj; cbn in Hrun; [by injection Hrun as <-|].
  apply Forall_cons in Hes as [He Hes]. destruct (cancel_step e j) as [j1|] eqn:E; [|done]. cbn in Hrun.
  eapply IH; [done|exact Hrun|]. destruct j as [st dn cn ac sm w c bad]. destruct e as [ok|ok|]; [| |done]; cbn in E, Hj.
  - destruct c, w, ok, st; cbn in E; simplify_eq; cbn; try done; naive_solver.
  - destruct c, w, ac, sm; cbn in E; simplify_eq; cbn; done.
Qed.

(** The statement the caller has read may be freed before it is cancelled. *)
Example cancel_of_freed_statement :
  cj_bad <$> cancel_run [Caller true; Worker true; Worker true; Worker true; Caller true; Worker true; Worker true; Worker true; Worker true; Caller true]
    cancel_init = Some (Some UseAfterFree).
Proof. by vm_compute. Qed.

(** After the wait has given up, the worker writes to a frame that is gone. *)
Example worker_outlives_frame :
  cj_bad <$> cancel_run [Caller true; Worker true; Caller true; CallerTimeout; Worker true] cancel_init = Some (Some UseAfterFree).
Proof. by vm_compute. Qed.
