(* ===== verification/ProbeSafe.v ===== *)
(** * The feasibility probe: what its runs guarantee

    A program logic for the programs of [ProbeCases] (every rule says that the
    program ends), the specification of each step and group under the laws of
    the driver, and with them the safety of a whole run and the exactness of
    the parameter search; runs on a small driver show the cases in which the
    tool departs from what it says. *)

From S2P Require Import Prelude Foundation Config Support Probe ProbeCases.

#[local] Arguments str : simpl never.
#[local] Open Scope prog_scope.

(** ** Runs that end *)

(** What the probe relies on: a bounded number of results, rows, chunks and
    requests for data is pending at any time and each answer of a loop consumes
    one; diagnostics and texts convert into the arrays they are read from; a
    connection handle can be had. *)
Class DriverLaws `{OdbcDriver} `{Win32Text} (fuel : nat) := {
  pending : world -> nat;
  pending_after : forall c w, (pending (snd (odbc c w)) < fuel)%nat;
  pending_job : forall dbc w, (pending (snd (cancel_job dbc w)) < fuel)%nat;
  results_end : forall st w, a_ret (fst (odbc (MoreResults st) w)) = SQL_SUCCESS_WITH_INFO ->
    (pending (snd (odbc (MoreResults st) w)) < pending w)%nat;
  requests_end : forall st w, a_ret (fst (odbc (ParamData st) w)) = SQL_NEED_DATA ->
    (pending (snd (odbc (ParamData st) w)) < pending w)%nat;
  put_keeps : forall st c w, (pending (snd (odbc (PutData st c) w)) <= pending w)%nat;
  rows_end : forall st w, SQL_SUCCEEDED (a_ret (fst (odbc (Fetch st) w))) = true ->
    (pending (snd (odbc (Fetch st) w)) < pending w)%nat;
  chunks_end : forall st ix w, a_ret (fst (odbc (GetData st ix) w)) = SQL_SUCCESS_WITH_INFO ->
    (pending (snd (odbc (GetData st ix) w)) < pending w)%nat;
  chunks_keep : forall st ix w, (pending (snd (odbc (GetData st ix) w)) <= pending w)%nat;
  records_fit : forall h w, SQL_SUCCEEDED (a_ret (fst (odbc (GetDiagRec h) w))) = true ->
    exists d, probe_diag_capture true (a_rec (fst (odbc (GetDiagRec h) w))) = Ret d;
  texts_fit : forall st ix w, exists u, narrow 256 (a_text (fst (odbc (GetData st ix) w))) = Ret u;
  dbc_available : forall w, SQL_SUCCEEDED (a_ret (fst (odbc AllocDbc w))) = true
}.

Section Logic.
Context `{OdbcDriver} `{Win32Text} {fuel : nat} `{!DriverLaws fuel}.

(** The program ends, and its result and final state satisfy [Q]. *)
Definition wp {A} (m : prog A) (Q : A -> PState -> Prop) (s : PState) : Prop :=
  match m s with Done a s' => Q a s' | _ => False end.

Lemma wp_ret {A} (a : A) Q s : Q a s -> wp (ret a) Q s.
Proof. done. Qed.

Lemma wp_bind {A B} (m : prog A) (k : A -> prog B) Q s : wp m (fun a s' => wp (k a) Q s') s -> wp (pbind m k) Q s.
Proof. unfold wp, pbind. by destruct (m s). Qed.

Lemma wp_mono {A} (m : prog A) (P Q : A -> PState -> Prop) s : wp m P s -> (forall a s', P a s' -> Q a s') -> wp m Q s.
Proof. unfold wp. destruct (m s); auto. Qed.

(** There are [n] cases, the live handles are those of [L], and what is pending
    is bounded. *)
Definition at_state (n : Z) (L : list (Z * option Z)) (s : PState) : Prop :=
  case_count (ps_tab s) = n /\ ps_live s = L /\ Forall (fun e => fst e < ps_next s) L /\ (pending (ps_world s) < fuel)%nat.

Definition has (h : Z) (L : list (Z * option Z)) : Prop := h ∈ map fst L.
Definition above (h : Z) (L : list (Z * option Z)) : Prop := Forall (fun e => fst e < h) L.

Lemma has_here h o L : has h ((h, o) :: L).
Proof. by left. Qed.
Lemma has_there h e L : has h L -> has h (e :: L).
Proof. by right. Qed.

Lemma is_live_has h s : is_live h s = true <-> has h (ps_live s).
Proof.
  unfold is_live, has. rewrite existsb_exists. setoid_rewrite list_elem_of_fmap. split.
  - intros (e & He & Hh). b2p. exists e. split; [done|]. by apply list_elem_of_In.
  - intros (e & -> & He). exists e. split; [by apply list_elem_of_In|]. apply Z.eqb_refl.
Qed.

Lemma case_count_add g nm st d t : case_count t < PROBE_MAX_CASES -> case_count (case_add g nm st d t) = case_count t + 1.
Proof.
  intros Hn. unfold case_add. replace (case_count t >=? PROBE_MAX_CASES) with false by (symmetry; rewrite Z.geb_leb; lia).
  unfold case_count. cbn. by rewrite zlen_app.
Qed.

Lemma case_count_set i f t : case_count (set_case i f t) = case_count t.
Proof. unfold case_count, set_case, zlen. cbn. by rewrite length_alter. Qed.

Lemma case_count_status i st d t : case_count (case_set_status i st d t) = case_count t.
Proof.
  unfold case_set_status. destruct (_ || _); [done|]. destruct (t_cases t !! _); [|done].
  etransitivity; [|apply (case_count_set i)]. done.
Qed.

Lemma wp_modify f n L Q s :
  at_state n L s -> (forall t, case_count (f t) = case_count t) -> (forall s', at_state n L s' -> Q () s') -> wp (modify f) Q s.
Proof. intros (Hn & HL & Hb & Hp) Hf HQ. apply HQ. split; [cbn [ps_tab]; by rewrite Hf|done]. Qed.

Lemma wp_log line n L Q s : at_state n L s -> (forall s', at_state n L s' -> Q () s') -> wp (log line) Q s.
Proof. intros Hs. by apply wp_modify. Qed.

Lemma wp_set_status i st d n L Q s : at_state n L s -> (forall s', at_state n L s' -> Q () s') -> wp (set_status i st d) Q s.
Proof. intros Hs. apply wp_modify; [done|]. intros t. apply case_count_status. Qed.

Lemma wp_set_diag i d n L Q s :
  at_state n L s -> 0 <= i < PROBE_MAX_CASES -> (forall s', at_state n L s' -> Q () s') -> wp (set_diag i (Some d)) Q s.
Proof.
  intros (Hn & HL & Hb & Hp) Hi HQ. unfold wp, set_diag, case_set_diag.
  replace ((i <? 0) || (i >=? PROBE_MAX_CASES)) with false by (symmetry; apply orb_false_iff; rewrite Z.geb_leb; lia).
  apply HQ. split; [cbn [ps_tab]; by rewrite case_count_set|done].
Qed.

Lemma wp_add_case g nm st d n L Q s :
  at_state n L s -> n < PROBE_MAX_CASES -> (forall s', at_state (n + 1) L s' -> Q n s') -> wp (add_case g nm st d) Q s.
Proof.
  intros (<- & HL & Hb & Hp) Hi HQ. unfold wp, add_case. apply HQ. split; [by apply case_count_add|done].
Qed.

Lemma wp_lift {A} (m : cres A) (a : A) n L Q s : at_state n L s -> m = Ret a -> Q a s -> wp (lift m) Q s.
Proof. intros _ ->. done. Qed.

(** The answer of the driver and its next state are known. *)
Lemma wp_invoke_eq c n L (Q : answer -> PState -> Prop) s :
  at_state n L s -> (forall h, call_handle c = Some h -> has h L) ->
  (forall s', at_state n L s' -> ps_world s' = snd (odbc c (ps_world s)) -> Q (fst (odbc c (ps_world s))) s') ->
  wp (invoke c) Q s.
Proof.
  intros (Hn & HL & Hb & Hp) Hc HQ. unfold wp, invoke.
  replace (match call_handle c with Some h => is_live h s | None => true end) with true.
  - pose proof (pending_after c (ps_world s)). destruct (odbc c (ps_world s)) as [a w] eqn:E. by apply HQ.
  - destruct (call_handle c) as [h|]; [|done]. symmetry. apply is_live_has. rewrite HL. auto.
Qed.

Lemma wp_invoke c n L (Q : answer -> PState -> Prop) s :
  at_state n L s -> (forall h, call_handle c = Some h -> has h L) ->
  (forall a s', at_state n L s' -> Q a s') -> wp (invoke c) Q s.
Proof. intros Hs Hc HQ. eapply wp_invoke_eq; eauto. Qed.

Lemma wp_ret_of c n L (Q : sqlret -> PState -> Prop) s :
  at_state n L s -> (forall h, call_handle c = Some h -> has h L) ->
  (forall r s', at_state n L s' -> Q r s') -> wp (ret_of c) Q s.
Proof. intros Hs Hc HQ. apply wp_bind. eapply wp_invoke; eauto. intros a s' Hs'. apply wp_ret. auto. Qed.

Lemma wp_succeeds c n L (Q : bool -> PState -> Prop) s :
  at_state n L s -> (forall h, call_handle c = Some h -> has h L) ->
  (forall b s', at_state n L s' -> Q b s') -> wp (succeeds c) Q s.
Proof. intros Hs Hc HQ. apply wp_bind. eapply wp_ret_of; eauto. intros a s' Hs'. apply wp_ret. auto. Qed.

Lemma wp_alloc c owner n L (Q : option Z -> PState -> Prop) s :
  at_state n L s -> (forall h, call_handle c = Some h -> has h L) ->
  (forall s', at_state n L s' -> Q None s') ->
  (forall h s', above h L -> at_state n ((h, owner) :: L) s' -> Q (Some h) s') -> wp (SQLAllocHandle c owner) Q s.
Proof.
  intros Hs Hc HN HS. apply wp_bind. eapply wp_succeeds; eauto. intros b s' (Hn & HL & Hb & Hp).
  destruct b; [|apply wp_ret, HN; done]. unfold wp. apply HS; [done|]. split; [done|]. split; [cbn; by rewrite HL|]. split; [|done].
  constructor; cbn; [lia|]. eapply Forall_impl; [exact Hb|]. cbn. lia.
Qed.

Lemma filter_above h L : above h L -> List.filter (fun e => negb (fst e =? h)) L = L.
Proof.
  induction 1 as [|[x o] L He HL IH]; cbn in *; [done|]. replace (x =? h) with false by lia. cbn. by rewrite IH.
Qed.

Lemma wp_free h o n L Q s :
  at_state n ((h, o) :: L) s -> above h L -> (forall s', at_state n L s' -> Q () s') -> wp (free_handle h) Q s.
Proof.
  intros Hs Ha HQ. apply wp_bind. eapply wp_invoke; [done|intros ? [= <-]; apply has_here|].
  intros _ s' (Hn & HL & Hb & Hp). apply HQ. split; [done|]. cbn [ps_live ps_next].
  apply Forall_cons in Hb as [_ Hb]. rewrite HL. cbn. rewrite Z.eqb_refl. cbn. by rewrite filter_above.
Qed.

(** Only connections, which no other handle owns. *)
Definition conns (L : list (Z * option Z)) : Prop := Forall (fun e => snd e = None) L.

Lemma filter_owner dbc L : conns L -> List.filter (fun e : Z * option Z => negb (bool_decide (snd e = Some dbc))) L = L.
Proof.
  induction 1 as [|[x o] L He HL IH]; cbn in *; [done|]. rewrite bool_decide_eq_false_2 by congruence. cbn. by rewrite IH.
Qed.

(** Closing a connection takes its statements with it. *)
Lemma wp_close dbc S n L Q s :
  at_state n (S ++ (dbc, None) :: L) s -> Forall (fun e => snd e = Some dbc) S -> above dbc L -> conns L ->
  (forall s', at_state n L s' -> Q () s') -> wp (conn_close dbc) Q s.
Proof.
  intros Hs HS Ha Hc HQ. apply wp_bind, wp_bind.
  eapply wp_invoke; [done|intros ? [= <-]; unfold has; rewrite map_app; apply elem_of_app; right; by left|].
  intros _ s' (Hn & HL & Hb & Hp). apply Forall_app in Hb as [_ Hb]. eapply wp_free; [|done|done].
  split; [done|]. cbn [ps_live ps_next]. split; [|done].
  rewrite HL, List.filter_app. cbn. rewrite (filter_owner dbc L) by done.
  clear HL Hs. induction HS as [|[x o] S He HS' IH]; cbn in *; [done|]. by rewrite bool_decide_eq_true_2.
Qed.

End Logic.

(** ** The steps of the cases *)

#[local] Hint Resolve has_here has_there : probe.

Ltac live_handle := cbn; intros ? [= <-]; eauto with probe.

(** One step of a program from a known state. *)
Ltac pstep :=
  lazymatch goal with
  | |- wp (pbind _ _) _ _ => apply wp_bind
  | |- wp (ret _) _ _ => apply wp_ret
  | |- wp (log _) _ _ => eapply wp_log; [eassumption|intros ? ?]
  | |- wp (set_status _ _ _) _ _ => eapply wp_set_status; [eassumption|intros ? ?]
  | |- wp (set_diag _ (Some _)) _ _ => eapply wp_set_diag; [eassumption|unfold PROBE_MAX_CASES; lia|intros ? ?]
  | |- wp (add_case _ _ _ _) _ _ => eapply wp_add_case; [eassumption|unfold PROBE_MAX_CASES; lia|intros ? ?]
  | |- wp (invoke _) _ _ => eapply wp_invoke; [eassumption|live_handle|intros ? ? ?]
  | |- wp (ret_of _) _ _ => eapply wp_ret_of; [eassumption|live_handle|intros ? ? ?]
  | |- wp (succeeds _) _ _ => eapply wp_succeeds; [eassumption|live_handle|intros ? ? ?]
  | |- wp (alloc_stmt _) _ _ => eapply wp_alloc; [eassumption|live_handle|intros ? ?|intros ? ? ? ?]
  | |- wp (free_handle _) _ _ => eapply wp_free; [eassumption|done|intros ? ?]
  | |- wp (if ?b then _ else _) _ _ => destruct b
  | |- wp (match ?x with _ => _ end) _ _ => destruct x
  end.
Ltac psteps := repeat pstep.

Lemma ceiling_hi_pos cfg : 0 < ceiling_hi cfg.
Proof. unfold ceiling_hi. destruct (_ >? 0) eqn:E; b2p; lia. Qed.

Section Specs.
Context `{OdbcDriver} `{Win32Text} `{Platform} {fuel : nat} `{!DriverLaws fuel}.
Variable alloc : Z -> bool.
Variable cfg : ProbeConfig.
Hypothesis alloc_ok : forall n, alloc n = true.
Hypothesis converts : forall u, exists w, mb2wc u = Some w.

Lemma wp_capture h n L Q s :
  at_state n L s -> match h with Some h => has h L | None => True end -> (forall d s', at_state n L s' -> Q d s') -> wp (capture h) Q s.
Proof.
  intros Hs Hh HQ. destruct h as [h|]; [|by apply HQ]. cbn [capture]. apply wp_bind.
  eapply wp_invoke_eq; [done|live_handle|]. intros s' Hs' _.
  pose proof (records_fit h (ps_world s)) as Hf. destruct (SQL_SUCCEEDED _); [|by apply HQ].
  destruct Hf as [d Hd]; [done|]. eapply wp_lift; [done|exact Hd|]. by apply HQ.
Qed.

Lemma wp_fail_with i st why n L Q s :
  at_state n L s -> has st L -> 0 <= i < PROBE_MAX_CASES -> (forall s', at_state n L s' -> Q () s') -> wp (fail_case i st why) Q s.
Proof.
  intros Hs Hh Hi HQ. apply wp_bind. eapply wp_capture; [done|done|]. intros d s' Hs'. apply wp_bind.
  eapply wp_set_diag; [done|done|]. intros s2 Hs2. by eapply wp_set_status.
Qed.

Lemma wp_drain k st n L Q s :
  at_state n L s -> has st L -> (pending (ps_world s) < k)%nat -> (forall s', at_state n L s' -> Q () s') -> wp (drain k st) Q s.
Proof.
  intros Hs Hh Hk HQ. revert s Hs Hk. induction k as [|k IH]; intros s Hs Hk; [lia|]. cbn [drain]. apply wp_bind, wp_bind.
  eapply wp_invoke_eq; [done|live_handle|]. intros s' Hs' Hw. apply wp_ret. pose proof (results_end st (ps_world s)) as Hm.
  destruct (a_ret _); try (by apply wp_ret, HQ). apply IH; [done|]. rewrite Hw. specialize (Hm eq_refl). lia.
Qed.

Lemma at_state_pending n L s : at_state n L s -> (pending (ps_world s) < fuel)%nat.
Proof. by intros (_ & _ & _ & ?). Qed.

Lemma wp_exec_direct dbc sql n L Q s :
  at_state n L s -> has dbc L -> (forall r s', at_state n L s' -> Q r s') -> wp (exec_direct fuel dbc sql) Q s.
Proof.
  intros Hs Hh HQ. unfold exec_direct. pstep. pstep; [pstep; by apply HQ|]. pstep. pstep.
  pstep; pstep; try (eapply wp_capture; [eassumption|apply has_here|intros ? ? ?]; psteps; by apply HQ);
    (eapply wp_drain; [eassumption|apply has_here|by eapply at_state_pending|intros ? ?]; psteps; by apply HQ).
Qed.

Lemma wp_tx_query dbc sql n L Q s :
  at_state n L s -> has dbc L -> (forall r s', at_state n L s' -> Q r s') -> wp (tx_query_i64 dbc sql) Q s.
Proof.
  intros Hs Hh HQ. unfold tx_query_i64.
  psteps; try (eapply wp_capture; [eassumption|apply has_here|intros ? ? ?]; psteps); by apply HQ.
Qed.

Lemma wp_query_scalars dbc sql n L Q s :
  at_state n L s -> has dbc L -> (forall r s', at_state n L s' -> Q r s') -> wp (query_scalars dbc sql) Q s.
Proof.
  intros Hs Hh HQ. unfold query_scalars. pstep. pstep; [pstep; by apply HQ|]. pstep. pstep. pstep.
  - pstep. pstep. pstep. pstep.
    + apply wp_bind. eapply wp_invoke_eq; [eassumption|live_handle|]. intros s3 Hs3 _. apply wp_ret.
      match goal with |- wp (pbind (match (if _ then Some (a_text (fst (odbc _ ?w))) else None) with _ => _ end) _) _ _ =>
        destruct (texts_fit h 1 w) as [u Hu] end.
      destruct (SQL_SUCCEEDED _); apply wp_bind; [eapply wp_lift; [eassumption|exact Hu|]|apply wp_ret]; psteps; by apply HQ.
    + psteps. by apply HQ.
  - pstep. eapply wp_capture; [eassumption|apply has_here|intros ? ? ?]; psteps; by apply HQ.
Qed.

Lemma connstr_total c sv auth tls extra : exists cs, connstr_build alloc c sv auth tls extra = Ret cs.
Proof.
  assert (exists wide, forall u, mb2wc u = Some (wide u)) as [wide Hw].
  { exists (fun u => default [] (mb2wc u)). intros u. by destruct (converts u) as [w ->]. }
  eexists. by apply (probe_connstr_exact alloc alloc_ok wide).
Qed.

(** The driver never refuses a connection. *)
Definition accepting : Prop := forall dbc cs w, SQL_SUCCEEDED (a_ret (fst (odbc (DriverConnect dbc cs) w))) = true.

Lemma wp_conn_connect dbc cs n L Q s :
  at_state n L s -> has dbc L -> (forall r s', at_state n L s' -> (fst r = false -> ~ accepting) -> Q r s') ->
  wp (conn_connect cfg dbc cs) Q s.
Proof.
  intros Hs Hh HQ. unfold conn_connect. pstep.
  enough (forall s, at_state n L s -> wp (let! r := ret_of (DriverConnect dbc cs) in
    if SQL_SUCCEEDED r then ret (true, diag_reset) else let! d := capture (Some dbc) in ret (false, d)) Q s) as Hk
    by (pstep; [pstep; pstep; pstep|pstep]; by apply Hk).
  intros s1 Hs1. apply wp_bind, wp_bind. eapply wp_invoke_eq; [done|live_handle|]. intros s2 Hs2 _. apply wp_ret.
  destruct (SQL_SUCCEEDED _) eqn:E; [pstep; by apply HQ|]. pstep.
  eapply wp_capture; [eassumption|done|intros ? ? ?]. pstep. apply HQ; [done|]. intros _ Hacc. by rewrite Hacc in E.
Qed.

Lemma wp_connstr auth tls extra n L Q s :
  at_state n L s -> (forall cs, Q cs s) -> wp (lift (connstr_build alloc cfg (server cfg) auth tls extra)) Q s.
Proof. intros Hs HQ. destruct (connstr_total cfg (server cfg) auth tls extra) as [cs Hc]. by eapply wp_lift. Qed.

(** *** Connections *)

(** A fresh connection handle is on top of the live ones. *)
Lemma wp_alloc_dbc n L Q s :
  at_state n L s -> (forall h s', above h L -> at_state n ((h, None) :: L) s' -> Q (Some h) s') -> wp alloc_dbc Q s.
Proof.
  intros (Hn & HL & Hb & Hp) HQ. unfold alloc_dbc, SQLAllocHandle. apply wp_bind, wp_bind, wp_bind.
  eapply wp_invoke_eq; [done|done|]. intros s' (Hn' & HL' & Hb' & Hp') _. apply wp_ret, wp_ret. rewrite dbc_available.
  unfold wp. apply HQ; [done|]. split; [done|]. split; [cbn; by rewrite HL'|]. split; [|done].
  constructor; cbn; [lia|]. eapply Forall_impl; [exact Hb'|]. cbn. lia.
Qed.

Lemma wp_close_top dbc n L Q s :
  at_state n ((dbc, None) :: L) s -> above dbc L -> conns L -> (forall s', at_state n L s' -> Q () s') -> wp (conn_close dbc) Q s.
Proof. intros. by eapply (wp_close dbc []). Qed.

Lemma wp_try_connect g nm auth tls extra expected present n L Q s :
  at_state n L s -> conns L -> 0 <= n < 500 -> (forall r s', at_state (n + 1) L s' -> Q r s') ->
  wp (try_connect_case alloc cfg g nm auth tls extra expected present) Q s.
Proof.
  intros Hs Hc Hn HQ. unfold try_connect_case. pstep. pstep. pstep; [psteps; by apply HQ|]. pstep.
  eapply wp_alloc_dbc; [eassumption|]. intros dbc s1 Ha Hs1. pstep. eapply wp_connstr; [eassumption|]. intros cs.
  pstep. eapply wp_conn_connect; [eassumption|apply has_here|]. intros [ok d] s2 Hs2 _.
  destruct ok, expected; cbn [negb]; psteps; (eapply wp_close_top; [eassumption|done|done|intros ? ?]); psteps; by apply HQ.
Qed.

Lemma wp_cases_connect present n L Q s :
  at_state n L s -> conns L -> 0 <= n < 490 -> (forall r s', at_state (n + 9) L s' -> Q r s') -> wp (cases_connect alloc cfg present) Q s.
Proof.
  intros Hs Hc Hn HQ. unfold cases_connect.
  do 7 (pstep; eapply wp_try_connect; [eassumption|done|lia|intros ? ? ?]). psteps.
  match goal with Hx : at_state ?m L ?s |- Q _ ?s => replace m with (n + 9) in Hx by lia; by apply HQ end.
Qed.

Lemma wp_connect_verify dbc n L Q s :
  at_state n L s -> has dbc L -> 0 <= n < 500 -> (forall r s', at_state (n + 1) L s' -> Q r s') -> wp (cases_connect_verify dbc) Q s.
Proof.
  intros Hs Hh Hn HQ. unfold cases_connect_verify. pstep. pstep. pstep.
  eapply wp_query_scalars; [eassumption|done|]. intros [out d] s1 Hs1. psteps; by apply HQ.
Qed.

(** *** Statements *)

Ltac run_sql := eapply wp_exec_direct; [eassumption|solve [eauto with probe]|intros ? ? ?].
Ltac run_query := eapply wp_tx_query; [eassumption|solve [eauto with probe]|intros ? ? ?].
Ltac run_fail := eapply wp_fail_with; [eassumption|solve [eauto with probe]|unfold PROBE_MAX_CASES; lia|intros ? ?].

Lemma wp_work_create dbc n L Q s :
  at_state n L s -> has dbc L -> (forall r s', at_state n L s' -> Q r s') -> wp (work_create fuel dbc) Q s.
Proof.
  intros Hs Hh HQ. unfold work_create. repeat (first [pstep | run_sql]); by apply HQ.
Qed.

Lemma wp_bind_all st bs n L : forall ix Q s,
  at_state n L s -> has st L -> (forall r s', at_state n L s' -> Q r s') -> wp (bind_all st ix bs) Q s.
Proof.
  induction bs as [|b bs IH]; intros ix Q s Hs Hh HQ; cbn [bind_all]; pstep; [by apply HQ|].
  pstep. pstep. apply IH; [done|done|]. intros rs s2 Hs2. pstep. by apply HQ.
Qed.

Lemma wp_log_binds st rs n L : forall ix Q s,
  at_state n L s -> has st L -> (forall s', at_state n L s' -> Q () s') -> wp (log_binds st ix rs) Q s.
Proof.
  induction rs as [|r rs IH]; intros ix Q s Hs Hh HQ; cbn [log_binds]; pstep; [by apply HQ|].
  pstep; [pstep; by apply IH|]. pstep. eapply wp_capture; [eassumption|done|intros ? ? ?]. pstep. by apply IH.
Qed.

Lemma wp_codec_null i st n L Q s :
  at_state n L s -> has st L -> 0 <= i < 500 -> (forall s', at_state n L s' -> Q () s') -> wp (codec_null i st) Q s.
Proof. intros Hs Hh Hi HQ. unfold codec_null. repeat (first [pstep | run_fail]); by apply HQ. Qed.

Lemma wp_case_codecs dbc n L Q s :
  at_state n L s -> has dbc L -> 0 <= n < 500 -> (forall r s', at_state (n + 1) L s' -> Q r s') -> wp (case_codecs dbc) Q s.
Proof.
  intros Hs Hh Hn HQ. unfold case_codecs. pstep. pstep. pstep. pstep; [psteps; by apply HQ|]. pstep. pstep.
  pstep; [repeat (first [pstep | run_fail]); by apply HQ|]. pstep. pstep. pstep. pstep.
  pstep; [repeat (first [pstep | run_fail]); by apply HQ|]. pstep. eapply wp_bind_all; [eassumption|apply has_here|intros ? ? ?].
  pstep. pstep. pstep. pstep. pstep. eapply wp_log_binds; [eassumption|apply has_here|intros ? ?]. pstep. pstep. pstep.
  pstep; [eapply wp_codec_null; [eassumption|apply has_here|lia|intros ? ?]|run_fail]; psteps; by apply HQ.
Qed.

Lemma wp_put_chunks st m n L : forall k i Q s,
  at_state n L s -> has st L -> (pending (ps_world s) <= k)%nat ->
  (forall r s', at_state n L s' -> (pending (ps_world s') <= k)%nat -> Q r s') -> wp (put_chunks st i m) Q s.
Proof.
  intros k. induction m as [|m IH]; intros i Q s Hs Hh Hk HQ; cbn [put_chunks]; pstep; [by apply HQ|].
  apply wp_bind, wp_bind. eapply wp_invoke_eq; [done|live_handle|]. intros s' Hs' Hw. apply wp_ret, wp_ret.
  pose proof (put_keeps st (chunk_text i) (ps_world s)). rewrite <- Hw in *.
  destruct (SQL_SUCCEEDED _); [apply IH; try done; lia|pstep; apply HQ; [done|lia]].
Qed.

Lemma wp_dae_loop st n L : forall k Q s,
  at_state n L s -> has st L -> (pending (ps_world s) < k)%nat -> (forall r s', at_state n L s' -> Q r s') -> wp (dae_loop k st) Q s.
Proof.
  induction k as [|k IH]; intros Q s Hs Hh Hk HQ; [lia|]. cbn [dae_loop]. apply wp_bind, wp_bind.
  eapply wp_invoke_eq; [done|live_handle|]. intros s' Hs' Hw. apply wp_ret. pose proof (requests_end st (ps_world s)) as Hm.
  destruct (a_ret _); try (by apply wp_ret, HQ). specialize (Hm eq_refl). rewrite <- Hw in Hm. pstep.
  eapply (wp_put_chunks st 8 n L (pending (ps_world s'))); [done|done|done|]. intros r s2 Hs2 Hp2.
  destruct r; [apply IH; try done; lia|pstep; by apply HQ].
Qed.

Lemma wp_case_dae dbc n L Q s :
  at_state n L s -> has dbc L -> 0 <= n < 500 -> (forall r s', at_state (n + 1) L s' -> Q r s') -> wp (case_data_at_exec fuel dbc) Q s.
Proof.
  intros Hs Hh Hn HQ. unfold case_data_at_exec. pstep. pstep. pstep. pstep; [psteps; by apply HQ|]. pstep. pstep.
  pstep; [repeat (first [pstep | run_fail]); by apply HQ|]. pstep. pstep. pstep. pstep. pstep.
  pstep; try (repeat (first [pstep | run_fail]); by apply HQ). pstep.
  eapply wp_dae_loop; [eassumption|apply has_here|by eapply at_state_pending|intros ? ? ?].
  repeat (first [pstep | run_fail]); by apply HQ.
Qed.

(** *** The search for the parameter ceiling ends *)

Hypothesis ceiling_small : ceiling_hi cfg <= 2 ^ 28.

Lemma markers_length m : (0 < m)%nat -> zlen (markers m) = 2 * Z.of_nat m - 1.
Proof.
  induction m as [|[|m] IH]; intros Hm; [lia|done|].
  change (markers (S (S m))) with (str "?," ++ markers (S m)). rewrite zlen_app, IH by lia. change (zlen (str "?,")) with 2. lia.
Qed.

(** The block is large enough for the text. *)
Lemma param_sql_fits n : 1 <= n <= 2 ^ 28 -> zlen (param_sql n) + 1 >? wrap_sz ((n * 3 + 32) * 2) / 2 = false.
Proof.
  intros Hn. pose proof size_max_pos. rewrite wrap_sz_small by (split; lia). rewrite Z.div_mul by lia.
  unfold param_sql. rewrite !zlen_app, markers_length by lia. change (zlen (str "SELECT ")) with 7. change (zlen (str ";")) with 1.
  rewrite Z2Nat.id by lia. lia.
Qed.

Lemma wp_bind_params st m n L : forall i Q s,
  at_state n L s -> has st L -> (forall r s', at_state n L s' -> Q r s') -> wp (bind_markers st i m) Q s.
Proof.
  induction m as [|m IH]; intros i Q s Hs Hh HQ; cbn [bind_markers]; pstep; [by apply HQ|].
  pstep. pstep; [by apply IH|pstep; by apply HQ].
Qed.

Lemma wp_try_params dbc k n L Q s :
  at_state n L s -> has dbc L -> 1 <= k <= 2 ^ 28 -> (forall r s', at_state n L s' -> Q r s') -> wp (try_params alloc dbc k) Q s.
Proof.
  intros Hs Hh Hk HQ. unfold try_params. rewrite alloc_ok. cbn [negb]. rewrite param_sql_fits by done. pstep.
  pstep; [pstep; eapply wp_capture; [eassumption|done|intros ? ? ?]; psteps; by apply HQ|].
  pstep. pstep. pstep.
  assert (forall b s', at_state n ((h, Some dbc) :: L) s' ->
    wp (let! e := (if b : bool then succeeds (Execute h) else ret false) in
        if e then let! _ := invoke (FreeStmt h) in free_handle h;;; ret (Some (true, None))
        else let! d := capture (Some h) in free_handle h;;; ret (Some (false, Some d))) Q s') as Hrest.
  { intros b' s3 Hs3. psteps; try (by apply HQ); (eapply wp_capture; [eassumption|apply has_here|intros ? ? ?]; psteps; by apply HQ). }
  pstep; [eapply wp_bind_params; [eassumption|apply has_here|]; intros; by apply Hrest|pstep; by apply (Hrest false)].
Qed.

Lemma wp_ceiling_up dbc n L : forall k m best d Q s,
  at_state n L s -> has dbc L -> 1 <= m -> (0 < k)%nat -> 2 ^ 30 <= m * 2 ^ Z.of_nat k -> 0 <= best <= ceiling_hi cfg ->
  (forall r s', at_state n L s' -> 0 <= fst r <= ceiling_hi cfg -> Q r s') ->
  wp (ceiling_up alloc k dbc m (ceiling_hi cfg) best d) Q s.
Proof.
  induction k as [|k IH]; intros m best d Q s Hs Hh Hm Hk0 Hk Hb HQ; cbn [ceiling_up]; [lia|].
  destruct (m <=? ceiling_hi cfg) eqn:E; b2p; [|pstep; by apply HQ].
  pstep. eapply wp_try_params; [eassumption|done|lia|]. intros [[[|] e]|] s' Hs'; [|pstep; by apply HQ..].
  rewrite Nat2Z.inj_succ, Z.pow_succ_r in Hk by lia. rewrite wrap_i64_small by (unfold in_i64, INT64_MIN, INT64_MAX; lia).
  apply IH; try done; try lia. destruct k; [cbn in Hk|]; lia.
Qed.

(** The middle lies strictly between, and halves the interval. *)
Lemma middle lo hi : 0 <= lo -> lo + 1 < hi -> lo < Z.quot (lo + hi) 2 < hi /\ 2 * Z.quot (lo + hi) 2 <= lo + hi <= 2 * Z.quot (lo + hi) 2 + 1.
Proof. intros. rewrite Z.quot_div_nonneg by lia. pose proof (Z.div_mod (lo + hi) 2). pose proof (Z.mod_pos_bound (lo + hi) 2). lia. Qed.

Lemma wp_ceiling_bisect dbc n L : forall k lo hi Q s,
  at_state n L s -> has dbc L -> 0 < lo -> hi <= 2 ^ 28 -> hi - lo <= 2 ^ Z.of_nat k ->
  (forall r s', at_state n L s' -> Q r s') -> wp (ceiling_bisect alloc (S k) dbc lo hi) Q s.
Proof.
  induction k as [|k IH]; intros lo hi Q s Hs Hh Hl Hi Hk HQ; cbn [ceiling_bisect].
  - cbn in Hk. replace (lo + 1 <? hi) with false by (symmetry; apply Z.ltb_ge; lia). pstep. by apply HQ.
  - destruct (lo + 1 <? hi) eqn:E; b2p; [|pstep; by apply HQ]. pose proof (middle lo hi ltac:(lia) E) as [Hm1 Hm2].
    rewrite Nat2Z.inj_succ, Z.pow_succ_r in Hk by lia.
    pstep. eapply wp_try_params; [eassumption|done|lia|].
    intros [[[|] e]|] s' Hs'; [apply IH; try done; lia..|pstep; by apply HQ].
Qed.

Hypothesis enough_fuel : (64 <= fuel)%nat.

Lemma wp_param_ceiling dbc n L Q s :
  at_state n L s -> has dbc L -> (forall r s', at_state n L s' -> Q r s') -> wp (param_ceiling alloc cfg fuel dbc) Q s.
Proof.
  intros Hs Hh HQ. unfold param_ceiling. pose proof (ceiling_hi_pos cfg). pstep.
  assert (2 ^ 30 <= 2 ^ Z.of_nat fuel) by (apply Z.pow_le_mono_r; lia).
  eapply wp_ceiling_up; [eassumption|done|lia|lia|lia|lia|]. intros [best d] s1 Hs1 Hb. cbn [fst] in Hb.
  destruct (best >? 0) eqn:E; b2p; [|pstep; by apply HQ]. pstep.
  assert (2 ^ 30 <= 2 ^ Z.of_nat (pred fuel)) by (apply Z.pow_le_mono_r; lia).
  rewrite <- (Nat.succ_pred fuel) at 1 by lia. eapply wp_ceiling_bisect; [eassumption|done|lia|destruct (_ <? _) eqn:?; b2p; lia..|]. intros r s2 Hs2. pstep. by apply HQ.
Qed.

Lemma wp_case_ceiling dbc n L Q s :
  at_state n L s -> has dbc L -> 0 <= n < 500 -> (forall r s', at_state (n + 1) L s' -> Q r s') -> wp (case_param_ceiling alloc cfg fuel dbc) Q s.
Proof.
  intros Hs Hh Hn HQ. unfold case_param_ceiling. pstep. pstep. pstep. eapply wp_param_ceiling; [eassumption|done|].
  intros [v|d] s1 Hs1; psteps; by apply HQ.
Qed.

(** *** The groups *)

(** What a group leaves: the handles of before, or one refused connection more. *)
Definition leaves (L L' : list (Z * option Z)) : Prop := L' = L \/ (~ accepting /\ exists h, L' = (h, None) :: L).

Lemma leaves_conns L L' : conns L -> leaves L L' -> conns L'.
Proof. intros Hc [-> | (_ & h & ->)]; [done|]. by constructor. Qed.

Lemma wp_group_setup g nm present n L Q s :
  at_state n L s -> 0 <= n < 500 ->
  (forall dbc s', at_state (n + 1) ((dbc, None) :: L) s' -> above dbc L -> Q (n, Some dbc) s') ->
  (forall L' s', at_state (n + 1) L' s' -> leaves L L' -> Q (n, None) s') ->
  wp (group_setup alloc cfg g nm present) Q s.
Proof.
  intros Hs Hn HS HN. unfold group_setup. pstep. pstep. pstep.
  { psteps. eapply HN; [eassumption|by left]. }
  pstep. eapply wp_alloc_dbc; [eassumption|]. intros dbc s1 Ha Hs1. pstep. eapply wp_connstr; [eassumption|]. intros cs.
  pstep. eapply wp_conn_connect; [eassumption|apply has_here|]. intros [ok d] s2 Hs2 Hok. cbn [fst] in Hok.
  destruct ok; psteps; [by apply HS|]. eapply HN; [eassumption|]. right. eauto.
Qed.

(** A group adds between one and [k] cases. *)
Definition group_post {A} (n k : Z) (L : list (Z * option Z)) (Q : A -> PState -> Prop) : Prop :=
  forall r s' m L', at_state m L' s' -> n + 1 <= m <= n + k -> leaves L L' -> Q r s'.

Ltac done_group HQ := eapply HQ; [eassumption|lia|solve [by left | done]].

Lemma wp_cases_exec present n L Q s :
  at_state n L s -> conns L -> 0 <= n < 490 -> group_post n 5 L Q -> wp (cases_exec alloc cfg fuel present) Q s.
Proof.
  intros Hs Hc Hn HQ. unfold cases_exec, work_drop. pstep. eapply wp_group_setup; [eassumption|lia|..].
  2: { intros L' s1 Hs1 Hl. pstep. done_group HQ. }
  intros dbc s1 Hs1 Ha. pstep. pstep. pstep. eapply wp_connect_verify; [eassumption|apply has_here|lia|intros ? ? ?].
  pstep. eapply wp_work_create; [eassumption|apply has_here|intros ? ? ?]. pstep.
  { pstep. pstep. pstep. eapply wp_close_top; [eassumption|done|done|intros ? ?]. pstep. done_group HQ. }
  pstep. eapply wp_case_codecs; [eassumption|apply has_here|lia|intros ? ? ?].
  pstep. eapply wp_case_ceiling; [eassumption|apply has_here|lia|intros ? ? ?].
  pstep. eapply wp_case_dae; [eassumption|apply has_here|lia|intros ? ? ?].
  pstep. pstep. eapply wp_exec_direct; [eassumption|apply has_here|intros ? ? ?]. pstep. pstep.
  eapply wp_close_top; [eassumption|done|done|intros ? ?]. pstep. done_group HQ.
Qed.

Lemma wp_get_chunks st n L : forall k b Q s,
  at_state n L s -> has st L -> (pending (ps_world s) < k)%nat -> (pending (ps_world s) <= b)%nat ->
  (forall r s', at_state n L s' -> (pending (ps_world s') <= b)%nat -> Q r s') -> wp (get_chunks k st) Q s.
Proof.
  induction k as [|k IH]; intros b Q s Hs Hh Hk Hb HQ; [lia|]. cbn [get_chunks]. apply wp_bind, wp_bind.
  eapply wp_invoke_eq; [done|live_handle|]. intros s' Hs' Hw. apply wp_ret. pose proof (chunks_end st 2 (ps_world s)) as Hm.
  pose proof (chunks_keep st 2 (ps_world s)) as Hkeep. rewrite <- Hw in *.
  destruct (a_ret _); try (apply wp_ret, HQ; [done|lia]). specialize (Hm eq_refl). apply (IH b); try done; lia.
Qed.

Lemma wp_fetch_rows st n L : forall k f Q s,
  at_state n L s -> has st L -> (pending (ps_world s) < k)%nat ->
  (forall r s', at_state n L s' -> Q r s') -> wp (stream_fetch fuel k st f) Q s.
Proof.
  induction k as [|k IH]; intros f Q s Hs Hh Hk HQ; [lia|]. cbn [stream_fetch]. apply wp_bind, wp_bind, wp_bind.
  eapply wp_invoke_eq; [done|live_handle|]. intros s' Hs' Hw. apply wp_ret, wp_ret. pose proof (rows_end st (ps_world s)) as Hm.
  destruct (SQL_SUCCEEDED _); [|pstep; by apply HQ]. specialize (Hm eq_refl). rewrite <- Hw in Hm. pstep.
  eapply (wp_get_chunks st n L fuel (pending (ps_world s'))); [done|done|by eapply at_state_pending|done|]. intros r s2 Hs2 Hp2.
  destruct r; try (pstep; by apply HQ); apply IH; try done; lia.
Qed.

Lemma wp_stream_read e i st n L Q s :
  at_state n L s -> has st L -> (forall s', at_state n L s' -> Q () s') -> wp (stream_read cfg fuel e i st) Q s.
Proof.
  intros Hs Hh HQ. unfold stream_read. pstep.
  eapply wp_fetch_rows; [eassumption|done|by eapply at_state_pending|]. intros [fetched ok] s2 Hs2. psteps; by apply HQ.
Qed.

Lemma wp_stream_body e i st n L Q s :
  at_state n L s -> has st L -> 0 <= i < 500 -> (forall s', at_state n L s' -> Q () s') -> wp (stream_body cfg fuel e i st) Q s.
Proof.
  intros Hs Hh Hi HQ. unfold stream_body.
  repeat (first [pstep | run_fail | eapply wp_stream_read; [eassumption|done|intros ? ?]]); by apply HQ.
Qed.

Lemma wp_cases_stream e present n L Q s :
  at_state n L s -> conns L -> 0 <= n < 490 -> group_post n 1 L Q -> wp (cases_stream alloc cfg fuel e present) Q s.
Proof.
  intros Hs Hc Hn HQ. unfold cases_stream. pstep. eapply wp_group_setup; [eassumption|lia|..].
  2: { intros L' s1 Hs1 Hl. pstep. done_group HQ. }
  intros dbc s1 Hs1 Ha. pstep. pstep.
  { pstep. pstep. pstep. eapply wp_close_top; [eassumption|done|done|intros ? ?]. pstep. done_group HQ. }
  pstep. eapply wp_stream_body; [eassumption|apply has_here|lia|intros ? ?]. pstep. pstep. pstep.
  eapply wp_close_top; [eassumption|done|done|intros ? ?]. pstep. done_group HQ.
Qed.

Lemma wp_run_job dbc n L Q s : at_state n L s -> (forall j s', at_state n L s' -> Q j s') -> wp (run_job dbc) Q s.
Proof.
  intros (Hn & HL & Hb & Hp) HQ. unfold wp, run_job. pose proof (pending_job dbc (ps_world s)).
  destruct (cancel_job dbc (ps_world s)) as [j w]. by apply HQ.
Qed.

Lemma wp_case_cancel dbc n L Q s :
  at_state n L s -> 0 <= n < 500 -> (forall r s', at_state (n + 1) L s' -> Q r s') -> wp (case_cancel_query dbc) Q s.
Proof.
  intros Hs Hn HQ. unfold case_cancel_query. pstep. pstep. pstep. eapply wp_run_job; [eassumption|intros ? ? ?]. psteps; by apply HQ.
Qed.

(** At most the statement of the check is left to the connection. *)
Lemma wp_case_interrupt dbc n L Q s :
  at_state n L s -> has dbc L -> 0 <= n < 500 ->
  (forall r s' S, at_state (n + 1) (S ++ L) s' -> Forall (fun e => snd e = Some dbc) S -> Q r s') ->
  wp (case_interrupt_prototype dbc) Q s.
Proof.
  intros Hs Hh Hn HQ. unfold case_interrupt_prototype. pstep. pstep. pstep. eapply wp_run_job; [eassumption|intros ? ? ?].
  pstep; [psteps; by apply (HQ _ _ [])|]. pstep; [|psteps; by apply (HQ _ _ [])]. pstep. pstep. pstep. pstep.
  - pstep. pstep. pstep. eapply wp_capture; [eassumption|done|intros ? ? ?]. psteps. by apply (HQ _ _ []).
  - pstep. pstep. pstep; [psteps; by apply (HQ _ _ [])|]. pstep. eapply wp_capture; [eassumption|apply has_here|intros ? ? ?].
    psteps. by eapply (HQ _ _ [_]); [eassumption|constructor].
Qed.

Lemma wp_cases_cancel present n L Q s :
  at_state n L s -> conns L -> 0 <= n < 490 -> group_post n 3 L Q -> wp (cases_cancel alloc cfg present) Q s.
Proof.
  intros Hs Hc Hn HQ. unfold cases_cancel. pstep. eapply wp_group_setup; [eassumption|lia|..].
  2: { intros L' s1 Hs1 Hl. pstep. done_group HQ. }
  intros dbc s1 Hs1 Ha. pstep. pstep. pstep. eapply wp_case_cancel; [eassumption|lia|intros ? ? ?].
  pstep. eapply wp_case_interrupt; [eassumption|apply has_here|lia|]. intros ? s4 S Hs4 HS. pstep.
  eapply wp_close; [eassumption|done|done|done|intros ? ?]. pstep. done_group HQ.
Qed.

(** *** Transactions *)

Lemma wp_tx_connect off n L Q s :
  at_state n L s -> conns L ->
  (forall dbc s', at_state n ((dbc, None) :: L) s' -> above dbc L -> Q (inl dbc) s') ->
  (forall d s', at_state n L s' -> Q (inr (Some d)) s') -> wp (tx_connect alloc cfg off) Q s.
Proof.
  intros Hs Hc HS HN. unfold tx_connect. pstep. eapply wp_alloc_dbc; [eassumption|]. intros dbc s1 Ha Hs1.
  assert (forall b s', at_state n ((dbc, None) :: L) s' ->
    wp (if negb b then let! d := capture (Some dbc) in free_handle dbc;;; ret (inr (Some d))
        else let! wcs := sql_connstr alloc cfg in let! (ok, d) := conn_connect cfg dbc wcs in
             if ok then ret (inl dbc) else free_handle dbc;;; ret (inr (Some d))) Q s') as Hrest.
  { intros b s' Hs'. destruct b; cbn [negb].
    - pstep. eapply wp_connstr; [eassumption|]. intros cs. pstep. eapply wp_conn_connect; [eassumption|apply has_here|].
      intros [ok d] s2 Hs2 _. destruct ok; psteps; [by apply HS|by apply HN].
    - pstep. eapply wp_capture; [eassumption|apply has_here|intros ? ? ?]. psteps. by apply HN. }
  repeat (first [by apply Hrest|by apply (Hrest false)|pstep]).
Qed.

Lemma wp_end_tran dbc c n L Q s :
  at_state n L s -> has dbc L -> (forall s', at_state n L s' -> Q () s') -> wp (end_tran dbc c) Q s.
Proof. intros Hs Hh HQ. unfold end_tran. psteps. by apply HQ. Qed.

Lemma wp_tx_do dbc sql n L Q s :
  at_state n L s -> has dbc L -> (forall s', at_state n L s' -> Q () s') -> wp (tx_do fuel dbc sql) Q s.
Proof. intros Hs Hh HQ. unfold tx_do. pstep. run_sql. pstep. by apply HQ. Qed.

Ltac run_tx :=
  first [ eapply wp_end_tran; [eassumption|solve [eauto with probe]|intros ? ?]
        | eapply wp_tx_do; [eassumption|solve [eauto with probe]|intros ? ?]
        | run_sql | run_query ].
Ltac run_all := repeat (first [pstep | run_tx]).

Lemma wp_fresh_table dbc n L Q s :
  at_state n L s -> has dbc L -> (forall s', at_state n L s' -> Q () s') -> wp (tx_fresh_table fuel dbc) Q s.
Proof. intros Hs Hh HQ. unfold tx_fresh_table. run_all. by apply HQ. Qed.

Lemma wp_remove_table dbc n L Q s :
  at_state n L s -> has dbc L -> (forall s', at_state n L s' -> Q () s') -> wp (tx_remove_table fuel dbc) Q s.
Proof. intros Hs Hh HQ. unfold tx_remove_table. run_all. by apply HQ. Qed.

Lemma wp_primer dbc n L Q s :
  at_state n L s -> has dbc L -> (forall r s', at_state n L s' -> Q r s') -> wp (savepoint_primer fuel dbc) Q s.
Proof. intros Hs Hh HQ. unfold savepoint_primer, use_savepoint. run_all; by apply HQ. Qed.

Lemma wp_flow dbc n L Q s :
  at_state n L s -> has dbc L -> (forall r s', at_state n L s' -> Q r s') -> wp (savepoint_flow fuel dbc) Q s.
Proof. intros Hs Hh HQ. unfold savepoint_flow. run_all; by apply HQ. Qed.

(** A body that keeps the handles. *)
Lemma wp_tx_case nm body n L Q s :
  at_state n L s -> conns L -> 0 <= n < 500 ->
  (forall dbc s', at_state (n + 1) ((dbc, None) :: L) s' ->
     wp (body n dbc) (fun _ s2 => at_state (n + 1) ((dbc, None) :: L) s2) s') ->
  (forall r s', at_state (n + 1) L s' -> Q r s') -> wp (tx_case alloc cfg nm body) Q s.
Proof.
  intros Hs Hc Hn Hbody HQ. unfold tx_case. pstep. pstep. pstep. eapply wp_tx_connect; [eassumption|done|..].
  - intros dbc s1 Hs1 Ha. pstep. eapply wp_mono; [by apply Hbody|]. intros ? s2 Hs2. cbn beta in Hs2. pstep.
    eapply wp_close_top; [eassumption|done|done|intros ? ?]. pstep. by apply HQ.
  - intros d s1 Hs1. psteps. by apply HQ.
Qed.

Lemma wp_autobegin n L Q s :
  at_state n L s -> conns L -> 0 <= n < 500 -> (forall r s', at_state (n + 1) L s' -> Q r s') -> wp (case_autobegin alloc cfg fuel) Q s.
Proof.
  intros Hs Hc Hn HQ. eapply wp_tx_case; [eassumption|done|lia| |done]. intros dbc s1 Hs1. run_all; done.
Qed.

Lemma wp_savepoints n L Q s :
  at_state n L s -> conns L -> 0 <= n < 500 -> (forall r s', at_state (n + 1) L s' -> Q r s') -> wp (case_savepoints alloc cfg fuel) Q s.
Proof.
  intros Hs Hc Hn HQ. eapply wp_tx_case; [eassumption|done|lia| |done]. intros dbc s1 Hs1.
  pstep. eapply wp_fresh_table; [eassumption|apply has_here|intros ? ?].
  pstep. eapply wp_primer; [eassumption|apply has_here|intros ? ? ?]. pstep. eapply wp_flow; [eassumption|apply has_here|intros ? ? ?].
  run_all; (eapply wp_remove_table; [eassumption|apply has_here|intros ? ?]); done.
Qed.

Lemma wp_xact_state n L Q s :
  at_state n L s -> conns L -> 0 <= n < 500 -> (forall r s', at_state (n + 1) L s' -> Q r s') -> wp (case_xact_state alloc cfg fuel) Q s.
Proof.
  intros Hs Hc Hn HQ. eapply wp_tx_case; [eassumption|done|lia| |done]. intros dbc s1 Hs1.
  pstep. eapply wp_fresh_table; [eassumption|apply has_here|intros ? ?]. unfold judge_xact.
  run_all; (eapply wp_remove_table; [eassumption|apply has_here|intros ? ?]); done.
Qed.

Lemma wp_output_into n L Q s :
  at_state n L s -> conns L -> 0 <= n < 500 -> (forall r s', at_state (n + 1) L s' -> Q r s') -> wp (case_output_into alloc cfg fuel) Q s.
Proof.
  intros Hs Hc Hn HQ. eapply wp_tx_case; [eassumption|done|lia| |done]. intros dbc s1 Hs1. unfold output_check.
  run_all; done.
Qed.

Lemma wp_cases_tx present n L Q s :
  at_state n L s -> conns L -> 0 <= n < 490 -> (forall r s' m, at_state m L s' -> n + 1 <= m <= n + 6 -> Q r s') -> wp (cases_tx alloc cfg fuel present) Q s.
Proof.
  intros Hs Hc Hn HQ. unfold cases_tx. pstep. pstep. pstep; [psteps; (eapply HQ; [eassumption|lia])|]. pstep.
  eapply wp_tx_connect; [eassumption|done|..].
  - intros dbc s1 Hs1 Ha. pstep. pstep. pstep. eapply wp_close_top; [eassumption|done|done|intros ? ?].
    pstep. eapply wp_autobegin; [eassumption|done|lia|intros ? ? ?]. pstep. eapply wp_savepoints; [eassumption|done|lia|intros ? ? ?].
    pstep. eapply wp_xact_state; [eassumption|done|lia|intros ? ? ?]. pstep. eapply wp_output_into; [eassumption|done|lia|intros ? ? ?].
    psteps. (eapply HQ; [eassumption|lia]).
  - intros d s1 Hs1. psteps. (eapply HQ; [eassumption|lia]).
Qed.

(** *** The run *)

(** At most [k] connections are left, and none when none was refused. *)
Definition leaked (k : nat) (L : list (Z * option Z)) : Prop := conns L /\ (length L <= k)%nat /\ (accepting -> L = []).

Lemma leaked_nil k : leaked k [].
Proof. split; [apply Forall_nil_2|]. split; [apply Nat.le_0_l|reflexivity]. Qed.

Lemma leaked_leaves k L L' : leaked k L -> leaves L L' -> leaked (S k) L'.
Proof.
  intros (Hc & Hk & Ha) Hl. split; [by eapply leaves_conns|]. destruct Hl as [-> | (Hn & h & ->)]; (split; [cbn; lia|]); auto.
  intros. by destruct Hn.
Qed.

(** Between [n] and [m] cases, and at most [k] connections. *)
Definition progress (n m : Z) (k : nat) (s : PState) : Prop := exists c L, at_state c L s /\ n <= c <= m /\ leaked k L.

Lemma wp_selected_group g m c n k Q s :
  progress 1 n k s -> n + c < 400 ->
  (forall n' L Q' s', at_state n' L s' -> conns L -> 0 <= n' < 490 -> group_post n' c L Q' -> wp m Q' s') ->
  0 <= c -> (forall s', progress 1 (n + c) (S k) s' -> Q () s') -> wp (when_selected cfg g m) Q s.
Proof.
  intros (n' & L & Hs & Hn & Hl) Hc Hm Hc0 HQ. unfold when_selected. destruct (selected cfg g).
  - pstep. eapply Hm; [done|apply Hl|lia|]. intros r s' m' L' Hs' Hm' Hl'. pstep. apply HQ. exists m', L'.
    split; [done|]. split; [lia|]. by eapply leaked_leaves.
  - pstep. apply HQ. exists n', L. split; [done|]. split; [lia|]. eapply leaked_leaves; [done|by left].
Qed.

(** The two groups that give every handle back. *)
Lemma wp_selected_clean g m c n k Q s :
  progress 1 n k s -> n + c < 400 ->
  (forall n' L Q' s', at_state n' L s' -> conns L -> 0 <= n' < 490 ->
     (forall r s2 m', at_state m' L s2 -> n' + 1 <= m' <= n' + c -> Q' r s2) -> wp m Q' s') ->
  0 <= c -> (forall s', progress 1 (n + c) k s' -> Q () s') -> wp (when_selected cfg g m) Q s.
Proof.
  intros (n' & L & Hs & Hn & Hl) Hc Hm Hc0 HQ. unfold when_selected. destruct (selected cfg g).
  - pstep. eapply Hm; [done|apply Hl|lia|]. intros r s' m' Hs' Hm'. pstep. apply HQ. exists m', L. split; [done|]. split; [lia|done].
  - pstep. apply HQ. exists n', L. split; [done|]. split; [lia|done].
Qed.

Lemma driver_detect_cases drivers t :
  (forall d, d ∈ drivers -> exists u, narrow 512 d = Ret u) ->
  exists f t', driver_detect drivers t = Ret (f, t') /\ case_count t' = case_count t.
Proof.
  intros Hd. unfold driver_detect.
  assert (forall f t, exists f' t', driver_detect_loop drivers f t = Ret (f', t') /\ case_count t' = case_count t) as Hloop.
  { induction drivers as [|d ds IH]; intros f t'; cbn [driver_detect_loop]; [by eauto|].
    destruct (Hd d) as [u ->]; [by left|]. cbn [mbind cres_bind].
    assert (forall d, d ∈ ds -> exists u, narrow 512 d = Ret u) as Hds by (intros d' Hin; apply Hd; by right).
    destruct (contains driver_name u); edestruct (IH Hds) as (f' & t2 & -> & Hc); by exists f', t2. }
  destruct (Hloop false t) as (f & t' & -> & Hc). eexists f, _. split; [done|]. by destruct f.
Qed.

Lemma wp_groups e Q s :
  progress 1 1 0 s -> (forall s', progress 1 25 3 s' -> Q () s') ->
  wp (when_selected cfg "connect" (cases_connect alloc cfg true);;;
      when_selected cfg "exec" (cases_exec alloc cfg fuel true);;;
      when_selected cfg "stream" (cases_stream alloc cfg fuel e true);;;
      when_selected cfg "cancel" (cases_cancel alloc cfg true);;;
      when_selected cfg "tx" (cases_tx alloc cfg fuel true)) Q s.
Proof.
  intros Hs HQ.
  pstep. apply (wp_selected_clean _ _ 9 1 0); [done|lia| |lia|].
  { intros n' L Q' s' Hs' Hc Hn HQ'. eapply wp_cases_connect; [done|done|done|]. intros. eapply HQ'; [done|lia]. }
  intros s1 Hs1. pstep. apply (wp_selected_group _ _ 5 10 0); [done|lia| |lia|]; [intros; by eapply wp_cases_exec|].
  intros s2 Hs2. pstep. apply (wp_selected_group _ _ 1 15 1); [done|lia| |lia|]; [intros; by eapply wp_cases_stream|].
  intros s3 Hs3. pstep. apply (wp_selected_group _ _ 3 16 2); [done|lia| |lia|]; [intros; by eapply wp_cases_cancel|].
  intros s4 Hs4. apply (wp_selected_clean _ _ 6 19 3); [done|lia| |lia|done].
  intros. by eapply wp_cases_tx.
Qed.

End Specs.

(** The state in which the groups start. *)
Definition start `{OdbcDriver} (w : world) : PState := mkPS (mkTable [] []) w [] 1.


(** ** The ceiling that is found *)

(** A driver that accepts any statement of up to [K] parameters: [marks] are
    the parameter markers of the statement prepared on a handle. *)
Class ParamLaws `{OdbcDriver} (K : Z) := {
  marks : world -> Z -> Z;
  stmt_available : forall dbc w, SQL_SUCCEEDED (a_ret (fst (odbc (AllocStmt dbc) w))) = true;
  prepare_counts : forall st sql w,
    SQL_SUCCEEDED (a_ret (fst (odbc (Prepare st sql) w))) = true /\
    marks (snd (odbc (Prepare st sql) w)) st = zlen (List.filter (fun c => c =? chr "?") sql);
  bind_keeps : forall st ix b w, 1 <= ix ->
    SQL_SUCCEEDED (a_ret (fst (odbc (BindParameter st ix b) w))) = true /\
    marks (snd (odbc (BindParameter st ix b) w)) st = marks w st;
  execute_limit : forall st w, SQL_SUCCEEDED (a_ret (fst (odbc (Execute st) w))) = (marks w st <=? K)
}.

(** The number reported when [K] parameters are accepted and [hi] is the upper
    bound of the search: from [hi] on, the bound itself is only tried when it
    is a power of two. *)
Definition ceiling_found (K hi : Z) : Z :=
  if K <? hi then K else if 2 ^ Z.log2 hi =? hi then hi else hi - 1.

Section Ceiling.
Context `{OdbcDriver} `{Win32Text} `{Platform} {fuel : nat} `{!DriverLaws fuel} {K : Z} `{!ParamLaws K}.
Variable alloc : Z -> bool.
Variable cfg : ProbeConfig.
Hypothesis alloc_ok : forall n, alloc n = true.
Variables (dbc n : Z) (L : list (Z * option Z)).
Hypothesis dbc_live : has dbc L.

Lemma count_markers m : zlen (List.filter (fun c => c =? chr "?") (markers m)) = Z.of_nat m.
Proof.
  induction m as [|[|m] IH]; [done..|]. change (markers (S (S m))) with ([chr "?"; chr ","] ++ markers (S m)).
  rewrite List.filter_app, zlen_app, IH. change (zlen _) with 1 at 1. lia.
Qed.

Lemma count_param_sql k : 0 <= k -> zlen (List.filter (fun c => c =? chr "?") (param_sql k)) = k.
Proof.
  intros. unfold param_sql. rewrite !List.filter_app, !zlen_app, count_markers.
  change (zlen (List.filter _ (str "SELECT "))) with 0. change (zlen (List.filter _ (str ";"))) with 0. lia.
Qed.

Lemma wp_bind_exact st m : forall i Q s L',
  at_state n L' s -> has st L' -> 0 <= i -> i + Z.of_nat m < 2 ^ 16 ->
  (forall s', at_state n L' s' -> marks (ps_world s') st = marks (ps_world s) st -> Q true s') -> wp (bind_markers st i m) Q s.
Proof.
  induction m as [|m IH]; intros i Q s L' Hs Hh Hi Hm HQ; cbn [bind_markers]; [pstep; by apply HQ|].
  apply wp_bind, wp_bind, wp_bind. eapply wp_invoke_eq; [done|live_handle|]. intros s' Hs' Hw. apply wp_ret, wp_ret.
  rewrite Z.mod_small in * by lia.
  destruct (bind_keeps st (i + 1) (mkBinding (-16) 4 0 0 0 0) (ps_world s)) as [-> Hk]; [lia|]. rewrite <- Hw in Hk.
  eapply IH; [done|done|lia|lia|]. intros s2 Hs2 Hw2. apply HQ; [done|congruence].
Qed.

Lemma wp_try_exact k Q s :
  at_state n L s -> 1 <= k < 2 ^ 16 -> (forall d s', at_state n L s' -> Q (Some (k <=? K, d)) s') -> wp (try_params alloc dbc k) Q s.
Proof.
  intros Hs Hk HQ. unfold try_params. rewrite alloc_ok. cbn [negb]. rewrite param_sql_fits by lia.
  apply wp_bind. unfold alloc_stmt, SQLAllocHandle. apply wp_bind, wp_bind, wp_bind.
  eapply wp_invoke_eq; [done|live_handle|]. intros s1 (Hn & HL & Hb & Hp) _. apply wp_ret, wp_ret. rewrite stmt_available.
  unfold wp at 1. set (st := ps_next s1). set (s2 := mkPS _ _ _ _).
  assert (at_state n ((st, Some dbc) :: L) s2) as Hs2.
  { split; [done|]. split; [cbn; by rewrite HL|]. split; [|done]. constructor; cbn; [lia|]. eapply Forall_impl; [exact Hb|]. cbn. lia. }
  apply wp_bind, wp_bind, wp_bind. eapply wp_invoke_eq; [done|live_handle|]. intros s3 Hs3 Hw3. apply wp_ret, wp_ret.
  destruct (prepare_counts st (param_sql k) (ps_world s2)) as [-> Hm]. rewrite <- Hw3, count_param_sql in Hm by lia.
  apply wp_bind. eapply wp_bind_exact; [done|apply has_here|lia|lia|]. intros s4 Hs4 Hm4.
  apply wp_bind, wp_bind, wp_bind. eapply wp_invoke_eq; [done|live_handle|]. intros s5 Hs5 _. apply wp_ret, wp_ret.
  rewrite execute_limit, Hm4, Hm. destruct (k <=? K); [psteps; by apply HQ|].
  pstep. eapply wp_capture; [eassumption|apply has_here|intros ? ? ?]. psteps. by apply HQ.
Qed.

(** What the doubling loop has found: a power of two that was accepted, its
    double being refused or beyond the bound. *)
Definition doubled (hi best : Z) : Prop :=
  (exists i, 0 <= i /\ best = 2 ^ i) /\ best <= K /\ best <= hi /\ (hi < 2 * best \/ K < 2 * best).

Lemma wp_up_exact hi : forall k m best d Q s,
  at_state n L s -> 1 <= hi < 2 ^ 16 -> 1 <= K -> (0 < k)%nat -> 2 ^ 20 <= m * 2 ^ Z.of_nat k ->
  (m = 1 \/ m = 2 * best /\ (exists i, 0 <= i /\ best = 2 ^ i) /\ best <= K /\ best <= hi) ->
  (forall best' d' s', at_state n L s' -> doubled hi best' -> Q (best', d') s') -> wp (ceiling_up alloc k dbc m hi best d) Q s.
Proof.
  induction k as [|k IH]; intros m best d Q s Hs Hh HK Hk0 Hk Hm HQ; [lia|]. cbn [ceiling_up].
  assert (0 < m) as Hm0 by (destruct Hm as [->|(-> & (i & Hi & ->) & _)]; lia).
  destruct (m <=? hi) eqn:E; b2p.
  - pstep. apply wp_try_exact; [done|lia|]. intros e s' Hs'. destruct (m <=? K) eqn:EK; b2p.
    + rewrite Nat2Z.inj_succ, Z.pow_succ_r in Hk by lia. rewrite wrap_i64_small by (unfold in_i64, INT64_MIN, INT64_MAX; lia).
      apply IH; try done; [destruct k; [cbn in Hk|]; lia|lia|]. right. split; [lia|]. split; [|lia].
      destruct Hm as [->|(-> & (i & Hi & ->) & _)]; [by exists 0|]. exists (i + 1). split; [lia|]. rewrite Z.pow_add_r by lia. lia.
    + pstep. apply HQ; [done|]. destruct Hm as [->|(-> & Hi & ? & ?)]; [lia|]. split; [done|]. split; [done|]. split; [done|]. lia.
  - pstep. apply HQ; [done|]. destruct Hm as [->|(-> & Hi & ? & ?)]; [lia|]. split; [done|]. split; [done|]. split; [done|]. lia.
Qed.

Lemma wp_bisect_exact : forall k lo hi Q s,
  at_state n L s -> 0 < lo <= K -> hi < 2 ^ 16 -> hi - lo <= 2 ^ Z.of_nat k ->
  (forall s', at_state n L s' -> Q (Z.max lo (Z.min K (hi - 1))) s') -> wp (ceiling_bisect alloc (S k) dbc lo hi) Q s.
Proof.
  induction k as [|k IH]; intros lo hi Q s Hs Hl Hi Hk HQ; cbn [ceiling_bisect].
  - cbn in Hk. replace (lo + 1 <? hi) with false by (symmetry; apply Z.ltb_ge; lia). pstep.
    specialize (HQ s Hs). by replace (Z.max lo (Z.min K (hi - 1))) with lo in HQ by lia.
  - destruct (lo + 1 <? hi) eqn:E; b2p.
    2: { pstep. specialize (HQ s Hs). by replace (Z.max lo (Z.min K (hi - 1))) with lo in HQ by lia. }
    pose proof (middle lo hi ltac:(lia) E) as [Hm1 Hm2]. rewrite Nat2Z.inj_succ, Z.pow_succ_r in Hk by lia.
    set (mid := Z.quot (lo + hi) 2) in *. pstep. apply wp_try_exact; [done|lia|]. intros e s' Hs'.
    destruct (mid <=? K) eqn:EK; b2p; (apply IH; [done|lia|lia|lia|]); intros s2 Hs2; specialize (HQ s2 Hs2).
    + by replace (Z.max lo (Z.min K (hi - 1))) with (Z.max mid (Z.min K (hi - 1))) in HQ by lia.
    + by replace (Z.max lo (Z.min K (hi - 1))) with (Z.max lo (Z.min K (mid - 1))) in HQ by lia.
Qed.

Lemma doubled_found hi best :
  1 <= hi -> doubled hi best ->
  Z.max best (Z.min K ((if best * 2 <? hi then best * 2 else hi) - 1)) = ceiling_found K hi.
Proof.
  intros Hhi ((i & Hi & Hb) & HK & Hh & Hd). unfold ceiling_found.
  assert (hi < 2 * best -> Z.log2 hi = i) as Hlog.
  { intros Hlt. apply Z.log2_unique; [lia|]. rewrite <- Hb, Z.pow_succ_r, <- Hb by lia. lia. }
  destruct (best * 2 <? hi) eqn:E1, (K <? hi) eqn:E2; b2p; try lia. rewrite Hlog by lia.
  destruct (2 ^ i =? hi) eqn:E3; b2p; lia.
Qed.

Lemma wp_ceiling_exact Q s :
  at_state n L s -> (64 <= fuel)%nat -> ceiling_hi cfg < 2 ^ 16 -> 1 <= K ->
  (forall s', at_state n L s' -> Q (inl (ceiling_found K (ceiling_hi cfg))) s') -> wp (param_ceiling alloc cfg fuel dbc) Q s.
Proof.
  intros Hs Hf Hc HK HQ. unfold param_ceiling. pose proof (ceiling_hi_pos cfg). pstep.
  assert (2 ^ 20 <= 2 ^ Z.of_nat fuel) by (apply Z.pow_le_mono_r; lia).
  assert (2 ^ 20 <= 2 ^ Z.of_nat (pred fuel)) by (apply Z.pow_le_mono_r; lia).
  apply wp_up_exact; [done|lia|done|lia|lia|by left|]. intros best d s1 Hs1 Hd. pose proof Hd as ((i & Hi & Hb) & HbK & Hbh & _).
  replace (best >? 0) with true by (symmetry; rewrite Z.gtb_ltb; lia). pstep.
  rewrite <- (Nat.succ_pred fuel) at 1 by lia.
  apply wp_bisect_exact; [done|lia|destruct (_ <? _) eqn:E; b2p; lia..|].
  intros s2 Hs2. pstep. rewrite doubled_found by (done || lia). by apply HQ.
Qed.

End Ceiling.


(** ** A driver to run the probe on

    Statements succeed, results are empty, statements take up to [limit]
    parameters; [handles] and [opens] say whether connection handles and
    connections are granted. *)

Definition plain (r : sqlret) : answer := mkAnswer r 0 [] None.

Definition small_driver (limit : Z) (handles opens : bool) : OdbcDriver := {|
  world := Z -> Z;
  odbc c w :=
    match c with
    | AllocDbc => (plain (if handles then SQL_SUCCESS else SQL_ERROR), w)
    | DriverConnect _ _ => (plain (if opens then SQL_SUCCESS else SQL_ERROR), w)
    | Prepare st sql => (plain SQL_SUCCESS, fun h => if h =? st then zlen (List.filter (fun c => c =? chr "?") sql) else w h)
    | Execute st => (plain (if w st <=? limit then SQL_SUCCESS else SQL_ERROR), w)
    | Fetch _ | MoreResults _ | GetDiagRec _ => (plain SQL_NO_DATA, w)
    | _ => (plain SQL_SUCCESS, w)
    end;
  cancel_job _ w := (mkJob true true true SQL_ERROR diag_reset 2100, w)
|}.

Definition id_text : Win32Text := {| mb2wc := Some; wc2mb := Some |}.

#[local] Instance small_laws limit opens : @DriverLaws (small_driver limit true opens) id_text 64.
Proof.
  refine (@Build_DriverLaws (small_driver limit true opens) id_text 64 (fun _ => 0%nat) _ _ _ _ _ _ _ _ _ _ _); cbn;
    try done; try lia; intros; eauto; destruct c; cbn; lia.
Defined.

#[local] Instance small_params limit handles opens : @ParamLaws (small_driver limit handles opens) limit.
Proof.
  refine (@Build_ParamLaws (small_driver limit handles opens) limit (fun w st => w st) _ _ _ _); cbn; try done.
  - intros st sql w. by rewrite Z.eqb_refl.
  - intros st w. by destruct (w st <=? limit).
Defined.

Definition sample_config : ProbeConfig := set_option OServer (Some (str "db:1433")) cfg_defaults.


(** A state with one connection. *)
Definition connected (limit : Z) : @PState (small_driver limit true true) :=
  @mkPS (small_driver limit true true) (mkTable [] []) (fun _ => 0) [(1, None)] 2.


(** SQL Server takes 2100 parameters; the search under the default bound of
    2000 reports one less than the bound. *)
Example ceiling_default : ceiling_found 2100 (ceiling_hi sample_config) = 1999.
Proof. by vm_compute. Qed.

(** Three refused connections stay allocated. *)
Example refused_connections_leak :
  match @probe_run (small_driver 10 true false) id_text Win64 (fun _ => true) sample_config 64 true true [driver_name] 7 true
    (@start (small_driver 10 true false) (fun _ => 0)) with
  | Done (code, _) s => code = 1 /\ length (ps_live s) = 3%nat
  | _ => False
  end.
Proof. by vm_compute. Qed.

(** Without a connection handle the transaction group copies a diagnostic that
    was never assigned. *)
Example unassigned_diagnostic :
  @probe_run (small_driver 10 false true) id_text Win64 (fun _ => true)
    (set_option OOnly (Some (str "tx")) sample_config) 64 true true [driver_name] 7 true (@start (small_driver 10 false true) (fun _ => 0)) =
  Broken UninitRead.
Proof. by vm_compute. Qed.

(** The groups return other numbers than the cases they record. *)
Example connect_count :
  match @cases_connect (small_driver 10 true false) id_text (fun _ => true) sample_config true (@start (small_driver 10 true false) (fun _ => 0)) with
  | Done r s => r = 2 /\ case_count (ps_tab s) = 9
  | _ => False
  end.
Proof. by vm_compute. Qed.

Example tx_count :
  match @cases_tx (small_driver 10 true true) id_text (fun _ => true) sample_config 64 true (@start (small_driver 10 true true) (fun _ => 0)) with
  | Done r s => r = 5 /\ case_count (ps_tab s) = 6
  | _ => False
  end.
Proof. by vm_compute. Qed.

(** The usage text offers a group [settings]; asking for it runs nothing. *)
Example settings_group_runs_nothing :
  match @probe_run (small_driver 10 true true) id_text Win64 (fun _ => true)
    (set_option OOnly (Some (str "settings")) sample_config) 64 true true [driver_name] 7 true (@start (small_driver 10 true true) (fun _ => 0)) with
  | Done (code, _) s => code = 0 /\ case_count (ps_tab s) = 1
  | _ => False
  end.
Proof. by vm_compute. Qed.
